(* ===== verification/_CoqProject ===== *)
-Q . S2P
Prelude.v
Request.v
Crc32.v
KeyFormat.v
Entry.v
XXHash64.v
CityHash.v
CityHashCrc.v
FarmHash32.v
FarmHash64.v
FarmHashSimd.v
FarmHashTest.v
FarmHash.v
Bloom.v
Memtable.v
KLRUCache.v
SSTable.v
IOUring.v
Files.v
MemtableView.v
SharedMemtable.v
Worker.v
Typing.v
Store.v
Threads.v
FlushFormat.v
LevelMerge.v
Compactor.v
CompThread.v
HandOver.v
ExportDB.v
Redis.v
Server.v
TimeStamp.v
Backtrace.v
Log.v
LogRun.v
Net.v
Service.v
Raft.v
