(* ===== verification/Prelude.v ===== *)
(** * ShaunDB: a verification development

    ShaunDB (C++, under [src/src]) is a key-value store: a server that speaks a
    subset of the Redis protocol, a database that logs each write and queues it
    to the worker of its shard, workers that keep an ordered in-memory table
    and a cache, and compactors that write full tables to files through
    io_uring and keep them searchable as views of the mapped file. This
    library translates that path into executable definitions and proves what
    each part does, including where it does not do what it means to.

    ** The parts and their files

    Each file holds one part, in a Module of the same name, and quotes the
    source files it translates. Names are the source's; a C++ [Set] is [Set_].

    - [Prelude]: machine words, byte strings and bounds-checked memory, the
      [outcome] monad, decimal text. Shared notation, hints and tactics.
    - [Request] (db/status, db/request.hpp, db/snapshot): status codes and the
      contexts that travel through the database.
    - [Crc32] (util/crc32.cpp): the table-driven checksum with its four lanes.
    - [KeyFormat] (db/key_format): fixed and variable-length integers, and the
      records of the write-ahead log.
    - [Entry] (db/key_format, the ordering of db/memtable.hpp): what a stored
      element looks like, how elements compare and are read back; [OrdSet] is
      the [std::set] that holds them, with its comparator as the code calls it.
    - [XXHash64], [CityHash], [FarmHash] (util/hash): the three hash families;
      [CityHashCrc] holds CityHash's variants for a processor with a CRC
      instruction; [FarmHash32], [FarmHash64] and [FarmHashSimd] the namespaces
      that [FarmHash] chooses from (the 32-bit hash with the fingerprints and
      the copy of CityHash, the portable 64-bit hashes, those of vector
      instructions), and [FarmHashTest] the file's own tests of them.
    - [Bloom] (util/bitset.hpp, util/bloomfilter.hpp): the filter, and the
      class [KeyFilter] through which tables and merges use it.
    - [Memtable] (db/memtable): one table. Its theorems assume the laws of
      [KeyFilter] only; [Bloom] discharges them.
    - [KLRUCache] (util/klrucache): the two-list cache; list nodes have
      identities, so iterators that dangle are visible.
    - [SSTable], [IOUring], [Files] (db/sstable, db/sstable_manager,
      util/iouring, util/file, db/wal_writer): files, the ring and the log.
    - [MemtableView] (db/memtable_view, db/memtable_view_manager): flushed
      tables as read from their mapping, level by level, under their mutex.
    - [SharedMemtable] (db/dbconfig.hpp, db/shared_memtable): the shards: queue
      of each worker, its turn, and the rotation of a full table.
    - [Worker] (db/shared_memtable): the thread that runs those turns, step by
      step, against the threads that add requests, notify it, report flushed
      tables and stop it.
    - [Store], [Threads]: the sharded memtable as a whole, from a client's call
      to the callback, against an abstract store of one map per shard: with the
      turns of the workers as steps in [Store], and in [Threads] with all the
      worker threads and their clients interleaved step by step.
    - [Typing]: what it means for a worker and all it holds to stay within the
      declared types, through every such step.
    - [FlushFormat], [LevelMerge], [Compactor] (db/compactor): the image a
      flush writes, the merge of two levels, and the worker around them;
      [CompThread] is the thread of a worker, step by step, and [HandOver] the
      end of a memtable worker's turn while that thread runs.
    - [ExportDB] (db/exportdb): the database that owns all of these.
    - [Redis], [Server] (server): the protocol parser, the read handler and the
      configuration.
    - [Service] (server, net): the server behind the connections of [Net].
    - [TimeStamp] (base/timestamp, base/log/logfile): time stamps with their
      formats, and the file a log is written to.
    - [Backtrace], [Log], [LogRun] (base/backtrace.hpp, base/log), [Net] (net),
      [Raft] (raft): the logger and the traces it writes when a signal comes, its
      thread step by step, connections and timers under libevent, and the consensus layer,
      which the database does not use.

    ** How the code is represented

    An integer is a [Z] kept in its width by [u8], [u32], [u64]; a byte is its
    value below 256 and a string or buffer a list of them; a std::map or
    unordered_map is a [gmap]; a std::set ordered by a comparator and a
    std::list are lists. State is passed explicitly: a method takes its object
    and returns it. [outcome] separates a result from leaving the defined part
    of the language ([Fault]): so that a definition finishes is itself
    something the theorems prove or refute, never assumed.

    What is outside src/ is a parameter: file descriptors are the class
    [Files.FileOps] with laws [FileLaws] (a write appends or overwrites at the
    position, a read returns what was written), the ring is [IOUring.Liburing],
    the vector instructions are [FarmHashSimd.Simd], the CRC instruction,
    [std::hash] and addresses of objects are functions. Each class has an
    instance (an in-memory file, a list as ring) on which the witnesses run.

    The thread of a memtable worker is a step relation ([Worker.step]) whose
    steps interleave with those of other threads, with its condition variable
    as a count of notifications under way; what a mutex protects is one step.
    [Worker] shows that its turns refine the single call [SharedMemtable.round],
    and [CompThread] the same of the compactor's threads and [Compactor.turn];
    [Threads] puts a [Worker] per shard around the views and the compactor that
    they share and runs schedules: lists of which thread does what next.
    [LogRun] has the thread of the logger, whose rounds and last passes [Log] has
    as single calls. The locks that order turns are part of the
    state where the code can leave them taken ([MemtableView]). What another
    thread may change between two reads of the same turn is an argument, such
    as the reference count of a table ([SharedMemtable.rotate], which [HandOver]
    counts) or the code of a queued context ([Server.dispatch]).

    ** What the theorems show

    - Encodings: the checksum is CRC-32C of the concatenated input and unmasking
      undoes masking; varints round-trip; a log record is what [Set] was given;
      an element orders by its key and is read back as its parts.
    - Types: no step of a worker leaves the width of a counter or puts anything
      but bytes into a key, value, entry or answer.
    - Hashes: every load is inside the key and every result has its width, in
      every build; the models compute the words that FarmHash's own tests expect;
      the copy of CityHash in FarmHash computes CityHash; hashing in chunks is
      hashing at once.
    - Containers: the filter has no false negatives; a memtable refines a map
      in which the first write of a key wins, for writes that fit, with its size
      accounted for; the cache keeps its two lists, its map and its counters consistent and below
      their limits for fresh keys and cold hits.
    - Storage: the append file and the log ring hold what was written, where, over
      what the file held before; a flushed image, loaded, answers the table it was made of.
    - The database: the sharded memtable refines a map per shard, in every
      interleaving of its threads and their clients, and a Get sees the writes
      called before it, as long as requests fit, no key is asked for twice, no
      view has been loaded and each table handed over is still owned when its
      owners are counted; writes are logged in order first; a Get is answered
      from the newest table that has the key, with rotation losing none; but a
      Get of a key before its first Set hides that Set.
    - Concurrency: the double-buffered queue is first in, first out in every
      interleaving; a turn computes what its atomic description does; a woken
      worker answers all that is queued; a queued request has a notification
      coming, but for one window in which it can be lost for good; a thread of the
      compactor, whose wait ends by itself, leaves no table behind, but may let
      go of one before the worker asserts that it still has it.
    - The server: each connection whose requests fit the buffer and have no
      argument that ends in a marker character is answered as if it were alone,
      and never from the database.
    - Time and logging: dates are those of the calendar; the log file holds what
      was written since it was last opened; no line is lost or written twice in
      any interleaving with the log thread, which ends when it is stopped.
    - Behaviour that is not what the code means to do is proved as it is and
      listed as a finding: stale cache records, views that can never load, lost
      tails of a merge, completions that never finish, requests that are always
      refused or never return, a server whose database is never initialised, a
      log that is written only at the end, elections that never succeed.

    ** Fuel

    Most loops recurse on their data. Those that do not have fuel, and run out
    of it as [Fault NoReturn]: the loops of [CityHash], [CityHashCrc] and
    [FarmHash32] get the length of the input or the number of pieces it can
    have, which their theorems show to be enough; the digits of [dec] the binary
    logarithm ([dec_spec]); the loop that reads the records of a view takes any
    fuel from the number of records on ([flush_image_loads]); the completions of
    [Compactor] and the views of [MemtableView] fault whatever the fuel; the
    parser of [Redis] takes an argument, with theorems for every sufficient
    value and, where it never returns, for every value.

    ** What is not modelled

    The storage of the raft layer, whose bodies are empty; gRPC, RocksDB and the
    fibers of Boost beyond what a call of them answers; most of the keys of
    FarmHash's self-tests, whose tables are data, and the printing of new tables;
    what two threads of the compactor do to the views at once; tests and
    benchmarks. What the source logs is left out wherever evaluating it cannot
    fail.

    ** This file

    Machine words, byte strings, bounds-checked memory and the outcome monad
    used by every component. *)
From Stdlib Require Export ZArith Lia.
From stdpp Require Export base list gmap strings numbers fin_maps.

#[global] Open Scope Z_scope.

(** ** Outcomes

    A C++ operation either finishes with a value or leaves the defined part of
    the language: it reads or writes outside an object, dereferences a null or
    dangling pointer, fails an [assert], does not return (it flows off the end
    of a value-returning function, or its loop outruns its fuel), blocks on a
    mutex its own thread holds, reads an uninitialised variable, or overflows a
    signed integer. *)
Inductive fault : Type :=
  | OutOfBounds
  | NullDeref
  | Dangling
  | AssertFailed
  | NoReturn
  | Deadlock
  | Uninit
  | Overflow.

#[export] Instance fault_eq_dec : EqDecision fault.
Proof. solve_decision. Defined.

Inductive outcome (A : Type) : Type :=
  | Done (a : A)
  | Fault (f : fault).
Arguments Done {A} a.
Arguments Fault {A} f.

#[export] Instance outcome_ret : MRet outcome := λ A a, Done a.
#[export] Instance outcome_bind : MBind outcome := λ A B f m,
  match m with Done a => f a | Fault e => Fault e end.
#[export] Instance outcome_fmap : FMap outcome := λ A B f m,
  match m with Done a => Done (f a) | Fault e => Fault e end.

Definition guard_fault (b : bool) (e : fault) : outcome unit :=
  if b then Done tt else Fault e.

(** [assert (b)] of <assert.h>. *)
Definition cassert (b : bool) : outcome unit := guard_fault b AssertFailed.

Definition of_option {A} (e : fault) (o : option A) : outcome A :=
  match o with Some a => Done a | None => Fault e end.

Lemma bind_done {A B} (m : outcome A) (f : A → outcome B) (b : B) :
  (m ≫= f) = Done b ↔ ∃ a, m = Done a ∧ f a = Done b.
Proof. destruct m; simpl; split; [eauto|by intros (? & [= <-] & ?)|done|by intros (? & ? & _)]. Qed.

Lemma bind_Done_l {A B} (a : A) (f : A → outcome B) : (Done a ≫= f) = f a.
Proof. reflexivity. Qed.

Lemma bind_Fault_l {A B} (e : fault) (f : A → outcome B) :
  (Fault e ≫= f) = Fault e.
Proof. reflexivity. Qed.

Lemma bind_assoc {A B C} (m : outcome A) (f : A → outcome B) (g : B → outcome C) :
  ((m ≫= f) ≫= g) = (m ≫= λ a, f a ≫= g).
Proof. by destruct m. Qed.

Lemma of_option_done {A} (e : fault) (o : option A) (a : A) :
  of_option e o = Done a ↔ o = Some a.
Proof. destruct o; simpl; split; congruence. Qed.

Lemma cassert_done (b : bool) (u : unit) : cassert b = Done u ↔ b = true.
Proof. by destruct b, u. Qed.

Create Rewrite HintDb outcome.
#[export] Hint Rewrite @bind_Done_l @bind_Fault_l @bind_assoc : outcome.

(** Splits a hypothesis that a sequence of operations finished. *)
Ltac inv_done :=
  repeat match goal with
  | H : (_ ≫= _) = Done _ |- _ => apply bind_done in H as (? & ? & ?)
  | H : cassert _ = Done _ |- _ => apply cassert_done in H
  | H : of_option _ _ = Done _ |- _ => apply of_option_done in H
  | H : Done _ = Done _ |- _ => injection H as H; subst
  | H : Fault _ = Done _ |- _ => discriminate H
  | H : mret _ = Done _ |- _ => injection H as H; subst
  end.

(** Case analysis on the computation both sides start with. *)
Ltac bind_case :=
  rewrite ?bind_assoc;
  match goal with
  | |- (?m ≫= _) = _ => destruct m; [rewrite ?bind_Done_l|reflexivity]
  end;
  repeat match goal with
  | |- context [match ?p with pair _ _ => _ end] => is_var p; destruct p
  end;
  rewrite ?bind_Done_l.

(** [wp m P]: [m] finishes, with a value that satisfies [P]. *)
Definition wp {A} (m : outcome A) (P : A → Prop) : Prop :=
  match m with Done a => P a | Fault _ => False end.

Lemma wp_done {A} (m : outcome A) (P : A → Prop) :
  wp m P ↔ ∃ a, m = Done a ∧ P a.
Proof. destruct m; simpl; split; [eauto|by intros (? & [= <-] & ?)|done|by intros (? & ? & _)]. Qed.

Lemma wp_bind {A B} (m : outcome A) (f : A → outcome B) (P : B → Prop) :
  wp (m ≫= f) P ↔ wp m (λ a, wp (f a) P).
Proof. by destruct m. Qed.

Lemma wp_ret {A} (a : A) (P : A → Prop) : P a → wp (Done a) P.
Proof. done. Qed.

Lemma wp_mono {A} (m : outcome A) (P Q : A → Prop) :
  wp m P → (∀ a, P a → Q a) → wp m Q.
Proof. destruct m; simpl; auto. Qed.

(** [wlp m P]: if [m] finishes, its value satisfies [P]. *)
Definition wlp {A} (m : outcome A) (P : A → Prop) : Prop :=
  match m with Done a => P a | Fault _ => True end.

Lemma wlp_done {A} (m : outcome A) (P : A → Prop) (a : A) : wlp m P → m = Done a → P a.
Proof. by intros H ->. Qed.

Lemma wlp_bind {A B} (m : outcome A) (f : A → outcome B) (Q : A → Prop) (P : B → Prop) :
  wlp m Q → (∀ a, Q a → wlp (f a) P) → wlp (m ≫= f) P.
Proof. destruct m; simpl; auto. Qed.

(** A step about whose value nothing has to be known. *)
Lemma wlp_skip {A B} (m : outcome A) (f : A → outcome B) (P : B → Prop) :
  (∀ a, wlp (f a) P) → wlp (m ≫= f) P.
Proof. destruct m; simpl; auto. Qed.

Lemma wlp_mono {A} (m : outcome A) (P Q : A → Prop) :
  wlp m P → (∀ a, P a → Q a) → wlp m Q.
Proof. destruct m; simpl; auto. Qed.

(** [returns m]: [m] finishes or fails, but does not run out of fuel. *)
Definition returns {A} (m : outcome A) : Prop := m ≠ Fault NoReturn.

Lemma returns_Done {A} (a : A) : returns (Done a).
Proof. done. Qed.

Lemma returns_bind {A B} (m : outcome A) (f : A → outcome B) :
  returns m → (∀ a, returns (f a)) → returns (m ≫= f).
Proof. unfold returns. destruct m; simpl; [auto|congruence]. Qed.

Lemma returns_guard (b : bool) (e : fault) : e ≠ NoReturn → returns (guard_fault b e).
Proof. destruct b; cbv [returns guard_fault]; congruence. Qed.

Lemma returns_of_option {A} (e : fault) (o : option A) : e ≠ NoReturn → returns (of_option e o).
Proof. destruct o; cbv [returns of_option]; congruence. Qed.

Create HintDb returns.
#[export] Hint Resolve returns_Done returns_guard returns_of_option : returns.

(** Runs through a computation, whatever its steps come to. *)
Ltac returns_steps :=
  unfold cassert;
  repeat match goal with
  | |- returns (_ ≫= _) => apply returns_bind
  | |- ∀ _, returns _ => intros ?
  | |- returns (match ?x with _ => _ end) => destruct x
  | |- returns _ => solve [auto with returns | done | cbv [returns]; congruence]
  end.

Create HintDb wp.

(** Runs through the binds of a computation, closing each step's side
    conditions with lia. *)
Ltac wp_step :=
  match goal with
  | |- wp (_ ≫= _) _ => apply wp_bind
  | |- wp (let '(_, _) := ?x in _) _ => destruct x
  | |- wp (Done _) _ => apply wp_ret
  | |- ∀ _, _ => intros ?
  | |- wp ?m _ => progress (eauto with wp)
  end.

(** ** Machine words *)

Definition wrap (w x : Z) : Z := x mod 2 ^ w.
Definition u8 (x : Z) : Z := wrap 8 x.
Definition u32 (x : Z) : Z := wrap 32 x.
Definition u64 (x : Z) : Z := wrap 64 x.

Definition is_u (w x : Z) : Prop := 0 ≤ x < 2 ^ w.

Lemma wrap_range (w x : Z) : 0 ≤ w → is_u w (wrap w x).
Proof. intros; apply Z.mod_pos_bound; lia. Qed.

Lemma wrap_small (w x : Z) : is_u w x → wrap w x = x.
Proof. apply Z.mod_small. Qed.

Lemma u8_small (x : Z) : 0 ≤ x < 256 → u8 x = x.
Proof. apply Z.mod_small. Qed.
Lemma u32_small (x : Z) : 0 ≤ x < 2 ^ 32 → u32 x = x.
Proof. apply Z.mod_small. Qed.
Lemma u64_small (x : Z) : 0 ≤ x < 2 ^ 64 → u64 x = x.
Proof. apply Z.mod_small. Qed.
Lemma u8_range (x : Z) : 0 ≤ u8 x < 256.
Proof. apply (Z.mod_pos_bound x 256); lia. Qed.
Lemma u32_range (x : Z) : 0 ≤ u32 x < 2 ^ 32.
Proof. apply Z.mod_pos_bound; lia. Qed.
Lemma u64_range (x : Z) : 0 ≤ u64 x < 2 ^ 64.
Proof. apply Z.mod_pos_bound; lia. Qed.

(** Conversion to [int]: modulo 2^32. *)
Definition to_int (x : Z) : Z := (x + 2 ^ 31) mod 2 ^ 32 - 2 ^ 31.

Lemma to_int_small (x : Z) : 0 ≤ x < 2 ^ 31 → to_int x = x.
Proof. intros. unfold to_int. rewrite Z.mod_small; lia. Qed.

Lemma is_u_u64 (x : Z) : is_u 64 (u64 x).
Proof. apply u64_range. Qed.
Lemma is_u_u32 (x : Z) : is_u 32 (u32 x).
Proof. apply u32_range. Qed.

(** Exclusive or and right shifts stay within a width. *)
Lemma is_u_lxor (w a b : Z) : 0 < w → is_u w a → is_u w b → is_u w (Z.lxor a b).
Proof.
  unfold is_u. intros Hw Ha Hb. split; [apply Z.lxor_nonneg; lia|].
  destruct (decide (Z.lxor a b = 0)) as [->|Hne]; [lia|].
  assert (0 ≤ Z.lxor a b) by (apply Z.lxor_nonneg; lia).
  apply Z.log2_lt_pow2; [lia|].
  eapply Z.le_lt_trans; [apply Z.log2_lxor; lia|].
  apply Z.max_lub_lt.
  all: destruct (decide (a = 0)) as [->|], (decide (b = 0)) as [->|]; try done.
  all: apply Z.log2_lt_pow2; lia.
Qed.

Lemma is_u_shiftr (w a n : Z) : 0 ≤ n → is_u w a → is_u w (Z.shiftr a n).
Proof.
  unfold is_u. intros Hn Ha. rewrite Z.shiftr_div_pow2 by done.
  pose proof (Z.pow_pos_nonneg 2 n ltac:(lia) Hn).
  split; [apply Z.div_pos; lia|].
  apply Z.div_lt_upper_bound; [lia|]. nia.
Qed.

Create HintDb word.
#[export] Hint Resolve u8_range u32_range u64_range : word.

(** Unsigned arithmetic as the source writes it: [+!], [-!] and [*!] wrap to 64
    bits, [^!] is exclusive or, [>>!] the logical right shift. *)
Declare Scope word_scope.
Delimit Scope word_scope with word.
Notation "a +! b" := (u64 (a + b)) (at level 50, left associativity) : word_scope.
Notation "a -! b" := (u64 (a - b)) (at level 50, left associativity) : word_scope.
Notation "a *! b" := (u64 (a * b)) (at level 40, left associativity) : word_scope.
Notation "a ^! b" := (Z.lxor a b) (at level 53, left associativity) : word_scope.
Notation "a >>! b" := (Z.shiftr a b) (at level 51, left associativity) : word_scope.

(** Or-ing a low part with a shifted high part adds them. *)
Lemma lor_shiftl_add (a b s : Z) :
  0 ≤ s → 0 ≤ a < 2 ^ s → Z.lor a (Z.shiftl b s) = a + b * 2 ^ s.
Proof.
  intros Hs Ha. rewrite Z.shiftl_mul_pow2 by lia.
  rewrite <- Z.lxor_lor, <- Z.add_nocarry_lxor; [done| |].
  all: apply Z.bits_inj'; intros n Hn; rewrite Z.land_spec, Z.bits_0.
  all: destruct (decide (n < s)).
  all: try (rewrite Z.mul_pow2_bits_low by lia; apply andb_false_r).
  all: rewrite <- (Z.mod_small a (2 ^ s)) by lia.
  all: by rewrite Z.mod_pow2_bits_high by lia.
Qed.

Lemma land_127 (x : Z) : Z.land x 127 = x mod 128.
Proof. change 127 with (Z.ones 7). by rewrite Z.land_ones by lia. Qed.

Lemma land_255 (x : Z) : Z.land x 255 = x mod 256.
Proof. change 255 with (Z.ones 8). by rewrite Z.land_ones by lia. Qed.

(** The continuation bit of a byte. *)
Lemma land_128_lt (b : Z) : 0 ≤ b < 128 → Z.land b 128 = 0.
Proof.
  intros Hb. apply Z.bits_inj'; intros n Hn. rewrite Z.land_spec, Z.bits_0.
  change 128 with (2 ^ 7). rewrite Z.pow2_bits_eqb by lia.
  destruct (Z.eqb_spec 7 n) as [<-|]; [|apply andb_false_r].
  rewrite andb_true_r. apply Z.bits_above_log2; [lia|].
  destruct (decide (b = 0)) as [->|]; [done|]. apply Z.log2_lt_pow2; lia.
Qed.

Lemma lor_128 (x : Z) : 0 ≤ x < 128 → Z.lor x 128 = x + 128.
Proof.
  intros Hx. change 128 with (Z.shiftl 1 7).
  rewrite lor_shiftl_add by lia. done.
Qed.

Lemma u8_lor_128 (v : Z) : 0 ≤ v → u8 (Z.lor v 128) = v mod 128 + 128.
Proof.
  intros Hv. unfold u8, wrap. rewrite <- Z.land_ones by lia.
  rewrite Z.land_lor_distr_l. rewrite Z.land_ones by lia.
  change (Z.land 128 (Z.ones 8)) with 128.
  change (2 ^ 8) with (128 * 2). rewrite Z.rem_mul_r by lia.
  assert (H : (v / 128) mod 2 = 0 ∨ (v / 128) mod 2 = 1)
    by (pose proof (Z.mod_pos_bound (v / 128) 2); lia).
  pose proof (Z.mod_pos_bound v 128 ltac:(lia)).
  destruct H as [-> | ->].
  - rewrite Z.mul_0_r, Z.add_0_r. by apply lor_128.
  - rewrite Z.mul_1_r, <- lor_128 by done.
    by rewrite <- Z.lor_assoc, Z.lor_diag.
Qed.

Lemma land_128_hi (b : Z) : 128 ≤ b < 256 → Z.land b 128 = 128.
Proof.
  intros Hb. replace b with ((b - 128) + 128) by lia.
  rewrite <- lor_128 by lia. rewrite Z.land_lor_distr_l.
  rewrite land_128_lt by lia. done.
Qed.

(** ** Byte strings and memory *)

(** A byte is its unsigned value. *)
Abbreviation bytes := (list Z).

Definition is_byte (b : Z) : Prop := 0 ≤ b < 256.
Abbreviation bytes_ok := (Forall is_byte).

#[export] Instance is_byte_dec (b : Z) : Decision (is_byte b).
Proof. unfold is_byte; apply _. Defined.

(** The bytes of a literal. *)
Fixpoint str (s : string) : bytes :=
  match s with
  | EmptyString => []
  | String a s' => Z.of_N (Ascii.N_of_ascii a) :: str s'
  end.

(** [size ()] of a std::string, a 64-bit count. *)
Definition zlen {A} (l : list A) : Z := Z.of_nat (length l).

Definition spaces (n : nat) : bytes := replicate n 32.

(** Reads the byte at offset [p] of the object [m]. *)
Definition rd (m : bytes) (p : nat) : outcome Z := of_option OutOfBounds (m !! p).

(** Stores [bs] at offset [p] of the object [m]. *)
Definition wr (m : bytes) (p : nat) (bs : bytes) : outcome bytes :=
  if decide (p + length bs ≤ length m)%nat
  then Done (take p m ++ bs ++ drop (p + length bs) m)
  else Fault OutOfBounds.

(** A std::string_view of [n] bytes at offset [p]: a valid range of [m]. *)
Definition view (m : bytes) (p n : nat) : outcome bytes :=
  if decide (p + n ≤ length m)%nat then Done (take n (drop p m))
  else Fault OutOfBounds.

(** What a std::string's [data ()] points to: the characters and a NUL. *)
Definition c_data (s : bytes) : bytes := s ++ [0].

(** The little-endian value of a byte string: what a load of that many bytes
    through an integer pointer or a memcpy yields. *)
Fixpoint le (bs : bytes) : Z :=
  match bs with
  | [] => 0
  | b :: bs' => b + 256 * le bs'
  end.

Lemma le_range (bs : bytes) : bytes_ok bs → 0 ≤ le bs < 256 ^ zlen bs.
Proof.
  induction 1 as [|b bs Hb _ IH]; simpl; [unfold zlen; simpl; lia|].
  replace (zlen (b :: bs)) with (1 + zlen bs) by (unfold zlen; simpl length; lia).
  rewrite Z.pow_add_r by (unfold zlen; lia). unfold is_byte in Hb. lia.
Qed.

(** An [n]-byte load at offset [p] of the object [m]. *)
Definition fetch (n : nat) (m : bytes) (p : nat) : outcome Z :=
  w ← view m p n; Done (le w).

(** The same at a signed offset, as pointer arithmetic produces it. *)
Definition load (n : nat) (m : bytes) (p : Z) : outcome Z :=
  if decide (0 ≤ p) then fetch n m (Z.to_nat p) else Fault OutOfBounds.

Lemma wp_load (n : nat) (m : bytes) (p : Z) (P : Z → Prop) :
  0 ≤ p → p + Z.of_nat n ≤ zlen m → (∀ w, P w) → wp (load n m p) P.
Proof.
  intros Hp Hn HP. unfold load, fetch, view, zlen in *.
  rewrite !decide_True by lia. apply HP.
Qed.
#[export] Hint Resolve wp_load : wp.

Lemma sublist_Forall {A} (P : A → Prop) (a b : list A) :
  sublist a b → Forall P b → Forall P a.
Proof.
  induction 1; intros HP; [done|apply Forall_cons in HP as [? HP]; constructor; auto|].
  apply Forall_cons in HP as [_ HP]. auto.
Qed.

Lemma rd_app (a b : bytes) (p : nat) (x : Z) :
  p = length a → rd (a ++ x :: b) p = Done x.
Proof.
  intros ->. unfold rd. rewrite lookup_app_r by lia.
  by rewrite Nat.sub_diag.
Qed.

Lemma wr_app (a x b bs : bytes) (p : nat) :
  p = length a → length bs = length x →
  wr (a ++ x ++ b) p bs = Done (a ++ bs ++ b).
Proof.
  intros -> Hl. unfold wr. rewrite !length_app.
  rewrite decide_True by lia. f_equal.
  rewrite take_app_length. f_equal. f_equal.
  rewrite app_assoc, drop_app_length'; [done|]. rewrite length_app; lia.
Qed.

Lemma wr_head (x b bs : bytes) :
  length bs = length x → wr (x ++ b) 0 bs = Done (bs ++ b).
Proof. intros. by apply (wr_app []). Qed.

Lemma wr_length (m m' bs : bytes) (p : nat) :
  wr m p bs = Done m' → length m' = length m.
Proof.
  unfold wr. case_decide; [|done]. intros [= <-].
  rewrite !length_app, length_take, length_drop. lia.
Qed.

Lemma view_app (a x b : bytes) (p n : nat) :
  p = length a → n = length x → view (a ++ x ++ b) p n = Done x.
Proof.
  intros -> ->. unfold view. rewrite !length_app. rewrite decide_True by lia.
  by rewrite drop_app_length, take_app_length.
Qed.

Lemma view_done (m v : bytes) (p n : nat) :
  view m p n = Done v ↔ (p + n ≤ length m)%nat ∧ v = take n (drop p m).
Proof. unfold view. case_decide; split; [by intros [= <-]|by intros [_ ->]|done|lia]. Qed.

Lemma length_spaces (n : nat) : length (spaces n) = n.
Proof. apply length_replicate. Qed.

Create Rewrite HintDb sizes.
#[export] Hint Rewrite length_spaces @length_app : sizes.

(** ** Lexicographic order of byte strings (std::string_view's [<]). *)
Fixpoint bytes_lt (a b : bytes) : bool :=
  match a, b with
  | _, [] => false
  | [], _ :: _ => true
  | x :: a', y :: b' => (x <? y) || ((x =? y) && bytes_lt a' b')
  end.

Lemma bytes_lt_irrefl (a : bytes) : bytes_lt a a = false.
Proof. induction a as [|x a IH]; simpl; [done|]. rewrite IH. lia. Qed.

Lemma bytes_lt_trans (a b c : bytes) :
  bytes_lt a b → bytes_lt b c → bytes_lt a c.
Proof.
  revert b c; induction a as [|x a IH]; intros [|y b] [|z c]; simpl; try done.
  intros H1 H2.
  assert (H : x < z ∨ (x = z ∧ bytes_lt a b ∧ bytes_lt b c)).
  { destruct (Z.ltb_spec x y), (Z.ltb_spec y z); simpl in *; try lia.
    all: destruct (Z.eqb_spec x y), (Z.eqb_spec y z); simpl in *; try done; try lia.
    right; split_and!; try lia; done. }
  destruct H as [|(-> & ? & ?)].
  - apply orb_True; left. apply Is_true_true, Z.ltb_lt; lia.
  - apply orb_True; right. rewrite Z.eqb_refl. simpl. eauto.
Qed.

Lemma bytes_lt_total (a b : bytes) :
  bytes_lt a b ∨ a = b ∨ bytes_lt b a.
Proof.
  revert b; induction a as [|x a IH]; intros [|y b]; simpl; auto.
  destruct (Z.lt_trichotomy x y) as [H|[->|H]].
  - left. apply orb_True; left. by apply Is_true_true, Z.ltb_lt.
  - rewrite Z.ltb_irrefl, Z.eqb_refl. simpl.
    destruct (IH b) as [?|[->|?]]; auto.
  - right; right. apply orb_True; left. by apply Is_true_true, Z.ltb_lt.
Qed.

Lemma bytes_lt_asym (a b : bytes) : bytes_lt a b → bytes_lt b a = false.
Proof.
  intros Hab. destruct (bytes_lt b a) eqn:Hba; [|done].
  apply Is_true_true in Hba.
  pose proof (bytes_lt_trans _ _ _ Hab Hba) as H.
  by rewrite bytes_lt_irrefl in H.
Qed.

(** ** Decimal text (std::to_string and the [{}] of fmt for integers). *)
Fixpoint dec_digits (fuel : nat) (n : Z) (acc : bytes) : bytes :=
  match fuel with
  | O => acc
  | S fuel' =>
      let acc' := (48 + n mod 10) :: acc in
      if n <? 10 then acc' else dec_digits fuel' (n / 10) acc'
  end.

Definition dec (n : Z) : bytes := dec_digits (S (Z.to_nat (Z.log2 n))) n [].

(** Left padding with [c] up to width [w] (fmt's [{:c>w}]). *)
Definition pad_left (c : Z) (w : nat) (s : bytes) : bytes :=
  replicate (w - length s) c ++ s.

Example dec_205 : dec 205 = str "205".
Proof. reflexivity. Qed.

Definition is_digit (d : Z) : Prop := 48 ≤ d ≤ 57.

(** The number a sequence of digits stands for, behind [acc]. *)
Definition num (acc : Z) (ds : bytes) : Z := foldl (λ a d, a * 10 + (d - 48)) acc ds.

Lemma dec_digits_spec (fuel : nat) : ∀ n acc, 0 ≤ n < 10 ^ Z.of_nat fuel →
  ∃ ds, dec_digits fuel n acc = ds ++ acc ∧ Forall is_digit ds ∧ num 0 ds = n ∧
        (fuel ≠ O → ds ≠ []).
Proof.
  induction fuel as [|fuel IH]; intros n acc Hn.
  { exists []. split_and!; try done. change (10 ^ Z.of_nat 0) with 1 in Hn. unfold num. simpl. lia. }
  pose proof (Z.mod_pos_bound n 10 ltac:(lia)). cbn [dec_digits].
  destruct (Z.ltb_spec n 10).
  - exists [48 + n mod 10]. rewrite Z.mod_small by lia. split_and!; try done.
    + repeat constructor; lia.
    + unfold num. simpl. lia.
  - rewrite Nat2Z.inj_succ, Z.pow_succ_r in Hn by lia.
    destruct (IH (n / 10) ((48 + n mod 10) :: acc)) as (ds & -> & Hd & Hv & _).
    { split; [apply Z.div_pos; lia|]. apply Z.div_lt_upper_bound; lia. }
    exists (ds ++ [48 + n mod 10]). split_and!.
    + by rewrite <- app_assoc.
    + apply Forall_app. split; [done|]. repeat constructor; lia.
    + unfold num in *. rewrite foldl_app, Hv. simpl.
      pose proof (Z.div_mod n 10 ltac:(lia)). lia.
    + intros _ E. by destruct ds.
Qed.

(** The decimal text of a number: one or more digits that stand for it. *)
Lemma dec_spec (n : Z) : 0 ≤ n → Forall is_digit (dec n) ∧ num 0 (dec n) = n ∧ dec n ≠ [].
Proof.
  intros Hn. unfold dec.
  destruct (dec_digits_spec (S (Z.to_nat (Z.log2 n))) n []) as (ds & -> & Hd & Hv & Hne).
  { split; [done|]. destruct (decide (n = 0)) as [->|]; [done|].
    pose proof (Z.log2_spec n ltac:(lia)) as [_ Hl].
    pose proof (Z.log2_nonneg n).
    rewrite Nat2Z.inj_succ, Z2Nat.id by lia.
    eapply Z.lt_le_trans; [exact Hl|]. apply Z.pow_le_mono_l; lia. }
  rewrite app_nil_r. split_and!; try done. by apply Hne.
Qed.
