(* ===== verification/Request.v ===== *)
(** * Requests and status codes

    [src/db/status.{hpp,cpp}], [src/db/request.hpp] and
    [src/db/snapshot.{hpp,cpp}]: the codes an operation leaves in its context
    and the contexts that travel from the server through the database. *)
From S2P Require Import Prelude.

(** ** StatusCode and Status *)
Module Status.

Inductive StatusCode : Type :=
  | kNotFound
  | kIoError
  | kNotSupported
  | kOk
  | kCorruption
  | kInvalidArgument
  | kDelete.

#[export] Instance StatusCode_eq_dec : EqDecision StatusCode.
Proof. solve_decision. Defined.

(** The enumerator's integer value. *)
Definition code_val (c : StatusCode) : nat :=
  match c with
  | kNotFound => 0
  | kIoError => 1
  | kNotSupported => 2
  | kOk => 3
  | kCorruption => 4
  | kInvalidArgument => 5
  | kDelete => 6
  end.

Definition statuslev : list bytes :=
  [ str "not found"; str "io error"; str "not supported";
    str "ok"; str "corruption"; str "invalidargument" ].

Record Status : Type := mkStatus {
  error_log_ : bytes;
  code_ : StatusCode;
  code_ptr_ : bytes
}.

(** The default constructor. *)
Definition init : Status := mkStatus [] kOk (str "ok").

Definition setCode (s : Status) (c : StatusCode) : Status :=
  mkStatus (error_log_ s) c (code_ptr_ s).

Definition getCode (s : Status) : StatusCode := code_ s.

(** [statuslev] has six entries: indexing it with the enumerator's value is a
    checked array access here. *)
Definition getCodeStr (s : Status) : outcome (Status * bytes) :=
  p ← of_option OutOfBounds (statuslev !! code_val (code_ s));
  Done (mkStatus (error_log_ s) (code_ s) p, p).

Definition SetErrorLog (s : Status) (log : bytes) : Status :=
  mkStatus log (code_ s) (code_ptr_ s).

(** [Status::getCodeStr] names every status code except [kDelete]: the
    table [statuslev] stops one entry short of the enumeration, so asking for
    the text of a deleted-key status reads past the end of the array, while
    every other code yields its text and leaves the code unchanged. *)
Theorem getCodeStr_spec (s : Status) :
  match getCodeStr s with
  | Done (s', p) =>
      getCode s ≠ kDelete ∧ statuslev !! code_val (getCode s) = Some p ∧
      getCode s' = getCode s ∧ code_ptr_ s' = p
  | Fault e => getCode s = kDelete ∧ e = OutOfBounds
  end.
Proof. destruct s as [l c p]; by destruct c. Qed.

End Status.

(** ** Requests *)
Module Request.
Import Status.

Inductive Request : Type :=
  | kSet_Request
  | kPut_Request
  | kGet_Request
  | kDel_Request
  | KExi_Request.

Definition request_val (r : Request) : Z :=
  match r with
  | kSet_Request => 0
  | kPut_Request => 1
  | kGet_Request => 2
  | kDel_Request => 3
  | KExi_Request => 4
  end.

(** [number] is not initialised by the constructors; [None] is that
    indeterminate value. *)
Record SetContext : Type := mkSet {
  set_key : bytes;
  set_value : bytes;
  set_code : StatusCode;
  set_number : option Z
}.

(** [SetContext(key_view, value_view)]. *)
Definition new_SetContext (k v : bytes) : SetContext := mkSet k v kOk None.

Record PutContext : Type := mkPut {
  put_key : bytes;
  put_value : bytes;
  put_code : StatusCode;
  put_number : option Z
}.

(** [get_calls] is the history of the callback: the code and value each
    invocation of [get_callback] saw, oldest first. *)
Record GetContext : Type := mkGet {
  get_key : bytes;
  get_value : bytes;
  get_code : StatusCode;
  get_has_callback : bool;
  get_calls : list (StatusCode * bytes)
}.

(** [GetContext(key_view)]: no callback, the default status. *)
Definition new_GetContext (k : bytes) : GetContext := mkGet k [] kOk false [].

Definition get_setCode (g : GetContext) (c : StatusCode) : GetContext :=
  mkGet (get_key g) (get_value g) c (get_has_callback g) (get_calls g).

Definition get_setValue (g : GetContext) (v : bytes) : GetContext :=
  mkGet (get_key g) v (get_code g) (get_has_callback g) (get_calls g).

(** [if (get_context->get_callback) get_context->get_callback(get_context)]. *)
Definition get_fire (g : GetContext) : GetContext :=
  if get_has_callback g
  then mkGet (get_key g) (get_value g) (get_code g) true
         (get_calls g ++ [(get_code g, get_value g)])
  else g.

Record DeleteContext : Type := mkDel {
  del_key : bytes;
  del_code : StatusCode;
  del_number : option Z;
  del_has_callback : bool;
  del_calls : nat
}.

Definition del_fire (d : DeleteContext) : DeleteContext :=
  if del_has_callback d
  then mkDel (del_key d) (del_code d) (del_number d) true (S (del_calls d))
  else d.

(** *** Snapshots *)
Record SnapShot : Type := mkSnap {
  sequence_number_ : Z;
  snapshot_data_ : list bytes
}.

(** [SnapShot::Init]: [resize] keeps the existing entries it has room for. *)
Definition SnapShot_Init (s : SnapShot) (number : Z) (memtable_n : nat)
  : outcome SnapShot :=
  let data := take memtable_n (snapshot_data_ s) ++
              replicate (memtable_n - length (snapshot_data_ s)) [] in
  _ ← cassert (bool_decide (length data = memtable_n));
  Done (mkSnap number data).

Definition getPeerData (s : SnapShot) (number : nat) : outcome bytes :=
  of_option OutOfBounds (snapshot_data_ s !! number).

Lemma SnapShot_Init_done (s : SnapShot) (number : Z) (n : nat) :
  ∃ s', SnapShot_Init s number n = Done s' ∧
        sequence_number_ s' = number ∧ length (snapshot_data_ s') = n.
Proof.
  unfold SnapShot_Init.
  assert (H : length (take n (snapshot_data_ s) ++
    replicate (n - length (snapshot_data_ s)) []) = n).
  { rewrite length_app, length_take, length_replicate. lia. }
  rewrite bool_decide_true by done. eexists. by split_and!.
Qed.

End Request.
