(* ===== verification/KeyFormat.v ===== *)
(** * Key formats

    [src/db/key_format.{hpp,cpp}] and [src/db/comp.cpp]: fixed-width and
    varint codecs, the write-ahead-log record layouts, the views a memtable or
    SSTable entry is read through, the prefix scan and the entry comparator.

    A pointer into an object is an offset; a pair of the object and an offset
    is what the C++ passes as [char*]. A decoder returns [None] for
    [nullptr]. *)
From S2P Require Import Prelude Request Crc32.

(** ** Fixed-width little-endian integers *)
Module Fixed.

Definition formatDecodeFixed32 (m : bytes) (p : nat) : outcome Z :=
  b0 ← rd m p; b1 ← rd m (p + 1); b2 ← rd m (p + 2); b3 ← rd m (p + 3);
  Done (Z.lor (Z.lor (Z.lor b0 (u32 (Z.shiftl b1 8)))
    (u32 (Z.shiftl b2 16))) (u32 (Z.shiftl b3 24))).

Definition formatDecodeFixed64 (m : bytes) (p : nat) : outcome Z :=
  b0 ← rd m p; b1 ← rd m (p + 1); b2 ← rd m (p + 2); b3 ← rd m (p + 3);
  b4 ← rd m (p + 4); b5 ← rd m (p + 5); b6 ← rd m (p + 6); b7 ← rd m (p + 7);
  Done (Z.lor (Z.lor (Z.lor (Z.lor (Z.lor (Z.lor (Z.lor b0
    (u64 (Z.shiftl b1 8))) (u64 (Z.shiftl b2 16))) (u64 (Z.shiftl b3 24)))
    (u64 (Z.shiftl b4 32))) (u64 (Z.shiftl b5 40))) (u64 (Z.shiftl b6 48)))
    (u64 (Z.shiftl b7 56))).

Definition formatEncodeFixed8 (value : Z) (m : bytes) (p : nat) : outcome bytes :=
  wr m p [u8 value].

Definition formatDecodeFixed8 (m : bytes) (p : nat) : outcome Z := rd m p.

Definition fixed32_bytes (value : Z) : bytes :=
  [u8 value; u8 (Z.shiftr value 8); u8 (Z.shiftr value 16); u8 (Z.shiftr value 24)].

Definition formatEncodeFixed32 (value : Z) (m : bytes) (p : nat) : outcome bytes :=
  wr m p (fixed32_bytes value).

Definition fixed64_bytes (value : Z) : bytes :=
  [u8 value; u8 (Z.shiftr value 8); u8 (Z.shiftr value 16); u8 (Z.shiftr value 24);
   u8 (Z.shiftr value 32); u8 (Z.shiftr value 40); u8 (Z.shiftr value 48);
   u8 (Z.shiftr value 56)].

Definition formatEncodeFixed64 (value : Z) (m : bytes) (p : nat) : outcome bytes :=
  wr m p (fixed64_bytes value).

Lemma rd_at (pre l rest : bytes) (i : nat) (x : Z) :
  l !! i = Some x → rd (pre ++ l ++ rest) (length pre + i) = Done x.
Proof.
  intros H. unfold rd. rewrite lookup_app_r by lia.
  replace (length pre + i - length pre)%nat with i by lia.
  rewrite lookup_app_l by (by eapply lookup_lt_Some). by rewrite H.
Qed.

Lemma rd_head (pre l rest : bytes) (x : Z) :
  head l = Some x → rd (pre ++ l ++ rest) (length pre) = Done x.
Proof. destruct l as [|y l]; [done|]. intros [= ->]. by apply rd_app. Qed.

(** The low [n] bytes above bit [s], put back by or-ing. *)
Lemma lor_byte (v s : Z) :
  0 ≤ s →
  Z.lor (v mod 2 ^ s) (Z.shiftl (u8 (Z.shiftr v s)) s) = v mod 2 ^ (s + 8).
Proof.
  intros Hs. assert (0 < 2 ^ s) by (apply Z.pow_pos_nonneg; lia).
  rewrite lor_shiftl_add by (auto using Z.mod_pos_bound with lia).
  unfold u8, wrap. rewrite Z.shiftr_div_pow2, Z.pow_add_r by lia.
  rewrite Z.rem_mul_r by lia. lia.
Qed.

Lemma shl_byte_small (w x s : Z) :
  0 ≤ s → s + 8 ≤ w → wrap w (Z.shiftl (u8 x) s) = Z.shiftl (u8 x) s.
Proof.
  intros Hs Hw. apply wrap_small. unfold is_u.
  rewrite Z.shiftl_mul_pow2 by lia. pose proof (u8_range x).
  assert (0 < 2 ^ s) by (apply Z.pow_pos_nonneg; lia).
  assert (2 ^ (8 + s) ≤ 2 ^ w) by (apply Z.pow_le_mono_r; lia).
  rewrite Z.pow_add_r in * by lia. nia.
Qed.

Lemma decode32_at (pre rest : bytes) (v : Z) :
  formatDecodeFixed32 (pre ++ fixed32_bytes v ++ rest) (length pre) = Done (u32 v).
Proof.
  unfold formatDecodeFixed32.
  rewrite (rd_head pre (fixed32_bytes v) rest _ eq_refl).
  rewrite (rd_at pre (fixed32_bytes v) rest 1 _ eq_refl),
    (rd_at pre (fixed32_bytes v) rest 2 _ eq_refl),
    (rd_at pre (fixed32_bytes v) rest 3 _ eq_refl).
  cbn [mbind outcome_bind].
  f_equal. unfold u32. rewrite !shl_byte_small by lia.
  change (u8 v) with (v mod 2 ^ 8). by rewrite !lor_byte by lia.
Qed.

Lemma decode64_at (pre rest : bytes) (v : Z) :
  formatDecodeFixed64 (pre ++ fixed64_bytes v ++ rest) (length pre) = Done (u64 v).
Proof.
  unfold formatDecodeFixed64.
  rewrite (rd_head pre (fixed64_bytes v) rest _ eq_refl).
  rewrite (rd_at pre (fixed64_bytes v) rest 1 _ eq_refl),
    (rd_at pre (fixed64_bytes v) rest 2 _ eq_refl),
    (rd_at pre (fixed64_bytes v) rest 3 _ eq_refl),
    (rd_at pre (fixed64_bytes v) rest 4 _ eq_refl),
    (rd_at pre (fixed64_bytes v) rest 5 _ eq_refl),
    (rd_at pre (fixed64_bytes v) rest 6 _ eq_refl),
    (rd_at pre (fixed64_bytes v) rest 7 _ eq_refl).
  cbn [mbind outcome_bind].
  f_equal. unfold u64. rewrite !shl_byte_small by lia.
  change (u8 v) with (v mod 2 ^ 8). by rewrite !lor_byte by lia.
Qed.

End Fixed.

(** ** Varints *)
Module Varint.

(** [varintLength]'s loop; ten rounds exhaust any 64-bit value. *)
Fixpoint varintLength_loop (fuel : nat) (v len : Z) : Z :=
  match fuel with
  | O => len
  | S fuel' => if 128 <=? v then varintLength_loop fuel' (Z.shiftr v 7) (len + 1)
               else len
  end.

Definition varintLength (v : Z) : Z := varintLength_loop 10 v 1.

(** The bytes [encodeVarint32] stores, branch by branch. *)
Definition varint32_bytes (v : Z) : bytes :=
  if v <? Z.shiftl 1 7 then [u8 v]
  else if v <? Z.shiftl 1 14 then
    [u8 (Z.lor v 128); u8 (Z.shiftr v 7)]
  else if v <? Z.shiftl 1 21 then
    [u8 (Z.lor v 128); u8 (Z.lor (Z.shiftr v 7) 128); u8 (Z.shiftr v 14)]
  else if v <? Z.shiftl 1 28 then
    [u8 (Z.lor v 128); u8 (Z.lor (Z.shiftr v 7) 128);
     u8 (Z.lor (Z.shiftr v 14) 128); u8 (Z.shiftr v 21)]
  else
    [u8 (Z.lor v 128); u8 (Z.lor (Z.shiftr v 7) 128);
     u8 (Z.lor (Z.shiftr v 14) 128); u8 (Z.lor (Z.shiftr v 21) 128);
     u8 (Z.shiftr v 28)].

(** Stores at [dst] and returns the pointer past the last byte. *)
Definition encodeVarint32 (m : bytes) (dst : nat) (v : Z) : outcome (bytes * nat) :=
  let bs := varint32_bytes v in
  m' ← wr m dst bs; Done (m', (dst + length bs)%nat).

(** The bytes of [encodeVarint64]'s loop. *)
Fixpoint varint64_loop (fuel : nat) (v : Z) : bytes :=
  match fuel with
  | O => []
  | S fuel' => if 128 <=? v then u8 (Z.lor v 128) :: varint64_loop fuel' (Z.shiftr v 7)
               else [u8 v]
  end.

Definition varint64_bytes (v : Z) : bytes := varint64_loop 10 v.

Definition encodeVarint64 (m : bytes) (dst : nat) (v : Z) : outcome (bytes * nat) :=
  let bs := varint64_bytes v in
  m' ← wr m dst bs; Done (m', (dst + length bs)%nat).

(** The loop the two decoders share: width [w], last shift [top]. *)
Fixpoint varint_loop (w top : Z) (fuel : nat) (m : bytes) (p limit : nat)
    (shift result : Z) : outcome (option (nat * Z)) :=
  match fuel with
  | O => Done None
  | S fuel' =>
      if (shift <=? top) && bool_decide (p < limit)%nat then
        byte ← rd m p;
        if negb (Z.land byte 128 =? 0) then
          varint_loop w top fuel' m (S p) limit (shift + 7)
            (Z.lor result (wrap w (Z.shiftl (Z.land byte 127) shift)))
        else Done (Some (S p, Z.lor result (wrap w (Z.shiftl byte shift))))
      else Done None
  end.

Definition getVarint32PtrFallback (m : bytes) (p limit : nat)
  : outcome (option (nat * Z)) := varint_loop 32 28 5 m p limit 0 0.

Definition getVarint32Ptr (m : bytes) (p limit : nat)
  : outcome (option (nat * Z)) :=
  if bool_decide (p < limit)%nat then
    result ← rd m p;
    if Z.land result 128 =? 0 then Done (Some (S p, result))
    else getVarint32PtrFallback m p limit
  else getVarint32PtrFallback m p limit.

Definition getVarint64Ptr (m : bytes) (p limit : nat)
  : outcome (option (nat * Z)) := varint_loop 64 63 10 m p limit 0 0.

(** A decoder's result used without testing it for [nullptr]. *)
Definition nonnull {A} (r : outcome (option A)) : outcome A :=
  o ← r; of_option NullDeref o.

(** The remaining input and the value, or [None] for [false]. The buffer is
    the std::string's characters. *)
Definition decodeVarint32 (input : bytes) : outcome (option (bytes * Z)) :=
  r ← getVarint32Ptr (c_data input) 0 (length input);
  match r with
  | None => Done None
  | Some (q, v) => Done (Some (drop q input, v))
  end.

Definition decodeVarint64 (input : bytes) : outcome (option (bytes * Z)) :=
  r ← getVarint64Ptr (c_data input) 0 (length input);
  match r with
  | None => Done None
  | Some (q, v) => Done (Some (drop q input, v))
  end.

(** *** Encoders *)
Lemma varint64_loop_S (f : nat) (v : Z) :
  varint64_loop (S f) v =
  if 128 <=? v then u8 (Z.lor v 128) :: varint64_loop f (Z.shiftr v 7) else [u8 v].
Proof. reflexivity. Qed.

Lemma varintLength_loop_S (f : nat) (v len : Z) :
  varintLength_loop (S f) v len =
  if 128 <=? v then varintLength_loop f (Z.shiftr v 7) (len + 1) else len.
Proof. reflexivity. Qed.

Lemma varint_loop_S (w top : Z) (fuel : nat) (m : bytes) (p limit : nat)
    (shift result : Z) :
  varint_loop w top (S fuel) m p limit shift result =
  if (shift <=? top) && bool_decide (p < limit)%nat then
    rd m p ≫= λ byte,
    if negb (Z.land byte 128 =? 0) then
      varint_loop w top fuel m (S p) limit (shift + 7)
        (Z.lor result (wrap w (Z.shiftl (Z.land byte 127) shift)))
    else Done (Some (S p, Z.lor result (wrap w (Z.shiftl byte shift))))
  else Done None.
Proof. reflexivity. Qed.

#[local] Arguments varint64_loop : simpl never.
#[local] Arguments varintLength_loop : simpl never.
#[local] Arguments varint_loop : simpl never.

Lemma varint64_loop_length (fuel : nat) (v len : Z) :
  (0 < fuel)%nat → 0 ≤ v < 128 ^ Z.of_nat fuel →
  zlen (varint64_loop fuel v) = varintLength_loop fuel v len - len + 1.
Proof.
  revert v len; induction fuel as [|f IH]; intros v len Hf Hv; [lia|].
  rewrite varint64_loop_S, varintLength_loop_S. destruct (Z.leb_spec 128 v) as [H|H].
  - rewrite Nat2Z.inj_succ, Z.pow_succ_r in Hv by lia.
    assert (Hd : 0 ≤ Z.shiftr v 7 < 128 ^ Z.of_nat f).
    { rewrite Z.shiftr_div_pow2 by lia. change (2 ^ 7) with 128.
      split; [apply Z.div_pos; lia|]. apply Z.div_lt_upper_bound; lia. }
    destruct f as [|f'].
    + simpl in Hd. assert (1 ≤ Z.shiftr v 7); [|lia].
      rewrite Z.shiftr_div_pow2 by lia. change (2 ^ 7) with 128.
      apply Z.div_le_lower_bound; lia.
    + specialize (IH (Z.shiftr v 7) (len + 1) ltac:(lia) Hd).
      unfold zlen in *. cbn [length]. lia.
  - unfold zlen. simpl. lia.
Qed.

Lemma varint64_length (v : Z) :
  0 ≤ v < 2 ^ 64 → zlen (varint64_bytes v) = varintLength v.
Proof.
  intros Hv. unfold varint64_bytes, varintLength.
  rewrite (varint64_loop_length 10 v 1); [apply Z.sub_add|lia|].
  change (128 ^ Z.of_nat 10) with (2 ^ 70). lia.
Qed.

Lemma varint64_nonempty (v : Z) : (0 < length (varint64_bytes v))%nat.
Proof.
  unfold varint64_bytes. rewrite varint64_loop_S.
  destruct (128 <=? v); simpl; lia.
Qed.

Lemma varint64_loop_le (fuel : nat) (v : Z) :
  (length (varint64_loop fuel v) ≤ fuel)%nat.
Proof.
  revert v; induction fuel as [|f IH]; intros v; [simpl; lia|].
  rewrite varint64_loop_S. specialize (IH (Z.shiftr v 7)). destruct (128 <=? v); simpl; lia.
Qed.

(** Nested right shifts by constants as one shift. *)
Ltac norm_shifts :=
  repeat match goal with
  | |- context [Z.shiftr (Z.shiftr ?x ?a) 7] =>
      let b := eval vm_compute in (a + 7) in
      rewrite (Z.shiftr_shiftr x a 7) by lia; change (a + 7) with b
  end.

(** The unrolled encoder is the loop. *)
Lemma varint32_loop (v : Z) :
  0 ≤ v < 2 ^ 32 → varint32_bytes v = varint64_bytes v.
Proof.
  intros Hv. unfold varint32_bytes, varint64_bytes.
  change (Z.shiftl 1 7) with 128. change (Z.shiftl 1 14) with 16384.
  change (Z.shiftl 1 21) with 2097152. change (Z.shiftl 1 28) with 268435456.
  assert (L : ∀ k c, 0 ≤ k → c = 2 ^ k → (128 <=? Z.shiftr v k) = (128 * c <=? v)).
  { intros k c Hk ->. rewrite Z.shiftr_div_pow2 by lia.
    assert (0 < 2 ^ k) by (apply Z.pow_pos_nonneg; lia).
    destruct (Z.leb_spec (128 * 2 ^ k) v) as [H'|H'].
    - apply Z.leb_le, Z.div_le_lower_bound; lia.
    - apply Z.leb_gt, Z.div_lt_upper_bound; lia. }
  rewrite !varint64_loop_S. norm_shifts.
  rewrite (L 7 128), (L 14 16384), (L 21 2097152), (L 28 268435456) by lia.
  destruct (Z.ltb_spec v 128), (Z.ltb_spec v 16384), (Z.ltb_spec v 2097152),
    (Z.ltb_spec v 268435456); try lia.
  all: repeat match goal with |- context [?a <=? ?x] =>
    (rewrite (proj2 (Z.leb_le a x)) by lia) ||
    (rewrite (proj2 (Z.leb_gt a x)) by lia) end; reflexivity.
Qed.

Lemma varint32_length (v : Z) :
  0 ≤ v < 2 ^ 32 → zlen (varint32_bytes v) = varintLength v.
Proof. intros Hv. rewrite varint32_loop, varint64_length by lia. done. Qed.

Lemma varintLength_mono_loop (fuel : nat) (v len k : Z) :
  0 ≤ v < 128 ^ k → 0 ≤ k → varintLength_loop fuel v len ≤ len + Z.max 0 (k - 1).
Proof.
  revert v len k; induction fuel as [|f IH]; intros v len k Hv Hk;
    [unfold varintLength_loop; lia|]. rewrite varintLength_loop_S.
  destruct (Z.leb_spec 128 v); [|lia].
  assert (2 ≤ k).
  { destruct (decide (k = 0)) as [->|]; [simpl in Hv; lia|].
    destruct (decide (k = 1)) as [->|]; [simpl in Hv; lia|]. lia. }
  assert (E : 128 ^ k = 128 * 128 ^ (k - 1))
    by (rewrite <- Z.pow_succ_r by lia; f_equal; lia).
  specialize (IH (Z.shiftr v 7) (len + 1) (k - 1)).
  assert (0 ≤ Z.shiftr v 7 < 128 ^ (k - 1)).
  { rewrite Z.shiftr_div_pow2 by lia. change (2 ^ 7) with 128.
    split; [apply Z.div_pos; lia|]. apply Z.div_lt_upper_bound; lia. }
  specialize (IH ltac:(done) ltac:(lia)). lia.
Qed.

Lemma varintLength_ge (fuel : nat) (v len : Z) : len ≤ varintLength_loop fuel v len.
Proof.
  revert v len; induction fuel as [|f IH]; intros v len;
    [unfold varintLength_loop; lia|]. rewrite varintLength_loop_S.
  destruct (128 <=? v); [|lia]. specialize (IH (Z.shiftr v 7) (len + 1)). lia.
Qed.

(** A value of at most [7 * k] bits takes at most [k] bytes. *)
Lemma varintLength_bound (v k : Z) :
  1 ≤ k → 0 ≤ v < 128 ^ k → 1 ≤ varintLength v ≤ k.
Proof.
  intros Hk Hv. unfold varintLength. split; [apply varintLength_ge|].
  pose proof (varintLength_mono_loop 10 v 1 k Hv). lia.
Qed.

Lemma varintLength_u32 (v : Z) : 0 ≤ v < 2 ^ 32 → 1 ≤ varintLength v ≤ 5.
Proof. intros. apply varintLength_bound; lia. Qed.

(** *** Decoders *)
(** A decoder that succeeds has moved forward, not past the limit nor the
    object. *)
Lemma varint_loop_advances (w top : Z) (fuel : nat) (m : bytes) (limit : nat) :
  ∀ (p : nat) (shift result : Z) (q : nat) (v : Z),
  varint_loop w top fuel m p limit shift result = Done (Some (q, v)) →
  (p < q ≤ limit)%nat ∧ (q ≤ p + fuel)%nat ∧ (q ≤ length m)%nat.
Proof.
  induction fuel as [|fuel IH]; intros p shift result q v H; [done|].
  rewrite varint_loop_S in H.
  destruct (shift <=? top); [|done]. simpl in H.
  case_bool_decide as Hp; [|done]. inv_done.
  match goal with H : rd _ _ = Done _ |- _ =>
    unfold rd in H; apply of_option_done, lookup_lt_Some in H end.
  destruct (negb _); [|simplify_eq; lia].
  match goal with H : varint_loop _ _ _ _ _ _ _ _ = _ |- _ => apply IH in H end. lia.
Qed.

Lemma varint_loop_returns (w top : Z) (f : nat) (m : bytes) (limit : nat) : ∀ p sh r,
  returns (varint_loop w top f m p limit sh r).
Proof.
  induction f as [|f IH]; intros p sh r; [done|]. rewrite varint_loop_S. unfold rd.
  returns_steps.
Qed.
#[export] Hint Resolve varint_loop_returns : returns.

Lemma getVarint32Ptr_returns (m : bytes) (p limit : nat) : returns (getVarint32Ptr m p limit).
Proof. unfold getVarint32Ptr, getVarint32PtrFallback, rd. returns_steps. Qed.

Lemma getVarint64Ptr_returns (m : bytes) (p limit : nat) : returns (getVarint64Ptr m p limit).
Proof. apply varint_loop_returns. Qed.
#[export] Hint Resolve getVarint32Ptr_returns getVarint64Ptr_returns : returns.

Lemma getVarint32Ptr_advances (m : bytes) (p limit q : nat) (v : Z) :
  getVarint32Ptr m p limit = Done (Some (q, v)) →
  (p < q ≤ limit)%nat ∧ (q ≤ p + 5)%nat ∧ (q ≤ length m)%nat.
Proof.
  unfold getVarint32Ptr, getVarint32PtrFallback. case_bool_decide as Hp;
    [|apply varint_loop_advances].
  intros H. inv_done. destruct (Z.land _ _ =? 0); [|by eapply varint_loop_advances].
  match goal with H : rd _ _ = Done _ |- _ =>
    unfold rd in H; apply of_option_done, lookup_lt_Some in H end.
  simplify_eq. lia.
Qed.

Lemma getVarint64Ptr_advances (m : bytes) (p limit q : nat) (v : Z) :
  getVarint64Ptr m p limit = Done (Some (q, v)) →
  (p < q ≤ limit)%nat ∧ (q ≤ p + 10)%nat ∧ (q ≤ length m)%nat.
Proof. apply varint_loop_advances. Qed.

Section Decode.
Context (w top : Z).

(** Decoding what the encoder stored, below the limit. *)
Lemma varint_loop_enc (f : nat) : ∀ (v shift result : Z) (pre rest : bytes)
    (fuel limit : nat),
  (0 < f)%nat → 0 ≤ v < 128 ^ Z.of_nat f →
  0 ≤ shift → 0 ≤ result < 2 ^ shift → result + v * 2 ^ shift < 2 ^ w →
  shift + 7 * (zlen (varint64_loop f v) - 1) ≤ top →
  (length (varint64_loop f v) ≤ fuel)%nat →
  (length pre + length (varint64_loop f v) ≤ limit)%nat →
  varint_loop w top fuel (pre ++ varint64_loop f v ++ rest) (length pre) limit
    shift result =
  Done (Some ((length pre + length (varint64_loop f v))%nat, result + v * 2 ^ shift)).
Proof.
  induction f as [|f IH]; intros v shift result pre rest fuel limit
    Hf Hv Hs Hr Hw Ht Hfu Hl; [lia|].
  assert (P : 0 < 2 ^ shift) by (apply Z.pow_pos_nonneg; lia).
  unfold zlen in Ht. rewrite varint64_loop_S in *.
  destruct (Z.leb_spec 128 v) as [Hge|Hlt]; cbn [length] in *.
  - rewrite Nat2Z.inj_succ, Z.pow_succ_r in Hv by lia.
    assert (Hd : 1 ≤ Z.shiftr v 7 < 128 ^ Z.of_nat f).
    { rewrite Z.shiftr_div_pow2 by lia. change (2 ^ 7) with 128.
      split; [apply Z.div_le_lower_bound; lia|apply Z.div_lt_upper_bound; lia]. }
    assert (Hf' : (0 < f)%nat) by (destruct f; simpl in Hd; lia).
    assert (Hn : (0 < length (varint64_loop f (Z.shiftr v 7)))%nat).
    { destruct f; [lia|]. rewrite varint64_loop_S. destruct (128 <=? _); simpl; lia. }
    destruct fuel as [|fuel]; [lia|]. rewrite varint_loop_S.
    rewrite (proj2 (Z.leb_le _ _)) by lia.
    rewrite bool_decide_true by lia. simpl andb. cbv iota.
    rewrite <- app_comm_cons, rd_app by done. cbn [mbind outcome_bind].
    rewrite u8_lor_128 by lia. pose proof (Z.mod_pos_bound v 128 ltac:(lia)).
    rewrite land_128_hi by lia. change (negb (128 =? 0)) with true. cbv iota.
    rewrite land_127.
    replace ((v mod 128 + 128) mod 128) with (v mod 128)
      by (replace (v mod 128 + 128) with (v mod 128 + 1 * 128) by lia;
          rewrite Z.mod_add, Z.mod_mod by lia; done).
    assert (Ev : v = 128 * Z.shiftr v 7 + v mod 128).
    { rewrite Z.shiftr_div_pow2 by lia. change (2 ^ 7) with 128. apply Z.div_mod; lia. }
    rewrite (wrap_small w).
    2:{ unfold is_u. rewrite Z.shiftl_mul_pow2 by lia. split; [nia|]. nia. }
    rewrite lor_shiftl_add by lia.
    replace (pre ++ v mod 128 + 128 :: varint64_loop f (Z.shiftr v 7) ++ rest)
      with ((pre ++ [v mod 128 + 128]) ++ varint64_loop f (Z.shiftr v 7) ++ rest)
      by (by rewrite <- app_assoc).
    replace (S (length pre)) with (length (pre ++ [v mod 128 + 128]))
      by (rewrite length_app; simpl; lia).
    rewrite IH.
    + rewrite length_app. simpl length. f_equal. f_equal. f_equal; [lia|].
      rewrite Z.pow_add_r by lia. change (2 ^ 7) with 128. nia.
    + lia.
    + lia.
    + lia.
    + rewrite Z.pow_add_r by lia. change (2 ^ 7) with 128. nia.
    + rewrite Z.pow_add_r by lia. change (2 ^ 7) with 128. nia.
    + unfold zlen. lia.
    + lia.
    + rewrite length_app. simpl. lia.
  - destruct fuel as [|fuel]; [lia|]. rewrite varint_loop_S.
    rewrite (proj2 (Z.leb_le _ _)) by lia.
    rewrite bool_decide_true by lia. simpl andb. cbv iota.
    rewrite <- app_comm_cons, rd_app by done. cbn [mbind outcome_bind].
    rewrite u8_small by lia. rewrite land_128_lt by lia. simpl.
    rewrite wrap_small by (unfold is_u; rewrite Z.shiftl_mul_pow2 by lia; nia).
    rewrite lor_shiftl_add by lia. do 3 f_equal. lia.
Qed.

(** A limit before the end of the encoding: [nullptr]. *)
Lemma varint_loop_short (f : nat) : ∀ (v shift result : Z) (pre rest : bytes)
    (fuel limit : nat),
  0 ≤ v → (limit < length pre + length (varint64_loop f v))%nat →
  varint_loop w top fuel (pre ++ varint64_loop f v ++ rest) (length pre) limit
    shift result = Done None.
Proof.
  induction f as [|f IH]; intros v shift result pre rest fuel limit Hv Hl.
  - destruct fuel; [done|]. rewrite varint_loop_S. simpl in Hl.
    rewrite bool_decide_false by lia. by rewrite andb_false_r.
  - destruct fuel as [|fuel]; [done|]. rewrite varint_loop_S.
    case_bool_decide as Hp; [|by rewrite andb_false_r].
    destruct (shift <=? top); [|done]. simpl andb. cbv iota.
    rewrite varint64_loop_S in *. destruct (Z.leb_spec 128 v); cbn [length] in Hl; [|lia].
    rewrite <- app_comm_cons, rd_app by done. cbn [mbind outcome_bind].
    rewrite u8_lor_128 by lia. pose proof (Z.mod_pos_bound v 128 ltac:(lia)).
    rewrite land_128_hi by lia. change (negb (128 =? 0)) with true. cbv iota.
    replace (pre ++ v mod 128 + 128 :: varint64_loop f (Z.shiftr v 7) ++ rest)
      with ((pre ++ [v mod 128 + 128]) ++ varint64_loop f (Z.shiftr v 7) ++ rest)
      by (by rewrite <- app_assoc).
    replace (S (length pre)) with (length (pre ++ [v mod 128 + 128]))
      by (rewrite length_app; simpl; lia).
    apply IH; [by apply Z.shiftr_nonneg|]. rewrite length_app. simpl. lia.
Qed.
End Decode.

(** Reading back a 64-bit varint at any place below a wide enough limit. *)
Lemma getVarint64_at (pre rest : bytes) (v : Z) (limit : nat) :
  0 ≤ v < 2 ^ 64 → (length pre + length (varint64_bytes v) ≤ limit)%nat →
  getVarint64Ptr (pre ++ varint64_bytes v ++ rest) (length pre) limit =
  Done (Some ((length pre + length (varint64_bytes v))%nat, v)).
Proof.
  intros Hv Hl. unfold getVarint64Ptr, varint64_bytes in *.
  pose proof (varint64_loop_le 10 v).
  rewrite varint_loop_enc; [do 3 f_equal; lia|lia|lia|lia|lia|lia| |lia|lia].
  unfold zlen. lia.
Qed.

Lemma getVarint64_within9 (a b : bytes) (v : Z) :
  0 ≤ v < 2 ^ 63 →
  getVarint64Ptr (a ++ varint64_bytes v ++ b) (length a) (length a + 9) =
  Done (Some ((length a + length (varint64_bytes v))%nat, v)).
Proof.
  intros Hv. pose proof (varint64_length v ltac:(lia)) as L. unfold zlen in L.
  apply getVarint64_at; [lia|].
  pose proof (varintLength_bound v 9 ltac:(lia) ltac:(lia)). lia.
Qed.

(** Reading back a 32-bit varint: the fast path agrees with the loop. *)
Lemma getVarint32_at (pre rest : bytes) (v : Z) (limit : nat) :
  0 ≤ v < 2 ^ 32 → (length pre + length (varint32_bytes v) ≤ limit)%nat →
  getVarint32Ptr (pre ++ varint32_bytes v ++ rest) (length pre) limit =
  Done (Some ((length pre + length (varint32_bytes v))%nat, v)).
Proof.
  intros Hv Hl. rewrite varint32_loop in * by lia.
  pose proof (varint64_nonempty v) as Hn.
  assert (F : getVarint32PtrFallback (pre ++ varint64_bytes v ++ rest) (length pre) limit
    = Done (Some ((length pre + length (varint64_bytes v))%nat, v))).
  { unfold getVarint32PtrFallback. unfold varint64_bytes in *.
    assert (L : zlen (varint64_loop 10 v) ≤ 5).
    { change (varint64_loop 10 v) with (varint64_bytes v).
      rewrite varint64_length by lia. apply varintLength_u32. lia. }
    unfold zlen in L.
    rewrite varint_loop_enc; [do 3 f_equal; lia|lia|lia|lia|lia|lia| |lia|lia].
    unfold zlen. lia. }
  unfold getVarint32Ptr. rewrite bool_decide_true by lia. rewrite F.
  unfold varint64_bytes in *. rewrite varint64_loop_S in *.
  destruct (Z.leb_spec 128 v); rewrite <- app_comm_cons, rd_app by done; simpl.
  - rewrite u8_lor_128 by lia. pose proof (Z.mod_pos_bound v 128 ltac:(lia)).
    by rewrite land_128_hi by lia.
  - rewrite u8_small by lia. rewrite land_128_lt by lia. simpl. do 3 f_equal; lia.
Qed.

Lemma varint32_size (v : Z) :
  0 ≤ v < 2 ^ 32 → (1 ≤ length (varint32_bytes v) ≤ 5)%nat.
Proof.
  intros Hv. pose proof (varint32_length v Hv) as L. unfold zlen in L.
  pose proof (varintLength_u32 v Hv). lia.
Qed.

(** C34: 32-bit varints round-trip through memory: encoding any 32-bit value
    into a buffer with room for it stores between one and five bytes, as many
    as [varintLength] says, touches no other byte, and decoding at the same
    place with the five-byte limit every caller uses returns the value and the
    pointer just past it. *)
Theorem varint32_roundtrip (a x b : bytes) (v : Z)
  (Hv : 0 ≤ v < 2 ^ 32) (Hroom : zlen x = varintLength v) :
  ∃ e, encodeVarint32 (a ++ x ++ b) (length a) v =
         Done (a ++ e ++ b, (length a + length e)%nat) ∧
       zlen e = varintLength v ∧ 1 ≤ zlen e ≤ 5 ∧
       getVarint32Ptr (a ++ e ++ b) (length a) (length a + 5) =
         Done (Some ((length a + length e)%nat, v)).
Proof.
  pose proof (varint32_length v Hv) as L. pose proof (varint32_size v Hv) as S5.
  exists (varint32_bytes v). unfold encodeVarint32, zlen in *.
  rewrite wr_app by (try lia; done). cbn [mbind outcome_bind].
  split_and!; try done; try lia. apply getVarint32_at; lia.
Qed.

Lemma varint32_roundtrip_witness :
  (0 ≤ 624485 < 2 ^ 32) ∧ zlen [0; 0; 0] = varintLength 624485 ∧
  ∃ e, encodeVarint32 ([7] ++ [0; 0; 0] ++ [9]) 1 624485 = Done ([7] ++ e ++ [9], (1 + length e)%nat) ∧
       zlen e = varintLength 624485 ∧ 1 ≤ zlen e ≤ 5 ∧
       getVarint32Ptr ([7] ++ e ++ [9]) 1 6 = Done (Some ((1 + length e)%nat, 624485)).
Proof.
  split; [lia|]. split; [reflexivity|].
  apply (varint32_roundtrip [7] [0; 0; 0] [9] 624485); [lia|reflexivity].
Defined.

(** a 64-bit varint is read back under the nine-byte limit its callers
    pass exactly when the value is below 2^63: such a value decodes to itself
    and the pointer past it, and a larger one, which takes ten bytes, makes
    the decoder return [nullptr]. *)
Theorem varint64_limit9 (a b : bytes) (v : Z) (Hv : 0 ≤ v < 2 ^ 64) :
  getVarint64Ptr (a ++ varint64_bytes v ++ b) (length a) (length a + 9) =
  Done (if decide (v < 2 ^ 63)
        then Some ((length a + length (varint64_bytes v))%nat, v) else None).
Proof.
  pose proof (varint64_length v Hv) as L. unfold zlen in L. case_decide as H63.
  - apply getVarint64_within9. lia.
  - unfold getVarint64Ptr, varint64_bytes in *. apply varint_loop_short; [lia|].
    assert (10 ≤ varintLength v); [|lia]. unfold varintLength.
    rewrite !varintLength_loop_S. norm_shifts.
    assert (G : ∀ k, 0 ≤ k ≤ 56 → (128 <=? Z.shiftr v k) = true).
    { intros k Hk. rewrite Z.shiftr_div_pow2 by lia. apply Z.leb_le.
      apply Z.div_le_lower_bound; [apply Z.pow_pos_nonneg; lia|].
      assert (2 ^ k ≤ 2 ^ 56) by (apply Z.pow_le_mono_r; lia). lia. }
    rewrite (proj2 (Z.leb_le 128 v)) by lia.
    rewrite (G 7), (G 14), (G 21), (G 28), (G 35), (G 42), (G 49), (G 56) by lia.
    destruct (128 <=? _); unfold varintLength_loop; lia.
Qed.

Lemma varint64_limit9_witness :
  0 ≤ 2 ^ 63 < 2 ^ 64 ∧
  getVarint64Ptr ([] ++ varint64_bytes (2 ^ 63) ++ [1]) 0 9 = Done None.
Proof.
  split; [lia|]. exact (varint64_limit9 [] [1] (2 ^ 63) ltac:(lia)).
Defined.

End Varint.

(** ** Write-ahead-log records *)
Module WalFormat.
Import Request Fixed.

(** The literal stops at its first NUL, so the flag is its four characters. *)
Definition kFlagLogEnd : bytes := [13; 10; 13; 10].

Definition kEmpty4Space : bytes := spaces 4.
Definition kEmpty8Space : bytes := spaces 8.

(** [addr] is the address of the log's characters. *)
Definition SetContextWalLogFormat (addr : Z) (c : SetContext) (number : Z)
  : outcome bytes :=
  let log := kEmpty4Space ++ kEmpty8Space ++ str " " ++ kEmpty4Space ++
             kEmpty4Space ++ set_key c ++ set_value c ++ kFlagLogEnd in
  let crc32_check_sum := Crc32.Value (addr + 4) (drop 4 log) in
  log ← formatEncodeFixed32 crc32_check_sum log 0;
  log ← formatEncodeFixed64 number log 4;
  log ← formatEncodeFixed8 (request_val kSet_Request) log 12;
  log ← formatEncodeFixed32 (u32 (zlen (set_key c))) log 13;
  formatEncodeFixed32 (u32 (zlen (set_value c))) log 17.

Definition PutContextWalLogFormat (addr : Z) (c : PutContext) (number : Z)
  : outcome bytes :=
  let log := spaces 4 ++ pad_left 48 8 (dec number) ++
             pad_left 48 1 (dec (request_val kPut_Request)) ++
             pad_left 32 4 (dec (zlen (put_key c))) ++
             pad_left 32 4 (dec (zlen (put_value c))) ++
             put_key c ++ put_value c ++ kFlagLogEnd in
  let crc32_check_sum := Crc32.Value (addr + 4) (drop 4 log) in
  formatEncodeFixed32 crc32_check_sum log 0.

(** The fourth field is the key, right-aligned in four columns. *)
Definition DeleteContextWalLogFormat (addr : Z) (c : DeleteContext) (number : Z)
  : outcome bytes :=
  let log := spaces 4 ++ pad_left 48 8 (dec number) ++
             pad_left 48 1 (dec (request_val kDel_Request)) ++
             pad_left 32 4 (dec (zlen (del_key c))) ++
             pad_left 32 4 (del_key c) ++ kFlagLogEnd in
  let crc32_check_sum := Crc32.Value (addr + 4) (drop 4 log) in
  formatEncodeFixed32 crc32_check_sum log 0.

(** The record's fields once every placeholder is filled. *)
Definition set_record (crc number : Z) (k v : bytes) : bytes :=
  fixed32_bytes crc ++ fixed64_bytes number ++ [0] ++
  fixed32_bytes (u32 (zlen k)) ++ fixed32_bytes (u32 (zlen v)) ++
  k ++ v ++ kFlagLogEnd.

(** The bytes the checksum of a Set record covers: seventeen blanks, the key,
    the value and the end flag. *)
Definition set_covered (k v : bytes) : bytes :=
  spaces 17 ++ k ++ v ++ kFlagLogEnd.

Lemma SetContextWalLogFormat_eq (addr : Z) (c : SetContext) (number : Z) :
  SetContextWalLogFormat addr c number =
  Done (set_record (Crc32.Value (addr + 4) (set_covered (set_key c) (set_value c)))
    number (set_key c) (set_value c)).
Proof.
  unfold SetContextWalLogFormat. cbv zeta. set (k := set_key c). set (v := set_value c).
  change (drop 4 _) with (set_covered k v). set (crc := Crc32.Value _ _).
  unfold formatEncodeFixed32, formatEncodeFixed64, formatEncodeFixed8.
  rewrite (wr_head kEmpty4Space) by done. cbn [mbind outcome_bind].
  rewrite (wr_app (fixed32_bytes crc) kEmpty8Space) by done. cbn [mbind outcome_bind].
  rewrite (app_assoc (fixed32_bytes crc)).
  rewrite (wr_app _ (str " ")) by done. cbn [mbind outcome_bind].
  rewrite (app_assoc _ [u8 _]).
  rewrite (wr_app _ kEmpty4Space) by done. cbn [mbind outcome_bind].
  rewrite (app_assoc _ (fixed32_bytes (u32 (zlen k)))).
  rewrite (wr_app _ kEmpty4Space) by done.
  unfold set_record. by rewrite <- !app_assoc.
Qed.

Lemma fixed_lengths (n : Z) :
  length (fixed32_bytes n) = 4%nat ∧ length (fixed64_bytes n) = 8%nat.
Proof. done. Qed.

(** C10: the Set record of the write-ahead log round-trips: for any key, value
    and 64-bit sequence number the formatter never leaves its buffer, the
    record is 21 bytes of header, the key, the value and the end flag, and
    reading the fields at their documented offsets gives back the sequence
    number, the set opcode, both lengths, the key and the value. *)
Theorem set_record_roundtrip (addr : Z) (c : SetContext) (number : Z)
  (Hn : is_u 64 number) (Hk : zlen (set_key c) < 2 ^ 32)
  (Hv : zlen (set_value c) < 2 ^ 32) :
  ∃ log, SetContextWalLogFormat addr c number = Done log ∧
    zlen log = 21 + zlen (set_key c) + zlen (set_value c) + 4 ∧
    formatDecodeFixed64 log 4 = Done number ∧
    formatDecodeFixed8 log 12 = Done (request_val kSet_Request) ∧
    formatDecodeFixed32 log 13 = Done (zlen (set_key c)) ∧
    formatDecodeFixed32 log 17 = Done (zlen (set_value c)) ∧
    view log 21 (length (set_key c)) = Done (set_key c) ∧
    view log (21 + length (set_key c)) (length (set_value c)) = Done (set_value c).
Proof.
  rewrite SetContextWalLogFormat_eq. eexists. split; [done|].
  set (crc := Crc32.Value _ _). set (k := set_key c) in *. set (v := set_value c) in *.
  assert (Nk : 0 ≤ zlen k) by (unfold zlen; lia).
  assert (Nv : 0 ≤ zlen v) by (unfold zlen; lia).
  unfold set_record. split_and!.
  - unfold zlen. rewrite !length_app. simpl. lia.
  - rewrite (decode64_at (fixed32_bytes crc)).
    f_equal. by apply wrap_small.
  - rewrite (app_assoc (fixed32_bytes crc)). by apply rd_app.
  - rewrite (app_assoc (fixed32_bytes crc)), (app_assoc _ [0]).
    rewrite (decode32_at ((fixed32_bytes crc ++ fixed64_bytes number) ++ [0])).
    rewrite !u32_small; done || apply u32_range.
  - rewrite (app_assoc (fixed32_bytes crc)), (app_assoc _ [0]),
      (app_assoc _ (fixed32_bytes (u32 (zlen k)))).
    rewrite (decode32_at (((fixed32_bytes crc ++ fixed64_bytes number) ++ [0]) ++
      fixed32_bytes (u32 (zlen k)))).
    rewrite !u32_small; done || apply u32_range.
  - do 4 rewrite app_assoc. by apply view_app.
  - do 5 rewrite app_assoc. apply view_app; [|done]. by rewrite length_app.
Qed.

Lemma set_record_roundtrip_witness :
  is_u 64 77 ∧ zlen (set_key (new_SetContext (str "k1") (str "v1"))) < 2 ^ 32 ∧
  zlen (set_value (new_SetContext (str "k1") (str "v1"))) < 2 ^ 32 ∧
  ∃ log, SetContextWalLogFormat 0 (new_SetContext (str "k1") (str "v1")) 77 = Done log ∧
    formatDecodeFixed64 log 4 = Done 77.
Proof.
  split; [easy|]. split; [easy|]. split; [easy|].
  destruct (set_record_roundtrip 0 (new_SetContext (str "k1") (str "v1")) 77)
    as (log & E & _ & D & _); [easy|easy|easy|].
  exists log. split; assumption.
Defined.

(** The stored checksum does not cover the header: it is the CRC-32C of
    the record with its seventeen header bytes still blank, computed before
    they are filled in, so every sequence number gives the same stored
    checksum. *)
Theorem set_checksum_ignores_header (addr : Z) (c : SetContext) (number : Z) :
  ∃ log, SetContextWalLogFormat addr c number = Done log ∧
    formatDecodeFixed32 log 0 =
      Done (u32 (Crc32.Value (addr + 4) (set_covered (set_key c) (set_value c)))) ∧
    ∀ number' log', SetContextWalLogFormat addr c number' = Done log' →
      formatDecodeFixed32 log' 0 = formatDecodeFixed32 log 0.
Proof.
  rewrite SetContextWalLogFormat_eq. eexists. split; [done|].
  assert (D : ∀ crc n k v,
    formatDecodeFixed32 (set_record crc n k v) 0 = Done (u32 crc))
    by (intros; apply (decode32_at [])).
  split; [apply D|]. intros number' log' E.
  rewrite SetContextWalLogFormat_eq in E. injection E as <-. by rewrite !D.
Qed.

End WalFormat.
