(* ===== verification/Entry.v ===== *)
(** * Entries and their order

    The views through which memtable and SSTable entries are read
    ([getMemTableViewKeyView], [formatMemTableToSSTableStr], the prefix scan of
    [src/db/key_format.cpp]), the comparator of [src/db/comp.cpp], and the
    ordered set that holds entries. The set type of the source,
    [absl::btree_set<T, Comparator>], offers std::set's interface: [insert]
    keeps an element equivalent to the new one, [find] returns the equivalent
    element, iteration is in comparator order. *)
From Stdlib Require Import Sorting.Sorted.
From S2P Require Import Prelude Request Crc32 KeyFormat.
Import Fixed Varint.

(** ** Ordered sets under a comparator *)
Module OrdSet.
Section OrdSet.
Context {A : Type} (lt : A → A → outcome bool).

Fixpoint insert (x : A) (l : list A) : outcome (list A) :=
  match l with
  | [] => Done [x]
  | y :: l' =>
      b ← lt x y;
      if (b : bool) then Done (x :: y :: l')
      else
        c ← lt y x;
        if (c : bool) then l'' ← insert x l'; Done (y :: l'') else Done (y :: l')
  end.

Fixpoint find (x : A) (l : list A) : outcome (option A) :=
  match l with
  | [] => Done None
  | y :: l' =>
      b ← lt x y;
      if (b : bool) then Done None
      else
        c ← lt y x;
        if (c : bool) then find x l' else Done (Some y)
  end.

(** The facts hold for a comparator that compares the keys of elements. *)
Context (valid : A → Prop) (key : A → bytes).
Context (lt_key : ∀ a b, valid a → valid b →
           lt a b = Done (bytes_lt (key a) (key b))).

Definition sorted : list A → Prop :=
  StronglySorted (λ a b, bytes_lt (key a) (key b)).

(** A sorted set of well-formed elements. *)
Definition ok (l : list A) : Prop := sorted l ∧ Forall valid l.

Fixpoint get_by (k : bytes) (l : list A) : option A :=
  match l with
  | [] => None
  | a :: l' => if decide (key a = k) then Some a else get_by k l'
  end.

Lemma get_by_key (k : bytes) (l : list A) (a : A) :
  get_by k l = Some a → key a = k ∧ a ∈ l.
Proof.
  induction l as [|b l IH]; simpl; [done|].
  case_decide; [intros [= ->]; split; [done|by left]|].
  intros H'. apply IH in H' as [? ?]. split; [done|by right].
Qed.

Lemma get_by_lt (x : A) (l : list A) :
  Forall (λ b, bytes_lt (key x) (key b)) l → get_by (key x) l = None.
Proof.
  induction 1 as [|b l Hb _ IH]; simpl; [done|]. rewrite decide_False; [done|].
  intros E. rewrite E, bytes_lt_irrefl in Hb. done.
Qed.

Lemma find_ok (x : A) (l : list A) :
  ok l → valid x → find x l = Done (get_by (key x) l).
Proof.
  intros [Hs Hv] Hx. induction l as [|y l IH]; simpl; [done|].
  inversion Hs as [|? ? Hs' Hlt]; inversion Hv as [|? ? Hy Hv']; subst.
  rewrite (lt_key x y), (lt_key y x) by done. simpl.
  destruct (bytes_lt (key x) (key y)) eqn:E1.
  - rewrite decide_False; [rewrite get_by_lt; [done|]|].
    + eapply Forall_impl; [exact Hlt|]. intros b Hb. simpl in *.
      eapply bytes_lt_trans; [by apply Is_true_true|done].
    + intros E. rewrite E, bytes_lt_irrefl in E1. done.
  - destruct (bytes_lt (key y) (key x)) eqn:E2.
    + rewrite IH by done. rewrite decide_False; [done|].
      intros E. rewrite E, bytes_lt_irrefl in E2. done.
    + destruct (bytes_lt_total (key x) (key y)) as [H|[H|H]].
      * by rewrite E1 in H.
      * by rewrite decide_True.
      * by rewrite E2 in H.
Qed.

(** Inserting an element whose key is present changes nothing. *)
Lemma insert_present (x y : A) (l : list A) :
  ok l → valid x → get_by (key x) l = Some y → insert x l = Done l.
Proof.
  intros [Hs Hv] Hx. induction l as [|z l IH]; simpl; [done|].
  inversion Hs as [|? ? Hs' Hlt]; inversion Hv as [|? ? Hz Hv']; subst.
  rewrite !lt_key by done. case_decide as E.
  - intros _. by rewrite E, bytes_lt_irrefl.
  - intros Hg. assert (Hzx : bytes_lt (key z) (key x)).
    { apply get_by_key in Hg as [<- Hin]. by eapply Forall_forall in Hlt. }
    rewrite (bytes_lt_asym _ _ Hzx). apply Is_true_true in Hzx.
    simpl. rewrite Hzx. by rewrite IH.
Qed.

(** Inserting a fresh key adds exactly that element. *)
Lemma insert_absent (x : A) (l : list A) :
  ok l → valid x → get_by (key x) l = None →
  ∃ l', insert x l = Done l' ∧ ok l' ∧ l' ≡ₚ x :: l ∧
    ∀ k, get_by k l' = if decide (key x = k) then Some x else get_by k l.
Proof.
  intros [Hs Hv] Hx. induction l as [|z l IH]; simpl.
  - intros _. exists [x]. split_and!; try done. split; repeat constructor; done.
  - inversion Hs as [|? ? Hs' Hlt]; inversion Hv as [|? ? Hz Hv']; subst.
    rewrite !lt_key by done. case_decide as E; [done|]. intros Hg.
    destruct (bytes_lt (key x) (key z)) eqn:E1; simpl.
    + exists (x :: z :: l). split_and!; try done. split; [|by constructor].
      constructor; [done|]. constructor; [by apply Is_true_true|].
      eapply Forall_impl; [exact Hlt|]. intros b Hb. simpl in *.
      eapply bytes_lt_trans; [by apply Is_true_true|done].
    + assert (E2 : bytes_lt (key z) (key x) = true).
      { apply Is_true_true. destruct (bytes_lt_total (key x) (key z)) as [H|[H|H]];
          [by rewrite E1 in H|congruence|done]. }
      rewrite E2. destruct (IH Hs' Hv' Hg) as (l' & -> & [Hs2 Hv2] & Hp & Hget).
      exists (z :: l'). simpl. split_and!; [done| | |].
      * split; [|by constructor]. constructor; [done|]. rewrite Hp.
        constructor; [by apply Is_true_true|done].
      * by rewrite Hp, Permutation_swap.
      * intros k. rewrite Hget. repeat case_decide; congruence.
Qed.

Lemma get_by_elem (a : A) (l : list A) :
  sorted l → a ∈ l → get_by (key a) l = Some a.
Proof.
  induction 1 as [|b l Hs IH Hlt]; intros Hin; simpl; [by apply elem_of_nil in Hin|].
  apply elem_of_cons in Hin as [->|Hin]; [by rewrite decide_True|].
  rewrite decide_False; [by apply IH|]. intros E.
  eapply Forall_forall in Hlt; [|exact Hin]. simpl in Hlt.
  by rewrite E, bytes_lt_irrefl in Hlt.
Qed.
End OrdSet.
End OrdSet.

(** ** Reading entries *)
Module Entry.

(** The key view of the entry [m] points to. *)
Definition getMemTableViewKeyView (m : bytes) : outcome bytes :=
  r ← getVarint32Ptr m 0 5;
  _ ← cassert (bool_decide (is_Some r));
  '(end_ptr, key_size) ← of_option NullDeref r;
  view m end_ptr (Z.to_nat key_size).

(** The same through an iterator of the view set. *)
Definition getMemTableViewKeyViewIter (m : bytes) : outcome bytes :=
  r ← getVarint32Ptr m 0 5;
  _ ← cassert (bool_decide (is_Some r));
  '(end_ptr, key_size) ← of_option NullDeref r;
  view m end_ptr (Z.to_nat key_size).

(** [Comparator::operator()] on what the two views point to. The second
    [assert] tests the first pointer again; a null second pointer leaves the
    size at its initial 0 and makes an empty view. *)
Definition Comparator (lef ref : bytes) : outcome bool :=
  end_ptr ← getVarint32Ptr lef 0 5;
  _ ← cassert (bool_decide (is_Some end_ptr));
  end_2_ptr ← getVarint32Ptr ref 0 5;
  _ ← cassert (bool_decide (is_Some end_ptr));
  '(lp, lef_key_size) ← of_option NullDeref end_ptr;
  lef_key_view ← view lef lp (Z.to_nat lef_key_size);
  ref_key_view ← match end_2_ptr with
                 | Some (rp, ref_key_size) => view ref rp (Z.to_nat ref_key_size)
                 | None => Done []
                 end;
  Done (bytes_lt lef_key_view ref_key_view).

(** The comparator on two std::string elements. *)
Definition str_lt (a b : bytes) : outcome bool := Comparator (c_data a) (c_data b).

Record SSTableKeyValueStyle : Type := mkStyle {
  key_view : bytes;
  value_view : bytes;
  isExist : bool
}.

(** [formatMemTableToSSTable] on the entry an iterator refers to. *)
Definition formatMemTableToSSTable (s : bytes) : outcome SSTableKeyValueStyle :=
  let m := c_data s in
  '(key_end_ptr, key_size) ← nonnull (getVarint32Ptr m 0 5);
  let ks := Z.to_nat key_size in
  kv ← view m key_end_ptr ks;
  '(next, _) ← nonnull (getVarint64Ptr m (key_end_ptr + ks) (key_end_ptr + ks + 9));
  t ← formatDecodeFixed8 m next;
  '(vp, value_size) ← nonnull (getVarint32Ptr m (next + 1) (next + 6));
  vv ← view m vp (Z.to_nat value_size);
  Done (mkStyle kv vv (negb (t =? 0))).

(** [formatMemTableToSSTableStr]: an entry that ends with its key is a
    deletion mark. *)
Definition formatMemTableToSSTableStr (s : bytes) : outcome SSTableKeyValueStyle :=
  let m := c_data s in
  '(key_end_ptr, key_size) ← nonnull (getVarint32Ptr m 0 5);
  let ks := Z.to_nat key_size in
  kv ← view m key_end_ptr ks;
  if decide (key_end_ptr + ks = length s)%nat then Done (mkStyle kv [] false)
  else
    '(next, _) ← nonnull (getVarint64Ptr m (key_end_ptr + ks) (key_end_ptr + ks + 9));
    t ← formatDecodeFixed8 m next;
    '(vp, value_size) ← nonnull (getVarint32Ptr m (next + 1) (next + 6));
    vv ← view m vp (Z.to_nat value_size);
    Done (mkStyle kv vv (negb (t =? 0))).

(** *** Well-formed entries *)

(** A length-prefixed key followed by anything. *)
Definition keyed (k rest : bytes) : bytes := varint32_bytes (zlen k) ++ k ++ rest.

Definition small (k : bytes) : Prop := zlen k < 2 ^ 32.

Lemma zlen_nonneg {A} (l : list A) : 0 ≤ zlen l.
Proof. unfold zlen. lia. Qed.

Lemma zlen_to_nat {A} (l : list A) : Z.to_nat (zlen l) = length l.
Proof. unfold zlen. lia. Qed.

Lemma keyed_varint (k rest : bytes) :
  small k → getVarint32Ptr (keyed k rest) 0 5 =
            Done (Some (length (varint32_bytes (zlen k)), zlen k)).
Proof.
  intros Hk. pose proof (zlen_nonneg k). unfold small in Hk.
  pose proof (varint32_size (zlen k)).
  apply (getVarint32_at [] (k ++ rest)); simpl; lia.
Qed.

Lemma keyed_view (k rest : bytes) :
  view (keyed k rest) (length (varint32_bytes (zlen k))) (Z.to_nat (zlen k)) = Done k.
Proof. apply view_app; [done|]. apply zlen_to_nat. Qed.

Lemma getMemTableViewKeyView_keyed (k rest : bytes) :
  small k → getMemTableViewKeyView (keyed k rest) = Done k.
Proof.
  intros Hk. unfold getMemTableViewKeyView. rewrite keyed_varint by done.
  cbn [mbind outcome_bind]. rewrite bool_decide_true by eauto.
  apply keyed_view.
Qed.

Lemma Comparator_keyed (k1 r1 k2 r2 : bytes) :
  small k1 → small k2 →
  Comparator (keyed k1 r1) (keyed k2 r2) = Done (bytes_lt k1 k2).
Proof.
  intros H1 H2. unfold Comparator. rewrite !keyed_varint by done.
  cbn [mbind outcome_bind]. rewrite bool_decide_true by eauto.
  cbn [cassert guard_fault mbind outcome_bind of_option].
  by rewrite !keyed_view.
Qed.

Lemma c_data_keyed (k rest : bytes) : c_data (keyed k rest) = keyed k (rest ++ [0]).
Proof. unfold c_data, keyed. by rewrite <- !app_assoc. Qed.

(** C30: the comparator orders entries by their user keys. For entries that
    start with a length-prefixed key of less than 4 GiB it never fails and
    answers the lexicographic order of the keys as unsigned bytes, whatever
    follows the keys — so two entries with the same key are equivalent and the
    order is irreflexive, transitive and total on keys. *)
Theorem Comparator_orders_keys (k1 r1 k2 r2 k3 r3 : bytes)
  (H1 : small k1) (H2 : small k2) (H3 : small k3) :
  str_lt (keyed k1 r1) (keyed k2 r2) = Done (bytes_lt k1 k2) ∧
  str_lt (keyed k1 r1) (keyed k1 r2) = Done false ∧
  (str_lt (keyed k1 r1) (keyed k2 r2) = Done true →
   str_lt (keyed k2 r2) (keyed k3 r3) = Done true →
   str_lt (keyed k1 r1) (keyed k3 r3) = Done true) ∧
  (k1 ≠ k2 → str_lt (keyed k1 r1) (keyed k2 r2) = Done true ∨
             str_lt (keyed k2 r2) (keyed k1 r1) = Done true).
Proof.
  unfold str_lt. rewrite !c_data_keyed, !Comparator_keyed by done.
  split_and!; [done|by rewrite bytes_lt_irrefl| |].
  - intros [= E1] [= E2]. f_equal. apply Is_true_true.
    eapply bytes_lt_trans; by apply Is_true_true.
  - intros Hne. destruct (bytes_lt_total k1 k2) as [H|[H|H]]; [left|done|right].
    all: f_equal; by apply Is_true_true.
Qed.

Lemma Comparator_orders_keys_witness :
  small (str "a") ∧ small (str "b") ∧ small (str "b0") ∧
  str_lt (keyed (str "a") [1]) (keyed (str "b") []) = Done true.
Proof.
  split; [easy|]. split; [easy|]. split; [easy|].
  exact (proj1 (Comparator_orders_keys (str "a") [1] (str "b") [] (str "b0") []
    eq_refl eq_refl eq_refl)).
Defined.

(** A live or typed memtable entry. *)
Definition entry (k : bytes) (number t : Z) (v : bytes) : bytes :=
  keyed k (varint64_bytes number ++ [t] ++ varint32_bytes (zlen v) ++ v).

Lemma entry_number (k : bytes) (number t : Z) (v tl : bytes) :
  small k → 0 ≤ number < 2 ^ 63 →
  let p := (length (varint32_bytes (zlen k)) + length k)%nat in
  getVarint64Ptr (entry k number t v ++ tl) p (p + 9) =
  Done (Some ((p + length (varint64_bytes number))%nat, number)).
Proof.
  intros Hk Hn p. unfold entry, keyed. rewrite <- !app_assoc.
  rewrite (app_assoc (varint32_bytes (zlen k))).
  replace p with (length (varint32_bytes (zlen k) ++ k)) by (by rewrite length_app).
  by rewrite getVarint64_within9 by lia.
Qed.

Lemma entry_value (k : bytes) (number t : Z) (v tl : bytes) :
  small v →
  let q := (length (varint32_bytes (zlen k)) + length k +
            length (varint64_bytes number))%nat in
  rd (entry k number t v ++ tl) q = Done t ∧
  getVarint32Ptr (entry k number t v ++ tl) (q + 1) (q + 6) =
    Done (Some ((q + 1 + length (varint32_bytes (zlen v)))%nat, zlen v)) ∧
  view (entry k number t v ++ tl) (q + 1 + length (varint32_bytes (zlen v)))
    (Z.to_nat (zlen v)) = Done v.
Proof.
  intros Hv q. pose proof (zlen_nonneg v). unfold small in Hv.
  pose proof (varint32_size (zlen v)).
  unfold entry, keyed. rewrite <- !app_assoc.
  rewrite (app_assoc (varint32_bytes (zlen k))), (app_assoc _ (varint64_bytes number)).
  set (pre := (varint32_bytes (zlen k) ++ k) ++ varint64_bytes number).
  assert (Hq : q = length pre) by (unfold pre; rewrite !length_app; lia).
  split_and!.
  - by apply rd_app.
  - rewrite (app_assoc pre).
    replace (q + 1)%nat with (length (pre ++ [t])) by (rewrite length_app; simpl; lia).
    apply getVarint32_at; [lia|]. rewrite length_app. simpl. lia.
  - do 2 rewrite app_assoc. apply view_app; [|apply zlen_to_nat].
    rewrite !length_app. simpl. lia.
Qed.

Lemma keyed_data (k rest : bytes) :
  small k →
  getVarint32Ptr (c_data (keyed k rest)) 0 5 =
    Done (Some (length (varint32_bytes (zlen k)), zlen k)) ∧
  view (c_data (keyed k rest)) (length (varint32_bytes (zlen k)))
    (Z.to_nat (zlen k)) = Done k.
Proof. intros. rewrite c_data_keyed. split; [by apply keyed_varint|apply keyed_view]. Qed.

Lemma format_entry (k v : bytes) (number t : Z) :
  small k → small v → 0 ≤ number < 2 ^ 63 →
  formatMemTableToSSTableStr (entry k number t v) = Done (mkStyle k v (negb (t =? 0))) ∧
  formatMemTableToSSTable (entry k number t v) = Done (mkStyle k v (negb (t =? 0))) ∧
  formatMemTableToSSTableStr (keyed k []) = Done (mkStyle k [] false).
Proof.
  intros Hk Hv Hn.
  pose proof (entry_number k number t v [0] Hk Hn) as En.
  pose proof (entry_value k number t v [0] Hv) as (E1 & E2 & E3).
  pose proof (keyed_data k (varint64_bytes number ++ [t] ++ varint32_bytes (zlen v) ++ v) Hk)
    as [K1 K2].
  pose proof (keyed_data k [] Hk) as [L1 L2].
  fold (entry k number t v) in K1, K2. cbv zeta in En.
  assert (Hne : (length (varint32_bytes (zlen k)) + length k ≠
                 length (entry k number t v))%nat).
  { unfold entry, keyed. rewrite !length_app. simpl. lia. }
  assert (Hc : c_data (entry k number t v) = entry k number t v ++ [0]) by done.
  unfold formatMemTableToSSTableStr, formatMemTableToSSTable, nonnull,
    formatDecodeFixed8.
  rewrite K1, L1. cbn [mbind outcome_bind of_option]. rewrite K2, L2.
  cbn [mbind outcome_bind]. rewrite zlen_to_nat, (decide_False _ _ Hne), Hc, En.
  cbn [mbind outcome_bind of_option]. rewrite E1. cbn [mbind outcome_bind].
  rewrite E2. cbn [mbind outcome_bind of_option]. rewrite E3.
  split_and!; [done|done|]. rewrite decide_True; [done|].
  unfold keyed. rewrite !length_app. simpl. lia.
Qed.

(** An entry is read back as the compactor reads it: for keys and values
    below 4 GiB and a sequence number below 2^63, [formatMemTableToSSTableStr]
    and [formatMemTableToSSTable] both return the key, the value and whether
    the type byte is nonzero; and an entry that is only a key is read as a
    deleted record with that key and no value. *)
Theorem formatMemTable_entry (k v : bytes) (number t : Z)
  (Hk : small k) (Hv : small v) (Hn : 0 ≤ number < 2 ^ 63) :
  formatMemTableToSSTableStr (entry k number t v) = Done (mkStyle k v (negb (t =? 0))) ∧
  formatMemTableToSSTable (entry k number t v) = Done (mkStyle k v (negb (t =? 0))) ∧
  formatMemTableToSSTableStr (keyed k []) = Done (mkStyle k [] false).
Proof. by apply format_entry. Qed.

Lemma formatMemTable_entry_witness :
  small (str "k") ∧ small (str "val") ∧ 0 ≤ 300 < 2 ^ 63 ∧
  formatMemTableToSSTableStr (entry (str "k") 300 1 (str "val")) =
  Done (mkStyle (str "k") (str "val") true).
Proof.
  split; [easy|]. split; [easy|]. split; [lia|].
  exact (proj1 (formatMemTable_entry (str "k") (str "val") 300 1 eq_refl eq_refl
    ltac:(lia))).
Defined.

(** ** The common-prefix scan *)

(** One column: whether every adjacent pair agrees at [i]; the inner [for]
    over [j] with its [break]. *)
Fixpoint column_same (i : nat) (vs : list bytes) : outcome bool :=
  match vs with
  | a :: ((b :: _) as vs') =>
      x ← rd a i; y ← rd b i;
      if x =? y then column_same i vs' else Done false
  | _ => Done true
  end.

(** The outer loop from column [i]; [n] columns are left below the shortest
    view's size. *)
Fixpoint prefix_columns (n i : nat) (vs : list bytes) : outcome nat :=
  match n with
  | O => Done i
  | S n' =>
      same ← column_same i vs;
      if (same : bool) then prefix_columns n' (S i) vs else Done i
  end.

Definition min_size (first : nat) (vs : list bytes) : nat :=
  foldl (λ m v, Nat.min (length v) m) first vs.

(** The scan over the key views or over the value views: the view of the
    first one's common prefix, empty when no column agrees. *)
Definition prefix_scan (vs : list bytes) : outcome bytes :=
  v0 ← of_option OutOfBounds (head vs);
  i ← prefix_columns (min_size (length v0) vs) 0 vs;
  Done (take i v0).

Record Format16PrefixResult : Type := mkPrefix {
  pfx_key_view : bytes;
  pfx_value_view : bytes
}.

(** The source indexes the vector's first element without testing for an
    empty vector. *)
Definition Format16PrefixStr (vec : list SSTableKeyValueStyle)
  : outcome Format16PrefixResult :=
  k ← prefix_scan (map key_view vec);
  v ← prefix_scan (map value_view vec);
  Done (mkPrefix k v).

Lemma min_size_le (first : nat) (vs : list bytes) :
  (min_size first vs ≤ first)%nat ∧
  Forall (λ v, (min_size first vs ≤ length v)%nat) vs.
Proof.
  unfold min_size. revert first; induction vs as [|v vs IH]; intros first; simpl; [done|].
  destruct (IH (Nat.min (length v) first)) as [H1 H2].
  split; [lia|]. constructor; [lia|done].
Qed.

Lemma min_size_ge (n first : nat) (vs : list bytes) :
  (n ≤ first)%nat → Forall (λ v, (n ≤ length v)%nat) vs → (n ≤ min_size first vs)%nat.
Proof.
  unfold min_size. revert first; induction vs as [|v vs IH]; intros first H1 H2;
    simpl; [done|]. inversion H2; subst. apply IH; [lia|done].
Qed.

Lemma column_same_cons (i : nat) (a b : bytes) (vs : list bytes) :
  column_same i (a :: b :: vs) =
  (x ← rd a i; y ← rd b i;
   if x =? y then column_same i (b :: vs) else Done false).
Proof. reflexivity. Qed.

Lemma column_same_spec (i : nat) (v0 : bytes) (vs : list bytes) (x : Z) :
  v0 !! i = Some x → Forall (λ v, (i < length v)%nat) vs →
  ∃ b, column_same i (v0 :: vs) = Done b ∧
       (b = true ↔ Forall (λ v, v !! i = Some x) vs).
Proof.
  revert v0; induction vs as [|v vs IH]; intros v0 Hx Hl.
  - exists true. split; [done|]. split; [intros; constructor|done].
  - inversion Hl as [|? ? Hv Hvs]; subst.
    destruct (lookup_lt_is_Some_2 v i Hv) as [y Hy].
    rewrite column_same_cons. unfold rd. rewrite Hx, Hy.
    cbn [mbind outcome_bind of_option].
    destruct (Z.eqb_spec x y) as [<-|Hne].
    + destruct (IH v Hy Hvs) as (b & E & Hb). exists b. split; [exact E|].
      rewrite Hb, Forall_cons. tauto.
    + exists false. split; [done|]. rewrite Forall_cons. split; [done|].
      intros [E _]. congruence.
Qed.

Lemma prefix_columns_spec (n i : nat) (v0 : bytes) (vs : list bytes) :
  (n + i ≤ length v0)%nat → Forall (λ v, (n + i ≤ length v)%nat) vs →
  Forall (λ v, take i v = take i v0) vs →
  ∃ j, prefix_columns n i (v0 :: vs) = Done j ∧ (j ≤ n + i)%nat ∧
       Forall (λ v, take j v = take j v0) vs ∧
       (j < n + i → ∃ x, v0 !! j = Some x ∧ ¬ Forall (λ v, v !! j = Some x) vs)%nat.
Proof.
  revert i; induction n as [|n IH]; intros i H0 Hl Hp.
  - exists i. split_and!; [done|lia|done|lia].
  - destruct (lookup_lt_is_Some_2 v0 i ltac:(lia)) as [x Hx].
    destruct (column_same_spec i v0 vs x Hx) as (b & E & Hb).
    { eapply Forall_impl; [exact Hl|]. simpl. lia. }
    cbn [prefix_columns]. rewrite E. cbn [mbind outcome_bind]. destruct b.
    + destruct (IH (S i)) as (j & E' & Hj & Hpj & Hmax).
      * lia.
      * eapply Forall_impl; [exact Hl|]. simpl. lia.
      * pose proof (proj1 Hb eq_refl) as Hall. rewrite Forall_forall in *.
        intros v Hv. specialize (Hp v Hv). specialize (Hall v Hv).
        by rewrite (take_S_r _ _ _ Hall), (take_S_r _ _ _ Hx), Hp.
      * exists j. split_and!; [done|lia|done|]. intros. apply Hmax. lia.
    + exists i. split_and!; [done|lia|done|]. intros _. exists x. split; [done|].
      intros Hall. by apply Hb in Hall.
Qed.

Lemma prefix_scan_spec (v0 : bytes) (vs : list bytes) :
  ∃ p, prefix_scan (v0 :: vs) = Done p ∧
    Forall (λ v, p `prefix_of` v) (v0 :: vs) ∧
    ∀ q, Forall (λ v, q `prefix_of` v) (v0 :: vs) → q `prefix_of` p.
Proof.
  unfold prefix_scan. cbn [head of_option mbind outcome_bind].
  destruct (min_size_le (length v0) (v0 :: vs)) as [M1 M2].
  set (n := min_size (length v0) (v0 :: vs)) in *. inversion M2 as [|? ? _ M3]; subst.
  destruct (prefix_columns_spec n 0 v0 vs) as (j & -> & Hj & Hp & Hmax).
  { lia. } { eapply Forall_impl; [exact M3|]. simpl. lia. }
  { apply Forall_forall. by intros. }
  cbn [mbind outcome_bind]. exists (take j v0). split; [done|]. split.
  - constructor; [apply prefix_take|]. eapply Forall_impl; [exact Hp|].
    intros v Hv. simpl in Hv. rewrite <- Hv. apply prefix_take.
  - intros q Hq. inversion Hq as [|? ? [r0 Hr0] Hqs]; subst.
    assert (Hn : (length q ≤ n)%nat).
    { apply min_size_ge; [rewrite length_app; lia|].
      eapply Forall_impl; [exact Hq|]. intros v [r ->]. rewrite length_app. lia. }
    destruct (decide (length q ≤ j)%nat) as [Hle|Hgt].
    + rewrite take_app_ge by done. by eexists.
    + exfalso. destruct (Hmax ltac:(lia)) as (x & Hx & Hno). apply Hno.
      rewrite lookup_app_l in Hx by lia. eapply Forall_impl; [exact Hqs|].
      intros v [r ->]. by rewrite lookup_app_l by lia.
Qed.

(** The prefix scan computes longest common prefixes. On a non-empty
    block [Format16PrefixStr] finishes, its key view is a prefix of every key
    and every common prefix of the keys is a prefix of it, and the same holds
    of its value view; on an empty block it reads past the vector's end. *)
Theorem Format16PrefixStr_lcp (vec : list SSTableKeyValueStyle) :
  match vec with
  | [] => Format16PrefixStr vec = Fault OutOfBounds
  | _ => ∃ r, Format16PrefixStr vec = Done r ∧
      Forall (λ s, pfx_key_view r `prefix_of` key_view s ∧
                   pfx_value_view r `prefix_of` value_view s) vec ∧
      ∀ q, (Forall (λ s, q `prefix_of` key_view s) vec → q `prefix_of` pfx_key_view r) ∧
           (Forall (λ s, q `prefix_of` value_view s) vec → q `prefix_of` pfx_value_view r)
  end.
Proof.
  destruct vec as [|s0 vec]; [done|]. unfold Format16PrefixStr. simpl map.
  destruct (prefix_scan_spec (key_view s0) (map key_view vec)) as (p & -> & P1 & P2).
  destruct (prefix_scan_spec (value_view s0) (map value_view vec)) as (q & -> & Q1 & Q2).
  cbn [mbind outcome_bind]. eexists. split; [done|]. simpl.
  change (key_view s0 :: map key_view vec) with (map key_view (s0 :: vec)) in *.
  change (value_view s0 :: map value_view vec) with (map value_view (s0 :: vec)) in *.
  rewrite Forall_map in P1, Q1. split.
  - rewrite Forall_forall in *. intros s Hs. split; [by apply P1|by apply Q1].
  - intros r. split; intros Hr; [apply P2|apply Q2]; by rewrite Forall_map.
Qed.

End Entry.
