(* ===== verification/XXHash64.v ===== *)
(** * XXHash64

    [src/util/hash/xxhash64.hpp]: the streaming hasher with its 32-byte
    temporary buffer, and the one-shot [hash] the bloom filter calls. *)
From S2P Require Import Prelude.

Module XXHash64.

(** ** Constants and mixing *)

Definition Prime1 : Z := 11400714785074694791.
Definition Prime2 : Z := 14029467366897019727.
Definition Prime3 : Z := 1609587929392839161.
Definition Prime4 : Z := 9650029242287828579.
Definition Prime5 : Z := 2870177450012600261.
Definition MaxBufferSize : nat := 32.

Definition rotateLeft (x bits : Z) : Z :=
  Z.lor (u64 (Z.shiftl x bits)) (Z.shiftr x (64 - bits)).

Definition processSingle (previous input : Z) : Z :=
  u64 (rotateLeft (u64 (previous + input * Prime2)) 31 * Prime1).

Record State : Type := mkState { s0 : Z; s1 : Z; s2 : Z; s3 : Z }.

(** The four 64-bit words of a 32-byte block. *)
Definition process (data : bytes) (s : State) : State :=
  mkState (processSingle (s0 s) (le (take 8 data)))
          (processSingle (s1 s) (le (take 8 (drop 8 data))))
          (processSingle (s2 s) (le (take 8 (drop 16 data))))
          (processSingle (s3 s) (le (take 8 (drop 24 data)))).

(** ** The hasher: [buffer] holds the [bufferSize] bytes that wait for a full
    block. *)
Record Hasher : Type := mkHasher {
  state : State;
  buffer : bytes;
  totalLength : Z
}.

Definition bufferSize (h : Hasher) : nat := length (buffer h).

(** The constructor and [Init]. *)
Definition Init (seed : Z) : Hasher :=
  mkHasher (mkState (u64 (seed + Prime1 + Prime2)) (u64 (seed + Prime2)) seed
                    (u64 (seed - Prime1)))
           [] 0.

(** [while (data <= stopBlock)]: one block per step; the number of bytes is
    fuel enough. *)
Fixpoint blocks (fuel : nat) (data : bytes) (s : State) : State * bytes :=
  match fuel with
  | O => (s, data)
  | S fuel' =>
      if decide (MaxBufferSize ≤ length data)%nat
      then blocks fuel' (drop 32 data) (process data s)
      else (s, data)
  end.

Definition add (h : Hasher) (input : bytes) : bool * Hasher :=
  if decide (length input = O) then (false, h)
  else
    let total := u64 (totalLength h + zlen input) in
    if decide (bufferSize h + length input < MaxBufferSize)%nat
    then (true, mkHasher (state h) (buffer h ++ input) total)
    else
      let fill := (MaxBufferSize - bufferSize h)%nat in
      let '(s, data) :=
        if decide (0 < bufferSize h)%nat
        then (process (buffer h ++ take fill input) (state h), drop fill input)
        else (state h, input) in
      let '(s', rest) := blocks (length data) data s in
      (true, mkHasher s' rest total).

(** The 8-byte steps over what is left in the buffer. *)
Fixpoint tail8 (fuel : nat) (data : bytes) (result : Z) : Z * bytes :=
  match fuel with
  | O => (result, data)
  | S fuel' =>
      if decide (8 ≤ length data)%nat
      then tail8 fuel' (drop 8 data)
             (u64 (rotateLeft (Z.lxor result (processSingle 0 (le (take 8 data)))) 27
                   * Prime1 + Prime4))
      else (result, data)
  end.

Definition tail4 (data : bytes) (result : Z) : Z * bytes :=
  if decide (4 ≤ length data)%nat
  then (u64 (rotateLeft (Z.lxor result (u64 (le (take 4 data) * Prime1))) 23
             * Prime2 + Prime3), drop 4 data)
  else (result, data).

Definition tail1 (data : bytes) (result : Z) : Z :=
  foldl (λ r b, u64 (rotateLeft (Z.lxor r (u64 (b * Prime5))) 11 * Prime1)) result data.

Definition fold_state (result : Z) (s : Z) : Z :=
  u64 (Z.lxor result (processSingle 0 s) * Prime1 + Prime4).

Definition avalanche (r : Z) : Z :=
  let r := Z.lxor r (Z.shiftr r 33) in
  let r := u64 (r * Prime2) in
  let r := Z.lxor r (Z.shiftr r 29) in
  let r := u64 (r * Prime3) in
  Z.lxor r (Z.shiftr r 32).

(** [hash () const]. *)
Definition digest (h : Hasher) : Z :=
  let s := state h in
  let result :=
    if 32 <=? totalLength h
    then foldl fold_state
           (u64 (rotateLeft (s0 s) 1 + rotateLeft (s1 s) 7 +
                 rotateLeft (s2 s) 12 + rotateLeft (s3 s) 18))
           [s0 s; s1 s; s2 s; s3 s]
    else u64 (s2 s + Prime5) in
  let result := u64 (result + totalLength h) in
  let '(r8, d8) := tail8 (length (buffer h)) (buffer h) result in
  let '(r4, d4) := tail4 d8 r8 in
  avalanche (tail1 d4 r4).

(** The static [hash (input, length, seed)]. *)
Definition hash (input : bytes) (seed : Z) : Z := digest (snd (add (Init seed) input)).

(** Published XXH64 test vectors. *)
Example hash_empty : hash [] 0 = 0xEF46DB3751D8E999.
Proof. vm_compute. reflexivity. Qed.

Example hash_abc : hash (str "abc") 0 = 0x44BC2CF5AD770999.
Proof. vm_compute. reflexivity. Qed.

Example hash_repetition :
  hash (str "Nobody inspects the spammish repetition") 0 = 0xFBCEA83C8A378BF1.
Proof. vm_compute. reflexivity. Qed.

(** ** Streaming *)

Definition absorb (s : State) (data : bytes) : State * bytes :=
  blocks (length data) data s.

Lemma blocks_fuel (fuel : nat) : ∀ data s,
  (length data ≤ fuel)%nat → blocks fuel data s = absorb s data.
Proof.
  unfold absorb. induction fuel as [fuel IH] using lt_wf_ind. intros data s Hf.
  destruct fuel as [|fuel]; destruct (length data) as [|n] eqn:En; simpl; try lia; [done| |].
  - rewrite decide_False; [done|]. rewrite En. unfold MaxBufferSize. lia.
  - case_decide as Hd; [|done]. unfold MaxBufferSize in Hd.
    pose proof (length_drop data 32) as Hl.
    rewrite (IH fuel), (IH n) by lia. done.
Qed.

Lemma absorb_small (s : State) (data : bytes) :
  (length data < MaxBufferSize)%nat → absorb s data = (s, data).
Proof.
  intros H. unfold absorb. destruct (length data) eqn:E; [done|].
  simpl. rewrite decide_False; [done|]. lia.
Qed.

Lemma absorb_step (s : State) (data : bytes) :
  (MaxBufferSize ≤ length data)%nat →
  absorb s data = absorb (process data s) (drop 32 data).
Proof.
  intros H. unfold absorb at 1. destruct (length data) as [|n] eqn:E.
  { unfold MaxBufferSize in H. lia. }
  simpl. rewrite E, decide_True by done. apply blocks_fuel.
  rewrite length_drop. lia.
Qed.

Lemma process_app (a b : bytes) (s : State) :
  (32 ≤ length a)%nat → process (a ++ b) s = process a s.
Proof.
  intros H. unfold process. rewrite !drop_app_le by lia.
  rewrite !take_app_le; [done|..]; rewrite ?length_drop; lia.
Qed.

(** Absorbing a prefix first changes nothing. *)
Lemma absorb_app (a b : bytes) (s : State) :
  absorb s (a ++ b) =
  absorb (fst (absorb s a)) (snd (absorb s a) ++ b).
Proof.
  remember (length a) as n eqn:En. revert a s En.
  induction n as [n IH] using lt_wf_ind. intros a s ->.
  destruct (decide (length a < MaxBufferSize)%nat) as [Hs|Hs].
  - by rewrite (absorb_small _ a).
  - unfold MaxBufferSize in Hs. rewrite (absorb_step s a) by (unfold MaxBufferSize; lia).
    rewrite absorb_step by (rewrite length_app; unfold MaxBufferSize; lia).
    rewrite process_app, drop_app_le by lia.
    apply (IH (length (drop 32 a))); [rewrite length_drop; lia|done].
Qed.

Lemma absorb_rest (s : State) (data : bytes) :
  (length (snd (absorb s data)) < MaxBufferSize)%nat.
Proof.
  remember (length data) as n eqn:En. revert data s En.
  induction n as [n IH] using lt_wf_ind. intros data s ->.
  destruct (decide (length data < MaxBufferSize)%nat) as [Hs|Hs].
  - by rewrite absorb_small.
  - unfold MaxBufferSize in Hs. rewrite absorb_step by (unfold MaxBufferSize; lia).
    apply (IH (length (drop 32 data))); [rewrite length_drop; lia|done].
Qed.

(** What [add] does to a hasher whose buffer is not full. *)
Lemma add_spec (h : Hasher) (input : bytes) :
  (bufferSize h < MaxBufferSize)%nat → input ≠ [] →
  snd (add h input) =
  let r := absorb (state h) (buffer h ++ input) in
  mkHasher (fst r) (snd r) (u64 (totalLength h + zlen input)).
Proof.
  intros Hb Hne. unfold add. rewrite decide_False by (by destruct input).
  unfold bufferSize in *. case_decide as Hfit.
  { simpl. by rewrite absorb_small by (rewrite length_app; done). }
  unfold MaxBufferSize in Hb, Hfit. case_decide as H0.
  - fold (absorb (process (buffer h ++ take (MaxBufferSize - length (buffer h)) input) (state h))
      (drop (MaxBufferSize - length (buffer h)) input)).
    set (k := (MaxBufferSize - length (buffer h))%nat).
    assert (Ek : (k = 32 - length (buffer h))%nat) by done.
    rewrite (absorb_step _ (buffer h ++ input))
      by (rewrite length_app; unfold MaxBufferSize; lia).
    rewrite drop_app_ge by lia. rewrite <- Ek.
    replace (buffer h ++ input) with ((buffer h ++ take k input) ++ drop k input)
      by (by rewrite <- app_assoc, take_drop).
    rewrite (process_app (buffer h ++ take k input)) by (rewrite length_app, length_take; lia).
    by destruct (absorb _ _).
  - assert (E : buffer h = []) by (destruct (buffer h); simpl in *; [done|lia]).
    rewrite E. fold (absorb (state h) input). simpl. by destruct (absorb _ _).
Qed.

Lemma u64_add_l (a b : Z) : u64 (u64 a + b) = u64 (a + b).
Proof. unfold u64, wrap. apply Zplus_mod_idemp_l. Qed.

Lemma add_app (h : Hasher) (a b : bytes) :
  (bufferSize h < MaxBufferSize)%nat →
  snd (add (snd (add h a)) b) = snd (add h (a ++ b)).
Proof.
  intros Hb. destruct a as [|x a]; [done|]. destruct b as [|y b].
  { by rewrite app_nil_r. }
  set (a' := x :: a). set (b' := y :: b).
  rewrite (add_spec h a'), (add_spec h (a' ++ b')) by done. cbv zeta.
  rewrite add_spec; [|apply absorb_rest|done].
  cbn [state buffer totalLength]. rewrite u64_add_l, app_assoc, (absorb_app (buffer h ++ a')).
  f_equal. f_equal. unfold zlen. rewrite length_app. lia.
Qed.

Lemma add_bufferSize (h : Hasher) (a : bytes) :
  (bufferSize h < MaxBufferSize)%nat →
  (bufferSize (snd (add h a)) < MaxBufferSize)%nat.
Proof.
  intros Hb. destruct a as [|x a]; [done|]. rewrite add_spec by done.
  apply absorb_rest.
Qed.

Definition add_all (h : Hasher) (chunks : list bytes) : Hasher :=
  foldl (λ h c, snd (add h c)) h chunks.

Lemma add_all_concat (chunks : list bytes) : ∀ h,
  (bufferSize h < MaxBufferSize)%nat →
  add_all h chunks = snd (add h (concat chunks)).
Proof.
  induction chunks as [|c chunks IH]; intros h Hb; [done|].
  change (add_all h (c :: chunks)) with (add_all (snd (add h c)) chunks).
  rewrite IH by (by apply add_bufferSize). by rewrite add_app.
Qed.

(** C31: the streaming hasher is chunking-independent: however an input is cut
    into pieces, empty ones and pieces that straddle the 32-byte buffer
    included, feeding the pieces to [add] one after the other and asking for
    the hash gives the one-shot [hash] of the whole input, and the temporary
    buffer never holds a full block between calls. *)
Theorem hash_chunks (seed : Z) (chunks : list bytes) :
  digest (add_all (Init seed) chunks) = hash (concat chunks) seed ∧
  (bufferSize (add_all (Init seed) chunks) < MaxBufferSize)%nat.
Proof.
  assert (H0 : (bufferSize (Init seed) < MaxBufferSize)%nat)
    by (unfold bufferSize, MaxBufferSize; simpl; lia).
  rewrite add_all_concat by done. split; [done|by apply add_bufferSize].
Qed.

End XXHash64.
