(* ===== verification/CityHash.v ===== *)
(** * CityHash

    [src/util/hash/city_hash.{hpp,cpp}], the hash functions the bloom filter and
    the memtables' sharding use, on a little-endian machine. A function takes
    the object [m] that holds the key, the offset [s] its pointer has in it and
    the key's length; every load is a checked access of [m], so a result is
    also a proof that nothing outside the key was read. The variants that use the
    CRC instruction are in [CityHashCrc]. *)
From S2P Require Import Prelude.

Module CityHash.
#[local] Open Scope word_scope.

Definition Fetch64 (m : bytes) (p : Z) : outcome Z := load 8 m p.
Definition Fetch32 (m : bytes) (p : Z) : outcome Z := load 4 m p.

(** ** Constants and mixing *)

Definition k0 : Z := 0xc3a5c85c97cb3127.
Definition k1 : Z := 0xb492b66fbe98f273.
Definition k2 : Z := 0x9ae16a3b2f90404f.
Definition c1 : Z := 0xcc9e2d51.
Definition c2 : Z := 0x1b873593.

(** The [n] low bytes of [x], reversed. *)
Fixpoint bswap_bytes (n : nat) (x : Z) : bytes :=
  match n with
  | O => []
  | S n' => bswap_bytes n' (x >>! 8) ++ [u8 x]
  end.
Definition bswap_64 (x : Z) : Z := le (bswap_bytes 8 x).
Definition bswap_32 (x : Z) : Z := le (bswap_bytes 4 x).

Definition fmix (h : Z) : Z :=
  let h := h ^! (h >>! 16) in
  let h := u32 (h * 0x85ebca6b) in
  let h := h ^! (h >>! 13) in
  let h := u32 (h * 0xc2b2ae35) in
  h ^! (h >>! 16).

Definition Rotate32 (val shift : Z) : Z :=
  if shift =? 0 then val
  else Z.lor (val >>! shift) (u32 (Z.shiftl val (32 - shift))).

Definition Rotate (val shift : Z) : Z :=
  if shift =? 0 then val
  else Z.lor (val >>! shift) (u64 (Z.shiftl val (64 - shift))).

Definition ShiftMix (val : Z) : Z := val ^! (val >>! 47).

Definition Hash128to64 (x : Z * Z) : Z :=
  let kMul := 0x9ddfea08eb382d69 in
  let a := (x.1 ^! x.2) *! kMul in
  let a := a ^! (a >>! 47) in
  let b := (x.2 ^! a) *! kMul in
  let b := b ^! (b >>! 47) in
  b *! kMul.

Definition HashLen16 (u v : Z) : Z := Hash128to64 (u, v).

(** The overload with a multiplier. *)
Definition HashLen16_mul (u v mul : Z) : Z :=
  let a := (u ^! v) *! mul in
  let a := a ^! (a >>! 47) in
  let b := (v ^! a) *! mul in
  let b := b ^! (b >>! 47) in
  b *! mul.

(** ** CityHash64 *)

Definition HashLen0to16 (m : bytes) (s len : Z) : outcome Z :=
  if 8 <=? len then
    let mul := k2 +! len * 2 in
    w0 ← Fetch64 m s;
    let a := w0 +! k2 in
    b ← Fetch64 m (s + len - 8);
    let c := Rotate b 37 *! mul +! a in
    let d := (Rotate a 25 +! b) *! mul in
    Done (HashLen16_mul c d mul)
  else if 4 <=? len then
    let mul := k2 +! len * 2 in
    a ← Fetch32 m s;
    b ← Fetch32 m (s + len - 4);
    Done (HashLen16_mul (len +! Z.shiftl a 3) b mul)
  else if 0 <? len then
    a ← load 1 m s;
    b ← load 1 m (s + Z.shiftr len 1);
    c ← load 1 m (s + len - 1);
    let y := u32 (a + Z.shiftl b 8) in
    let z := u32 (u32 len + Z.shiftl c 2) in
    Done (ShiftMix (y *! k2 ^! z *! k0) *! k2)
  else Done k2.

Definition HashLen17to32 (m : bytes) (s len : Z) : outcome Z :=
  let mul := k2 +! len * 2 in
  a0 ← Fetch64 m s;
  let a := a0 *! k1 in
  b ← Fetch64 m (s + 8);
  c0 ← Fetch64 m (s + len - 8);
  let c := c0 *! mul in
  d0 ← Fetch64 m (s + len - 16);
  let d := d0 *! k2 in
  Done (HashLen16_mul (Rotate (a +! b) 43 +! Rotate c 30 +! d)
                      (a +! Rotate (b +! k2) 18 +! c) mul).

Definition WeakHash (w x y z a b : Z) : Z * Z :=
  let a := a +! w in
  let b := Rotate (b +! a +! z) 21 in
  let c := a in
  let a := a +! x in
  let a := a +! y in
  let b := b +! Rotate a 44 in
  (a +! z, b +! c).

Definition WeakHashLen32WithSeeds (m : bytes) (s a b : Z) : outcome (Z * Z) :=
  w ← Fetch64 m s;
  x ← Fetch64 m (s + 8);
  y ← Fetch64 m (s + 16);
  z ← Fetch64 m (s + 24);
  Done (WeakHash w x y z a b).

Definition HashLen33to64 (m : bytes) (s len : Z) : outcome Z :=
  let mul := k2 +! len * 2 in
  a0 ← Fetch64 m s;
  let a := a0 *! k2 in
  b ← Fetch64 m (s + 8);
  c ← Fetch64 m (s + len - 24);
  d ← Fetch64 m (s + len - 32);
  e0 ← Fetch64 m (s + 16);
  let e := e0 *! k2 in
  f0 ← Fetch64 m (s + 24);
  let f := f0 *! 9 in
  g ← Fetch64 m (s + len - 8);
  h0 ← Fetch64 m (s + len - 16);
  let h := h0 *! mul in
  let u := Rotate (a +! g) 43 +! (Rotate b 30 +! c) *! 9 in
  let v := ((a +! g) ^! d) +! f +! 1 in
  let w := bswap_64 ((u +! v) *! mul) +! h in
  let x := Rotate (e +! f) 42 +! c in
  let y := (bswap_64 ((v +! w) *! mul) +! g) *! mul in
  let z := e +! f +! c in
  let a := bswap_64 ((x +! z) *! mul +! y) +! b in
  let b := ShiftMix ((z +! a) *! mul +! d +! h) *! mul in
  Done (b +! x).

(** The 56 bytes of state of the long loops. *)
Record Loop : Type := mkLoop { lx : Z; ly : Z; lz : Z; lv : Z * Z; lw : Z * Z }.

(** One 64-byte step; the swap of [z] and [x] is in the result. *)
Definition chunk64 (m : bytes) (s : Z) (st : Loop) : outcome Loop :=
  let '(mkLoop x y z v w) := st in
  f8 ← Fetch64 m (s + 8);
  let x := Rotate (x +! y +! v.1 +! f8) 37 *! k1 in
  f48 ← Fetch64 m (s + 48);
  let y := Rotate (y +! v.2 +! f48) 42 *! k1 in
  let x := x ^! w.2 in
  f40 ← Fetch64 m (s + 40);
  let y := y +! (v.1 +! f40) in
  let z := Rotate (z +! w.1) 33 *! k1 in
  v' ← WeakHashLen32WithSeeds m s (v.2 *! k1) (x +! w.1);
  f16 ← Fetch64 m (s + 16);
  w' ← WeakHashLen32WithSeeds m (s + 32) (z +! w.2) (y +! f16);
  Done (mkLoop z y x v' w').

(** [do ... while (len != 0)] for the [n] chunks that [len] holds. *)
Fixpoint chunks64 (n : nat) (m : bytes) (s : Z) (st : Loop) : outcome Loop :=
  match n with
  | O => Done st
  | S n' => st' ← chunk64 m s st; chunks64 n' m (s + 64) st'
  end.

Definition CityHash64 (m : bytes) (s len : Z) : outcome Z :=
  if len <=? 32 then
    if len <=? 16 then HashLen0to16 m s len else HashLen17to32 m s len
  else if len <=? 64 then HashLen33to64 m s len
  else
    x ← Fetch64 m (s + len - 40);
    y1 ← Fetch64 m (s + len - 16);
    y2 ← Fetch64 m (s + len - 56);
    let y := y1 +! y2 in
    z1 ← Fetch64 m (s + len - 48);
    z2 ← Fetch64 m (s + len - 24);
    let z := HashLen16 (z1 +! len) z2 in
    v ← WeakHashLen32WithSeeds m (s + len - 64) len z;
    w ← WeakHashLen32WithSeeds m (s + len - 32) (y +! k1) x;
    x0 ← Fetch64 m s;
    let x := x *! k1 +! x0 in
    '(mkLoop x y z v w) ←
      chunks64 (Z.to_nat (Z.shiftr (len - 1) 6)) m s (mkLoop x y z v w);
    Done (HashLen16 (HashLen16 v.1 w.1 +! ShiftMix y *! k1 +! z)
                    (HashLen16 v.2 w.2 +! x)).

Definition CityHash64WithSeeds (m : bytes) (s len seed0 seed1 : Z) : outcome Z :=
  h ← CityHash64 m s len; Done (HashLen16 (h -! seed0) seed1).

Definition CityHash64WithSeed (m : bytes) (s len seed : Z) : outcome Z :=
  CityHash64WithSeeds m s len k2 seed.

(** ** CityHash128 *)

(** The [do ... while (len > 16)] of [CityMurmur], [a b c d] its state. *)
Fixpoint murmur_loop (fuel : nat) (m : bytes) (s len a b c d : Z)
  : outcome (Z * Z * Z * Z) :=
  match fuel with
  | O => Fault NoReturn
  | S fuel' =>
      f0 ← Fetch64 m s;
      let a := (a ^! ShiftMix (f0 *! k1) *! k1) *! k1 in
      let b := b ^! a in
      f8 ← Fetch64 m (s + 8);
      let c := (c ^! ShiftMix (f8 *! k1) *! k1) *! k1 in
      let d := d ^! c in
      if 16 <? len - 16 then murmur_loop fuel' m (s + 16) (len - 16) a b c d
      else Done (a, b, c, d)
  end.

Definition CityMurmur (m : bytes) (s len : Z) (seed : Z * Z) : outcome (Z * Z) :=
  let a := seed.1 in
  let b := seed.2 in
  '(a, b, c, d) ←
    (if len <=? 16 then
       let a := ShiftMix (a *! k1) *! k1 in
       h ← HashLen0to16 m s len;
       let c := b *! k1 +! h in
       e ← (if 8 <=? len then Fetch64 m s else Done c);
       let d := ShiftMix (a +! e) in
       Done (a, b, c, d)
     else
       f ← Fetch64 m (s + len - 8);
       let c := HashLen16 (f +! k1) a in
       g ← Fetch64 m (s + len - 16);
       let d := HashLen16 (b +! len) (c +! g) in
       let a := a +! d in
       murmur_loop (Z.to_nat len) m s len a b c d);
  let a := HashLen16 a c in
  let b := HashLen16 d b in
  Done (a ^! b, HashLen16 b a).

(** Two unrolled steps of 64 bytes per iteration; returns where [s] and [len]
    end. *)
Fixpoint chunks128 (fuel : nat) (m : bytes) (s len : Z) (st : Loop)
  : outcome (Z * Z * Loop) :=
  match fuel with
  | O => Fault NoReturn
  | S fuel' =>
      st1 ← chunk64 m s st;
      st2 ← chunk64 m (s + 64) st1;
      if 128 <=? len - 128 then chunks128 fuel' m (s + 128) (len - 128) st2
      else Done (s + 128, len - 128, st2)
  end.

(** Up to four 32-byte pieces from the end, overlapping what the loop already
    read when fewer than 32 bytes are left. *)
Fixpoint tail32 (fuel : nat) (m : bytes) (s len tail_done : Z) (st : Loop)
  : outcome Loop :=
  if tail_done <? len then
    match fuel with
    | O => Fault NoReturn
    | S fuel' =>
        let '(mkLoop x y z v w) := st in
        let tail_done := tail_done + 32 in
        let y := Rotate (x +! y) 42 *! k0 +! v.2 in
        f ← Fetch64 m (s + len - tail_done + 16);
        let w := (w.1 +! f, w.2) in
        let x := x *! k0 +! w.1 in
        g ← Fetch64 m (s + len - tail_done);
        let z := z +! (w.2 +! g) in
        let w := (w.1, w.2 +! v.1) in
        v ← WeakHashLen32WithSeeds m (s + len - tail_done) (v.1 +! z) v.2;
        let v := (v.1 *! k0, v.2) in
        tail32 fuel' m s len tail_done (mkLoop x y z v w)
    end
  else Done st.

(** The case of at least 128 bytes. *)
Definition long128 (m : bytes) (s len : Z) (seed : Z * Z) : outcome (Z * Z) :=
  let x := seed.1 in
  let y := seed.2 in
  let z := len *! k1 in
  f0 ← Fetch64 m s;
  let v1 := Rotate (y ^! k1) 49 *! k1 +! f0 in
  f8 ← Fetch64 m (s + 8);
  let v2 := Rotate v1 42 *! k1 +! f8 in
  let w1 := Rotate (y +! z) 35 *! k1 +! x in
  f88 ← Fetch64 m (s + 88);
  let w2 := Rotate (x +! f88) 53 *! k1 in
  '(s, len, mkLoop x y z v w) ←
    chunks128 (Z.to_nat len) m s len (mkLoop x y z (v1, v2) (w1, w2));
  let x := x +! Rotate (v.1 +! z) 49 *! k0 in
  let y := y *! k0 +! Rotate w.2 37 in
  let z := z *! k0 +! Rotate w.1 27 in
  let w := (w.1 *! 9, w.2) in
  let v := (v.1 *! k0, v.2) in
  '(mkLoop x y z v w) ← tail32 4 m s len 0 (mkLoop x y z v w);
  let x := HashLen16 x v.1 in
  let y := HashLen16 (y +! z) w.1 in
  Done (HashLen16 (x +! v.2) w.2 +! y, HashLen16 (x +! w.2) (y +! v.2)).

Definition CityHash128WithSeed (m : bytes) (s len : Z) (seed : Z * Z)
  : outcome (Z * Z) :=
  if len <? 128 then CityMurmur m s len seed else long128 m s len seed.

Definition CityHash128 (m : bytes) (s len : Z) : outcome (Z * Z) :=
  if 16 <=? len then
    a ← Fetch64 m s;
    b ← Fetch64 m (s + 8);
    CityHash128WithSeed m (s + 16) (len - 16) (a, b +! k0)
  else CityHash128WithSeed m s len (k0, k1).

(** ** CityHash32 *)

Definition Mur (a h : Z) : Z :=
  let a := u32 (a * c1) in
  let a := Rotate32 a 17 in
  let a := u32 (a * c2) in
  let h := h ^! a in
  let h := Rotate32 h 19 in
  u32 (h * 5 + 0xe6546b64).

Definition Hash32Len13to24 (m : bytes) (s len : Z) : outcome Z :=
  a ← Fetch32 m (s - 4 + Z.shiftr len 1);
  b ← Fetch32 m (s + 4);
  c ← Fetch32 m (s + len - 8);
  d ← Fetch32 m (s + Z.shiftr len 1);
  e ← Fetch32 m s;
  f ← Fetch32 m (s + len - 4);
  let h := u32 len in
  Done (fmix (Mur f (Mur e (Mur d (Mur c (Mur b (Mur a h))))))).

(** [for (i = 0; i < len; i++)] over signed characters. *)
Definition Hash32_byte (st : Z * Z) (v : Z) : Z * Z :=
  let b := u32 (st.1 * c1 + (if 128 <=? v then v - 256 else v)) in
  (b, st.2 ^! b).

Definition Hash32Len0to4 (m : bytes) (s len : Z) : outcome Z :=
  data ← (if decide (0 ≤ s ∧ 0 ≤ len) then view m (Z.to_nat s) (Z.to_nat len)
          else Fault OutOfBounds);
  let '(b, c) := foldl Hash32_byte (0, 9) data in
  Done (fmix (Mur b (Mur (u32 len) c))).

Definition Hash32Len5to12 (m : bytes) (s len : Z) : outcome Z :=
  let a := u32 len in
  let b := u32 (a * 5) in
  let d := b in
  fa ← Fetch32 m s;
  let a := u32 (a + fa) in
  fb ← Fetch32 m (s + len - 4);
  let b := u32 (b + fb) in
  fc ← Fetch32 m (s + Z.land (Z.shiftr len 1) 4);
  let c := u32 (9 + fc) in
  Done (fmix (Mur c (Mur b (Mur a d)))).

(** [Rotate32 (x * c1, 17) * c2]. *)
Definition scramble (x : Z) : Z := u32 (Rotate32 (u32 (x * c1)) 17 * c2).

(** [h = Rotate32 (h, r); h = h * 5 + 0xe6546b64]. *)
Definition stir (h r : Z) : Z := u32 (Rotate32 h r * 5 + 0xe6546b64).

(** One 20-byte iteration on [(h, g, f)]; PERMUTE3 moves [g] to [f], [h] to [g]
    and [f] to [h]. *)
Definition round20 (m : bytes) (s : Z) (st : Z * Z * Z) : outcome (Z * Z * Z) :=
  let '(h, g, f) := st in
  r0 ← Fetch32 m s;
  let a0 := scramble r0 in
  a1 ← Fetch32 m (s + 4);
  r2 ← Fetch32 m (s + 8);
  let a2 := scramble r2 in
  r3 ← Fetch32 m (s + 12);
  let a3 := scramble r3 in
  a4 ← Fetch32 m (s + 16);
  let h := stir (h ^! a0) 18 in
  let f := u32 (Rotate32 (u32 (f + a1)) 19 * c1) in
  let g := stir (u32 (g + a2)) 18 in
  let h := stir (h ^! u32 (a3 + a1)) 19 in
  let g := u32 (bswap_32 (g ^! a4) * 5) in
  let h := bswap_32 (u32 (h + a4 * 5)) in
  let f := u32 (f + a0) in
  Done (f, h, g).

(** [do ... while (--iters != 0)]. *)
Fixpoint rounds20 (iters : nat) (m : bytes) (s : Z) (st : Z * Z * Z)
  : outcome (Z * Z * Z) :=
  match iters with
  | O => Done st
  | S iters' => st' ← round20 m s st; rounds20 iters' m (s + 20) st'
  end.

Definition CityHash32 (m : bytes) (s len : Z) : outcome Z :=
  if len <=? 24 then
    if len <=? 12 then
      if len <=? 4 then Hash32Len0to4 m s len else Hash32Len5to12 m s len
    else Hash32Len13to24 m s len
  else
    let h := u32 len in
    let g := u32 (c1 * h) in
    let f := g in
    r0 ← Fetch32 m (s + len - 4);
    r1 ← Fetch32 m (s + len - 8);
    r2 ← Fetch32 m (s + len - 16);
    r3 ← Fetch32 m (s + len - 12);
    r4 ← Fetch32 m (s + len - 20);
    let h := stir (h ^! scramble r0) 19 in
    let h := stir (h ^! scramble r2) 19 in
    let g := stir (g ^! scramble r1) 19 in
    let g := stir (g ^! scramble r3) 19 in
    let f := stir (u32 (f + scramble r4)) 19 in
    '(h, g, f) ← rounds20 (Z.to_nat ((len - 1) / 20)) m s (h, g, f);
    let g := u32 (Rotate32 g 11 * c1) in
    let g := u32 (Rotate32 g 17 * c1) in
    let f := u32 (Rotate32 f 11 * c1) in
    let f := u32 (Rotate32 f 17 * c1) in
    let h := stir (u32 (h + g)) 19 in
    let h := u32 (Rotate32 h 17 * c1) in
    let h := stir (u32 (h + f)) 19 in
    let h := u32 (Rotate32 h 17 * c1) in
    Done h.

(** ** Memory safety *)

(** A load whose bounds lia can see. *)
Ltac load_step := apply wp_bind; apply wp_load; [lia|lia|intros ?]; cbv zeta.
Ltac loads := unfold Fetch64, Fetch32; cbv zeta; repeat load_step.

(** A 128-bit result is a pair of 64-bit words. *)
Definition is_u128 (x : Z * Z) : Prop := is_u 64 x.1 ∧ is_u 64 x.2.

Lemma fmix_range (h : Z) : is_u 32 h → is_u 32 (fmix h).
Proof.
  intros Hh. unfold fmix. cbv zeta.
  apply is_u_lxor; [lia| |apply is_u_shiftr; [lia|]]; apply is_u_u32.
Qed.

Lemma shiftr1_bounds (len : Z) : 2 * Z.shiftr len 1 ≤ len < 2 * Z.shiftr len 1 + 2.
Proof.
  rewrite Z.shiftr_div_pow2 by lia. change (2 ^ 1) with 2.
  pose proof (Z.div_mod len 2 ltac:(lia)). pose proof (Z.mod_pos_bound len 2 ltac:(lia)).
  lia.
Qed.

Section Safety.
Context (m : bytes).

Lemma wp_WeakHash (s a b : Z) (P : Z * Z → Prop) :
  0 ≤ s → s + 32 ≤ zlen m → (∀ w, P w) → wp (WeakHashLen32WithSeeds m s a b) P.
Proof. intros Hs Hl HP. unfold WeakHashLen32WithSeeds. loads. apply HP. Qed.

Ltac weak_step := apply wp_bind; apply wp_WeakHash; [lia|lia|intros ?]; cbv zeta.

Lemma wp_chunk64 (s : Z) (st : Loop) (P : Loop → Prop) :
  0 ≤ s → s + 64 ≤ zlen m → (∀ st', P st') → wp (chunk64 m s st) P.
Proof.
  intros Hs Hl HP. destruct st as [x y z v w]. unfold chunk64. loads.
  weak_step. load_step. weak_step. apply HP.
Qed.

Lemma wp_chunks64 (n : nat) : ∀ (s : Z) (st : Loop) (P : Loop → Prop),
  0 ≤ s → s + 64 * Z.of_nat n ≤ zlen m → (∀ st', P st') → wp (chunks64 n m s st) P.
Proof.
  induction n as [|n IH]; intros s st P Hs Hl HP; simpl; [apply HP|].
  apply wp_bind, wp_chunk64; [lia|lia|]. intros st'. apply IH; [lia|lia|done].
Qed.

Lemma wp_HashLen0to16 (s len : Z) :
  0 ≤ s → 0 ≤ len ≤ 16 → s + len ≤ zlen m → wp (HashLen0to16 m s len) (is_u 64).
Proof.
  intros Hs Hlen Hl. unfold HashLen0to16. pose proof (shiftr1_bounds len).
  destruct (Z.leb_spec 8 len); [loads; apply is_u_u64|].
  destruct (Z.leb_spec 4 len); [loads; apply is_u_u64|].
  destruct (Z.ltb_spec 0 len); [loads; apply is_u_u64|easy].
Qed.

Lemma wp_CityHash64 (s len : Z) :
  0 ≤ s → 0 ≤ len → s + len ≤ zlen m → wp (CityHash64 m s len) (is_u 64).
Proof.
  intros Hs Hlen Hl. unfold CityHash64.
  destruct (Z.leb_spec len 32).
  { destruct (Z.leb_spec len 16); [apply wp_HashLen0to16; lia|].
    unfold HashLen17to32. loads. apply is_u_u64. }
  destruct (Z.leb_spec len 64); [unfold HashLen33to64; loads; apply is_u_u64|].
  loads. do 2 weak_step. load_step.
  apply wp_bind, wp_chunks64; [done| |intros []; apply is_u_u64].
  rewrite Z.shiftr_div_pow2 by lia. change (2 ^ 6) with 64.
  pose proof (Z.mul_div_le (len - 1) 64 ltac:(lia)).
  pose proof (Z.div_pos (len - 1) 64 ltac:(lia) ltac:(lia)). lia.
Qed.

Lemma wp_murmur_loop (fuel : nat) : ∀ (s len a b c d : Z) (P : Z * Z * Z * Z → Prop),
  0 ≤ s → 16 < len ≤ Z.of_nat fuel → s + len ≤ zlen m → (∀ r, P r) →
  wp (murmur_loop fuel m s len a b c d) P.
Proof.
  induction fuel as [|fuel IH]; intros s len a b c d P Hs Hlen Hl HP; [lia|].
  simpl. loads. destruct (Z.ltb_spec 16 (len - 16)); [|apply HP].
  apply IH; [lia|lia|lia|done].
Qed.

Lemma murmur_end (a b c d : Z) :
  let a := HashLen16 a c in let b := HashLen16 d b in
  is_u128 (a ^! b, HashLen16 b a).
Proof.
  cbv zeta. split; [|apply is_u_u64]. apply is_u_lxor; [lia| |]; apply is_u_u64.
Qed.

Lemma wp_CityMurmur (s len : Z) (seed : Z * Z) :
  0 ≤ s → 0 ≤ len → s + len ≤ zlen m → wp (CityMurmur m s len seed) is_u128.
Proof.
  intros Hs Hlen Hl. unfold CityMurmur. cbv zeta. apply wp_bind.
  destruct (Z.leb_spec len 16).
  - apply wp_bind. eapply wp_mono; [apply wp_HashLen0to16; lia|].
    intros h _. apply wp_bind.
    destruct (Z.leb_spec 8 len); [|apply murmur_end].
    unfold Fetch64. apply wp_load; [lia|lia|]. intros e. apply murmur_end.
  - loads. apply wp_murmur_loop; [lia|lia|lia|]. intros [[[]]]. apply murmur_end.
Qed.

Lemma wp_chunks128 (fuel : nat) : ∀ (s len : Z) (st : Loop) (P : Z * Z * Loop → Prop),
  0 ≤ s → 128 ≤ len ≤ Z.of_nat fuel → s + len ≤ zlen m →
  (∀ s' len' st', s + 128 ≤ s' → 0 ≤ len' < 128 → s' + len' = s + len →
     P (s', len', st')) →
  wp (chunks128 fuel m s len st) P.
Proof.
  induction fuel as [|fuel IH]; intros s len st P Hs Hlen Hl HP; [lia|].
  simpl. apply wp_bind, wp_chunk64; [lia|lia|]. intros st1.
  apply wp_bind, wp_chunk64; [lia|lia|]. intros st2.
  destruct (Z.leb_spec 128 (len - 128)); [|apply HP; lia].
  apply IH; [lia|lia|lia|]. intros. apply HP; lia.
Qed.

(** The pieces from the end stay inside the object because the main loop has
    moved [s] by at least 128 bytes. *)
Lemma wp_tail32 (fuel : nat) : ∀ (s len tail_done : Z) (st : Loop) (P : Loop → Prop),
  32 ≤ s → 0 ≤ tail_done → len ≤ tail_done + 32 * Z.of_nat fuel →
  s + len ≤ zlen m → (∀ st', P st') → wp (tail32 fuel m s len tail_done st) P.
Proof.
  induction fuel as [|fuel IH]; intros s len td st P Hs Htd Hf Hl HP; simpl;
    (destruct (Z.ltb_spec td len); [|apply HP]); [lia|].
  destruct st as [x y z v vw]. loads. weak_step.
  apply IH; [lia|lia|lia|lia|done].
Qed.

Lemma wp_long128 (s len : Z) (seed : Z * Z) :
  0 ≤ s → 128 ≤ len → s + len ≤ zlen m → wp (long128 m s len seed) is_u128.
Proof.
  intros Hs Hlen Hl. unfold long128. loads. apply wp_bind, wp_chunks128; [lia|lia|lia|].
  intros s' len' [x y z v vw] H1 H2 H3. cbv zeta.
  apply wp_bind, wp_tail32; [lia|lia|lia|lia|]. intros []. split; apply is_u_u64.
Qed.

Lemma wp_CityHash128WithSeed (s len : Z) (seed : Z * Z) :
  0 ≤ s → 0 ≤ len → s + len ≤ zlen m → wp (CityHash128WithSeed m s len seed) is_u128.
Proof.
  intros Hs Hlen Hl. unfold CityHash128WithSeed.
  destruct (Z.ltb_spec len 128); [by apply wp_CityMurmur|by apply wp_long128].
Qed.

Lemma wp_CityHash128 (s len : Z) :
  0 ≤ s → 0 ≤ len → s + len ≤ zlen m → wp (CityHash128 m s len) is_u128.
Proof.
  intros Hs Hlen Hl. unfold CityHash128. destruct (Z.leb_spec 16 len).
  - loads. apply wp_CityHash128WithSeed; lia.
  - by apply wp_CityHash128WithSeed.
Qed.

Lemma wp_rounds20 (iters : nat) : ∀ (s : Z) (st : Z * Z * Z) (P : Z * Z * Z → Prop),
  0 ≤ s → s + 20 * Z.of_nat iters ≤ zlen m → (∀ r, P r) → wp (rounds20 iters m s st) P.
Proof.
  induction iters as [|iters IH]; intros s st P Hs Hl HP; simpl; [apply HP|].
  apply wp_bind. destruct st as [[h g] f]. unfold round20. loads.
  apply IH; [lia|lia|done].
Qed.

Lemma quarter_step (len : Z) :
  5 ≤ len ≤ 12 → 0 ≤ Z.land (Z.shiftr len 1) 4 ∧ Z.land (Z.shiftr len 1) 4 + 4 ≤ len.
Proof.
  intros H. assert (E : len = 5 ∨ len = 6 ∨ len = 7 ∨ len = 8 ∨ len = 9 ∨ len = 10 ∨
    len = 11 ∨ len = 12) by lia.
  by repeat (destruct E as [->|E]; [vm_compute; split; congruence|]); subst;
    vm_compute; split; congruence.
Qed.

Lemma wp_CityHash32 (s len : Z) :
  0 ≤ s → 0 ≤ len → s + len ≤ zlen m → wp (CityHash32 m s len) (is_u 32).
Proof.
  intros Hs Hlen Hl. unfold CityHash32. pose proof (shiftr1_bounds len).
  destruct (Z.leb_spec len 24).
  { destruct (Z.leb_spec len 12);
      [|unfold Hash32Len13to24; loads; apply fmix_range, is_u_u32].
    destruct (Z.leb_spec len 4).
    - unfold Hash32Len0to4. rewrite decide_True by lia. unfold view.
      rewrite decide_True by (unfold zlen in *; lia). simpl.
      destruct (foldl _ _ _). apply fmix_range, is_u_u32.
    - pose proof (quarter_step len ltac:(lia)). unfold Hash32Len5to12. loads.
      apply fmix_range, is_u_u32. }
  loads. apply wp_bind, wp_rounds20; [lia| |intros [[]]; apply is_u_u32].
  pose proof (Z.mul_div_le (len - 1) 20 ltac:(lia)).
  pose proof (Z.div_pos (len - 1) 20 ltac:(lia) ltac:(lia)). lia.
Qed.
End Safety.

Lemma CityHash64WithSeed_done (key : bytes) (seed : Z) :
  ∃ h, CityHash64WithSeed key 0 (zlen key) seed = Done h ∧ is_u 64 h.
Proof.
  apply wp_done. unfold CityHash64WithSeed, CityHash64WithSeeds. apply wp_bind.
  eapply wp_mono; [apply wp_CityHash64; unfold zlen; lia|].
  intros h _. apply is_u_u64.
Qed.

End CityHash.
