(* ===== verification/CityHashCrc.v ===== *)
(** * CityHash with the CRC instruction

    The end of [src/util/hash/city_hash.cpp], compiled when the target has SSE
    4.2: the 256-bit hash and the 128-bit hashes that use it for keys of more
    than 900 bytes. The instruction [_mm_crc32_u64] is a parameter. The theorem
    on the memory safety of the whole file is here. *)
From S2P Require Import Prelude CityHash.

Module CityHashCrc.
Import CityHash.
#[local] Open Scope word_scope.

(** The eleven words of state. *)
Record State : Type := mkState {
  sa : Z; sb : Z; sc : Z; sd : Z; se : Z; sf : Z; sg : Z; sh : Z;
  sx : Z; sy : Z; sz : Z
}.

(** [std::swap (a, b); std::swap (a, c)]. *)
Definition PERMUTE3 (a b c : Z) : Z * Z * Z :=
  let '(a, b) := (b, a) in
  let '(a, c) := (c, a) in
  (a, b, c).

Section Crc.
Context (_mm_crc32_u64 : Z → Z → Z).

Definition CHUNK (m : bytes) (s r : Z) (st : State) : outcome State :=
  let '(mkState a b c d e f g h x y z) := st in
  let '(x, z, y) := PERMUTE3 x z y in
  f0 ← Fetch64 m s;
  let b := b +! f0 in
  f1 ← Fetch64 m (s + 8);
  let c := c +! f1 in
  f2 ← Fetch64 m (s + 16);
  let d := d +! f2 in
  f3 ← Fetch64 m (s + 24);
  let e := e +! f3 in
  f4 ← Fetch64 m (s + 32);
  let f := f +! f4 in
  let a := a +! b in
  let h := h +! f in
  let b := b +! c in
  let f := f +! d in
  let g := g +! e in
  let e := e +! z in
  let g := g +! x in
  let z := _mm_crc32_u64 z (b +! g) in
  let y := _mm_crc32_u64 y (e +! h) in
  let x := _mm_crc32_u64 x (f +! a) in
  let e := Rotate e r in
  let c := c +! e in
  Done (mkState a b c d e f g h x y z).

Definition permute_ahc (st : State) : State :=
  let '(mkState a b c d e f g h x y z) := st in
  let '(a, h, c) := PERMUTE3 a h c in mkState a b c d e f g h x y z.
Definition permute_ahf (st : State) : State :=
  let '(mkState a b c d e f g h x y z) := st in
  let '(a, h, f) := PERMUTE3 a h f in mkState a b c d e f g h x y z.
Definition permute_bhf (st : State) : State :=
  let '(mkState a b c d e f g h x y z) := st in
  let '(b, h, f) := PERMUTE3 b h f in mkState a b c d e f g h x y z.
Definition permute_bhd (st : State) : State :=
  let '(mkState a b c d e f g h x y z) := st in
  let '(b, h, d) := PERMUTE3 b h d in mkState a b c d e f g h x y z.
Definition permute_bhe (st : State) : State :=
  let '(mkState a b c d e f g h x y z) := st in
  let '(b, h, e) := PERMUTE3 b h e in mkState a b c d e f g h x y z.
Definition permute_ahe (st : State) : State :=
  let '(mkState a b c d e f g h x y z) := st in
  let '(a, h, e) := PERMUTE3 a h e in mkState a b c d e f g h x y z.
Definition permute_chg (st : State) : State :=
  let '(mkState a b c d e f g h x y z) := st in
  let '(c, h, g) := PERMUTE3 c h g in mkState a b c d e f g h x y z.

(** 240 bytes: six chunks, each followed by its permutation. *)
Definition round240 (m : bytes) (s : Z) (st : State) : outcome State :=
  st ← CHUNK m s 0 st;
  st ← CHUNK m (s + 40) 33 (permute_ahc st);
  st ← CHUNK m (s + 80) 0 (permute_ahf st);
  st ← CHUNK m (s + 120) 42 (permute_bhf st);
  st ← CHUNK m (s + 160) 0 (permute_bhd st);
  st ← CHUNK m (s + 200) 33 (permute_bhe st);
  Done (permute_ahe st).

(** [do ... while (--iters > 0)]. *)
Fixpoint rounds240 (iters : nat) (m : bytes) (s : Z) (st : State) : outcome State :=
  match iters with
  | O => Done st
  | S iters' => st' ← round240 m s st; rounds240 iters' m (s + 240) st'
  end.

(** The lines that follow a chunk in the tail. *)
Definition rotations (ra rb rc rd : Z) (st : State) : State :=
  let '(mkState a b c d e f g h x y z) := st in
  mkState a b c d (e ^! Rotate a ra) (f +! Rotate d rd) (g ^! Rotate c rc)
    (h +! Rotate b rb) x y z.

(** [while (len >= 40)]; returns where [s] and [len] end. *)
Fixpoint chunks40 (fuel : nat) (m : bytes) (s len : Z) (st : State)
  : outcome (Z * Z * State) :=
  if 40 <=? len then
    match fuel with
    | O => Fault NoReturn
    | S fuel' =>
        st ← CHUNK m s 29 st;
        chunks40 fuel' m (s + 40) (len - 40)
          (permute_chg (rotations 20 30 40 34 st))
    end
  else Done (s, len, st).

(** The last mixing, from the two words of [result] set at the start. *)
Definition finish (r0 r1 : Z) (st : State) : Z * Z * Z * Z :=
  let '(mkState a b c d e f g h x y z) := st in
  let r0 := r0 ^! h in
  let r1 := r1 ^! g in
  let g := g +! h in
  let a := HashLen16 a (g +! z) in
  let x := x +! Z.shiftl y 32 in
  let b := b +! x in
  let c := HashLen16 c z +! h in
  let d := HashLen16 d (e +! r0) in
  let g := g +! e in
  let h := h +! HashLen16 x f in
  let e := HashLen16 a d +! g in
  let z := HashLen16 b c +! a in
  let y := HashLen16 g h +! c in
  let r0 := e +! z +! y +! x in
  let a := ShiftMix ((a +! y) *! k0) *! k0 +! b in
  let r1 := r1 +! (a +! r0) in
  let a := ShiftMix (a *! k0) *! k0 +! c in
  let r2 := a +! r1 in
  let a := ShiftMix ((a +! e) *! k0) *! k0 in
  let r3 := a +! r2 in
  (r0, r1, r2, r3).

Definition CityHashCrc256Long (m : bytes) (s len seed : Z)
  : outcome (Z * Z * Z * Z) :=
  f56 ← Fetch64 m (s + 56);
  let a := f56 +! k0 in
  f96 ← Fetch64 m (s + 96);
  let b := f96 +! k0 in
  let r0 := HashLen16 b len in
  let c := r0 in
  f120 ← Fetch64 m (s + 120);
  let r1 := f120 *! k0 +! len in
  let d := r1 in
  f184 ← Fetch64 m (s + 184);
  let e := f184 +! seed in
  let h := c +! d in
  let x := seed in
  let iters := len / 240 in
  st ← rounds240 (Z.to_nat iters) m s (mkState a b c d e 0 0 h x 0 0);
  '(s, len, st) ← chunks40 6 m (s + iters * 240) (len - iters * 240) st;
  st ← (if 0 <? len then
          st ← CHUNK m (s + len - 40) 33 st; Done (rotations 43 42 41 40 st)
        else Done st);
  Done (finish r0 r1 st).

(** A shorter key is copied into a buffer of 240 bytes, the rest zero. *)
Definition CityHashCrc256Short (m : bytes) (s len : Z) : outcome (Z * Z * Z * Z) :=
  data ← (if decide (0 ≤ s ∧ 0 ≤ len) then view m (Z.to_nat s) (Z.to_nat len)
          else Fault OutOfBounds);
  let buf := data ++ replicate (240 - Z.to_nat len) 0 in
  CityHashCrc256Long buf 0 240 (2 ^ 32 - 1 - u32 len).

Definition CityHashCrc256 (m : bytes) (s len : Z) : outcome (Z * Z * Z * Z) :=
  if 240 <=? len then CityHashCrc256Long m s len 0 else CityHashCrc256Short m s len.

Definition CityHashCrc128WithSeed (m : bytes) (s len : Z) (seed : Z * Z)
  : outcome (Z * Z) :=
  if len <=? 900 then CityHash128WithSeed m s len seed
  else
    '(r0, r1, r2, r3) ← CityHashCrc256 m s len;
    let u := seed.2 +! r0 in
    let v := seed.1 +! r1 in
    Done (HashLen16 u (v +! r2), HashLen16 (Rotate v 32) (u *! k0 +! r3)).

Definition CityHashCrc128 (m : bytes) (s len : Z) : outcome (Z * Z) :=
  if len <=? 900 then CityHash128 m s len
  else '(r0, r1, r2, r3) ← CityHashCrc256 m s len; Done (r2, r3).

(** ** Memory safety *)
Definition is_u256 (r : Z * Z * Z * Z) : Prop :=
  let '(r0, r1, r2, r3) := r in
  is_u 64 r0 ∧ is_u 64 r1 ∧ is_u 64 r2 ∧ is_u 64 r3.

Lemma finish_range (r0 r1 : Z) (st : State) : is_u256 (finish r0 r1 st).
Proof. destruct st. unfold finish. split_and!; apply is_u_u64. Qed.

Section Safety.
Context (m : bytes).

Lemma wp_CHUNK (s r : Z) (st : State) (P : State → Prop) :
  0 ≤ s → s + 40 ≤ zlen m → (∀ st', P st') → wp (CHUNK m s r st) P.
Proof.
  intros Hs Hl HP. destruct st. unfold CHUNK, PERMUTE3. loads. apply HP.
Qed.

Ltac chunk_step := apply wp_bind, wp_CHUNK; [lia|lia|intros ?].

Lemma wp_round240 (s : Z) (st : State) (P : State → Prop) :
  0 ≤ s → s + 240 ≤ zlen m → (∀ st', P st') → wp (round240 m s st) P.
Proof. intros Hs Hl HP. unfold round240. do 6 chunk_step. apply HP. Qed.

Lemma wp_rounds240 (n : nat) : ∀ (s : Z) (st : State) (P : State → Prop),
  0 ≤ s → s + 240 * Z.of_nat n ≤ zlen m → (∀ st', P st') →
  wp (rounds240 n m s st) P.
Proof.
  induction n as [|n IH]; intros s st P Hs Hl HP; simpl; [apply HP|].
  apply wp_bind, wp_round240; [lia|lia|]. intros st'. apply IH; [lia|lia|done].
Qed.

Lemma wp_chunks40 (fuel : nat) : ∀ (s len : Z) (st : State) (P : Z * Z * State → Prop),
  0 ≤ s → 0 ≤ len < 40 * (Z.of_nat fuel + 1) → s + len ≤ zlen m →
  (∀ s' len' st', s ≤ s' → 0 ≤ len' < 40 → s' + len' = s + len → P (s', len', st')) →
  wp (chunks40 fuel m s len st) P.
Proof.
  induction fuel as [|fuel IH]; intros s len st P Hs Hlen Hl HP; simpl;
    (destruct (Z.leb_spec 40 len); [|apply HP; lia]); [lia|].
  chunk_step. apply IH; [lia|lia|lia|]. intros. apply HP; lia.
Qed.

(** The last chunk is read backwards from the end: at least 240 bytes are
    behind it. *)
Lemma wp_Crc256Long (s len seed : Z) :
  0 ≤ s → 240 ≤ len → s + len ≤ zlen m →
  wp (CityHashCrc256Long m s len seed) is_u256.
Proof.
  intros Hs Hlen Hl. unfold CityHashCrc256Long. loads.
  pose proof (Z.mul_div_le len 240 ltac:(lia)).
  pose proof (Z.mod_pos_bound len 240 ltac:(lia)).
  pose proof (Z.div_mod len 240 ltac:(lia)).
  assert (1 ≤ len / 240) by (apply Z.div_le_lower_bound; lia).
  apply wp_bind, wp_rounds240; [lia|lia|]. intros st.
  apply wp_bind, wp_chunks40; [lia|lia|lia|]. intros s' len' st' Hs' Hl' He.
  apply wp_bind. destruct (Z.ltb_spec 0 len'); [chunk_step|]; apply finish_range.
Qed.
End Safety.

Lemma wp_Crc256 (m : bytes) (s len : Z) :
  0 ≤ s → 0 ≤ len → s + len ≤ zlen m → wp (CityHashCrc256 m s len) is_u256.
Proof.
  intros Hs Hlen Hl. unfold CityHashCrc256.
  destruct (Z.leb_spec 240 len); [by apply wp_Crc256Long|].
  unfold CityHashCrc256Short. rewrite decide_True by lia. unfold view.
  unfold zlen in Hl. rewrite decide_True by lia. simpl. apply wp_Crc256Long; [lia|lia|].
  unfold zlen. rewrite length_app, length_replicate, length_take, length_drop. lia.
Qed.

Lemma wp_Crc128 (m : bytes) (s len : Z) :
  0 ≤ s → 0 ≤ len → s + len ≤ zlen m → wp (CityHashCrc128 m s len) is_u128.
Proof.
  intros Hs Hlen Hl. unfold CityHashCrc128.
  destruct (Z.leb_spec len 900); [by apply wp_CityHash128|].
  apply wp_bind. eapply wp_mono; [by apply wp_Crc256|].
  intros [[[r0 r1] r2] r3] (H0 & H1 & H2 & H3). by split.
Qed.

Lemma wp_Crc128WithSeed (m : bytes) (s len : Z) (seed : Z * Z) :
  0 ≤ s → 0 ≤ len → s + len ≤ zlen m → wp (CityHashCrc128WithSeed m s len seed) is_u128.
Proof.
  intros Hs Hlen Hl. unfold CityHashCrc128WithSeed.
  destruct (Z.leb_spec len 900); [by apply wp_CityHash128WithSeed|].
  apply wp_bind. eapply wp_mono; [by apply wp_Crc256|].
  intros [[[r0 r1] r2] r3] _. split; apply is_u_u64.
Qed.

End Crc.

(** C28: CityHash never reads outside the key, always finishes and returns
    words of its width: on a key of any length, the empty one included, the
    64-bit hash is below 2^64, the 32-bit hash below 2^32, and the 128-bit
    hashes - the CRC variants included, whatever the CRC instruction computes -
    are pairs of 64-bit words, with every load inside the key's bytes: the loads
    at [s + len - k] of the short cases, the 64-byte, 128-byte and 240-byte
    steps, and the overlapping pieces of 32 or 40 bytes read backwards from the
    end. *)
Theorem CityHash_in_bounds (crc : Z → Z → Z) (key : bytes) (seed : Z) (seed2 : Z * Z) :
  (∃ h, CityHash64WithSeed key 0 (zlen key) seed = Done h ∧ is_u 64 h) ∧
  (∃ h, CityHash32 key 0 (zlen key) = Done h ∧ is_u 32 h) ∧
  (∃ h, CityHash128 key 0 (zlen key) = Done h ∧ is_u128 h) ∧
  (∃ h, CityHashCrc128 crc key 0 (zlen key) = Done h ∧ is_u128 h) ∧
  (∃ h, CityHashCrc128WithSeed crc key 0 (zlen key) seed2 = Done h ∧ is_u128 h).
Proof.
  assert (0 ≤ zlen key) by (unfold zlen; lia).
  split_and!; [apply CityHash64WithSeed_done| | | |]; apply wp_done.
  - by apply wp_CityHash32.
  - by apply wp_CityHash128.
  - by apply wp_Crc128.
  - by apply wp_Crc128WithSeed.
Qed.

End CityHashCrc.
