(* ===== verification/FarmHash32.v ===== *)
(** * FarmHash: the 32-bit and 128-bit string hashes

    [src/util/hash/farmhash.cpp]: namespace [farmhashmk] (the portable 32-bit
    hash), namespace [farmhashcc] (the 32-bit and 128-bit hashes that the file
    calls equivalent to CityHash32 and CityHash128) and the non-string hashes of
    [farmhash.hpp]. What the namespaces share with CityHash word for word
    ([fmix], [Mur], [HashLen0to16], [WeakHashLen32WithSeeds], ...) are the
    definitions of [CityHash]; what is written differently is translated as it
    is written, so that the equivalence has something to say. *)
From S2P Require Import Prelude CityHash.

Import CityHash.
#[local] Open Scope word_scope.

(** ** farmhashmk *)
Module mk.

Definition Hash32Len13to24 (m : bytes) (s len seed : Z) : outcome Z :=
  a ← Fetch32 m (s - 4 + Z.shiftr len 1);
  b ← Fetch32 m (s + 4);
  c ← Fetch32 m (s + len - 8);
  d ← Fetch32 m (s + Z.shiftr len 1);
  e ← Fetch32 m s;
  f ← Fetch32 m (s + len - 4);
  let h := u32 (d * c1 + len + seed) in
  let a := u32 (Rotate32 a 12 + f) in
  let h := u32 (Mur c h + a) in
  let a := u32 (Rotate32 a 3 + c) in
  let h := u32 (Mur e h + a) in
  let a := u32 (Rotate32 (u32 (a + f)) 12 + d) in
  let h := u32 (Mur (b ^! seed) h + a) in
  Done (fmix h).

Definition Hash32Len0to4 (m : bytes) (s len seed : Z) : outcome Z :=
  data ← (if decide (0 ≤ s ∧ 0 ≤ len) then view m (Z.to_nat s) (Z.to_nat len)
          else Fault OutOfBounds);
  let '(b, c) := foldl Hash32_byte (seed, 9) data in
  Done (fmix (Mur b (Mur (u32 len) c))).

Definition Hash32Len5to12 (m : bytes) (s len seed : Z) : outcome Z :=
  let a := u32 len in
  let b := u32 (len * 5) in
  let d := u32 (b + seed) in
  fa ← Fetch32 m s;
  let a := u32 (a + fa) in
  fb ← Fetch32 m (s + len - 4);
  let b := u32 (b + fb) in
  fc ← Fetch32 m (s + Z.land (Z.shiftr len 1) 4);
  let c := u32 (9 + fc) in
  Done (fmix (seed ^! Mur c (Mur b (Mur a d)))).

(** One 20-byte iteration on [(h, g, f)]. *)
Definition round20 (m : bytes) (s : Z) (st : Z * Z * Z) : outcome (Z * Z * Z) :=
  let '(h, g, f) := st in
  a ← Fetch32 m s;
  b ← Fetch32 m (s + 4);
  c ← Fetch32 m (s + 8);
  d ← Fetch32 m (s + 12);
  e ← Fetch32 m (s + 16);
  let h := u32 (h + a) in
  let g := u32 (g + b) in
  let f := u32 (f + c) in
  let h := u32 (Mur d h + e) in
  let g := u32 (Mur c g + a) in
  let f := u32 (Mur (u32 (b + u32 (e * c1))) f + d) in
  let f := u32 (f + g) in
  let g := u32 (g + f) in
  Done (h, g, f).

(** [do ... while (--iters != 0)]. *)
Fixpoint rounds20 (iters : nat) (m : bytes) (s : Z) (st : Z * Z * Z)
  : outcome (Z * Z * Z) :=
  match iters with
  | O => Done st
  | S iters' => st' ← round20 m s st; rounds20 iters' m (s + 20) st'
  end.

Definition Hash32 (m : bytes) (s len : Z) : outcome Z :=
  if len <=? 24 then
    if len <=? 12 then
      if len <=? 4 then Hash32Len0to4 m s len 0 else Hash32Len5to12 m s len 0
    else Hash32Len13to24 m s len 0
  else
    let h := u32 len in
    let g := u32 (c1 * len) in
    let f := g in
    r0 ← Fetch32 m (s + len - 4);
    let a0 := u32 (Rotate32 (u32 (r0 * c1)) 17 * c2) in
    r1 ← Fetch32 m (s + len - 8);
    let a1 := u32 (Rotate32 (u32 (r1 * c1)) 17 * c2) in
    r2 ← Fetch32 m (s + len - 16);
    let a2 := u32 (Rotate32 (u32 (r2 * c1)) 17 * c2) in
    r3 ← Fetch32 m (s + len - 12);
    let a3 := u32 (Rotate32 (u32 (r3 * c1)) 17 * c2) in
    r4 ← Fetch32 m (s + len - 20);
    let a4 := u32 (Rotate32 (u32 (r4 * c1)) 17 * c2) in
    let h := h ^! a0 in
    let h := Rotate32 h 19 in
    let h := u32 (h * 5 + 0xe6546b64) in
    let h := h ^! a2 in
    let h := Rotate32 h 19 in
    let h := u32 (h * 5 + 0xe6546b64) in
    let g := g ^! a1 in
    let g := Rotate32 g 19 in
    let g := u32 (g * 5 + 0xe6546b64) in
    let g := g ^! a3 in
    let g := Rotate32 g 19 in
    let g := u32 (g * 5 + 0xe6546b64) in
    let f := u32 (f + a4) in
    let f := u32 (Rotate32 f 19 + 113) in
    '(h, g, f) ← rounds20 (Z.to_nat ((len - 1) / 20)) m s (h, g, f);
    let g := u32 (Rotate32 g 11 * c1) in
    let g := u32 (Rotate32 g 17 * c1) in
    let f := u32 (Rotate32 f 11 * c1) in
    let f := u32 (Rotate32 f 17 * c1) in
    let h := Rotate32 (u32 (h + g)) 19 in
    let h := u32 (h * 5 + 0xe6546b64) in
    let h := u32 (Rotate32 h 17 * c1) in
    let h := Rotate32 (u32 (h + f)) 19 in
    let h := u32 (h * 5 + 0xe6546b64) in
    let h := u32 (Rotate32 h 17 * c1) in
    Done h.

Definition Hash32WithSeed (m : bytes) (s len seed : Z) : outcome Z :=
  if len <=? 24 then
    if 13 <=? len then Hash32Len13to24 m s len (u32 (seed * c1))
    else if 5 <=? len then Hash32Len5to12 m s len seed
    else Hash32Len0to4 m s len seed
  else
    h ← Hash32Len13to24 m s 24 (u32 (seed ^! len));
    t ← Hash32 m (s + 24) (len - 24);
    Done (Mur (u32 (t + seed)) h).

End mk.

(** ** farmhashcc *)
Module cc.

Definition Hash32Len13to24 (m : bytes) (s len : Z) : outcome Z :=
  a ← Fetch32 m (s - 4 + Z.shiftr len 1);
  b ← Fetch32 m (s + 4);
  c ← Fetch32 m (s + len - 8);
  d ← Fetch32 m (s + Z.shiftr len 1);
  e ← Fetch32 m s;
  f ← Fetch32 m (s + len - 4);
  let h := u32 len in
  Done (fmix (Mur f (Mur e (Mur d (Mur c (Mur b (Mur a h))))))).

Definition Hash32Len0to4 (m : bytes) (s len : Z) : outcome Z :=
  data ← (if decide (0 ≤ s ∧ 0 ≤ len) then view m (Z.to_nat s) (Z.to_nat len)
          else Fault OutOfBounds);
  let '(b, c) := foldl Hash32_byte (0, 9) data in
  Done (fmix (Mur b (Mur (u32 len) c))).

(** [b] is the truncation of [len * 5], not of [a * 5]. *)
Definition Hash32Len5to12 (m : bytes) (s len : Z) : outcome Z :=
  let a := u32 len in
  let b := u32 (len * 5) in
  let d := b in
  fa ← Fetch32 m s;
  let a := u32 (a + fa) in
  fb ← Fetch32 m (s + len - 4);
  let b := u32 (b + fb) in
  fc ← Fetch32 m (s + Z.land (Z.shiftr len 1) 4);
  let c := u32 (9 + fc) in
  Done (fmix (Mur c (Mur b (Mur a d)))).

(** One 20-byte iteration, its three-way permutation written out as the two
    swaps of PERMUTE3. *)
Definition round20 (m : bytes) (s : Z) (st : Z * Z * Z) : outcome (Z * Z * Z) :=
  let '(h, g, f) := st in
  r0 ← Fetch32 m s;
  let a0 := u32 (Rotate32 (u32 (r0 * c1)) 17 * c2) in
  a1 ← Fetch32 m (s + 4);
  r2 ← Fetch32 m (s + 8);
  let a2 := u32 (Rotate32 (u32 (r2 * c1)) 17 * c2) in
  r3 ← Fetch32 m (s + 12);
  let a3 := u32 (Rotate32 (u32 (r3 * c1)) 17 * c2) in
  a4 ← Fetch32 m (s + 16);
  let h := h ^! a0 in
  let h := Rotate32 h 18 in
  let h := u32 (h * 5 + 0xe6546b64) in
  let f := u32 (f + a1) in
  let f := Rotate32 f 19 in
  let f := u32 (f * c1) in
  let g := u32 (g + a2) in
  let g := Rotate32 g 18 in
  let g := u32 (g * 5 + 0xe6546b64) in
  let h := h ^! u32 (a3 + a1) in
  let h := Rotate32 h 19 in
  let h := u32 (h * 5 + 0xe6546b64) in
  let g := g ^! a4 in
  let g := u32 (bswap_32 g * 5) in
  let h := u32 (h + u32 (a4 * 5)) in
  let h := bswap_32 h in
  let f := u32 (f + a0) in
  let '(f, h) := (h, f) in
  let '(f, g) := (g, f) in
  Done (h, g, f).

Fixpoint rounds20 (iters : nat) (m : bytes) (s : Z) (st : Z * Z * Z)
  : outcome (Z * Z * Z) :=
  match iters with
  | O => Done st
  | S iters' => st' ← round20 m s st; rounds20 iters' m (s + 20) st'
  end.

Definition Hash32 (m : bytes) (s len : Z) : outcome Z :=
  if len <=? 24 then
    if len <=? 12 then
      if len <=? 4 then Hash32Len0to4 m s len else Hash32Len5to12 m s len
    else Hash32Len13to24 m s len
  else
    let h := u32 len in
    let g := u32 (c1 * len) in
    let f := g in
    r0 ← Fetch32 m (s + len - 4);
    let a0 := u32 (Rotate32 (u32 (r0 * c1)) 17 * c2) in
    r1 ← Fetch32 m (s + len - 8);
    let a1 := u32 (Rotate32 (u32 (r1 * c1)) 17 * c2) in
    r2 ← Fetch32 m (s + len - 16);
    let a2 := u32 (Rotate32 (u32 (r2 * c1)) 17 * c2) in
    r3 ← Fetch32 m (s + len - 12);
    let a3 := u32 (Rotate32 (u32 (r3 * c1)) 17 * c2) in
    r4 ← Fetch32 m (s + len - 20);
    let a4 := u32 (Rotate32 (u32 (r4 * c1)) 17 * c2) in
    let h := h ^! a0 in
    let h := Rotate32 h 19 in
    let h := u32 (h * 5 + 0xe6546b64) in
    let h := h ^! a2 in
    let h := Rotate32 h 19 in
    let h := u32 (h * 5 + 0xe6546b64) in
    let g := g ^! a1 in
    let g := Rotate32 g 19 in
    let g := u32 (g * 5 + 0xe6546b64) in
    let g := g ^! a3 in
    let g := Rotate32 g 19 in
    let g := u32 (g * 5 + 0xe6546b64) in
    let f := u32 (f + a4) in
    let f := Rotate32 f 19 in
    let f := u32 (f * 5 + 0xe6546b64) in
    '(h, g, f) ← rounds20 (Z.to_nat ((len - 1) / 20)) m s (h, g, f);
    let g := u32 (Rotate32 g 11 * c1) in
    let g := u32 (Rotate32 g 17 * c1) in
    let f := u32 (Rotate32 f 11 * c1) in
    let f := u32 (Rotate32 f 17 * c1) in
    let h := Rotate32 (u32 (h + g)) 19 in
    let h := u32 (h * 5 + 0xe6546b64) in
    let h := u32 (Rotate32 h 17 * c1) in
    let h := Rotate32 (u32 (h + f)) 19 in
    let h := u32 (h * 5 + 0xe6546b64) in
    let h := u32 (Rotate32 h 17 * c1) in
    Done h.

(** The seeded hash goes through [farmhashmk] for its first 24 bytes. *)
Definition Hash32WithSeed (m : bytes) (s len seed : Z) : outcome Z :=
  if len <=? 24 then
    if 13 <=? len then mk.Hash32Len13to24 m s len (u32 (seed * c1))
    else if 5 <=? len then mk.Hash32Len5to12 m s len seed
    else mk.Hash32Len0to4 m s len seed
  else
    h ← mk.Hash32Len13to24 m s 24 (u32 (seed ^! len));
    t ← Hash32 m (s + 24) (len - 24);
    Done (Mur (u32 (t + seed)) h).

(** [do ... while (l > 0)], [l] a signed counter that starts at [len - 16]. *)
Fixpoint murmur_loop (fuel : nat) (m : bytes) (s l a b c d : Z)
  : outcome (Z * Z * Z * Z) :=
  match fuel with
  | O => Fault NoReturn
  | S fuel' =>
      f0 ← Fetch64 m s;
      let a := a ^! ShiftMix (f0 *! k1) *! k1 in
      let a := a *! k1 in
      let b := b ^! a in
      f8 ← Fetch64 m (s + 8);
      let c := c ^! ShiftMix (f8 *! k1) *! k1 in
      let c := c *! k1 in
      let d := d ^! c in
      let s := s + 16 in
      let l := l - 16 in
      if 0 <? l then murmur_loop fuel' m s l a b c d else Done (a, b, c, d)
  end.

Definition CityMurmur (m : bytes) (s len : Z) (seed : Z * Z) : outcome (Z * Z) :=
  let a := seed.1 in
  let b := seed.2 in
  let l := len - 16 in
  '(a, b, c, d) ←
    (if l <=? 0 then
       let a := ShiftMix (a *! k1) *! k1 in
       h ← HashLen0to16 m s len;
       let c := b *! k1 +! h in
       e ← (if 8 <=? len then Fetch64 m s else Done c);
       let d := ShiftMix (a +! e) in
       Done (a, b, c, d)
     else
       f ← Fetch64 m (s + len - 8);
       let c := HashLen16 (f +! k1) a in
       g ← Fetch64 m (s + len - 16);
       let d := HashLen16 (b +! len) (c +! g) in
       let a := a +! d in
       murmur_loop (Z.to_nat len) m s l a b c d);
  let a := HashLen16 a c in
  let b := HashLen16 d b in
  Done (a ^! b, HashLen16 b a).

(** The case of at least 128 bytes is the text of CityHash's. *)
Definition CityHash128WithSeed (m : bytes) (s len : Z) (seed : Z * Z)
  : outcome (Z * Z) :=
  if len <? 128 then CityMurmur m s len seed else long128 m s len seed.

Definition CityHash128 (m : bytes) (s len : Z) : outcome (Z * Z) :=
  if 16 <=? len then
    a ← Fetch64 m s;
    b ← Fetch64 m (s + 8);
    CityHash128WithSeed m (s + 16) (len - 16) (a, b +! k0)
  else CityHash128WithSeed m s len (k0, k1).

Definition Fingerprint128 (m : bytes) (s len : Z) : outcome (Z * Z) :=
  CityHash128 m s len.

End cc.

(** ** farmhash.hpp: hashes of integers *)
Module Fingerprint.

Definition kMul : Z := 0x9ddfea08eb382d69.

Definition Hash128to64 (x : Z * Z) : Z :=
  let a := (x.1 ^! x.2) *! kMul in
  let a := a ^! (a >>! 47) in
  let b := (x.2 ^! a) *! kMul in
  let b := b ^! (b >>! 47) in
  b *! kMul.

Definition of_uint128 (x : Z * Z) : Z :=
  let a := (x.1 ^! x.2) *! kMul in
  let a := a ^! (a >>! 47) in
  let b := (x.2 ^! a) *! kMul in
  let b := b ^! (b >>! 44) in
  let b := b *! kMul in
  let b := b ^! (b >>! 41) in
  b *! kMul.

Definition of_uint64 (x : Z) : Z :=
  let b := x *! kMul in
  let b := b ^! (b >>! 44) in
  let b := b *! kMul in
  let b := b ^! (b >>! 41) in
  b *! kMul.

(** The fingerprint of an integer can be undone, so it has no collisions: a
    right shift by at least half the width is undone by repeating it, a
    multiplication by the inverse of the odd constant. *)
Definition kMulInv : Z := 0xdc56e6f5090b32d9.

Definition invert (h : Z) : Z :=
  let b := h *! kMulInv in
  let b := b ^! (b >>! 41) in
  let b := b *! kMulInv in
  let b := b ^! (b >>! 44) in
  b *! kMulInv.

Lemma xorshift_twice (x n : Z) :
  is_u 64 x → 32 ≤ n → (x ^! (x >>! n)) ^! ((x ^! (x >>! n)) >>! n) = x.
Proof.
  intros Hx Hn. rewrite Z.shiftr_lxor, Z.shiftr_shiftr by lia.
  replace (x >>! (n + n)) with 0.
  - rewrite Z.lxor_0_r, Z.lxor_assoc, Z.lxor_nilpotent. apply Z.lxor_0_r.
  - symmetry. rewrite Z.shiftr_div_pow2 by lia. apply Z.div_small.
    unfold is_u in Hx. split; [lia|]. apply Z.lt_le_trans with (2 ^ 64); [lia|].
    apply Z.pow_le_mono_r; lia.
Qed.

Lemma mul_inv (x : Z) : is_u 64 x → (x *! kMul) *! kMulInv = x.
Proof.
  intros Hx. unfold u64, wrap. rewrite Zmult_mod_idemp_l, <- Z.mul_assoc.
  rewrite <- Zmult_mod_idemp_r.
  replace ((kMul * kMulInv) mod 2 ^ 64) with 1 by by vm_compute.
  rewrite Z.mul_1_r. by apply Z.mod_small.
Qed.

Lemma of_uint64_invert (x : Z) : is_u 64 x → invert (of_uint64 x) = x.
Proof.
  intros Hx. unfold of_uint64, invert. cbv zeta.
  assert (R : ∀ y n, 0 ≤ n → is_u 64 (y *! kMul ^! (y *! kMul >>! n))).
  { intros y n Hn. apply is_u_lxor; [lia| |apply is_u_shiftr; [lia|]]; apply is_u_u64. }
  rewrite mul_inv by (apply R; lia).
  rewrite xorshift_twice by (apply is_u_u64 || lia).
  rewrite mul_inv by (apply R; lia).
  rewrite xorshift_twice by (apply is_u_u64 || lia).
  by apply mul_inv.
Qed.

End Fingerprint.

(** ** Equivalence with CityHash *)
Module CCEquiv.

(** Two computations that start with the same load are equal when what follows
    is. *)
Lemma bind_ext {A B} (o : outcome A) (f g : A → outcome B) :
  (∀ a, f a = g a) → (o ≫= f) = (o ≫= g).
Proof. intros H. destruct o; [apply H|reflexivity]. Qed.

Ltac same_load := apply bind_ext; intros ?; cbv zeta.

Lemma u32_mul_l (a b : Z) : u32 (u32 a * b) = u32 (a * b).
Proof. unfold u32, wrap. by rewrite Zmult_mod_idemp_l. Qed.

Lemma u32_mul_r (a b : Z) : u32 (a * u32 b) = u32 (a * b).
Proof. unfold u32, wrap. by rewrite Zmult_mod_idemp_r. Qed.

Lemma u32_add_r (a b : Z) : u32 (a + u32 b) = u32 (a + b).
Proof. unfold u32, wrap. by rewrite Zplus_mod_idemp_r. Qed.

Lemma Len5to12_eq (m : bytes) (s len : Z) :
  cc.Hash32Len5to12 m s len = CityHash.Hash32Len5to12 m s len.
Proof.
  unfold cc.Hash32Len5to12, CityHash.Hash32Len5to12. cbv zeta.
  rewrite u32_mul_l. reflexivity.
Qed.

Lemma round20_eq (m : bytes) (s : Z) (st : Z * Z * Z) :
  cc.round20 m s st = CityHash.round20 m s st.
Proof.
  destruct st as [[h g] f]. unfold cc.round20, CityHash.round20. cbv zeta.
  do 5 same_load. rewrite (u32_add_r _ (_ * 5)). unfold stir, scramble. reflexivity.
Qed.

Lemma rounds20_eq (n : nat) : ∀ (m : bytes) (s : Z) (st : Z * Z * Z),
  cc.rounds20 n m s st = CityHash.rounds20 n m s st.
Proof.
  induction n as [|n IH]; intros m s st; simpl; [done|].
  rewrite round20_eq. same_load. apply IH.
Qed.

Lemma Hash32_eq (m : bytes) (s len : Z) : cc.Hash32 m s len = CityHash32 m s len.
Proof.
  unfold cc.Hash32, CityHash32. rewrite Len5to12_eq. cbv zeta.
  rewrite u32_mul_r.
  destruct (len <=? 24); [reflexivity|]. do 5 same_load. rewrite rounds20_eq.
  unfold stir, scramble. reflexivity.
Qed.

Lemma murmur_loop_eq (fuel : nat) : ∀ (m : bytes) (s l a b c d : Z),
  cc.murmur_loop fuel m s l a b c d = CityHash.murmur_loop fuel m s (l + 16) a b c d.
Proof.
  induction fuel as [|fuel IH]; intros m s l a b c d; simpl; [done|].
  do 2 same_load. rewrite IH.
  replace (l + 16 - 16) with l by lia. replace (l - 16 + 16) with l by lia.
  replace (16 <? l) with (0 <? l - 16); [done|].
  destruct (Z.ltb_spec 0 (l - 16)), (Z.ltb_spec 16 l); lia.
Qed.

Lemma CityMurmur_eq (m : bytes) (s len : Z) (seed : Z * Z) :
  cc.CityMurmur m s len seed = CityHash.CityMurmur m s len seed.
Proof.
  unfold cc.CityMurmur, CityHash.CityMurmur. cbv zeta.
  replace (len - 16 <=? 0) with (len <=? 16)
    by (destruct (Z.leb_spec len 16), (Z.leb_spec (len - 16) 0); lia).
  destruct (len <=? 16); [reflexivity|]. rewrite !bind_assoc. same_load.
  rewrite !bind_assoc. same_load.
  rewrite murmur_loop_eq. by replace (len - 16 + 16) with len by lia.
Qed.

Lemma CityHash128WithSeed_eq (m : bytes) (s len : Z) (seed : Z * Z) :
  cc.CityHash128WithSeed m s len seed = CityHash.CityHash128WithSeed m s len seed.
Proof.
  unfold cc.CityHash128WithSeed, CityHash.CityHash128WithSeed.
  rewrite CityMurmur_eq. reflexivity.
Qed.

Lemma Fingerprint128_eq (m : bytes) (s len : Z) :
  cc.CityHash128 m s len = CityHash.CityHash128 m s len.
Proof.
  unfold cc.CityHash128, CityHash.CityHash128.
  destruct (16 <=? len); [do 2 same_load|]; apply CityHash128WithSeed_eq.
Qed.

(** C13: The comment that opens [farmhashcc] is true: its 32-bit hash is
    CityHash32 and its 128-bit hashes are CityHash128 and CityHash128WithSeed,
    for every object, every offset and every length, reads outside the object
    included - although it computes [b] and [g] from the untruncated length,
    counts [CityMurmur]'s loop down in a signed counter that starts 16 lower,
    and writes the mixing of a round step by step. *)
Theorem farmhashcc_is_CityHash (m : bytes) (s len : Z) (seed : Z * Z) :
  cc.Hash32 m s len = CityHash32 m s len ∧
  cc.Fingerprint128 m s len = CityHash.CityHash128 m s len ∧
  cc.CityHash128WithSeed m s len seed = CityHash.CityHash128WithSeed m s len seed.
Proof.
  split_and!; [apply Hash32_eq|apply Fingerprint128_eq|apply CityHash128WithSeed_eq].
Qed.

End CCEquiv.
