(* ===== verification/FarmHash64.v ===== *)
(** * FarmHash: the 64-bit string hashes

    [src/util/hash/farmhash.cpp]: the portable hashes [farmhashna],
    [farmhashuo] and [farmhashxo], and that they and the 32-bit hash of
    [FarmHash32] load only inside the key. The building blocks that the file
    shares with CityHash literally are the definitions of [CityHash]. *)
From S2P Require Import Prelude CityHash FarmHash32.

Import CityHash.
#[local] Open Scope word_scope.

(** ** farmhashna *)
Module na.

Definition HashLen33to64 (m : bytes) (s len : Z) : outcome Z :=
  let mul := k2 +! len * 2 in
  a0 ← Fetch64 m s;
  let a := a0 *! k2 in
  b ← Fetch64 m (s + 8);
  c0 ← Fetch64 m (s + len - 8);
  let c := c0 *! mul in
  d0 ← Fetch64 m (s + len - 16);
  let d := d0 *! k2 in
  let y := Rotate (a +! b) 43 +! Rotate c 30 +! d in
  let z := HashLen16_mul y (a +! Rotate (b +! k2) 18 +! c) mul in
  e0 ← Fetch64 m (s + 16);
  let e := e0 *! mul in
  f ← Fetch64 m (s + 24);
  g0 ← Fetch64 m (s + len - 32);
  let g := (y +! g0) *! mul in
  h0 ← Fetch64 m (s + len - 24);
  let h := (z +! h0) *! mul in
  Done (HashLen16_mul (Rotate (e +! f) 43 +! Rotate g 30 +! h)
                      (e +! Rotate (f +! a) 18 +! g) mul).

(** The step on the last 64 bytes, with its own multiplier. *)
Definition last_chunk (m : bytes) (s mul : Z) (st : Loop) : outcome Loop :=
  let '(mkLoop x y z v w) := st in
  f8 ← Fetch64 m (s + 8);
  let x := Rotate (x +! y +! v.1 +! f8) 37 *! mul in
  f48 ← Fetch64 m (s + 48);
  let y := Rotate (y +! v.2 +! f48) 42 *! mul in
  let x := x ^! (w.2 *! 9) in
  f40 ← Fetch64 m (s + 40);
  let y := y +! (v.1 *! 9 +! f40) in
  let z := Rotate (z +! w.1) 33 *! mul in
  v' ← WeakHashLen32WithSeeds m s (v.2 *! mul) (x +! w.1);
  f16 ← Fetch64 m (s + 16);
  w' ← WeakHashLen32WithSeeds m (s + 32) (z +! w.2) (y +! f16);
  Done (mkLoop z y x v' w').

Definition Hash64 (m : bytes) (s len : Z) : outcome Z :=
  let seed := 81 in
  if len <=? 32 then
    if len <=? 16 then HashLen0to16 m s len else HashLen17to32 m s len
  else if len <=? 64 then HashLen33to64 m s len
  else
    let x := seed in
    let y := seed *! k1 +! 113 in
    let z := ShiftMix (y *! k2 +! 113) *! k2 in
    x0 ← Fetch64 m s;
    let x := x *! k2 +! x0 in
    let n := (len - 1) / 64 in
    let end_ := s + n * 64 in
    let last64 := end_ + Z.land (len - 1) 63 - 63 in
    _ ← cassert (s + len - 64 =? last64);
    '(mkLoop x y z v w) ←
      chunks64 (Z.to_nat n) m s (mkLoop x y z (0, 0) (0, 0));
    let mul := k1 +! Z.shiftl (Z.land z 0xff) 1 in
    let w1 := w.1 +! Z.land (len - 1) 63 in
    let v := (v.1 +! w1, v.2) in
    let w := (w1 +! v.1, w.2) in
    '(mkLoop x y z v w) ← last_chunk m last64 mul (mkLoop x y z v w);
    Done (HashLen16_mul (HashLen16_mul v.1 w.1 mul +! ShiftMix y *! k0 +! z)
                        (HashLen16_mul v.2 w.2 mul +! x) mul).

Definition Hash64WithSeeds (m : bytes) (s len seed0 seed1 : Z) : outcome Z :=
  h ← Hash64 m s len; Done (HashLen16 (h -! seed0) seed1).

Definition Hash64WithSeed (m : bytes) (s len seed : Z) : outcome Z :=
  Hash64WithSeeds m s len k2 seed.

End na.

(** ** farmhashuo *)
Module uo.

Definition H (x y mul r : Z) : Z :=
  let a := (x ^! y) *! mul in
  let a := a ^! (a >>! 47) in
  let b := (y ^! a) *! mul in
  Rotate b r *! mul.

(** 64 bytes of state: u, v, w, x, y and z. *)
Record Loop6 : Type := mkLoop6 {
  lu : Z; l6x : Z; l6y : Z; l6z : Z; l6v : Z * Z; l6w : Z * Z
}.

Definition step (m : bytes) (s mul : Z) (st : Loop6) : outcome Loop6 :=
  let '(mkLoop6 u x y z v w) := st in
  a0 ← Fetch64 m s;
  a1 ← Fetch64 m (s + 8);
  a2 ← Fetch64 m (s + 16);
  a3 ← Fetch64 m (s + 24);
  a4 ← Fetch64 m (s + 32);
  a5 ← Fetch64 m (s + 40);
  a6 ← Fetch64 m (s + 48);
  a7 ← Fetch64 m (s + 56);
  let x := x +! (a0 +! a1) in
  let y := y +! a2 in
  let z := z +! a3 in
  let v1 := v.1 +! a4 in
  let v2 := v.2 +! (a5 +! a1) in
  let w1 := w.1 +! a6 in
  let w2 := w.2 +! a7 in
  let x := Rotate x 26 in
  let x := x *! 9 in
  let y := Rotate y 29 in
  let z := z *! mul in
  let v1 := Rotate v1 33 in
  let v2 := Rotate v2 30 in
  let w1 := w1 ^! x in
  let w1 := w1 *! 9 in
  let z := Rotate z 32 in
  let z := z +! w2 in
  let w2 := w2 +! z in
  let z := z *! 9 in
  let '(u, y) := (y, u) in
  let z := z +! (a0 +! a6) in
  let v1 := v1 +! a2 in
  let v2 := v2 +! a3 in
  let w1 := w1 +! a4 in
  let w2 := w2 +! (a5 +! a6) in
  let x := x +! a1 in
  let y := y +! a7 in
  let y := y +! v1 in
  let v1 := v1 +! (x -! y) in
  let v2 := v2 +! w1 in
  let w1 := w1 +! v2 in
  let w2 := w2 +! (x -! y) in
  let x := x +! w2 in
  let w2 := Rotate w2 34 in
  let '(u, z) := (z, u) in
  Done (mkLoop6 u x y z (v1, v2) (w1, w2)).

Fixpoint steps (n : nat) (m : bytes) (s mul : Z) (st : Loop6) : outcome Loop6 :=
  match n with
  | O => Done st
  | S n' => st' ← step m s mul st; steps n' m (s + 64) mul st'
  end.

Definition Hash64WithSeeds (m : bytes) (s len seed0 seed1 : Z) : outcome Z :=
  if len <=? 64 then na.Hash64WithSeeds m s len seed0 seed1
  else
    let x := seed0 in
    let y := seed1 *! k2 +! 113 in
    let z := ShiftMix (y *! k2) *! k2 in
    let v := (seed0, seed1) in
    let w := (0, 0) in
    let u := x -! z in
    let x := x *! k2 in
    let mul := k2 +! Z.land u 0x82 in
    let n := (len - 1) / 64 in
    let end_ := s + n * 64 in
    let last64 := end_ + Z.land (len - 1) 63 - 63 in
    _ ← cassert (s + len - 64 =? last64);
    '(mkLoop6 u x y z v w) ←
      steps (Z.to_nat n) m s mul (mkLoop6 u x y z v w);
    let s := last64 in
    let u := u *! 9 in
    let v := (Rotate v.1 20, Rotate v.2 28) in
    let w := (w.1 +! Z.land (len - 1) 63, w.2) in
    let u := u +! y in
    let y := y +! u in
    f8 ← Fetch64 m (s + 8);
    let x := Rotate (y -! x +! v.1 +! f8) 37 *! mul in
    f48 ← Fetch64 m (s + 48);
    let y := Rotate (y ^! v.2 ^! f48) 42 *! mul in
    let x := x ^! (w.2 *! 9) in
    f40 ← Fetch64 m (s + 40);
    let y := y +! (v.1 +! f40) in
    let z := Rotate (z +! w.1) 33 *! mul in
    v ← WeakHashLen32WithSeeds m s (v.2 *! mul) (x +! w.1);
    f16 ← Fetch64 m (s + 16);
    w ← WeakHashLen32WithSeeds m (s + 32) (z +! w.2) (y +! f16);
    Done (H (HashLen16_mul (v.1 +! x) (w.1 ^! y) mul +! z -! u)
            (H (v.2 +! y) (w.2 +! z) k2 30 ^! x) k2 31).

Definition Hash64WithSeed (m : bytes) (s len seed : Z) : outcome Z :=
  if len <=? 64 then na.Hash64WithSeed m s len seed
  else Hash64WithSeeds m s len 0 seed.

Definition Hash64 (m : bytes) (s len : Z) : outcome Z :=
  if len <=? 64 then na.Hash64 m s len else Hash64WithSeeds m s len 81 0.

End uo.

(** ** farmhashxo *)
Module xo.

Definition H32 (m : bytes) (s len mul seed0 seed1 : Z) : outcome Z :=
  a0 ← Fetch64 m s;
  let a := a0 *! k1 in
  b ← Fetch64 m (s + 8);
  c0 ← Fetch64 m (s + len - 8);
  let c := c0 *! mul in
  d0 ← Fetch64 m (s + len - 16);
  let d := d0 *! k2 in
  let u := Rotate (a +! b) 43 +! Rotate c 30 +! d +! seed0 in
  let v := a +! Rotate (b +! k2) 18 +! c +! seed1 in
  let a := ShiftMix ((u ^! v) *! mul) in
  let b := ShiftMix ((v ^! a) *! mul) in
  Done b.

Definition HashLen33to64 (m : bytes) (s len : Z) : outcome Z :=
  let mul0 := k2 -! 30 in
  let mul1 := k2 -! 30 +! 2 * len in
  h0 ← H32 m s 32 mul0 0 0;
  h1 ← H32 m (s + len - 32) 32 mul1 0 0;
  Done ((h1 *! mul1 +! h0) *! mul1).

Definition HashLen65to96 (m : bytes) (s len : Z) : outcome Z :=
  let mul0 := k2 -! 114 in
  let mul1 := k2 -! 114 +! 2 * len in
  h0 ← H32 m s 32 mul0 0 0;
  h1 ← H32 m (s + 32) 32 mul1 0 0;
  h2 ← H32 m (s + len - 32) 32 mul1 h0 h1;
  Done ((h2 *! 9 +! (h0 >>! 17) +! (h1 >>! 21)) *! mul1).

Definition Hash64 (m : bytes) (s len : Z) : outcome Z :=
  if len <=? 32 then
    if len <=? 16 then HashLen0to16 m s len else HashLen17to32 m s len
  else if len <=? 64 then HashLen33to64 m s len
  else if len <=? 96 then HashLen65to96 m s len
  else if len <=? 256 then na.Hash64 m s len
  else uo.Hash64 m s len.

Definition Hash64WithSeeds (m : bytes) (s len seed0 seed1 : Z) : outcome Z :=
  uo.Hash64WithSeeds m s len seed0 seed1.

Definition Hash64WithSeed (m : bytes) (s len seed : Z) : outcome Z :=
  uo.Hash64WithSeed m s len seed.

End xo.

Module FarmHash64.
(** ** Memory safety *)

(** The [assert] on where the last 64 bytes start holds, and they are inside. *)
Lemma last64_eq (s len : Z) :
  64 < len → s + (len - 1) / 64 * 64 + Z.land (len - 1) 63 - 63 = s + len - 64.
Proof.
  intros H. change 63 with (Z.ones 6) at 1. rewrite Z.land_ones by lia.
  change (2 ^ 6) with 64. pose proof (Z.div_mod (len - 1) 64 ltac:(lia)). lia.
Qed.

Lemma chunk_count (len : Z) :
  64 < len → 0 ≤ (len - 1) / 64 ∧ 64 * ((len - 1) / 64) < len.
Proof.
  intros H. pose proof (Z.mul_div_le (len - 1) 64 ltac:(lia)).
  pose proof (Z.div_pos (len - 1) 64 ltac:(lia) ltac:(lia)). lia.
Qed.

Section Safety.
Context (m : bytes).

Ltac weak_step := apply wp_bind; apply wp_WeakHash; [lia|lia|intros ?]; cbv zeta.
Ltac assert_step :=
  rewrite last64_eq by lia; rewrite Z.eqb_refl; cbn [cassert guard_fault];
  rewrite bind_Done_l; cbv zeta.

Lemma wp_na_Hash64 (s len : Z) :
  0 ≤ s → 0 ≤ len → s + len ≤ zlen m → wp (na.Hash64 m s len) (is_u 64).
Proof.
  intros Hs Hlen Hl. unfold na.Hash64. cbv zeta.
  destruct (Z.leb_spec len 32).
  { destruct (Z.leb_spec len 16); [apply wp_HashLen0to16; lia|].
    unfold HashLen17to32. loads. apply is_u_u64. }
  destruct (Z.leb_spec len 64); [unfold na.HashLen33to64; loads; apply is_u_u64|].
  destruct (chunk_count len ltac:(lia)).
  loads. assert_step.
  apply wp_bind, wp_chunks64; [done|lia|]. intros [x1 y1 z1 v1 w1].
  apply wp_bind. unfold na.last_chunk. loads.
  do 2 (try load_step; weak_step). apply is_u_u64.
Qed.

Lemma wp_na_seeds (s len a b : Z) :
  0 ≤ s → 0 ≤ len → s + len ≤ zlen m →
  wp (na.Hash64WithSeeds m s len a b) (is_u 64).
Proof.
  intros. apply wp_bind. eapply wp_mono; [by apply wp_na_Hash64|].
  intros h _. apply is_u_u64.
Qed.

Lemma wp_steps (n : nat) : ∀ (s mul : Z) (st : uo.Loop6) (P : uo.Loop6 → Prop),
  0 ≤ s → s + 64 * Z.of_nat n ≤ zlen m → (∀ st', P st') → wp (uo.steps n m s mul st) P.
Proof.
  induction n as [|n IH]; intros s mul st P Hs Hl HP; simpl; [apply HP|].
  apply wp_bind. destruct st as [u x y z v vw]. unfold uo.step. loads.
  apply IH; [lia|lia|done].
Qed.

Lemma wp_uo_seeds (s len a b : Z) :
  0 ≤ s → 0 ≤ len → s + len ≤ zlen m →
  wp (uo.Hash64WithSeeds m s len a b) (is_u 64).
Proof.
  intros Hs Hlen Hl. unfold uo.Hash64WithSeeds. cbv zeta.
  destruct (Z.leb_spec len 64); [by apply wp_na_seeds|].
  destruct (chunk_count len ltac:(lia)).
  assert_step. apply wp_bind, wp_steps; [done|lia|]. intros [u1 x1 y1 z1 v1 w1].
  loads. weak_step. load_step. weak_step. apply is_u_u64.
Qed.

Lemma wp_uo_Hash64 (s len : Z) :
  0 ≤ s → 0 ≤ len → s + len ≤ zlen m → wp (uo.Hash64 m s len) (is_u 64).
Proof.
  intros. unfold uo.Hash64.
  destruct (len <=? 64); [by apply wp_na_Hash64|by apply wp_uo_seeds].
Qed.

Lemma wp_mk_13to24 (s len seed : Z) :
  0 ≤ s → 13 ≤ len ≤ 24 → s + len ≤ zlen m →
  wp (mk.Hash32Len13to24 m s len seed) (is_u 32).
Proof.
  intros Hs Hlen Hl. pose proof (shiftr1_bounds len).
  unfold mk.Hash32Len13to24. loads. apply fmix_range, is_u_u32.
Qed.

Lemma wp_mk_5to12 (s len seed : Z) :
  0 ≤ s → 5 ≤ len ≤ 12 → s + len ≤ zlen m → is_u 32 seed →
  wp (mk.Hash32Len5to12 m s len seed) (is_u 32).
Proof.
  intros Hs Hlen Hl Hseed. pose proof (quarter_step len ltac:(lia)).
  unfold mk.Hash32Len5to12. loads.
  apply fmix_range, is_u_lxor; [lia|done|apply is_u_u32].
Qed.

Lemma wp_mk_0to4 (s len seed : Z) :
  0 ≤ s → 0 ≤ len → s + len ≤ zlen m →
  wp (mk.Hash32Len0to4 m s len seed) (is_u 32).
Proof.
  intros Hs Hlen Hl. unfold mk.Hash32Len0to4. rewrite decide_True by lia.
  unfold view. rewrite decide_True by (unfold zlen in *; lia). simpl.
  destruct (foldl _ _ _). apply fmix_range, is_u_u32.
Qed.

Lemma wp_mk_rounds20 (n : nat) : ∀ (s : Z) (st : Z * Z * Z) (P : Z * Z * Z → Prop),
  0 ≤ s → s + 20 * Z.of_nat n ≤ zlen m → (∀ r, P r) → wp (mk.rounds20 n m s st) P.
Proof.
  induction n as [|n IH]; intros s st P Hs Hl HP; simpl; [apply HP|].
  apply wp_bind. destruct st as [[h g] f]. unfold mk.round20. loads.
  apply IH; [lia|lia|done].
Qed.

Lemma wp_mk_Hash32 (s len : Z) :
  0 ≤ s → 0 ≤ len → s + len ≤ zlen m → wp (mk.Hash32 m s len) (is_u 32).
Proof.
  intros Hs Hlen Hl. unfold mk.Hash32.
  destruct (Z.leb_spec len 24).
  { destruct (Z.leb_spec len 12); [|apply wp_mk_13to24; lia].
    destruct (Z.leb_spec len 4); [by apply wp_mk_0to4|].
    apply wp_mk_5to12; [lia|lia|lia|done]. }
  loads. apply wp_bind, wp_mk_rounds20; [lia| |intros [[]]; apply is_u_u32].
  pose proof (Z.mul_div_le (len - 1) 20 ltac:(lia)).
  pose proof (Z.div_pos (len - 1) 20 ltac:(lia) ltac:(lia)). lia.
Qed.

Lemma wp_mk_Hash32WithSeed (s len seed : Z) :
  0 ≤ s → 0 ≤ len → s + len ≤ zlen m → is_u 32 seed →
  wp (mk.Hash32WithSeed m s len seed) (is_u 32).
Proof.
  intros Hs Hlen Hl Hseed. unfold mk.Hash32WithSeed.
  destruct (Z.leb_spec len 24).
  { destruct (Z.leb_spec 13 len); [apply wp_mk_13to24; lia|].
    destruct (Z.leb_spec 5 len); [apply wp_mk_5to12; lia || done|].
    apply wp_mk_0to4; lia. }
  apply wp_bind. eapply wp_mono; [apply wp_mk_13to24; lia|]. intros h _.
  apply wp_bind. eapply wp_mono; [apply wp_mk_Hash32; lia|]. intros t _.
  apply is_u_u32.
Qed.

Lemma wp_H32 (s mul a b : Z) (P : Z → Prop) :
  0 ≤ s → s + 32 ≤ zlen m → (∀ h, P h) → wp (xo.H32 m s 32 mul a b) P.
Proof. intros Hs Hl HP. unfold xo.H32. loads. apply HP. Qed.

Lemma wp_xo_Hash64 (s len : Z) :
  0 ≤ s → 0 ≤ len → s + len ≤ zlen m → wp (xo.Hash64 m s len) (is_u 64).
Proof.
  intros Hs Hlen Hl. unfold xo.Hash64.
  destruct (Z.leb_spec len 32).
  { destruct (Z.leb_spec len 16); [apply wp_HashLen0to16; lia|].
    unfold HashLen17to32. loads. apply is_u_u64. }
  destruct (Z.leb_spec len 64).
  { unfold xo.HashLen33to64. do 2 (apply wp_bind, wp_H32; [lia|lia|intros ?]).
    apply is_u_u64. }
  destruct (Z.leb_spec len 96).
  { unfold xo.HashLen65to96. do 3 (apply wp_bind, wp_H32; [lia|lia|intros ?]).
    apply is_u_u64. }
  destruct (len <=? 256); [by apply wp_na_Hash64|by apply wp_uo_Hash64].
Qed.
End Safety.

End FarmHash64.
