(* ===== verification/FarmHashSimd.v ===== *)
(** * FarmHash: the string hashes made of vector instructions

    [src/util/hash/farmhash.cpp]: namespaces [farmhashte] and [farmhashnt] (SSE
    4.1 on x86-64), [farmhashsu] (SSE 4.2 and AES) and [farmhashsa] (SSE 4.2),
    and what they are in a build without those. The instructions are an
    interface, with the width of a vector as its only law; [Vec] implements it
    for the witnesses, and for the self-tests of [FarmHashTest]. *)
From S2P Require Import Prelude Crc32 CityHash FarmHash32 FarmHash64.

Import CityHash FarmHash64.
#[local] Open Scope word_scope.

(** ** The instructions *)

(** [M] is the type [__m128i]. A vector is loaded from its sixteen bytes, and
    [bytes_of] are those it has in memory. *)
Class Simd (M : Type) : Type := {
  _mm_loadu_si128 : bytes → M;
  bytes_of : M → bytes;
  _mm_set_epi8 : list Z → M;
  _mm_set1_epi32 : Z → M;
  _mm_cvtsi64_si128 : Z → M;
  _mm_add_epi64 : M → M → M;
  _mm_add_epi32 : M → M → M;
  _mm_xor_si128 : M → M → M;
  _mm_or_si128 : M → M → M;
  _mm_mullo_epi32 : M → M → M;
  _mm_shuffle_epi8 : M → M → M;
  _mm_shuffle_epi32 : M → Z → M;
  _mm_slli_epi32 : M → Z → M;
  _mm_srli_epi32 : M → Z → M;
  _mm_aesimc_si128 : M → M;
  _mm_crc32_u32 : Z → Z → Z
}.

Class SimdLaws (M : Type) `{Simd M} : Prop := {
  bytes_of_length : ∀ x, length (bytes_of x) = 16%nat;
  crc32_u32_range : ∀ crc v, is_u 32 (_mm_crc32_u32 crc v)
}.

(** What the compiler is told about the processor. *)
Record Build : Type := mkBuild {
  x86_64 : bool;
  can_use_sse41 : bool;
  can_use_sse42 : bool;
  can_use_aesni : bool
}.

(** Each namespace that the build has no instructions for writes to one of the
    first addresses. *)
Definition FARMHASH_DIE_IF_MISCONFIGURED (configured : bool) : outcome unit :=
  guard_fault configured OutOfBounds.

Definition Fetch128 {M : Type} `{Simd M} (m : bytes) (s : Z) : outcome M :=
  data ← (if decide (0 ≤ s) then view m (Z.to_nat s) 16 else Fault OutOfBounds);
  Done (_mm_loadu_si128 data).

Lemma wp_Fetch128 {M : Type} `{Simd M} (m : bytes) (s : Z) (P : M → Prop) :
  0 ≤ s → s + 16 ≤ zlen m → (∀ z, P z) → wp (Fetch128 m s) P.
Proof.
  intros Hs Hl HP. unfold Fetch128, view, zlen in *. rewrite !decide_True by lia. apply HP.
Qed.

(** An array of vectors in memory. *)
Definition vectors {M : Type} `{Simd M} (t : list M) : bytes := mjoin (bytes_of <$> t).

Lemma vectors_length {M : Type} `{SimdLaws M} (t : list M) :
  length (vectors t) = (16 * length t)%nat.
Proof.
  induction t as [|x t IH]; [done|].
  change (vectors (x :: t)) with (bytes_of x ++ vectors t).
  rewrite length_app, bytes_of_length, IH. cbn [length]. lia.
Qed.

(** ** farmhashte *)
Module te.
Section te.
Context {M : Type} `{Simd M} (b : Build).

Definition configured : bool := can_use_sse41 b && x86_64 b.

Definition Add (x y : M) : M := _mm_add_epi64 x y.
Definition Xor (x y : M) : M := _mm_xor_si128 x y.
Definition Mul (x y : M) : M := _mm_mullo_epi32 x y.
Definition Shuf (x y : M) : M := _mm_shuffle_epi8 y x.

Definition kShuf : M :=
  _mm_set_epi8 [4; 11; 10; 5; 8; 15; 6; 9; 12; 2; 14; 13; 0; 7; 3; 1].
Definition kMult : M :=
  _mm_set_epi8 [0xbd; 0xd6; 0x33; 0x39; 0x45; 0x54; 0xfa; 0x03;
                0x34; 0x3e; 0x33; 0xed; 0xcc; 0x9e; 0x2d; 0x51].

(** The twelve vectors of state. *)
Record Lanes : Type := mkLanes {
  l0 : M; l1 : M; l2 : M; l3 : M; l4 : M; l5 : M;
  l6 : M; l7 : M; l8 : M; l9 : M; l10 : M; l11 : M
}.

Definition lanes (seed0 seed1 : Z) : Lanes :=
  let seed2 := (seed0 +! 113) *! (seed1 +! 9) in
  let seed3 := (Rotate seed0 23 +! 27) *! (Rotate seed1 30 +! 111) in
  let d0 := _mm_cvtsi64_si128 seed0 in
  let d1 := _mm_cvtsi64_si128 seed1 in
  let d2 := Shuf kShuf d0 in
  let d3 := Shuf kShuf d1 in
  let d4 := Xor d0 d1 in
  let d5 := Xor d1 d2 in
  let d6 := Xor d2 d4 in
  let d7 := _mm_set1_epi32 (u32 (seed2 >>! 32)) in
  let d8 := Mul kMult d2 in
  let d9 := _mm_set1_epi32 (u32 (seed3 >>! 32)) in
  let d10 := _mm_set1_epi32 (u32 seed3) in
  let d11 := Add d2 (_mm_set1_epi32 (u32 seed2)) in
  mkLanes d0 d1 d2 d3 d4 d5 d6 d7 d8 d9 d10 d11.

(** The loop takes in sixteen vectors, each in its own way. *)
Definition mix0 (z : M) (st : Lanes) : Lanes :=
  let '(mkLanes d0 d1 d2 d3 d4 d5 d6 d7 d8 d9 d10 d11) := st in
  let d0 := Add d0 z in
  let d1 := Shuf kShuf d1 in
  let d2 := Xor d2 d0 in
  let d4 := Xor d4 z in
  let d4 := Xor d4 d1 in
  let '(d0, d6) := (d6, d0) in
  mkLanes d0 d1 d2 d3 d4 d5 d6 d7 d8 d9 d10 d11.

Definition mix16 (z : M) (st : Lanes) : Lanes :=
  let '(mkLanes d0 d1 d2 d3 d4 d5 d6 d7 d8 d9 d10 d11) := st in
  let d5 := Add d5 z in
  let d6 := Shuf kShuf d6 in
  let d8 := Shuf kShuf d8 in
  let d7 := Xor d7 d5 in
  let d0 := Xor d0 z in
  let d0 := Xor d0 d6 in
  let '(d5, d11) := (d11, d5) in
  mkLanes d0 d1 d2 d3 d4 d5 d6 d7 d8 d9 d10 d11.

Definition mix32 (z : M) (st : Lanes) : Lanes :=
  let '(mkLanes d0 d1 d2 d3 d4 d5 d6 d7 d8 d9 d10 d11) := st in
  let d1 := Add d1 z in
  let d2 := Shuf kShuf d2 in
  let d4 := Shuf kShuf d4 in
  let d5 := Xor d5 z in
  let d5 := Xor d5 d2 in
  let '(d10, d4) := (d4, d10) in
  mkLanes d0 d1 d2 d3 d4 d5 d6 d7 d8 d9 d10 d11.

Definition mix48 (z : M) (st : Lanes) : Lanes :=
  let '(mkLanes d0 d1 d2 d3 d4 d5 d6 d7 d8 d9 d10 d11) := st in
  let d6 := Add d6 z in
  let d7 := Shuf kShuf d7 in
  let d0 := Shuf kShuf d0 in
  let d8 := Xor d8 d6 in
  let d1 := Xor d1 z in
  let d1 := Add d1 d7 in
  mkLanes d0 d1 d2 d3 d4 d5 d6 d7 d8 d9 d10 d11.

Definition mix64 (z : M) (st : Lanes) : Lanes :=
  let '(mkLanes d0 d1 d2 d3 d4 d5 d6 d7 d8 d9 d10 d11) := st in
  let d2 := Add d2 z in
  let d5 := Shuf kShuf d5 in
  let d4 := Add d4 d2 in
  let d6 := Xor d6 z in
  let d6 := Xor d6 d11 in
  let '(d8, d2) := (d2, d8) in
  mkLanes d0 d1 d2 d3 d4 d5 d6 d7 d8 d9 d10 d11.

Definition mix80 (z : M) (st : Lanes) : Lanes :=
  let '(mkLanes d0 d1 d2 d3 d4 d5 d6 d7 d8 d9 d10 d11) := st in
  let d7 := Xor d7 z in
  let d8 := Shuf kShuf d8 in
  let d1 := Shuf kShuf d1 in
  let d0 := Add d0 d7 in
  let d2 := Add d2 z in
  let d2 := Add d2 d8 in
  let '(d1, d7) := (d7, d1) in
  mkLanes d0 d1 d2 d3 d4 d5 d6 d7 d8 d9 d10 d11.

Definition mix96 (z : M) (st : Lanes) : Lanes :=
  let '(mkLanes d0 d1 d2 d3 d4 d5 d6 d7 d8 d9 d10 d11) := st in
  let d4 := Shuf kShuf d4 in
  let d6 := Shuf kShuf d6 in
  let d8 := Mul kMult d8 in
  let d5 := Xor d5 d11 in
  let d7 := Xor d7 z in
  let d7 := Add d7 d4 in
  let '(d6, d0) := (d0, d6) in
  mkLanes d0 d1 d2 d3 d4 d5 d6 d7 d8 d9 d10 d11.

Definition mix112 (z : M) (st : Lanes) : Lanes :=
  let '(mkLanes d0 d1 d2 d3 d4 d5 d6 d7 d8 d9 d10 d11) := st in
  let d8 := Add d8 z in
  let d0 := Shuf kShuf d0 in
  let d2 := Shuf kShuf d2 in
  let d1 := Xor d1 d8 in
  let d10 := Xor d10 z in
  let d10 := Xor d10 d0 in
  let '(d11, d5) := (d5, d11) in
  mkLanes d0 d1 d2 d3 d4 d5 d6 d7 d8 d9 d10 d11.

Definition mix128 (z : M) (st : Lanes) : Lanes :=
  let '(mkLanes d0 d1 d2 d3 d4 d5 d6 d7 d8 d9 d10 d11) := st in
  let d4 := Add d4 z in
  let d5 := Shuf kShuf d5 in
  let d7 := Shuf kShuf d7 in
  let d6 := Add d6 d4 in
  let d8 := Xor d8 z in
  let d8 := Xor d8 d5 in
  let '(d4, d10) := (d10, d4) in
  mkLanes d0 d1 d2 d3 d4 d5 d6 d7 d8 d9 d10 d11.

Definition mix144 (z : M) (st : Lanes) : Lanes :=
  let '(mkLanes d0 d1 d2 d3 d4 d5 d6 d7 d8 d9 d10 d11) := st in
  let d0 := Add d0 z in
  let d1 := Shuf kShuf d1 in
  let d2 := Add d2 d0 in
  let d4 := Xor d4 z in
  let d4 := Xor d4 d1 in
  mkLanes d0 d1 d2 d3 d4 d5 d6 d7 d8 d9 d10 d11.

Definition mix160 (z : M) (st : Lanes) : Lanes :=
  let '(mkLanes d0 d1 d2 d3 d4 d5 d6 d7 d8 d9 d10 d11) := st in
  let d5 := Add d5 z in
  let d6 := Shuf kShuf d6 in
  let d8 := Shuf kShuf d8 in
  let d7 := Xor d7 d5 in
  let d0 := Xor d0 z in
  let d0 := Xor d0 d6 in
  let '(d2, d8) := (d8, d2) in
  mkLanes d0 d1 d2 d3 d4 d5 d6 d7 d8 d9 d10 d11.

Definition mix176 (z : M) (st : Lanes) : Lanes :=
  let '(mkLanes d0 d1 d2 d3 d4 d5 d6 d7 d8 d9 d10 d11) := st in
  let d1 := Add d1 z in
  let d2 := Shuf kShuf d2 in
  let d4 := Shuf kShuf d4 in
  let d5 := Mul kMult d5 in
  let d5 := Xor d5 z in
  let d5 := Xor d5 d2 in
  let '(d7, d1) := (d1, d7) in
  mkLanes d0 d1 d2 d3 d4 d5 d6 d7 d8 d9 d10 d11.

Definition mix192 (z : M) (st : Lanes) : Lanes :=
  let '(mkLanes d0 d1 d2 d3 d4 d5 d6 d7 d8 d9 d10 d11) := st in
  let d6 := Add d6 z in
  let d7 := Shuf kShuf d7 in
  let d0 := Shuf kShuf d0 in
  let d8 := Add d8 d6 in
  let d1 := Xor d1 z in
  let d1 := Xor d1 d7 in
  let '(d0, d6) := (d6, d0) in
  mkLanes d0 d1 d2 d3 d4 d5 d6 d7 d8 d9 d10 d11.

Definition mix208 (z : M) (st : Lanes) : Lanes :=
  let '(mkLanes d0 d1 d2 d3 d4 d5 d6 d7 d8 d9 d10 d11) := st in
  let d2 := Add d2 z in
  let d5 := Shuf kShuf d5 in
  let d4 := Xor d4 d2 in
  let d6 := Xor d6 z in
  let d6 := Xor d6 d9 in
  let '(d5, d11) := (d11, d5) in
  mkLanes d0 d1 d2 d3 d4 d5 d6 d7 d8 d9 d10 d11.

Definition mix224 (z : M) (st : Lanes) : Lanes :=
  let '(mkLanes d0 d1 d2 d3 d4 d5 d6 d7 d8 d9 d10 d11) := st in
  let d7 := Add d7 z in
  let d8 := Shuf kShuf d8 in
  let d1 := Shuf kShuf d1 in
  let d0 := Xor d0 d7 in
  let d2 := Xor d2 z in
  let d2 := Xor d2 d8 in
  let '(d10, d4) := (d4, d10) in
  mkLanes d0 d1 d2 d3 d4 d5 d6 d7 d8 d9 d10 d11.

Definition mix240 (z : M) (st : Lanes) : Lanes :=
  let '(mkLanes d0 d1 d2 d3 d4 d5 d6 d7 d8 d9 d10 d11) := st in
  let d3 := Add d3 z in
  let d4 := Shuf kShuf d4 in
  let d6 := Shuf kShuf d6 in
  let d7 := Mul kMult d7 in
  let d5 := Add d5 d3 in
  let d7 := Xor d7 z in
  let d7 := Xor d7 d4 in
  let '(d3, d9) := (d9, d3) in
  mkLanes d0 d1 d2 d3 d4 d5 d6 d7 d8 d9 d10 d11.

(** 256 bytes. *)
Definition round256 (m : bytes) (s : Z) (st : Lanes) : outcome Lanes :=
  z ← Fetch128 m s;
  let st := mix0 z st in
  z ← Fetch128 m (s + 16);
  let st := mix16 z st in
  z ← Fetch128 m (s + 32);
  let st := mix32 z st in
  z ← Fetch128 m (s + 48);
  let st := mix48 z st in
  z ← Fetch128 m (s + 64);
  let st := mix64 z st in
  z ← Fetch128 m (s + 80);
  let st := mix80 z st in
  z ← Fetch128 m (s + 96);
  let st := mix96 z st in
  z ← Fetch128 m (s + 112);
  let st := mix112 z st in
  z ← Fetch128 m (s + 128);
  let st := mix128 z st in
  z ← Fetch128 m (s + 144);
  let st := mix144 z st in
  z ← Fetch128 m (s + 160);
  let st := mix160 z st in
  z ← Fetch128 m (s + 176);
  let st := mix176 z st in
  z ← Fetch128 m (s + 192);
  let st := mix192 z st in
  z ← Fetch128 m (s + 208);
  let st := mix208 z st in
  z ← Fetch128 m (s + 224);
  let st := mix224 z st in
  z ← Fetch128 m (s + 240);
  let st := mix240 z st in
  Done st.

(** [do ... while (s != end)]. *)
Fixpoint rounds256 (fuel : nat) (m : bytes) (s end_ : Z) (st : Lanes) : outcome Lanes :=
  match fuel with
  | O => Fault NoReturn
  | S fuel' =>
      st ← round256 m s st;
      let s := s + 256 in
      if s =? end_ then Done st else rounds256 fuel' m s end_ st
  end.

(** The rest of the key, hashed, and the number of bytes. *)
Definition take_rest (m : bytes) (s n : Z) (st : Lanes) : outcome Lanes :=
  let '(mkLanes d0 d1 d2 d3 d4 d5 d6 d7 d8 d9 d10 d11) := st in
  let d6 := Add (Mul kMult d6) (_mm_cvtsi64_si128 n) in
  if negb (n mod 256 =? 0) then
    let d7 := Add (_mm_shuffle_epi32 d8 57) d7 in
    h ← xo.Hash64 m s (n mod 256);
    let d8 := Add (Mul kMult d8) (_mm_cvtsi64_si128 h) in
    Done (mkLanes d0 d1 d2 d3 d4 d5 d6 d7 d8 d9 d10 d11)
  else Done (mkLanes d0 d1 d2 d3 d4 d5 d6 d7 d8 d9 d10 d11).

(** The array that is hashed at last. *)
Definition last_vectors (st : Lanes) : list M :=
  let '(mkLanes d0 d1 d2 d3 d4 d5 d6 d7 d8 d9 d10 d11) := st in
  let d0 := Mul kMult (Shuf kShuf (Mul kMult d0)) in
  let d3 := Mul kMult (Shuf kShuf (Mul kMult d3)) in
  let d9 := Mul kMult (Shuf kShuf (Mul kMult d9)) in
  let d1 := Mul kMult (Shuf kShuf (Mul kMult d1)) in
  let d0 := Add d11 d0 in
  let d3 := Xor d7 d3 in
  let d9 := Add d8 d9 in
  let d1 := Add d10 d1 in
  let d4 := Add d3 d4 in
  let d5 := Add d9 d5 in
  let d6 := Xor d1 d6 in
  let d2 := Add d0 d2 in
  [d0; d3; d9; d1; d4; d5; d6; d2].

(** The loop ends at [end] when there are 256 bytes at least: it takes fewer
    rounds than the key has bytes. *)
Definition Hash64Long (m : bytes) (s n seed0 seed1 : Z) : outcome Z :=
  let end_ := s + Z.land n (Z.lnot 255) in
  st ← rounds256 (Z.to_nat n) m s end_ (lanes seed0 seed1);
  st ← take_rest m end_ n st;
  xo.Hash64 (vectors (last_vectors st)) 0 128.

Definition Hash64 (m : bytes) (s len : Z) : outcome Z :=
  _ ← FARMHASH_DIE_IF_MISCONFIGURED configured;
  if 512 <=? len then Hash64Long m s len k2 k1 else xo.Hash64 m s len.

Definition Hash64WithSeed (m : bytes) (s len seed : Z) : outcome Z :=
  _ ← FARMHASH_DIE_IF_MISCONFIGURED configured;
  if 512 <=? len then Hash64Long m s len k1 seed else xo.Hash64WithSeed m s len seed.

Definition Hash64WithSeeds (m : bytes) (s len seed0 seed1 : Z) : outcome Z :=
  _ ← FARMHASH_DIE_IF_MISCONFIGURED configured;
  if 512 <=? len then Hash64Long m s len seed0 seed1
  else xo.Hash64WithSeeds m s len seed0 seed1.

End te.
End te.

(** ** farmhashnt *)
Module nt.
Section nt.
Context {M : Type} `{Simd M} (b : Build).

Definition Hash32 (m : bytes) (s len : Z) : outcome Z :=
  _ ← FARMHASH_DIE_IF_MISCONFIGURED (te.configured b);
  h ← te.Hash64 b m s len; Done (u32 h).

Definition Hash32WithSeed (m : bytes) (s len seed : Z) : outcome Z :=
  _ ← FARMHASH_DIE_IF_MISCONFIGURED (te.configured b);
  h ← te.Hash64WithSeed b m s len seed; Done (u32 h).

End nt.
End nt.

(** ** farmhashsu *)
Module su.
Section su.
Context {M : Type} `{Simd M} (b : Build).

Definition configured : bool := can_use_sse42 b && can_use_aesni b.

Definition Add (x y : M) : M := _mm_add_epi32 x y.
Definition Xor (x y : M) : M := _mm_xor_si128 x y.
Definition Or (x y : M) : M := _mm_or_si128 x y.
Definition Mul (x y : M) : M := _mm_mullo_epi32 x y.
Definition Mul5 (x : M) : M := Add x (_mm_slli_epi32 x 2).
Definition RotateLeft (x : M) (c : Z) : M :=
  Or (_mm_slli_epi32 x c) (_mm_srli_epi32 x (32 - c)).
Definition Rol17 (x : M) : M := RotateLeft x 17.
Definition Rol19 (x : M) : M := RotateLeft x 19.
Definition Shuffle0321 (x : M) : M := _mm_shuffle_epi32 x 57.

Definition cc1 : M := _mm_set1_epi32 c1.
Definition cc2 : M := _mm_set1_epi32 c2.
Definition Mulc1 (x : M) : M := Mul x cc1.
Definition Mulc2 (x : M) : M := Mul x cc2.
Definition Murk (k a h : M) : M := Add k (Mul5 (Rol19 (Xor (Mulc2 (Rol17 (Mulc1 a))) h))).

Definition seed : Z := 81.

(** Keys of 25 to 39 bytes. *)
Definition Hash32Len25to39 (m : bytes) (s len : Z) : outcome Z :=
  let a := u32 len in
  let b := u32 (seed * c2) in
  let c := u32 (a + b) in
  f4 ← Fetch32 m (s + len - 4);
  let a := u32 (a + f4) in
  f20 ← Fetch32 m (s + len - 20);
  let b := u32 (b + f20) in
  f16 ← Fetch32 m (s + len - 16);
  let c := u32 (c + f16) in
  let d := a in
  let a := Rotate32 a 21 in
  let a := Mur a (Mur b (_mm_crc32_u32 c d)) in
  f12 ← Fetch32 m (s + len - 12);
  let a := u32 (a + f12) in
  f8 ← Fetch32 m (s + len - 8);
  let b := u32 (b + f8) in
  let d := u32 (d + a) in
  let a := u32 (a + d) in
  let b := u32 (Mur b d * c2) in
  let a := _mm_crc32_u32 a (u32 (b + c)) in
  t ← mk.Hash32Len13to24 m s ((len + 1) / 2) a;
  Done (u32 (t + b)).

(** The vectors of state. *)
Record Lanes : Type := mkLanes { f_ : M; g_ : M; h_ : M; k_ : M; q_ : M }.

Definition lanes : Lanes :=
  let h := _mm_set1_epi32 seed in
  let g := _mm_set1_epi32 (u32 (c1 * seed)) in
  let f := g in
  let k := _mm_set1_epi32 0xe6546b64 in
  let q := g in
  mkLanes f g h k q.

Definition mix_short (a b c d e len : M) (st : Lanes) : Lanes :=
  let '(mkLanes f g h k q) := st in
  let h := Add h a in
  let g := Add g b in
  let q := g in
  let g := Shuffle0321 g in
  let f := Add f c in
  let be := Add b (Mulc1 e) in
  let h := Add h f in
  let f := Add f h in
  let h := Add (Murk k d h) e in
  let k := Xor k (_mm_shuffle_epi8 g f) in
  let g := Add (Xor c g) a in
  let f := Add (Xor be f) d in
  let k := Add k be in
  let k := Add k (_mm_shuffle_epi8 f h) in
  let f := Add f g in
  let g := Add g f in
  let g := Add len (Mulc1 g) in
  mkLanes f g h k q.

(** Keys of 40 to 79 bytes. *)
Definition short_key (m : bytes) (s len : Z) (st : Lanes) : outcome Lanes :=
  a ← Fetch128 m s;
  b ← Fetch128 m (s + 16);
  c ← Fetch128 m (s + (len - 15) / 2);
  d ← Fetch128 m (s + len - 32);
  e ← Fetch128 m (s + len - 16);
  Done (mix_short a b c d e (_mm_set1_epi32 (u32 len)) st).

Definition mix (a b c d e : M) (st : Lanes) : Lanes :=
  let '(mkLanes f g h k q) := st in
  let h := Add h a in
  let g := Add g b in
  let g := Shuffle0321 g in
  let f := Add f c in
  let be := Add b (Mulc1 e) in
  let h := Add h f in
  let f := Add f h in
  let h := Add h d in
  let q := Add q e in
  let h := Rol17 h in
  let h := Mulc1 h in
  let k := Xor k (_mm_shuffle_epi8 g f) in
  let g := Add (Xor c g) a in
  let f := Add (Xor be f) d in
  let '(f, q) := (q, f) in
  let q := _mm_aesimc_si128 q in
  let k := Add k be in
  let k := Add k (_mm_shuffle_epi8 f h) in
  let f := Add f g in
  let g := Add g f in
  let f := Mulc1 f in
  mkLanes f g h k q.

(** 80 bytes. *)
Definition Chunk (m : bytes) (s : Z) (st : Lanes) : outcome Lanes :=
  a ← Fetch128 m s;
  b ← Fetch128 m (s + 16);
  c ← Fetch128 m (s + 32);
  d ← Fetch128 m (s + 48);
  e ← Fetch128 m (s + 64);
  Done (mix a b c d e st).

(** [while (iters-- != 0)]. *)
Fixpoint chunks80 (iters : nat) (m : bytes) (s : Z) (st : Lanes) : outcome (Z * Lanes) :=
  match iters with
  | O => Done (s, st)
  | S iters' => st ← Chunk m s st; chunks80 iters' m (s + 80) st
  end.

(** Keys of 80 bytes and more; the last 80 bytes are read again. *)
Definition long_key (m : bytes) (s len : Z) (st : Lanes) : outcome Lanes :=
  let iters := (len - 1) / 80 in
  let len := len - iters * 80 in
  '(s, st) ← chunks80 (Z.to_nat iters) m s st;
  if negb (len =? 0) then
    let '(mkLanes f g h k q) := st in
    let h := Add h (_mm_set1_epi32 (u32 len)) in
    Chunk m (s + len - 80) (mkLanes f g h k q)
  else Done st.

(** What is left in the buffer of four vectors, hashed word by word. *)
Definition digest (buf : bytes) : outcome Z :=
  x ← Fetch32 buf 0;
  y ← Fetch32 buf 4;
  z ← Fetch32 buf 8;
  w ← Fetch32 buf 12; let x := _mm_crc32_u32 x w in
  w ← Fetch32 buf 16; let y := _mm_crc32_u32 y w in
  w ← Fetch32 buf 20; let z := _mm_crc32_u32 (u32 (z * c1)) w in
  w ← Fetch32 buf 24; let x := _mm_crc32_u32 x w in
  w ← Fetch32 buf 28; let y := _mm_crc32_u32 (u32 (y * c1)) w in
  let o := y in
  w ← Fetch32 buf 32; let z := _mm_crc32_u32 z w in
  w ← Fetch32 buf 36; let x := _mm_crc32_u32 (u32 (x * c1)) w in
  w ← Fetch32 buf 40; let y := _mm_crc32_u32 y w in
  w ← Fetch32 buf 44; let z := _mm_crc32_u32 (u32 (z * c1)) w in
  w ← Fetch32 buf 48; let x := _mm_crc32_u32 x w in
  w ← Fetch32 buf 52; let y := _mm_crc32_u32 (u32 (y * c1)) w in
  w ← Fetch32 buf 56; let z := _mm_crc32_u32 z w in
  w ← Fetch32 buf 60; let x := _mm_crc32_u32 x w in
  Done (u32 ((o - x + y - z) * c1)).

Definition last_vectors (st : Lanes) : list M :=
  let '(mkLanes f g h k q) := st in
  let g := Shuffle0321 g in
  let k := Xor k g in
  let k := Xor k q in
  let h := Xor h q in
  let f := Mulc1 f in
  let k := Mulc2 k in
  let g := Mulc1 g in
  let h := Mulc2 h in
  let k := Add k (_mm_shuffle_epi8 g f) in
  let h := Add h f in
  let f := Add f h in
  let g := Add g k in
  let k := Add k g in
  let k := Xor k (_mm_shuffle_epi8 f h) in
  [f; g; k; h].

(** Keys of up to 24 bytes, for both namespaces. *)
Definition up_to_24 (m : bytes) (s len : Z) : outcome Z :=
  if len <=? 12 then
    if len <=? 4 then mk.Hash32Len0to4 m s len 0 else mk.Hash32Len5to12 m s len 0
  else mk.Hash32Len13to24 m s len 0.

Definition up_to_24_seeded (m : bytes) (s len seed : Z) : outcome Z :=
  if 13 <=? len then mk.Hash32Len13to24 m s len (u32 (seed * c1))
  else if 5 <=? len then mk.Hash32Len5to12 m s len seed
  else mk.Hash32Len0to4 m s len seed.

Definition Hash32 (m : bytes) (s len : Z) : outcome Z :=
  _ ← FARMHASH_DIE_IF_MISCONFIGURED configured;
  if len <=? 24 then up_to_24 m s len
  else if len <? 40 then Hash32Len25to39 m s len
  else
    st ← (if len <? 80 then short_key m s len lanes else long_key m s len lanes);
    digest (vectors (last_vectors st)).

Definition Hash32WithSeed (m : bytes) (s len seed : Z) : outcome Z :=
  _ ← FARMHASH_DIE_IF_MISCONFIGURED configured;
  if len <=? 24 then up_to_24_seeded m s len seed
  else
    h ← mk.Hash32Len13to24 m s 24 (u32 (seed ^! len));
    t ← Hash32 m (s + 24) (len - 24);
    Done (_mm_crc32_u32 (u32 (t + seed)) h).

End su.
End su.

(** ** farmhashsa

    The helpers and macros of [farmhashsu] are repeated in this namespace. *)
Module sa.
Section sa.
Context {M : Type} `{Simd M} (b : Build).
Import su.

Definition configured : bool := can_use_sse42 b.

Definition Hash32Len25to39 (m : bytes) (s len : Z) : outcome Z :=
  let a := u32 len in
  let b := u32 (seed * c2) in
  let c := u32 (a + b) in
  f4 ← Fetch32 m (s + len - 4);
  let a := u32 (a + f4) in
  f20 ← Fetch32 m (s + len - 20);
  let b := u32 (b + f20) in
  f16 ← Fetch32 m (s + len - 16);
  let c := u32 (c + f16) in
  let d := a in
  let a := Rotate32 a 21 in
  let a := Mur a (Mur b (Mur c d)) in
  f12 ← Fetch32 m (s + len - 12);
  let a := u32 (a + f12) in
  f8 ← Fetch32 m (s + len - 8);
  let b := u32 (b + f8) in
  let d := u32 (d + a) in
  let a := u32 (a + d) in
  let b := u32 (Mur b d * c2) in
  let a := _mm_crc32_u32 a (u32 (b + c)) in
  t ← mk.Hash32Len13to24 m s ((len + 1) / 2) a;
  Done (u32 (t + b)).

(** The state has one vector less. *)
Record Lanes : Type := mkLanes { f_ : M; g_ : M; h_ : M; k_ : M }.

Definition lanes : Lanes :=
  let h := _mm_set1_epi32 seed in
  let g := _mm_set1_epi32 (u32 (c1 * seed)) in
  let f := g in
  let k := _mm_set1_epi32 0xe6546b64 in
  mkLanes f g h k.

(** The part that short keys and the chunks of long ones share. *)
Definition mix (a b c d e : M) (st : Lanes) : Lanes :=
  let '(mkLanes f g h k) := st in
  let h := Add h a in
  let g := Add g b in
  let g := Shuffle0321 g in
  let f := Add f c in
  let be := Add b (Mulc1 e) in
  let h := Add h f in
  let f := Add f h in
  let h := Add (Murk k d h) e in
  let k := Xor k (_mm_shuffle_epi8 g f) in
  let g := Add (Xor c g) a in
  let f := Add (Xor be f) d in
  let k := Add k be in
  let k := Add k (_mm_shuffle_epi8 f h) in
  let f := Add f g in
  let g := Add g f in
  mkLanes f g h k.

Definition short_key (m : bytes) (s len : Z) (st : Lanes) : outcome Lanes :=
  a ← Fetch128 m s;
  b ← Fetch128 m (s + 16);
  c ← Fetch128 m (s + (len - 15) / 2);
  d ← Fetch128 m (s + len - 32);
  e ← Fetch128 m (s + len - 16);
  let '(mkLanes f g h k) := mix a b c d e st in
  let g := Add (_mm_set1_epi32 (u32 len)) (Mulc1 g) in
  Done (mkLanes f g h k).

Definition Chunk (m : bytes) (s : Z) (st : Lanes) : outcome Lanes :=
  a ← Fetch128 m s;
  b ← Fetch128 m (s + 16);
  c ← Fetch128 m (s + 32);
  d ← Fetch128 m (s + 48);
  e ← Fetch128 m (s + 64);
  let '(mkLanes f g h k) := mix a b c d e st in
  let f := Mulc1 f in
  Done (mkLanes f g h k).

Fixpoint chunks80 (iters : nat) (m : bytes) (s : Z) (st : Lanes) : outcome (Z * Lanes) :=
  match iters with
  | O => Done (s, st)
  | S iters' => st ← Chunk m s st; chunks80 iters' m (s + 80) st
  end.

Definition long_key (m : bytes) (s len : Z) (st : Lanes) : outcome Lanes :=
  let iters := (len - 1) / 80 in
  let len := len - iters * 80 in
  '(s, st) ← chunks80 (Z.to_nat iters) m s st;
  if negb (len =? 0) then
    let '(mkLanes f g h k) := st in
    let h := Add h (_mm_set1_epi32 (u32 len)) in
    Chunk m (s + len - 80) (mkLanes f g h k)
  else Done st.

Definition last_vectors (st : Lanes) : list M :=
  let '(mkLanes f g h k) := st in
  let g := Shuffle0321 g in
  let k := Xor k g in
  let f := Mulc1 f in
  let k := Mulc2 k in
  let g := Mulc1 g in
  let h := Mulc2 h in
  let k := Add k (_mm_shuffle_epi8 g f) in
  let h := Add h f in
  let f := Add f h in
  let g := Add g k in
  let k := Add k g in
  let k := Xor k (_mm_shuffle_epi8 f h) in
  [f; g; k; h].

Definition Hash32 (m : bytes) (s len : Z) : outcome Z :=
  _ ← FARMHASH_DIE_IF_MISCONFIGURED configured;
  if len <=? 24 then up_to_24 m s len
  else if len <? 40 then Hash32Len25to39 m s len
  else
    st ← (if len <? 80 then short_key m s len lanes else long_key m s len lanes);
    digest (vectors (last_vectors st)).

Definition Hash32WithSeed (m : bytes) (s len seed : Z) : outcome Z :=
  _ ← FARMHASH_DIE_IF_MISCONFIGURED configured;
  if len <=? 24 then up_to_24_seeded m s len seed
  else
    h ← mk.Hash32Len13to24 m s 24 (u32 (seed ^! len));
    t ← Hash32 m (s + 24) (len - 24);
    Done (_mm_crc32_u32 (u32 (t + seed)) h).

End sa.
End sa.

(** ** Memory safety *)
Module FarmHashSimd.
Section Safety.
Context {M : Type} `{SimdLaws M} (b : Build) (m : bytes).

Ltac load128 := apply wp_bind; apply wp_Fetch128; [lia|lia|intros ?].

Lemma wp_configured {A} (c : bool) (k : outcome A) (P : A → Prop) :
  c = true → wp k P → wp (_ ← FARMHASH_DIE_IF_MISCONFIGURED c; k) P.
Proof. by intros ->. Qed.

(** *** farmhashte *)
Lemma wp_round256 (s : Z) (st : te.Lanes) (P : te.Lanes → Prop) :
  0 ≤ s → s + 256 ≤ zlen m → (∀ st', P st') → wp (te.round256 m s st) P.
Proof. intros Hs Hl HP. unfold te.round256. do 16 load128. apply HP. Qed.

(** The end is a positive number of rounds away. *)
Lemma wp_rounds256 (fuel : nat) : ∀ (n s : Z) (st : te.Lanes) (P : te.Lanes → Prop),
  0 < n ≤ Z.of_nat fuel → 0 ≤ s → s + 256 * n ≤ zlen m → (∀ st', P st') →
  wp (te.rounds256 fuel m s (s + 256 * n) st) P.
Proof.
  induction fuel as [|fuel IH]; intros n s st P Hn Hs Hl HP; [lia|]. cbn [te.rounds256].
  apply wp_bind, wp_round256; [lia|lia|]. intros st'. cbv zeta.
  destruct (Z.eqb_spec (s + 256) (s + 256 * n)); [apply HP|].
  replace (s + 256 * n) with (s + 256 + 256 * (n - 1)) by lia. apply IH; [lia|lia|lia|done].
Qed.

Lemma wp_take_rest (s n : Z) (st : te.Lanes) (P : te.Lanes → Prop) :
  0 ≤ s → 0 ≤ n → s + n mod 256 ≤ zlen m → (∀ st', P st') → wp (te.take_rest m s n st) P.
Proof.
  intros Hs Hn Hl HP. pose proof (Z.mod_pos_bound n 256 ltac:(lia)).
  destruct st. unfold te.take_rest. destruct (n mod 256 =? 0); [apply HP|].
  apply wp_bind. eapply wp_mono; [apply wp_xo_Hash64; lia|]. intros h _. apply HP.
Qed.

Lemma wp_Hash64Long (s n seed0 seed1 : Z) :
  0 ≤ s → 256 ≤ n → s + n ≤ zlen m → wp (te.Hash64Long m s n seed0 seed1) (is_u 64).
Proof.
  intros Hs Hn Hl. unfold te.Hash64Long. cbv zeta.
  assert (E : Z.land n (Z.lnot 255) = 256 * (n / 256)).
  { change 255 with (Z.ones 8). rewrite <- Z.ldiff_land, Z.ldiff_ones_r by lia.
    rewrite Z.shiftl_mul_pow2, Z.shiftr_div_pow2 by lia. change (2 ^ 8) with 256. lia. }
  rewrite E. pose proof (Z.div_mod n 256 ltac:(lia)). pose proof (Z.mod_pos_bound n 256 ltac:(lia)).
  assert (1 ≤ n / 256) by (apply Z.div_le_lower_bound; lia).
  apply wp_bind, wp_rounds256; [lia|lia|lia|]. intros st.
  apply wp_bind, wp_take_rest; [lia|lia|lia|]. intros st'.
  apply wp_xo_Hash64; [lia|lia|]. unfold zlen. rewrite vectors_length. by destruct st'.
Qed.

Lemma wp_te_Hash64 (s len : Z) :
  te.configured b = true → 0 ≤ s → 0 ≤ len → s + len ≤ zlen m →
  wp (te.Hash64 b m s len) (is_u 64).
Proof.
  intros Hc Hs Hlen Hl. apply wp_configured; [done|].
  destruct (Z.leb_spec 512 len); [apply wp_Hash64Long; lia|by apply wp_xo_Hash64].
Qed.

Lemma wp_te_seed (s len seed : Z) :
  te.configured b = true → 0 ≤ s → 0 ≤ len → s + len ≤ zlen m →
  wp (te.Hash64WithSeed b m s len seed) (is_u 64).
Proof.
  intros Hc Hs Hlen Hl. apply wp_configured; [done|].
  destruct (Z.leb_spec 512 len); [apply wp_Hash64Long; lia|].
  unfold xo.Hash64WithSeed, uo.Hash64WithSeed.
  destruct (len <=? 64); [by apply wp_na_seeds|by apply wp_uo_seeds].
Qed.

(** *** farmhashnt *)
Lemma wp_nt_Hash32 (s len : Z) :
  te.configured b = true → 0 ≤ s → 0 ≤ len → s + len ≤ zlen m →
  wp (nt.Hash32 b m s len) (is_u 32).
Proof.
  intros. apply wp_configured; [done|]. apply wp_bind.
  eapply wp_mono; [by apply wp_te_Hash64|]. intros h _. apply is_u_u32.
Qed.

Lemma wp_nt_seed (s len seed : Z) :
  te.configured b = true → 0 ≤ s → 0 ≤ len → s + len ≤ zlen m →
  wp (nt.Hash32WithSeed b m s len seed) (is_u 32).
Proof.
  intros. apply wp_configured; [done|]. apply wp_bind.
  eapply wp_mono; [by apply wp_te_seed|]. intros h _. apply is_u_u32.
Qed.

(** *** farmhashsu and farmhashsa *)
Lemma wp_up_to_24 (s len : Z) :
  0 ≤ s → 0 ≤ len ≤ 24 → s + len ≤ zlen m → wp (su.up_to_24 m s len) (is_u 32).
Proof.
  intros Hs Hlen Hl. unfold su.up_to_24.
  destruct (Z.leb_spec len 12); [|apply wp_mk_13to24; lia].
  destruct (Z.leb_spec len 4); [apply wp_mk_0to4; lia|by apply wp_mk_5to12; [lia|lia|lia|]].
Qed.

Lemma wp_up_to_24_seeded (s len seed : Z) :
  0 ≤ s → 0 ≤ len ≤ 24 → s + len ≤ zlen m → is_u 32 seed →
  wp (su.up_to_24_seeded m s len seed) (is_u 32).
Proof.
  intros Hs Hlen Hl Hseed. unfold su.up_to_24_seeded.
  destruct (Z.leb_spec 13 len); [apply wp_mk_13to24; lia|].
  destruct (Z.leb_spec 5 len); [by apply wp_mk_5to12; [lia|lia|lia|]|apply wp_mk_0to4; lia].
Qed.

Lemma half_middle (len : Z) : 25 ≤ len < 40 → 13 ≤ (len + 1) / 2 ≤ 20 ∧ (len + 1) / 2 ≤ len.
Proof.
  intros H1. pose proof (Z.div_mod (len + 1) 2 ltac:(lia)).
  pose proof (Z.mod_pos_bound (len + 1) 2 ltac:(lia)). lia.
Qed.

Lemma wp_25to39 (s len : Z) :
  0 ≤ s → 25 ≤ len < 40 → s + len ≤ zlen m →
  wp (su.Hash32Len25to39 m s len) (is_u 32) ∧ wp (sa.Hash32Len25to39 m s len) (is_u 32).
Proof.
  intros Hs Hlen Hl. pose proof (half_middle len Hlen).
  unfold su.Hash32Len25to39, sa.Hash32Len25to39.
  split; loads; apply wp_bind; (eapply wp_mono; [apply wp_mk_13to24; lia|]);
    intros t _; apply is_u_u32.
Qed.

Lemma wp_digest (buf : bytes) : zlen buf = 64 → wp (su.digest buf) (is_u 32).
Proof. intros Hb. unfold su.digest. loads. apply is_u_u32. Qed.

Lemma chunk_count80 (len : Z) :
  80 ≤ len → 0 ≤ (len - 1) / 80 ∧ 0 < len - (len - 1) / 80 * 80 ≤ 80.
Proof.
  intros H1. pose proof (Z.div_mod (len - 1) 80 ltac:(lia)).
  pose proof (Z.mod_pos_bound (len - 1) 80 ltac:(lia)).
  pose proof (Z.div_pos (len - 1) 80 ltac:(lia) ltac:(lia)). lia.
Qed.

Lemma quarter_middle (len : Z) : 40 ≤ len < 80 → 12 ≤ (len - 15) / 2 ≤ len - 16.
Proof.
  intros H1. pose proof (Z.div_mod (len - 15) 2 ltac:(lia)).
  pose proof (Z.mod_pos_bound (len - 15) 2 ltac:(lia)). lia.
Qed.

Lemma wp_su_chunks (n : nat) : ∀ (s : Z) (st : su.Lanes) (P : Z * su.Lanes → Prop),
  0 ≤ s → s + 80 * Z.of_nat n ≤ zlen m → (∀ st', P (s + 80 * Z.of_nat n, st')) →
  wp (su.chunks80 n m s st) P.
Proof.
  induction n as [|n IH]; intros s st P Hs Hl HP; cbn [su.chunks80].
  { replace s with (s + 80 * Z.of_nat 0) by lia. apply HP. }
  apply wp_bind. unfold su.Chunk. do 5 load128. apply IH; [lia|lia|].
  intros st'. by replace (s + 80 + 80 * Z.of_nat n) with (s + 80 * Z.of_nat (S n)) by lia.
Qed.

Lemma wp_su_long (s len : Z) (st : su.Lanes) (P : su.Lanes → Prop) :
  0 ≤ s → 80 ≤ len → s + len ≤ zlen m → (∀ st', P st') → wp (su.long_key m s len st) P.
Proof.
  intros Hs Hlen Hl HP. unfold su.long_key. cbv zeta. pose proof (chunk_count80 len Hlen).
  apply wp_bind, wp_su_chunks; [lia|lia|]. intros [f g h k q].
  destruct (Z.eqb_spec (len - (len - 1) / 80 * 80) 0); [apply HP|].
  cbn [negb]. unfold su.Chunk. do 5 load128. apply HP.
Qed.

Lemma wp_su_Hash32 (s len : Z) :
  su.configured b = true → 0 ≤ s → 0 ≤ len → s + len ≤ zlen m →
  wp (su.Hash32 b m s len) (is_u 32).
Proof.
  intros Hc Hs Hlen Hl. apply wp_configured; [done|].
  destruct (Z.leb_spec len 24); [apply wp_up_to_24; lia|].
  destruct (Z.ltb_spec len 40); [apply (proj1 (wp_25to39 s len Hs ltac:(lia) Hl))|].
  apply wp_bind.
  assert (E : ∀ st : su.Lanes, wp (su.digest (vectors (su.last_vectors st))) (is_u 32)).
  { intros st. apply wp_digest. unfold zlen. rewrite vectors_length. by destruct st. }
  destruct (Z.ltb_spec len 80); [|by apply wp_su_long].
  pose proof (quarter_middle len ltac:(lia)). unfold su.short_key. do 5 load128. apply E.
Qed.

Lemma wp_sa_chunks (n : nat) : ∀ (s : Z) (st : sa.Lanes) (P : Z * sa.Lanes → Prop),
  0 ≤ s → s + 80 * Z.of_nat n ≤ zlen m → (∀ st', P (s + 80 * Z.of_nat n, st')) →
  wp (sa.chunks80 n m s st) P.
Proof.
  induction n as [|n IH]; intros s st P Hs Hl HP; cbn [sa.chunks80].
  { replace s with (s + 80 * Z.of_nat 0) by lia. apply HP. }
  apply wp_bind. unfold sa.Chunk. do 5 load128. destruct (sa.mix _ _ _ _ _ _).
  apply IH; [lia|lia|].
  intros st'. by replace (s + 80 + 80 * Z.of_nat n) with (s + 80 * Z.of_nat (S n)) by lia.
Qed.

Lemma wp_sa_long (s len : Z) (st : sa.Lanes) (P : sa.Lanes → Prop) :
  0 ≤ s → 80 ≤ len → s + len ≤ zlen m → (∀ st', P st') → wp (sa.long_key m s len st) P.
Proof.
  intros Hs Hlen Hl HP. unfold sa.long_key. cbv zeta. pose proof (chunk_count80 len Hlen).
  apply wp_bind, wp_sa_chunks; [lia|lia|]. intros [f g h k].
  destruct (Z.eqb_spec (len - (len - 1) / 80 * 80) 0); [apply HP|].
  cbn [negb]. unfold sa.Chunk. do 5 load128. destruct (sa.mix _ _ _ _ _ _). apply HP.
Qed.

Lemma wp_sa_Hash32 (s len : Z) :
  sa.configured b = true → 0 ≤ s → 0 ≤ len → s + len ≤ zlen m →
  wp (sa.Hash32 b m s len) (is_u 32).
Proof.
  intros Hc Hs Hlen Hl. apply wp_configured; [done|].
  destruct (Z.leb_spec len 24); [apply wp_up_to_24; lia|].
  destruct (Z.ltb_spec len 40); [apply (proj2 (wp_25to39 s len Hs ltac:(lia) Hl))|].
  apply wp_bind.
  assert (E : ∀ st : sa.Lanes, wp (su.digest (vectors (sa.last_vectors st))) (is_u 32)).
  { intros st. apply wp_digest. unfold zlen. rewrite vectors_length. by destruct st. }
  destruct (Z.ltb_spec len 80); [|by apply wp_sa_long].
  pose proof (quarter_middle len ltac:(lia)). unfold sa.short_key. do 5 load128.
  destruct (sa.mix _ _ _ _ _ _). apply E.
Qed.

Lemma wp_su_seed (s len seed : Z) :
  su.configured b = true → 0 ≤ s → 0 ≤ len → s + len ≤ zlen m → is_u 32 seed →
  wp (su.Hash32WithSeed b m s len seed) (is_u 32).
Proof.
  intros Hc Hs Hlen Hl Hseed. apply wp_configured; [done|].
  destruct (Z.leb_spec len 24); [by apply wp_up_to_24_seeded; [lia|lia|lia|]|].
  apply wp_bind. eapply wp_mono; [apply wp_mk_13to24; lia|]. intros h _.
  apply wp_bind. eapply wp_mono; [apply wp_su_Hash32; [done|lia|lia|lia]|]. intros t _.
  apply crc32_u32_range.
Qed.

Lemma wp_sa_seed (s len seed : Z) :
  sa.configured b = true → 0 ≤ s → 0 ≤ len → s + len ≤ zlen m → is_u 32 seed →
  wp (sa.Hash32WithSeed b m s len seed) (is_u 32).
Proof.
  intros Hc Hs Hlen Hl Hseed. apply wp_configured; [done|].
  destruct (Z.leb_spec len 24); [by apply wp_up_to_24_seeded; [lia|lia|lia|]|].
  apply wp_bind. eapply wp_mono; [apply wp_mk_13to24; lia|]. intros h _.
  apply wp_bind. eapply wp_mono; [apply wp_sa_Hash32; [done|lia|lia|lia]|]. intros t _.
  apply crc32_u32_range.
Qed.

End Safety.
End FarmHashSimd.

(** ** The instructions on lists of sixteen bytes *)
Module Vec.

(** The little-endian bytes of a number. *)
Fixpoint of_Z (n : nat) (x : Z) : bytes :=
  match n with O => [] | S n' => u8 x :: of_Z n' (Z.shiftr x 8) end.

Lemma of_Z_length (n : nat) : ∀ x, length (of_Z n x) = n.
Proof. induction n as [|n IH]; intros x; cbn; [done|by rewrite IH]. Qed.

(** The [n] lanes of [w] bytes. *)
Fixpoint lanes_of (n w : nat) (x : bytes) : list Z :=
  match n with O => [] | S n' => le (take w x) :: lanes_of n' w (drop w x) end.

Definition of_lanes (w : nat) (ls : list Z) : bytes := mjoin (of_Z w <$> ls).

Definition lanewise2 (n w : nat) (f : Z → Z → Z) (x y : bytes) : bytes :=
  of_lanes w (zip_with f (lanes_of n w x) (lanes_of n w y)).

Definition lane (ls : list Z) (i : Z) : Z := nth (Z.to_nat i) ls 0.

(** Sixteen bytes of what has fewer or more. *)
Definition fit (x : bytes) : bytes := take 16 (x ++ replicate 16 0).

(** Products in GF(2^8), for the inverse MixColumns of AES. *)
Definition xtime (x : Z) : Z :=
  if Z.testbit x 7 then Z.lxor (u8 (2 * x)) 0x1b else 2 * x.

Fixpoint gmul (n : nat) (a x : Z) : Z :=
  match n with
  | O => 0
  | S n' => Z.lxor (if Z.odd a then x else 0) (gmul n' (Z.div2 a) (xtime x))
  end.

Definition column (c : bytes) : bytes :=
  (λ i, Z.lxor (Z.lxor (gmul 4 14 (lane c i)) (gmul 4 11 (lane c ((i + 1) mod 4))))
               (Z.lxor (gmul 4 13 (lane c ((i + 2) mod 4))) (gmul 4 9 (lane c ((i + 3) mod 4)))))
  <$> [0; 1; 2; 3].

Definition shift (f : Z → Z → Z) (x : bytes) (c : Z) : bytes :=
  of_lanes 4 ((λ l, if 31 <? c then 0 else u32 (f l c)) <$> lanes_of 4 4 x).

#[export] Instance simd : Simd bytes := {
  _mm_loadu_si128 x := x;
  bytes_of := fit;
  _mm_set_epi8 l := reverse (u8 <$> l);
  _mm_set1_epi32 x := of_lanes 4 (replicate 4 x);
  _mm_cvtsi64_si128 x := of_lanes 8 [x; 0];
  _mm_add_epi64 := lanewise2 2 8 Z.add;
  _mm_add_epi32 := lanewise2 4 4 Z.add;
  _mm_xor_si128 := zip_with Z.lxor;
  _mm_or_si128 := zip_with Z.lor;
  _mm_mullo_epi32 := lanewise2 4 4 Z.mul;
  _mm_shuffle_epi8 x y := (λ i, if Z.testbit i 7 then 0 else lane x (Z.land i 15)) <$> y;
  _mm_shuffle_epi32 x i :=
    of_lanes 4 ((λ j, lane (lanes_of 4 4 x) (Z.land (Z.shiftr i (2 * j)) 3)) <$> [0; 1; 2; 3]);
  _mm_slli_epi32 := shift Z.shiftl;
  _mm_srli_epi32 := shift Z.shiftr;
  _mm_aesimc_si128 x :=
    mjoin ((λ i, column (take 4 (drop i x))) <$> [0; 4; 8; 12]%nat);
  _mm_crc32_u32 crc v := u32 (foldl Crc32.ref_byte crc (of_Z 4 v))
}.

#[export] Instance simd_laws : SimdLaws bytes.
Proof.
  split; [|intros; apply is_u_u32].
  intros x. cbn [bytes_of simd]. unfold fit. rewrite length_take, length_app, length_replicate. lia.
Qed.

End Vec.
