(* ===== verification/FarmHashTest.v ===== *)
(** * The self-tests of FarmHash

    The end of [src/util/hash/farmhash.cpp]: the pseudorandom data, the seeds and
    the checks that each namespace compares with a table of expected words. The
    checks are run here on the models, in the kernel: the keys of up to 33 bytes,
    and one of 299 bytes or, for the hashes that differ from 512 bytes on, of
    579. The tables are quoted for those keys. The instructions are those of
    [Vec]. *)
From S2P Require Import Prelude CityHash FarmHash32 FarmHash64 FarmHashSimd.

Module FarmHashTest.
Import CityHash.
#[local] Open Scope word_scope.

(** ** The data and the seeds *)

(** The bytes from [i] on; the file fills 2^20 of them. *)
Fixpoint Setup (n : nat) (i a b : Z) : bytes :=
  match n with
  | O => []
  | S n' =>
      let a := a +! b in
      let b := b +! a in
      let a := (a ^! (a >>! 41)) *! k0 in
      let b := (b ^! (b >>! 41)) *! k0 +! i in
      u8 (b >>! 37) :: Setup n' (i + 1) a b
  end.

Definition data (n : nat) : bytes := Setup n 0 9 777.

Definition CreateSeed (offset salt : Z) : Z :=
  let h := u32 (Z.land salt 0xffffffff) in
  let h := u32 (h * c1) in
  let h := h ^! (h >>! 17) in
  let h := u32 (h * c1) in
  let h := h ^! (h >>! 17) in
  let h := u32 (h * c1) in
  let h := h ^! (h >>! 17) in
  let h := u32 (h + Z.land offset 0xffffffff) in
  let h := u32 (h * c1) in
  let h := h ^! (h >>! 17) in
  let h := u32 (h * c1) in
  let h := h ^! (h >>! 17) in
  let h := u32 (h * c1) in
  h ^! (h >>! 17).

Definition SEED (offset : Z) : Z := CreateSeed offset (-1).
Definition SEED0 (offset : Z) : Z := CreateSeed offset 0.
Definition SEED1 (offset : Z) : Z := CreateSeed offset 1.

(** ** The checks *)

(** The words a 64-bit result is checked as. *)
Definition halves (h : Z) : list Z := [h >>! 32; u64 (Z.shiftl h 32) >>! 32].

(** What a call of [Test] checks; [key] is what lies at [data + offset]. *)
Definition Test32 (withSeed : bytes → Z → Z → Z → outcome Z) (hash : bytes → Z → Z → outcome Z)
    (key : bytes) (offset len : Z) : outcome (list Z) :=
  h0 ← withSeed key 0 len (SEED offset);
  h1 ← hash key 0 len;
  Done [h0; h1].

Definition Test64 (withSeeds : bytes → Z → Z → Z → Z → outcome Z)
    (withSeed : bytes → Z → Z → Z → outcome Z) (hash : bytes → Z → Z → outcome Z)
    (key : bytes) (offset len : Z) : outcome (list Z) :=
  h0 ← withSeeds key 0 len (SEED0 offset) (SEED1 offset);
  h1 ← withSeed key 0 len (SEED offset);
  h2 ← hash key 0 len;
  Done (halves h0 ++ halves h1 ++ halves h2).

Definition TestUo (key : bytes) (offset len : Z) : outcome (list Z) :=
  h1 ← uo.Hash64WithSeed key 0 len (SEED offset);
  h2 ← uo.Hash64 key 0 len;
  Done (halves h1 ++ halves h2).

Definition TestCc (key : bytes) (offset len : Z) : outcome (list Z) :=
  h0 ← cc.Hash32WithSeed key 0 len (SEED offset);
  h1 ← cc.Hash32 key 0 len;
  u ← cc.Fingerprint128 key 0 len;
  v ← cc.CityHash128WithSeed key 0 len (SEED0 offset, SEED1 offset);
  Done ([h0; h1] ++ halves u.1 ++ halves u.2 ++ halves v.1 ++ halves v.2).

(** The checks of one call of [Test] against the next expected words. *)
Fixpoint Check (actual expected : list Z) : outcome (list Z) :=
  match actual, expected with
  | [], _ => Done expected
  | x :: actual', e :: expected' => _ ← cassert (x =? e); Check actual' expected'
  | _ :: _, [] => Fault OutOfBounds
  end.

(** The tests of a list of keys; what is left of the table. *)
Fixpoint RunTest (Test : bytes → Z → Z → outcome (list Z)) (data : bytes)
    (keys : list (Z * Z)) (expected : list Z) : outcome (list Z) :=
  match keys with
  | [] => Done expected
  | (offset, len) :: keys' =>
      key ← view data (Z.to_nat offset) (Z.to_nat len);
      ws ← Test key offset len;
      expected ← Check ws expected;
      RunTest Test data keys' expected
  end.

(** [for ( ; i < kTestSize - 1; i++) Test (i * i, i)], the first rounds. *)
Definition near_keys : list (Z * Z) := (λ i, (Z.of_nat (i * i), Z.of_nat i)) <$> seq 0 34.

(** [for ( ; i < kDataSize; i += i / 7) Test (0, i)], round [n]. *)
Definition far_keys (n : nat) : list (Z * Z) := [(0, Nat.iter n (λ i, i + i / 7) 299)].

(** ** The expected words *)

(** [farmhashccTest]. *)
Definition cc_near : list Z :=
  [
    4223616069; 3696677242; 1039179260; 1690343979; 1018511555; 2464489001; 20368522; 2663783964;
    175201532; 1619210592; 4081014168; 2576519988; 3285042206; 502478099; 739479538; 1500332790;
    13754768; 3789353455; 3473868058; 1909255088; 2212771159; 1112731063; 826915357; 2893489933;
    118369799; 1848668220; 1308219822; 249416982; 64306364; 4221800195; 1020067935; 3955445564;
    563346294; 550236731; 2339016688; 1826259714; 3872358639; 2295981050; 1870005390; 4015628802;
    1451961420; 653440099; 1292493871; 164377749; 1717712483; 463414587; 3924343675; 1050492084;
    3566618804; 2046983362; 31917516; 2957164615; 230718965; 999595115; 3534822176; 2175709186;
    965707431; 441796222; 2481718051; 1827777486; 2590087362; 3879448744; 3515079898; 1601433082;
    982764532; 254808716; 1293372530; 4205605817; 947001462; 1138890052; 176305566; 2447367541;
    2973802542; 4123621138; 3083865840; 1706367795; 792114347; 2880110657; 440613768; 195054868;
    1359016305; 3363804638; 649488537; 1624045597; 1441938215; 3147758996; 3199173578; 2597283203;
    2191333609; 3763129144; 1117290165; 1062549743; 2565615889; 1046361554; 1581968261;
    1058773671; 1123053168; 3807622275; 1486749916; 3900816089; 2437877004; 1894455839;
    1912520953; 1914997013; 561048608; 1643267444; 3671572006; 194811086; 1468911468; 2179206286;
    673206794; 3486923651; 3741426466; 3292160512; 697001377; 1900763774; 3726097344; 629282039;
    3578723715; 2868028489; 3269862919; 2303349487; 3643953525; 2307255916; 849996280; 732080434;
    909961480; 3542445214; 2628347095; 4236856917; 1380660650; 2631821908; 2007289004; 3509705198;
    3788541675; 789457322; 3090670546; 638977894; 3503881773; 947102987; 1525325287; 1816697045;
    2706647405; 288763142; 3505438495; 481308609; 2882636782; 3745162621; 3503467033; 428247823;
    176408838; 333551502; 1001068721; 1681483651; 75380831; 4191469679; 3627361839; 2736617386;
    3120737438; 1297502456; 864896482; 85674920; 2886047255; 4119881331; 2496990525; 3442502055;
    1806582817; 3186345024; 4099591287; 2560171465; 3489229104; 3065015872; 2755089808;
    3098442882; 378524719; 2664097023; 1771960725; 2901182183; 55258521; 1266621443; 581644891;
    37790450; 1800731704; 3601350920; 53428754; 2759476837; 3391093099; 1496510311; 2511119507;
    2636877410; 631613207; 1573846064; 260484875; 1088212603; 2369525206; 322522428; 3191396600;
    2076543340; 1552496658; 2739811558; 3867875546; 2051584261; 2126250818; 901517871; 3651631165;
    1323139145; 1521111765; 477802997; 3508559783; 383954241; 3804516756; 4250206331; 2655954340;
    2484996477; 1417544845; 1520282298; 2745204366; 2869345147; 1872738335; 2592877343;
    1619744564; 1804962124; 3458679890; 423948620; 273645618; 4187865426; 376057175; 2943431463;
    3581950599; 1035398331; 1088213445; 861988903; 1323370244; 777069428; 506235917; 369720851;
    2789995854; 230915180; 1505086948; 940361236; 3727873235; 1159167499; 1860302871; 3456858862;
    3923555152; 2131072714; 2910461068; 3671950363; 2010742682; 4088068851; 3616470388;
    2087714788; 221675509; 1230154072; 3450704646; 1463226695; 1998357699; 266026801; 619568740;
    3560427266; 4148162586; 3150417316; 1356375822; 2056097622; 627905802; 3881675638; 2309738053;
    971916703; 3447805361; 1673575328; 673084328; 3317849401; 2836362782; 2377208890; 3275350588;
    158350552; 2553241779; 2497264995; 3262882649; 3897937187; 1598963653; 3068514414; 601541505;
    374517071; 3380795976; 235752573; 284670003; 2990192160; 904937105; 2306579150; 2117362589;
    1635274830; 3355572906; 170799903; 1226685528; 664567688; 413219134; 878324258; 4026159448;
    3620649295; 1823625377; 3175888439; 1759344347; 2640637095; 3549558; 2192984935; 978623493;
    804017880; 3877562323; 3843116489; 1641748342; 1853539444; 3001178468; 3443560727; 2685426077;
    1653064722; 349231508; 2726789654; 3136215581; 768402830; 269384321; 531936536; 2592883487;
    1343156334; 3628619802; 1477143570; 4269458419; 3285611028; 959104925; 2712290710; 3480237248;
    835796333; 2020636251; 1191914589; 126521603; 4288023938; 3731699932; 2136758855; 985780142;
    193807575].

Definition cc_far : list Z :=
  [
    4018625153; 4284329158; 530216712; 2978986531; 863452221; 1910162118; 4088211378; 4091971261;
    3150811451; 4200871487].

(** [farmhashmkTest]. *)
Definition mk_near : list Z :=
  [
    4223616069; 3696677242; 4081014168; 2576519988; 2212771159; 1112731063; 1020067935;
    3955445564; 1451961420; 653440099; 31917516; 2957164615; 2590087362; 3879448744; 176305566;
    2447367541; 1359016305; 3363804638; 1117290165; 1062549743; 2437877004; 1894455839; 673206794;
    3486923651; 3269862919; 2303349487; 1380660650; 595525107; 1525325287; 2025609358; 176408838;
    1592885012; 864896482; 2101378090; 3489229104; 2118965695; 581644891; 2718789079; 631613207;
    4228658372; 3867875546; 3531368319; 3804516756; 3317755099; 1619744564; 2884717286;
    1088213445; 2667691076; 3727873235; 2330406762; 3616470388; 967660719; 4148162586; 315219121;
    673084328; 3047602355; 1598963653; 1267826661; 2117362589; 2861192253; 1823625377; 1380350078;
    1641748342; 1176094482; 269384321; 2178982315; 3480237248; 2660755208].

Definition mk_far : list Z :=
  [
    3689533503; 851607114].

(** [farmhashnaTest]. *)
Definition na_near : list Z :=
  [
    1140953930; 861465670; 3277735313; 2681724312; 2598464059; 797982799; 890626835; 800175912;
    2603993599; 921001710; 1410420968; 2134990486; 3283896453; 1867689945; 2914424215; 2244477846;
    255297188; 2992121793; 1110588164; 4186314283; 161451183; 3943596029; 4019337850; 452431531;
    283198166; 2741341286; 3379021470; 2557197665; 299850021; 2532580744; 452473466; 1706958772;
    1298374911; 3099673830; 2199864459; 3696623795; 236935126; 2976578695; 4055299123; 3281581178;
    1053458494; 1882212500; 2305012065; 2169731866; 3456121707; 275903667; 458884671; 3033004529;
    3058973506; 2379411653; 1898235244; 1402319660; 2700149065; 2699376854; 147814787; 720739346;
    2433714046; 4222949502; 4220361840; 1712034059; 3425469811; 3690733394; 4148372108;
    1330324210; 594028478; 2921867846; 1635026870; 192883107; 780716741; 1728752234; 3280331829;
    326029180; 3969463346; 1436364519; 393215742; 3349570000; 3824583307; 1612122221; 2859809759;
    3808705738; 1379537552; 1646032583; 2233466664; 1432476832; 4023053163; 2650381482;
    2052294713; 3552092450; 1628777059; 1499109081; 3476440786; 3829307897; 2960536756;
    1554038301; 1145519619; 3190844552; 2902102606; 3600725550; 237495366; 540224401; 65721842;
    489963606; 1448662590; 397635823; 1596489240; 1562872448; 1790705123; 2128624475; 180854224;
    2604346966; 1435705557; 1262831810; 155445229; 1672724608; 1669465176; 1341975128; 663607706;
    2077310004; 3610042449; 1911523866; 1043692997; 1454396064; 2563776023; 294527927; 1099072299;
    1389770549; 703505868; 678706990; 2952353448; 2026137563; 3603803785; 629449419; 1933894405;
    3043213226; 226132789; 2489287368; 1552847036; 645684964; 3828089804; 3632594520; 187883449;
    230403464; 3151491850; 3272648435; 3729087873; 1303930448; 2002861219; 165370827; 916494250;
    1230085527; 3103338579; 3064290191; 3807265751; 3628174014; 231181488; 851743255; 2295806711;
    1781190011; 2988893883; 1554380634; 1142264800; 3667013118; 1968445277; 315203929; 2638023604;
    2290487377; 732137533; 1909203251; 440398219; 1891630171; 1380301172; 1498556724; 4072067757;
    4165088768; 4204318635; 441430649; 3931792696; 197618179; 956300927; 914413116; 3010839769;
    2837339569; 2148126371; 1913303225; 3074915312; 3117299654; 4139181436; 2993479124;
    3178848746; 1357272220; 1438494951; 507436733; 667183474; 2084369203; 3854939912; 1413396341;
    126024219; 146044391; 1016656857; 3022024459; 3254014218; 429095991; 165589978; 1578546616].

Definition na_far : list Z :=
  [
    3786107905; 2627207327; 3540337875; 3473113388; 3430536378; 2514123129].

(** [farmhashntTest]. *)
Definition nt_near : list Z :=
  [
    2681724312; 797982799; 921001710; 2134990486; 2244477846; 2992121793; 3943596029; 452431531;
    2557197665; 2532580744; 3099673830; 3696623795; 3281581178; 1882212500; 275903667; 3033004529;
    1402319660; 2699376854; 4222949502; 1712034059; 1330324210; 2921867846; 1728752234; 326029180;
    3349570000; 1612122221; 1646032583; 1432476832; 3552092450; 1499109081; 1554038301;
    3190844552; 540224401; 489963606; 1562872448; 2128624475; 1262831810; 1672724608; 2077310004;
    1911523866; 294527927; 1389770549; 2026137563; 629449419; 2489287368; 645684964; 230403464;
    3272648435; 165370827; 1230085527; 3628174014; 851743255; 1554380634; 3667013118; 2290487377;
    1909203251; 1498556724; 4165088768; 197618179; 914413116; 1913303225; 3117299654; 1357272220;
    507436733; 1413396341; 146044391; 429095991; 3056862311].

Definition nt_far : list Z :=
  [
    367320647; 3684418197].

(** [farmhashsaTest]. *)
Definition sa_near : list Z :=
  [
    4223616069; 3696677242; 4081014168; 2576519988; 2212771159; 1112731063; 1020067935;
    3955445564; 1451961420; 653440099; 31917516; 2957164615; 2590087362; 3879448744; 176305566;
    2447367541; 1359016305; 3363804638; 1117290165; 1062549743; 2437877004; 1894455839; 673206794;
    3486923651; 3269862919; 2303349487; 1380660650; 595525107; 1525325287; 2025609358; 176408838;
    1592885012; 864896482; 2101378090; 3489229104; 2118965695; 581644891; 2718789079; 631613207;
    4228658372; 3867875546; 3531368319; 3804516756; 3317755099; 1619744564; 2884717286;
    1088213445; 2667691076; 3727873235; 2330406762; 858590707; 123802208; 4150036245; 182283099;
    1478882570; 3282617403; 819171187; 1172627392; 4254302102; 2957028020; 437030323; 2452147680;
    2868246750; 3530169402; 3154852132; 215019192; 357580983; 1354454461].

Definition sa_far : list Z :=
  [
    856414299; 166022030].

(** [farmhashsuTest]. *)
Definition su_near : list Z :=
  [
    4223616069; 3696677242; 4081014168; 2576519988; 2212771159; 1112731063; 1020067935;
    3955445564; 1451961420; 653440099; 31917516; 2957164615; 2590087362; 3879448744; 176305566;
    2447367541; 1359016305; 3363804638; 1117290165; 1062549743; 2437877004; 1894455839; 673206794;
    3486923651; 3269862919; 2303349487; 1380660650; 595525107; 1525325287; 2025609358; 176408838;
    1592885012; 864896482; 2101378090; 3489229104; 2118965695; 581644891; 2718789079; 631613207;
    4228658372; 3867875546; 3531368319; 3804516756; 3317755099; 1619744564; 2884717286;
    1088213445; 2667691076; 3727873235; 2330406762; 858590707; 457744844; 4150036245; 2000404290;
    1478882570; 901678172; 819171187; 195942998; 4254302102; 3967266927; 437030323; 4018009204;
    2868246750; 3540087514; 3154852132; 3319116625; 357580983; 3177665294].

Definition su_far : list Z :=
  [
    3429230862; 1335968626].

(** [farmhashteTest]. *)
Definition te_near : list Z :=
  [
    1140953930; 861465670; 3277735313; 2681724312; 2598464059; 797982799; 890626835; 800175912;
    2603993599; 921001710; 1410420968; 2134990486; 3283896453; 1867689945; 2914424215; 2244477846;
    255297188; 2992121793; 1110588164; 4186314283; 161451183; 3943596029; 4019337850; 452431531;
    283198166; 2741341286; 3379021470; 2557197665; 299850021; 2532580744; 452473466; 1706958772;
    1298374911; 3099673830; 2199864459; 3696623795; 236935126; 2976578695; 4055299123; 3281581178;
    1053458494; 1882212500; 2305012065; 2169731866; 3456121707; 275903667; 458884671; 3033004529;
    3058973506; 2379411653; 1898235244; 1402319660; 2700149065; 2699376854; 147814787; 720739346;
    2433714046; 4222949502; 4220361840; 1712034059; 3425469811; 3690733394; 4148372108;
    1330324210; 594028478; 2921867846; 1635026870; 192883107; 780716741; 1728752234; 3280331829;
    326029180; 3969463346; 1436364519; 393215742; 3349570000; 3824583307; 1612122221; 2859809759;
    3808705738; 1379537552; 1646032583; 2233466664; 1432476832; 4023053163; 2650381482;
    2052294713; 3552092450; 1628777059; 1499109081; 3476440786; 3829307897; 2960536756;
    1554038301; 1145519619; 3190844552; 2902102606; 3600725550; 237495366; 540224401; 65721842;
    489963606; 1448662590; 397635823; 1596489240; 1562872448; 1790705123; 2128624475; 180854224;
    2604346966; 1435705557; 1262831810; 155445229; 1672724608; 1669465176; 1341975128; 663607706;
    2077310004; 3610042449; 1911523866; 1043692997; 1454396064; 2563776023; 294527927; 1099072299;
    1389770549; 703505868; 678706990; 2952353448; 2026137563; 3603803785; 629449419; 1933894405;
    3043213226; 226132789; 2489287368; 1552847036; 645684964; 3828089804; 3632594520; 187883449;
    230403464; 3151491850; 3272648435; 3729087873; 1303930448; 2002861219; 165370827; 916494250;
    1230085527; 3103338579; 3064290191; 3807265751; 3628174014; 231181488; 851743255; 2295806711;
    1781190011; 2988893883; 1554380634; 1142264800; 3667013118; 1968445277; 315203929; 2638023604;
    2290487377; 732137533; 1909203251; 440398219; 1891630171; 1380301172; 1498556724; 4072067757;
    4165088768; 4204318635; 441430649; 3931792696; 197618179; 956300927; 914413116; 3010839769;
    2837339569; 2148126371; 1913303225; 3074915312; 3117299654; 4139181436; 2993479124;
    3178848746; 1357272220; 1438494951; 507436733; 667183474; 2084369203; 3854939912; 1413396341;
    126024219; 146044391; 1016656857; 3022024459; 3254014218; 429095991; 990500595; 3056862311].

Definition te_far : list Z :=
  [
    492891666; 1029533080; 1552951157; 367320647; 699480890; 3684418197].

(** [farmhashuoTest]. *)
Definition uo_near : list Z :=
  [
    3277735313; 2681724312; 2598464059; 797982799; 2603993599; 921001710; 1410420968; 2134990486;
    2914424215; 2244477846; 255297188; 2992121793; 161451183; 3943596029; 4019337850; 452431531;
    3379021470; 2557197665; 299850021; 2532580744; 1298374911; 3099673830; 2199864459; 3696623795;
    4055299123; 3281581178; 1053458494; 1882212500; 3456121707; 275903667; 458884671; 3033004529;
    1898235244; 1402319660; 2700149065; 2699376854; 2433714046; 4222949502; 4220361840;
    1712034059; 4148372108; 1330324210; 594028478; 2921867846; 780716741; 1728752234; 3280331829;
    326029180; 393215742; 3349570000; 3824583307; 1612122221; 1379537552; 1646032583; 2233466664;
    1432476832; 2052294713; 3552092450; 1628777059; 1499109081; 2960536756; 1554038301;
    1145519619; 3190844552; 237495366; 540224401; 65721842; 489963606; 1596489240; 1562872448;
    1790705123; 2128624475; 1435705557; 1262831810; 155445229; 1672724608; 663607706; 2077310004;
    3610042449; 1911523866; 2563776023; 294527927; 1099072299; 1389770549; 2952353448; 2026137563;
    3603803785; 629449419; 226132789; 2489287368; 1552847036; 645684964; 187883449; 230403464;
    3151491850; 3272648435; 2002861219; 165370827; 916494250; 1230085527; 3807265751; 3628174014;
    231181488; 851743255; 2988893883; 1554380634; 1142264800; 3667013118; 2638023604; 2290487377;
    732137533; 1909203251; 1380301172; 1498556724; 4072067757; 4165088768; 3931792696; 197618179;
    956300927; 914413116; 2148126371; 1913303225; 3074915312; 3117299654; 3178848746; 1357272220;
    1438494951; 507436733; 3854939912; 1413396341; 126024219; 146044391; 3254014218; 429095991;
    165589978; 1578546616].

Definition uo_far : list Z :=
  [
    162888005; 1669710469; 1492500905; 553041029].

(** [farmhashxoTest]. *)
Definition xo_near : list Z :=
  [
    1140953930; 861465670; 3277735313; 2681724312; 2598464059; 797982799; 890626835; 800175912;
    2603993599; 921001710; 1410420968; 2134990486; 3283896453; 1867689945; 2914424215; 2244477846;
    255297188; 2992121793; 1110588164; 4186314283; 161451183; 3943596029; 4019337850; 452431531;
    283198166; 2741341286; 3379021470; 2557197665; 299850021; 2532580744; 452473466; 1706958772;
    1298374911; 3099673830; 2199864459; 3696623795; 236935126; 2976578695; 4055299123; 3281581178;
    1053458494; 1882212500; 2305012065; 2169731866; 3456121707; 275903667; 458884671; 3033004529;
    3058973506; 2379411653; 1898235244; 1402319660; 2700149065; 2699376854; 147814787; 720739346;
    2433714046; 4222949502; 4220361840; 1712034059; 3425469811; 3690733394; 4148372108;
    1330324210; 594028478; 2921867846; 1635026870; 192883107; 780716741; 1728752234; 3280331829;
    326029180; 3969463346; 1436364519; 393215742; 3349570000; 3824583307; 1612122221; 2859809759;
    3808705738; 1379537552; 1646032583; 2233466664; 1432476832; 4023053163; 2650381482;
    2052294713; 3552092450; 1628777059; 1499109081; 3476440786; 3829307897; 2960536756;
    1554038301; 1145519619; 3190844552; 2902102606; 3600725550; 237495366; 540224401; 65721842;
    489963606; 1448662590; 397635823; 1596489240; 1562872448; 1790705123; 2128624475; 180854224;
    2604346966; 1435705557; 1262831810; 155445229; 1672724608; 1669465176; 1341975128; 663607706;
    2077310004; 3610042449; 1911523866; 1043692997; 1454396064; 2563776023; 294527927; 1099072299;
    1389770549; 703505868; 678706990; 2952353448; 2026137563; 3603803785; 629449419; 1933894405;
    3043213226; 226132789; 2489287368; 1552847036; 645684964; 3828089804; 3632594520; 187883449;
    230403464; 3151491850; 3272648435; 3729087873; 1303930448; 2002861219; 165370827; 916494250;
    1230085527; 3103338579; 3064290191; 3807265751; 3628174014; 231181488; 851743255; 2295806711;
    1781190011; 2988893883; 1554380634; 1142264800; 3667013118; 1968445277; 315203929; 2638023604;
    2290487377; 732137533; 1909203251; 440398219; 1891630171; 1380301172; 1498556724; 4072067757;
    4165088768; 4204318635; 441430649; 3931792696; 197618179; 956300927; 914413116; 3010839769;
    2837339569; 2148126371; 1913303225; 3074915312; 3117299654; 4139181436; 2993479124;
    3178848746; 1357272220; 1438494951; 507436733; 667183474; 2084369203; 3854939912; 1413396341;
    126024219; 146044391; 1016656857; 3022024459; 3254014218; 429095991; 990500595; 3056862311].

Definition xo_far : list Z :=
  [
    3017852446; 1277887997; 162888005; 1669710469; 1492500905; 553041029].

(** ** The tests pass *)

(** The keys lie in the first 1122 bytes. *)
Definition prefix : bytes := Eval vm_compute in data 1122.

(** A build with all the instructions. *)
Definition build : Build := mkBuild true true true true.

Definition passes (Test : bytes → Z → Z → outcome (list Z)) (near : list Z) (n : nat)
    (far : list Z) : Prop :=
  RunTest Test prefix near_keys near = Done [] ∧ RunTest Test prefix (far_keys n) far = Done [].

#[local] Existing Instance Vec.simd.

(** The models compute what the source expects of them. On the
    pseudorandom data of the self-tests, for the 34 keys of 0 to 33 bytes at
    the squares of their lengths and for one of 299 bytes - of 579 for the two
    namespaces that hash keys of 512 bytes with vectors - with the seeds that
    the tests derive from the offsets, the checks of all nine
    namespaces pass: every 32-bit, 64-bit and 128-bit hash, seeded and not, the
    vector variants included, equals the words in the file's tables, and the
    words quoted from the tables are all used. *)
Theorem self_tests_pass :
  passes TestCc cc_near 0 cc_far ∧
  passes (Test32 mk.Hash32WithSeed mk.Hash32) mk_near 0 mk_far ∧
  passes (Test64 na.Hash64WithSeeds na.Hash64WithSeed na.Hash64) na_near 0 na_far ∧
  passes (Test32 (nt.Hash32WithSeed build) (nt.Hash32 build)) nt_near 5 nt_far ∧
  passes (Test32 (sa.Hash32WithSeed build) (sa.Hash32 build)) sa_near 0 sa_far ∧
  passes (Test32 (su.Hash32WithSeed build) (su.Hash32 build)) su_near 0 su_far ∧
  passes (Test64 (te.Hash64WithSeeds build) (te.Hash64WithSeed build) (te.Hash64 build))
    te_near 5 te_far ∧
  passes TestUo uo_near 0 uo_far ∧
  passes (Test64 xo.Hash64WithSeeds xo.Hash64WithSeed xo.Hash64) xo_near 0 xo_far.
Proof. unfold passes. split_and!; by vm_compute. Qed.

End FarmHashTest.
