(* ===== verification/FarmHash.v ===== *)
(** * FarmHash: the entry points

    [src/util/hash/farmhash.cpp]: the hashes of namespace [util], the seeded one
    the bloom filter calls among them, for every build. The string hashes they
    choose from are those of [FarmHash32], [FarmHash64] and [FarmHashSimd]. The
    file's self-test tables are not modelled. *)
From S2P Require Import Prelude CityHash FarmHash32 FarmHash64 FarmHashSimd.

Import CityHash FarmHash64 FarmHashSimd.
#[local] Open Scope word_scope.

(** ** The entry points of namespace util *)
Module FarmHash.
Section Build.
(** Whether the build defines FARMHASH_DEBUG or lacks NDEBUG. *)
Context (debug_mode : bool).

Definition DebugTweak (x : Z) : Z :=
  if debug_mode then 2 ^ 64 - 1 - bswap_64 (x *! k1) else x.

(** The same template on a 32-bit value, and the specialisation to 128 bits. *)
Definition DebugTweak32 (x : Z) : Z :=
  if debug_mode then 2 ^ 32 - 1 - bswap_32 (u32 (x * c1)) else x.

Definition DebugTweak128 (x : Z * Z) : Z * Z :=
  if debug_mode then
    let y := DebugTweak x.1 in
    let z := DebugTweak x.2 in
    let y := y +! z in
    let z := z +! y in
    (y, z *! k1)
  else x.

Definition Hash64WithSeed (m : bytes) (s len seed : Z) : outcome Z :=
  h ← na.Hash64WithSeed m s len seed; Done (DebugTweak h).

Definition Hash64WithSeeds (m : bytes) (s len seed0 seed1 : Z) : outcome Z :=
  h ← na.Hash64WithSeeds m s len seed0 seed1; Done (DebugTweak h).

(** What the processor of the build offers. *)
Section Simd.
Context {M : Type} `{Simd M} (b : Build).

Definition Hash64 (m : bytes) (s len : Z) : outcome Z :=
  h ← (if can_use_sse42 b && x86_64 b then te.Hash64 b m s len else xo.Hash64 m s len);
  Done (DebugTweak h).

Definition Hash32 (m : bytes) (s len : Z) : outcome Z :=
  h ← (if can_use_sse41 b && x86_64 b then nt.Hash32 b m s len
       else if can_use_sse42 b && can_use_aesni b then su.Hash32 b m s len
       else if can_use_sse42 b then sa.Hash32 b m s len
       else mk.Hash32 m s len);
  Done (DebugTweak32 h).

Definition Hash32WithSeed (m : bytes) (s len seed : Z) : outcome Z :=
  h ← (if can_use_sse41 b && x86_64 b then nt.Hash32WithSeed b m s len seed
       else if can_use_sse42 b && can_use_aesni b then su.Hash32WithSeed b m s len seed
       else if can_use_sse42 b then sa.Hash32WithSeed b m s len seed
       else mk.Hash32WithSeed m s len seed);
  Done (DebugTweak32 h).

(** [size_t] has 8 bytes. *)
Definition Hash (m : bytes) (s len : Z) : outcome Z := Hash64 m s len.
End Simd.

Definition Hash128 (m : bytes) (s len : Z) : outcome (Z * Z) :=
  h ← cc.Fingerprint128 m s len; Done (DebugTweak128 h).

Definition Hash128WithSeed (m : bytes) (s len : Z) (seed : Z * Z)
  : outcome (Z * Z) :=
  h ← cc.CityHash128WithSeed m s len seed; Done (DebugTweak128 h).

End Build.

(** The fingerprints do not depend on the build. *)
Definition Fingerprint32 (m : bytes) (s len : Z) : outcome Z := mk.Hash32 m s len.
Definition Fingerprint64 (m : bytes) (s len : Z) : outcome Z := na.Hash64 m s len.
Definition Fingerprint128 (m : bytes) (s len : Z) : outcome (Z * Z) :=
  cc.Fingerprint128 m s len.

(** ** Memory safety *)
Lemma bswap_bytes_ok (n : nat) : ∀ x : Z,
  bytes_ok (bswap_bytes n x) ∧ length (bswap_bytes n x) = n.
Proof.
  induction n as [|n IH]; intros x; simpl; [done|].
  destruct (IH (x >>! 8)) as [H1 H2]. split.
  - apply Forall_app. split; [done|]. constructor; [apply u8_range|done].
  - rewrite length_app, H2. simpl. lia.
Qed.

Lemma bswap_64_range (x : Z) : is_u 64 (bswap_64 x).
Proof.
  destruct (bswap_bytes_ok 8 x) as [H1 H2]. apply le_range in H1.
  unfold zlen in H1. by rewrite H2 in H1.
Qed.

Lemma bswap_32_range (x : Z) : is_u 32 (bswap_32 x).
Proof.
  destruct (bswap_bytes_ok 4 x) as [H1 H2]. apply le_range in H1.
  unfold zlen in H1. by rewrite H2 in H1.
Qed.

Lemma DebugTweak_range (debug : bool) (x : Z) : is_u 64 x → is_u 64 (DebugTweak debug x).
Proof.
  intros Hx. unfold DebugTweak. destruct debug; [|done].
  pose proof (bswap_64_range (x *! k1)). unfold is_u in *. lia.
Qed.

Lemma DebugTweak32_range (debug : bool) (x : Z) :
  is_u 32 x → is_u 32 (DebugTweak32 debug x).
Proof.
  intros Hx. unfold DebugTweak32. destruct debug; [|done].
  pose proof (bswap_32_range (u32 (x * c1))). unfold is_u in *. lia.
Qed.

Lemma DebugTweak128_range (debug : bool) (x : Z * Z) :
  is_u128 x → is_u128 (DebugTweak128 debug x).
Proof.
  intros Hx. unfold DebugTweak128. destruct debug; [|done]. split; apply is_u_u64.
Qed.

Lemma Hash64WithSeed_done (debug : bool) (key : bytes) (seed : Z) :
  ∃ h, Hash64WithSeed debug key 0 (zlen key) seed = Done h ∧ is_u 64 h.
Proof.
  apply wp_done. apply wp_bind.
  eapply wp_mono; [apply wp_na_seeds; unfold zlen; lia|].
  intros h Hh. by apply DebugTweak_range.
Qed.

(** [Hash64] asks for SSE 4.2 and calls a namespace that asks for SSE 4.1: of
    the builds, those that have one without the other die. *)
Definition misconfigured (b : Build) : bool :=
  can_use_sse42 b && x86_64 b && negb (can_use_sse41 b).

Section Entries.
Context {M : Type} `{SimdLaws M} (debug : bool) (b : Build) (key : bytes).

Lemma Hash64_done :
  if misconfigured b then Hash64 debug b key 0 (zlen key) = Fault OutOfBounds
  else ∃ h, Hash64 debug b key 0 (zlen key) = Done h ∧ is_u 64 h.
Proof.
  assert (0 ≤ zlen key) by (unfold zlen; lia).
  destruct (misconfigured b) eqn:E; unfold misconfigured in E.
  - apply andb_true_iff in E as [E1 E2%negb_true_iff]. unfold Hash64, te.Hash64, te.configured.
    by rewrite E1, E2.
  - apply wp_done, wp_bind. apply (wp_mono _ (is_u 64)).
    + destruct (can_use_sse42 b && x86_64 b) eqn:E1; [|by apply wp_xo_Hash64].
      apply wp_te_Hash64; [|lia|done|lia]. apply negb_false_iff in E.
      unfold te.configured. rewrite E. by destruct (x86_64 b), (can_use_sse42 b).
    + intros. by apply DebugTweak_range.
Qed.

Lemma Hash32_done : ∃ h, Hash32 debug b key 0 (zlen key) = Done h ∧ is_u 32 h.
Proof.
  assert (0 ≤ zlen key) by (unfold zlen; lia).
  apply wp_done, wp_bind. apply (wp_mono _ (is_u 32)); [|intros; by apply DebugTweak32_range].
  repeat case_match; [by apply wp_nt_Hash32|by apply wp_su_Hash32|by apply wp_sa_Hash32|].
  by apply wp_mk_Hash32.
Qed.

Lemma Hash32WithSeed_done (seed : Z) : is_u 32 seed →
  ∃ h, Hash32WithSeed debug b key 0 (zlen key) seed = Done h ∧ is_u 32 h.
Proof.
  intros Hseed. assert (0 ≤ zlen key) by (unfold zlen; lia).
  apply wp_done, wp_bind. apply (wp_mono _ (is_u 32)); [|intros; by apply DebugTweak32_range].
  repeat case_match; [by apply wp_nt_seed|by apply wp_su_seed|by apply wp_sa_seed|].
  by apply wp_mk_Hash32WithSeed.
Qed.

Lemma Hash128_done : ∃ h, Hash128 debug key 0 (zlen key) = Done h ∧ is_u128 h.
Proof.
  assert (0 ≤ zlen key) by (unfold zlen; lia). apply wp_done, wp_bind.
  change (cc.Fingerprint128 key 0 (zlen key)) with (cc.CityHash128 key 0 (zlen key)).
  rewrite CCEquiv.Fingerprint128_eq.
  eapply wp_mono; [by apply wp_CityHash128|]. intros. by apply DebugTweak128_range.
Qed.

(** C26: FarmHash never reads outside the key, its [assert] never fires, it
    always finishes and returns words of the declared width. In debug and
    release builds, whatever vector instructions the build has and whatever
    they compute, on a key of any length: the seeded 64-bit hash that the bloom
    filter uses ([farmhashna]) is below 2^64; so is the unseeded one - in
    [farmhashxo] and [farmhashuo], or in [farmhashte] with its rounds of 256
    bytes and its array of eight vectors - except that a build which has SSE
    4.2 without SSE 4.1 dies in it; the 32-bit hashes ([farmhashnt],
    [farmhashsu], [farmhashsa] or [farmhashmk], with their overlapping loads at
    [s + len - k] and their rounds of 80 bytes) are below 2^32 for every 32-bit
    seed; and the 128-bit hash of [farmhashcc] is two 64-bit words. *)
Theorem FarmHash_in_bounds (seed seed32 : Z) :
  is_u 32 seed32 →
  (∃ h, Hash64WithSeed debug key 0 (zlen key) seed = Done h ∧ is_u 64 h) ∧
  (if misconfigured b then Hash debug b key 0 (zlen key) = Fault OutOfBounds
   else ∃ h, Hash debug b key 0 (zlen key) = Done h ∧ is_u 64 h) ∧
  (∃ h, Hash32WithSeed debug b key 0 (zlen key) seed32 = Done h ∧ is_u 32 h) ∧
  (∃ h, Hash32 debug b key 0 (zlen key) = Done h ∧ is_u 32 h) ∧
  (∃ h, Hash128 debug key 0 (zlen key) = Done h ∧ is_u128 h).
Proof.
  intros Hseed. split_and!; [apply Hash64WithSeed_done|apply Hash64_done|
    by apply Hash32WithSeed_done|apply Hash32_done|apply Hash128_done].
Qed.
End Entries.

#[local] Existing Instance Vec.simd.
#[local] Existing Instance Vec.simd_laws.

Lemma FarmHash_in_bounds_witness :
  is_u 32 0xdeadbeef ∧
  ∃ h, Hash32WithSeed false (mkBuild false true true true) (str "shaundb") 0 7 0xdeadbeef = Done h
       ∧ is_u 32 h.
Proof.
  assert (H : is_u 32 0xdeadbeef) by by vm_compute.
  split; [exact H|].
  apply (FarmHash_in_bounds false (mkBuild false true true true) (str "shaundb") 7 0xdeadbeef H).
Defined.

End FarmHash.
