(* ===== verification/Bloom.v ===== *)
(** * Bit sets and the bloom filter

    [src/util/bitset.hpp] and [src/util/bloomfilter.hpp]. [std::hash] of the
    standard library is a parameter of the filter; the other three hash
    functions are the modelled ones. *)
From S2P Require Import Prelude XXHash64 CityHash FarmHash.

(** ** BitSet *)
Module BitSet.

Definition kset_Remain_Idx : list Z := [1; 2; 4; 8; 16; 32; 64; 128].
Definition kdel_Remain_Idx : list Z := [254; 253; 251; 247; 239; 223; 191; 127].

(** [data] and [data_size]. *)
Record BitSet : Type := mkBits { data : bytes; data_size : Z }.

(** The default constructor of [BitSet<N>]; the [static_assert] asks for 64
    bits at least. *)
Definition init (N : Z) : BitSet :=
  mkBits (replicate (Z.to_nat (N / 8)) 0) (N / 8).

(** The view constructor. *)
Definition view_of (data_view : bytes) (size : Z) : BitSet := mkBits data_view size.

(** [data[pre_idx] = f (data[pre_idx])]. *)
Definition update_byte (b : BitSet) (i : nat) (f : Z → Z) : outcome BitSet :=
  x ← rd (data b) i;
  d ← wr (data b) i [u8 (f x)];
  Done (mkBits d (data_size b)).

Definition set (b : BitSet) (idx : Z) : outcome BitSet :=
  let idx := u32 idx in
  let pre_idx := Z.to_nat (idx / 8) in
  let remain_idx := Z.to_nat (idx mod 8) in
  k ← of_option OutOfBounds (kset_Remain_Idx !! remain_idx);
  update_byte b pre_idx (λ x, Z.lor x k).

Definition del (b : BitSet) (idx : Z) : outcome BitSet :=
  let idx := u32 idx in
  let pre_idx := Z.to_nat (idx / 8) in
  let remain_idx := Z.to_nat (idx mod 8) in
  k ← of_option OutOfBounds (kdel_Remain_Idx !! remain_idx);
  update_byte b pre_idx (λ x, Z.land x k).

Definition test (b : BitSet) (idx : Z) : outcome bool :=
  let idx := u32 idx in
  let pre_idx := Z.to_nat (idx / 8) in
  let remain_idx := Z.to_nat (idx mod 8) in
  k ← of_option OutOfBounds (kset_Remain_Idx !! remain_idx);
  x ← rd (data b) pre_idx;
  Done (negb (Z.land x k =? 0)).

(** *** What the operations do to the set of bits *)

(** The bit [idx] of the data. *)
Definition bit (b : BitSet) (idx : Z) : bool :=
  match data b !! Z.to_nat (idx / 8) with
  | Some x => Z.testbit x (idx mod 8)
  | None => false
  end.

Definition wf (b : BitSet) : Prop := bytes_ok (data b).

(** The indices the data has a byte for. *)
Definition valid (b : BitSet) (idx : Z) : Prop := 0 ≤ idx < 8 * zlen (data b) ∧ idx < 2 ^ 32.

Lemma kset_lookup (i : Z) :
  0 ≤ i < 8 → kset_Remain_Idx !! Z.to_nat i = Some (2 ^ i).
Proof.
  intros H. assert (E : i = 0 ∨ i = 1 ∨ i = 2 ∨ i = 3 ∨ i = 4 ∨ i = 5 ∨ i = 6 ∨ i = 7)
    by lia.
  by repeat (destruct E as [->|E]; [done|]); subst.
Qed.

Lemma kdel_lookup (i : Z) :
  0 ≤ i < 8 → kdel_Remain_Idx !! Z.to_nat i = Some (255 - 2 ^ i).
Proof.
  intros H. assert (E : i = 0 ∨ i = 1 ∨ i = 2 ∨ i = 3 ∨ i = 4 ∨ i = 5 ∨ i = 6 ∨ i = 7)
    by lia.
  by repeat (destruct E as [->|E]; [done|]); subst.
Qed.

Lemma testbit_u8 (x j : Z) : 0 ≤ j < 8 → Z.testbit (u8 x) j = Z.testbit x j.
Proof. intros H. unfold u8, wrap. by rewrite Z.mod_pow2_bits_low by lia. Qed.

Lemma testbit_kset (i j : Z) : 0 ≤ i → 0 ≤ j → Z.testbit (2 ^ i) j = bool_decide (i = j).
Proof. intros. rewrite Z.pow2_bits_eqb by lia. destruct (Z.eqb_spec i j); [by rewrite bool_decide_true|by rewrite bool_decide_false]. Qed.

Lemma testbit_kdel (i j : Z) :
  0 ≤ i < 8 → 0 ≤ j < 8 → Z.testbit (255 - 2 ^ i) j = negb (bool_decide (i = j)).
Proof.
  intros Hi Hj.
  assert (E : i = 0 ∨ i = 1 ∨ i = 2 ∨ i = 3 ∨ i = 4 ∨ i = 5 ∨ i = 6 ∨ i = 7) by lia.
  assert (F : j = 0 ∨ j = 1 ∨ j = 2 ∨ j = 3 ∨ j = 4 ∨ j = 5 ∨ j = 6 ∨ j = 7) by lia.
  repeat destruct E as [->|E]; subst; repeat destruct F as [->|F]; subst; done.
Qed.

Lemma split_idx (b : BitSet) (idx : Z) :
  valid b idx →
  u32 idx = idx ∧ 0 ≤ idx mod 8 < 8 ∧ (Z.to_nat (idx / 8) < length (data b))%nat ∧
  ∀ j, 0 ≤ j → (Z.to_nat (j / 8) = Z.to_nat (idx / 8) ∧ j mod 8 = idx mod 8 ↔ j = idx).
Proof.
  intros [H1 H2]. unfold zlen in H1.
  pose proof (Z.mod_pos_bound idx 8 ltac:(lia)). pose proof (Z.div_mod idx 8 ltac:(lia)).
  pose proof (Z.div_pos idx 8 ltac:(lia) ltac:(lia)).
  split_and!; [by apply u32_small; lia|lia|lia|lia|].
  intros j Hj. pose proof (Z.div_mod j 8 ltac:(lia)).
  pose proof (Z.div_pos j 8 ltac:(lia) ltac:(lia)).
  split; [intros [E1 E2]; apply Z2Nat.inj in E1; lia|by intros ->].
Qed.

Lemma wr_one (l : bytes) (i : nat) (x : Z) :
  (i < length l)%nat → wr l i [x] = Done (<[i:=x]> l).
Proof.
  intros H. unfold wr. simpl length. rewrite decide_True by lia. f_equal.
  rewrite insert_take_drop by done. by rewrite Nat.add_1_r.
Qed.

(** A byte update through [f] changes only that byte. *)
Lemma update_byte_spec (b : BitSet) (idx : Z) (f : Z → Z) :
  valid b idx → wf b →
  ∃ b', update_byte b (Z.to_nat (idx / 8)) f = Done b' ∧ wf b' ∧
    data_size b' = data_size b ∧ length (data b') = length (data b) ∧
    ∀ j, 0 ≤ j → bit b' j =
      if decide (Z.to_nat (j / 8) = Z.to_nat (idx / 8))
      then match data b !! Z.to_nat (j / 8) with
           | Some x => Z.testbit (f x) (j mod 8) | None => false end
      else bit b j.
Proof.
  intros Hv Hwf. destruct (split_idx b idx Hv) as (_ & _ & Hlt & _).
  destruct (lookup_lt_is_Some_2 _ _ Hlt) as [x Hx].
  unfold update_byte, rd. rewrite Hx. cbn [of_option]. rewrite bind_Done_l.
  rewrite wr_one by done. rewrite bind_Done_l. eexists. split; [done|]. simpl.
  split_and!; [|done|apply length_insert|].
  - apply Forall_insert; [done|]. apply u8_range.
  - intros j Hj. unfold bit. simpl. case_decide as E.
    + rewrite E, list_lookup_insert_eq by done. rewrite Hx.
      apply testbit_u8. apply Z.mod_pos_bound. lia.
    + by rewrite list_lookup_insert_ne.
Qed.

Lemma set_spec (b : BitSet) (idx : Z) :
  valid b idx → wf b →
  ∃ b', set b idx = Done b' ∧ wf b' ∧ data_size b' = data_size b ∧
    length (data b') = length (data b) ∧
    ∀ j, 0 ≤ j → bit b' j = bool_decide (j = idx) || bit b j.
Proof.
  intros Hv Hwf. destruct (split_idx b idx Hv) as (E & Hm & Hlt & Hinj).
  unfold set. cbv zeta. rewrite E, kset_lookup by done. cbn [of_option].
  rewrite bind_Done_l.
  destruct (update_byte_spec b idx (λ x, Z.lor x (2 ^ (idx mod 8))) Hv Hwf)
    as (b' & -> & H1 & H2 & H3 & H4).
  exists b'. split_and!; try done. intros j Hj. rewrite H4 by done.
  specialize (Hinj j Hj). pose proof (Z.mod_pos_bound j 8 ltac:(lia)).
  unfold bit. case_decide as D.
  - destruct (lookup_lt_is_Some_2 _ _ Hlt) as [x Hx]. rewrite D, Hx.
    rewrite Z.lor_spec, testbit_kset by lia. rewrite orb_comm. f_equal.
    apply bool_decide_ext. rewrite <- Hinj. split; [by intros ->|by intros [_ ->]].
  - rewrite bool_decide_false; [done|]. intros ->. done.
Qed.

Lemma del_spec (b : BitSet) (idx : Z) :
  valid b idx → wf b →
  ∃ b', del b idx = Done b' ∧ wf b' ∧ data_size b' = data_size b ∧
    length (data b') = length (data b) ∧
    ∀ j, 0 ≤ j → bit b' j = negb (bool_decide (j = idx)) && bit b j.
Proof.
  intros Hv Hwf. destruct (split_idx b idx Hv) as (E & Hm & Hlt & Hinj).
  unfold del. cbv zeta. rewrite E, kdel_lookup by done. cbn [of_option].
  rewrite bind_Done_l.
  destruct (update_byte_spec b idx (λ x, Z.land x (255 - 2 ^ (idx mod 8))) Hv Hwf)
    as (b' & -> & H1 & H2 & H3 & H4).
  exists b'. split_and!; try done. intros j Hj. rewrite H4 by done.
  specialize (Hinj j Hj). pose proof (Z.mod_pos_bound j 8 ltac:(lia)).
  unfold bit. case_decide as D.
  - destruct (lookup_lt_is_Some_2 _ _ Hlt) as [x Hx]. rewrite D, Hx.
    rewrite Z.land_spec, testbit_kdel by lia. rewrite andb_comm. do 2 f_equal.
    apply bool_decide_ext. rewrite <- Hinj. split; [by intros ->|by intros [_ ->]].
  - rewrite bool_decide_false; [done|]. intros ->. done.
Qed.

Lemma test_spec (b : BitSet) (idx : Z) :
  valid b idx → wf b → test b idx = Done (bit b idx).
Proof.
  intros Hv Hwf. destruct (split_idx b idx Hv) as (E & Hm & Hlt & _).
  unfold test. cbv zeta. rewrite E, kset_lookup by done. cbn [of_option].
  destruct (lookup_lt_is_Some_2 _ _ Hlt) as [x Hx].
  rewrite bind_Done_l. unfold rd, bit. rewrite Hx. cbn [of_option].
  rewrite bind_Done_l. f_equal.
  destruct (Z.testbit x (idx mod 8)) eqn:B.
  - apply negb_true_iff, Z.eqb_neq. intros Hz.
    assert (Z.testbit (Z.land x (2 ^ (idx mod 8))) (idx mod 8) = false)
      by (by rewrite Hz, Z.bits_0).
    rewrite Z.land_spec, testbit_kset, B in H by lia. by rewrite bool_decide_true in H.
  - apply negb_false_iff, Z.eqb_eq. apply Z.bits_inj'. intros n Hn.
    rewrite Z.land_spec, Z.bits_0, testbit_kset by lia.
    case_bool_decide as D; [|apply andb_false_r]. by rewrite <- D, B.
Qed.

Lemma init_valid (N i : Z) : 64 ≤ N → N mod 8 = 0 → N ≤ 2 ^ 32 → 0 ≤ i < N → valid (init N) i.
Proof.
  intros HN H8 H32 Hi. unfold valid, init, zlen. simpl. rewrite length_replicate.
  pose proof (Z.div_mod N 8 ltac:(lia)). lia.
Qed.

Lemma init_wf (N : Z) : wf (init N).
Proof. apply Forall_replicate. unfold is_byte. lia. Qed.

(** The bit set is an array of independent bits: on an index inside the
    data, [set] and [del] finish and change that bit alone — every other bit,
    the size and the length of the data stay — and [test] then reports it. *)
Theorem BitSet_ops (b : BitSet) (i j : Z) (Hwf : wf b) (Hi : valid b i) (Hj : valid b j) :
  (∃ b', set b i = Done b' ∧ wf b' ∧ data_size b' = data_size b ∧
     length (data b') = length (data b) ∧ test b' i = Done true ∧
     (i ≠ j → test b' j = test b j)) ∧
  (∃ b', del b i = Done b' ∧ wf b' ∧ data_size b' = data_size b ∧
     length (data b') = length (data b) ∧ test b' i = Done false ∧
     (i ≠ j → test b' j = test b j)).
Proof.
  assert (V : ∀ b' k, length (data b') = length (data b) → valid b k → valid b' k).
  { intros b' k E. unfold valid, zlen. by rewrite E. }
  pose proof (proj1 (proj1 Hi)). pose proof (proj1 (proj1 Hj)). split.
  - destruct (set_spec b i Hi Hwf) as (b' & E & W & S & L & B). exists b'.
    specialize (V b'). split_and!; try done; [|intros Hne]; rewrite !test_spec, B by auto.
    + by rewrite bool_decide_true.
    + by rewrite bool_decide_false by done.
  - destruct (del_spec b i Hi Hwf) as (b' & E & W & S & L & B). exists b'.
    specialize (V b'). split_and!; try done; [|intros Hne]; rewrite !test_spec, B by auto.
    + by rewrite bool_decide_true.
    + by rewrite bool_decide_false by done.
Qed.

Lemma BitSet_ops_witness :
  wf (init 64) ∧ valid (init 64) 9 ∧ valid (init 64) 10 ∧
  ∃ b', set (init 64) 9 = Done b' ∧ wf b' ∧ data_size b' = 8 ∧
    length (data b') = 8%nat ∧ test b' 9 = Done true ∧
    (9 ≠ 10 → test b' 10 = test (init 64) 10).
Proof.
  split; [apply init_wf|]. split; [by vm_compute|]. split; [by vm_compute|].
  exact (proj1 (BitSet_ops (init 64) 9 10 (init_wf 64)
    ltac:(split; [unfold zlen; simpl; lia|lia]) ltac:(split; [unfold zlen; simpl; lia|lia]))).
Defined.

End BitSet.

(** ** What a table asks of its key filter *)

(** The operations. *)
Class KeyFilter (F : Type) : Type := {
  kf_empty : F;
  kf_insert : F → bytes → outcome F;
  kf_match : F → bytes → outcome bool
}.

(** The promise: on well-formed filters nothing fails, an inserted key
    matches, and no key stops matching. *)
Class KeyFilterLaws (F : Type) {KF : KeyFilter F} : Type := {
  kf_ok : F → Prop;
  kf_empty_ok : kf_ok kf_empty;
  kf_match_total : ∀ f k, kf_ok f → ∃ b, kf_match f k = Done b;
  kf_insert_ok : ∀ f k, kf_ok f →
    ∃ f', kf_insert f k = Done f' ∧ kf_ok f' ∧ kf_match f' k = Done true ∧
      ∀ k', kf_match f k' = Done true → kf_match f' k' = Done true
}.

(** ** BloomFilter *)
Module Bloom.

Definition kBloomFilterDefaultSize : Z := 2 * 1024 * 1024.

Record BloomFilter : Type := mkBloom { seed_ : Z; filter_ : BitSet.BitSet }.

Section Bloom.
Context (std_hash : bytes → Z) (debug_mode : bool) (N : Z).

(** The default constructor. *)
Definition init : BloomFilter := mkBloom 12 (BitSet.init N).

(** The view constructor. *)
Definition view_of (bitset_data : bytes) (bitset_data_size seed : Z) : BloomFilter :=
  mkBloom seed (BitSet.view_of bitset_data bitset_data_size).

Definition Insert (b : BloomFilter) (key : bytes) : outcome BloomFilter :=
  let idx_1 := XXHash64.hash key (seed_ b) in
  let idx_2 := std_hash key in
  idx_3 ← CityHash.CityHash64WithSeed key 0 (zlen key) (seed_ b);
  idx_4 ← FarmHash.Hash64WithSeed debug_mode key 0 (zlen key) (seed_ b);
  f ← BitSet.set (filter_ b) (idx_1 mod N);
  f ← BitSet.set f (idx_2 mod N);
  f ← BitSet.set f (idx_3 mod N);
  f ← BitSet.set f (idx_4 mod N);
  Done (mkBloom (seed_ b) f).

(** [&&] evaluates its right side only after a true left side. *)
Definition and_then (l r : outcome bool) : outcome bool :=
  b ← l; if (b : bool) then r else Done false.

Definition IsMatch (b : BloomFilter) (key : bytes) : outcome bool :=
  and_then (BitSet.test (filter_ b) (XXHash64.hash key (seed_ b) mod N))
  (and_then (BitSet.test (filter_ b) (std_hash key mod N))
  (and_then (idx ← CityHash.CityHash64WithSeed key 0 (zlen key) (seed_ b);
             BitSet.test (filter_ b) (idx mod N))
            (idx ← FarmHash.Hash64WithSeed debug_mode key 0 (zlen key) (seed_ b);
             BitSet.test (filter_ b) (idx mod N)))).

Definition getFilterData (b : BloomFilter) : BitSet.BitSet := filter_ b.
Definition getFilterSeed (b : BloomFilter) : Z := seed_ b.
Definition setSeed (b : BloomFilter) (seed : Z) : BloomFilter := mkBloom seed (filter_ b).
Definition getBitSetSize (b : BloomFilter) : Z := BitSet.data_size (filter_ b).

(** *** Correctness *)

(** A filter whose data has a bit for every residue of [N]. *)
Definition ok (b : BloomFilter) : Prop :=
  0 < N ≤ 2 ^ 32 ∧ N ≤ 8 * zlen (BitSet.data (filter_ b)) ∧ BitSet.wf (filter_ b).

(** The four hash values of a key. *)
Definition hashes (seed : Z) (key : bytes) : list Z :=
  let unwrap o := match o with Done h => h | Fault _ => 0 end in
  [ XXHash64.hash key seed; std_hash key;
    unwrap (CityHash.CityHash64WithSeed key 0 (zlen key) seed);
    unwrap (FarmHash.Hash64WithSeed debug_mode key 0 (zlen key) seed) ].

Lemma valid_mod (b : BloomFilter) (h : Z) : ok b → BitSet.valid (filter_ b) (h mod N).
Proof.
  intros (H1 & H2 & _). pose proof (Z.mod_pos_bound h N ltac:(lia)).
  unfold BitSet.valid. lia.
Qed.

Lemma IsMatch_spec (b : BloomFilter) (key : bytes) :
  ok b → IsMatch b key =
         Done (forallb (λ h, BitSet.bit (filter_ b) (h mod N)) (hashes (seed_ b) key)).
Proof.
  intros Hok. unfold IsMatch, and_then, hashes.
  destruct (CityHash.CityHash64WithSeed_done key (seed_ b)) as (h3 & -> & _).
  destruct (FarmHash.Hash64WithSeed_done debug_mode key (seed_ b)) as (h4 & -> & _).
  destruct Hok as (H1 & H2 & Hwf) eqn:E.
  assert (V : ∀ h, BitSet.test (filter_ b) (h mod N) =
    Done (BitSet.bit (filter_ b) (h mod N))).
  { intros h. by apply BitSet.test_spec; [apply valid_mod|]. }
  rewrite ?bind_Done_l, !V, !bind_Done_l. simpl. rewrite andb_true_r.
  by repeat destruct (BitSet.bit _ _).
Qed.

Lemma set_ok (b : BloomFilter) (h : Z) :
  ok b → ∃ f, BitSet.set (filter_ b) (h mod N) = Done f ∧ ok (mkBloom (seed_ b) f) ∧
    ∀ i, 0 ≤ i → BitSet.bit f i = bool_decide (i = h mod N) || BitSet.bit (filter_ b) i.
Proof.
  intros Hok. destruct (BitSet.set_spec (filter_ b) (h mod N)) as (f & E & W & _ & L & B).
  - by apply valid_mod.
  - apply Hok.
  - exists f. destruct Hok as (H1 & H2 & H3). split; [done|]. split; [|done].
    split_and!; [lia|lia| |done]. unfold zlen in *. simpl. by rewrite L.
Qed.

Lemma Insert_spec (b : BloomFilter) (key : bytes) :
  ok b →
  ∃ b', Insert b key = Done b' ∧ ok b' ∧ seed_ b' = seed_ b ∧
    ∀ i, 0 ≤ i → BitSet.bit (filter_ b') i =
      existsb (λ h, bool_decide (i = h mod N)) (hashes (seed_ b) key) ||
      BitSet.bit (filter_ b) i.
Proof.
  intros Hok. unfold Insert, hashes. cbv zeta.
  destruct (CityHash.CityHash64WithSeed_done key (seed_ b)) as (h3 & -> & _).
  destruct (FarmHash.Hash64WithSeed_done debug_mode key (seed_ b)) as (h4 & -> & _).
  rewrite !bind_Done_l.
  destruct (set_ok b (XXHash64.hash key (seed_ b)) Hok) as (f1 & -> & O1 & B1).
  rewrite bind_Done_l. destruct (set_ok _ (std_hash key) O1) as (f2 & E2 & O2 & B2).
  simpl in E2. rewrite E2, bind_Done_l.
  destruct (set_ok _ h3 O2) as (f3 & E3 & O3 & B3).
  simpl in E3. rewrite E3, bind_Done_l.
  destruct (set_ok _ h4 O3) as (f4 & E4 & O4 & B4).
  simpl in E4. rewrite E4, bind_Done_l.
  eexists. split_and!; [done|done|done|]. intros i Hi. simpl in *.
  rewrite B4, B3, B2, B1 by done. rewrite orb_false_r.
  by repeat destruct (bool_decide _); rewrite ?orb_true_r.
Qed.

Lemma Insert_ok (b : BloomFilter) (key : bytes) :
  ok b →
  ∃ b', Insert b key = Done b' ∧ ok b' ∧ IsMatch b' key = Done true ∧
    ∀ k', IsMatch b k' = Done true → IsMatch b' k' = Done true.
Proof.
  intros Hok. destruct (Insert_spec b key Hok) as (b' & E & Hok' & Es & B).
  assert (Hp : ∀ h, 0 ≤ h mod N) by (intros h; apply Z.mod_pos_bound; apply Hok).
  exists b'. split_and!; try done.
  - rewrite IsMatch_spec, Es by done. f_equal. apply List.forallb_forall.
    intros h Hh. rewrite B by done. apply orb_true_iff. left. apply List.existsb_exists.
    exists h. split; [done|by apply bool_decide_true].
  - intros k'. rewrite !IsMatch_spec, Es by done.
    generalize (hashes (seed_ b) k'). intros hs [= H]. f_equal.
    rewrite List.forallb_forall in *. intros h Hh. rewrite B, H by done.
    apply orb_true_r.
Qed.

Lemma init_ok : 64 ≤ N ≤ 2 ^ 32 → N mod 8 = 0 → ok init.
Proof.
  intros H1 H2. split_and!; [lia|lia| |apply BitSet.init_wf].
  unfold zlen. simpl. rewrite length_replicate. pose proof (Z.div_mod N 8 ltac:(lia)). lia.
Qed.

(** A fresh filter answers no to every key. *)
Lemma init_IsMatch (key : bytes) :
  64 ≤ N ≤ 2 ^ 32 → N mod 8 = 0 → IsMatch init key = Done false.
Proof.
  intros H1 H2. rewrite IsMatch_spec by (by apply init_ok). f_equal. simpl.
  replace (BitSet.bit (BitSet.init N) _) with false; [done|].
  unfold BitSet.bit, BitSet.init. simpl.
  destruct (replicate _ 0 !! _) eqn:E; [|done].
  apply lookup_replicate in E as [-> _]. by rewrite Z.bits_0.
Qed.

Fixpoint Insert_all (b : BloomFilter) (keys : list bytes) : outcome BloomFilter :=
  match keys with
  | [] => Done b
  | k :: keys' => b' ← Insert b k; Insert_all b' keys'
  end.

Lemma Insert_all_ok (keys : list bytes) : ∀ b, ok b →
  ∃ b', Insert_all b keys = Done b' ∧ ok b' ∧
    Forall (λ k, IsMatch b' k = Done true) keys ∧
    ∀ k, IsMatch b k = Done true → IsMatch b' k = Done true.
Proof.
  induction keys as [|k keys IH]; intros b Hok; simpl; [by exists b|].
  destruct (Insert_ok b k Hok) as (b1 & -> & Hok1 & Hk & Hmono). rewrite bind_Done_l.
  destruct (IH b1 Hok1) as (b' & -> & Hok' & Hall & Hmono').
  exists b'. split_and!; try done; [constructor; auto|auto].
Qed.

End Bloom.

(** C29: the bloom filter has no false negatives. For any [std::hash] and in
    debug and release builds, a filter of [N] bits ([N] a multiple of 8
    between 64 and 2^32) starts empty, inserting any keys never fails, and
    afterwards every inserted key matches — in the filter and in a view built
    from its data and seed, as an SSTable's filter is rebuilt. *)
Theorem no_false_negatives (std_hash : bytes → Z) (debug : bool) (N : Z)
  (keys : list bytes) (HN : 64 ≤ N ≤ 2 ^ 32) (H8 : N mod 8 = 0) :
  (∀ k, IsMatch std_hash debug N (init N) k = Done false) ∧
  ∃ b, Insert_all std_hash debug N (init N) keys = Done b ∧
    ∀ k, k ∈ keys →
      IsMatch std_hash debug N b k = Done true ∧
      IsMatch std_hash debug N
        (view_of (BitSet.data (getFilterData b)) (getBitSetSize b) (getFilterSeed b)) k
      = Done true.
Proof.
  split; [intros k; by apply init_IsMatch|].
  destruct (Insert_all_ok std_hash debug N keys (init N)) as (b & E & _ & Hall & _);
    [by apply init_ok|].
  exists b. split; [done|]. intros k Hk. rewrite Forall_forall in Hall.
  split; [by apply Hall|]. destruct b as [sd [d n]]. by apply Hall.
Qed.

Lemma no_false_negatives_witness :
  (64 ≤ 128 ≤ 2 ^ 32) ∧ 128 mod 8 = 0 ∧
  ∃ b, Insert_all (λ k, zlen k) true 128 (init 128) [str "k1"; str "k22"] = Done b ∧
    ∀ k, k ∈ [str "k1"; str "k22"] →
      IsMatch (λ k, zlen k) true 128 b k = Done true ∧
      IsMatch (λ k, zlen k) true 128
        (view_of (BitSet.data (getFilterData b)) (getBitSetSize b) (getFilterSeed b)) k
      = Done true.
Proof.
  split; [lia|]. split; [reflexivity|].
  exact (proj2 (no_false_negatives (λ k, zlen k) true 128 [str "k1"; str "k22"]
    ltac:(lia) eq_refl)).
Defined.

(** The filter tables use: the default size. *)
#[export] Instance bloom_filter (std_hash : bytes → Z) (debug : bool)
  : KeyFilter BloomFilter := {
  kf_empty := init kBloomFilterDefaultSize;
  kf_insert := Insert std_hash debug kBloomFilterDefaultSize;
  kf_match := IsMatch std_hash debug kBloomFilterDefaultSize
}.

#[export] Instance bloom_filter_laws (std_hash : bytes → Z) (debug : bool)
  : @KeyFilterLaws BloomFilter (bloom_filter std_hash debug).
Proof.
  refine (@Build_KeyFilterLaws _ (bloom_filter std_hash debug)
    (ok kBloomFilterDefaultSize) _ _ _).
  - apply init_ok; unfold kBloomFilterDefaultSize; [lia|done].
  - intros f k Hf. eexists. by apply IsMatch_spec.
  - intros f k Hf. by apply Insert_ok.
Defined.

End Bloom.
