(* ===== verification/Memtable.v ===== *)
(** * The memtable

    [src/db/memtable.{hpp,cpp}]: the ordered set of entries, its bloom filter
    and its counters. The filter is used through the [KeyFilter] interface, so
    the theorems hold for any filter that keeps its promise; [Bloom] supplies
    the one the source uses. Log messages are not modelled. *)
From S2P Require Import Prelude Request Crc32 KeyFormat Entry Bloom.
Import Fixed Varint Status Request Entry.

Module Memtable.

Inductive ValueType : Type := kTypeDeletion | kTypeValue.
Definition ValueType_val (t : ValueType) : Z :=
  match t with kTypeDeletion => 0 | kTypeValue => 1 end.

Definition kEmpty1Space : bytes := spaces 1.
Definition format32_vec : list bytes := map spaces [1; 1; 2; 3; 4; 5]%nat.
Definition format64_vec : list bytes := map spaces [1; 1; 2; 3; 4; 5; 6; 7; 8; 9]%nat.

(** [format32_vec[n]] and [format64_vec[n]] for the result of [varintLength]. *)
Definition fmt32 (n : Z) : outcome bytes :=
  of_option OutOfBounds (format32_vec !! Z.to_nat n).
Definition fmt64 (n : Z) : outcome bytes :=
  of_option OutOfBounds (format64_vec !! Z.to_nat n).

Definition kDefaultMemtableSize : Z := 128 * 1024 * 1024.

(** [memtable_number_] is set by [setNumber] only. *)
Record Memtable {F : Type} : Type := mkMem {
  memSize_ : Z;
  isReadonly_ : bool;
  memtable_number_ : option Z;
  compaction_number_ : Z;
  refs_ : Z;
  memMap_ : list bytes;
  bloomFilter_ : F
}.
Arguments Memtable F : clear implicits.

(** The entry [Set] builds: the sequence-number field is reserved from the
    size of the value. *)
Definition set_entry (c : SetContext) : outcome bytes :=
  let k := set_key c in
  let v := set_value c in
  f_key ← fmt32 (varintLength (zlen k));
  f_num ← fmt64 (varintLength (zlen v));
  f_val ← fmt32 (varintLength (zlen v));
  let buf := f_key ++ k ++ f_num ++ kEmpty1Space ++ f_val ++ v in
  '(buf, p) ← encodeVarint32 buf 0 (u32 (zlen k));
  let p := (p + length k)%nat in
  number ← of_option Uninit (set_number c);
  '(buf, p) ← encodeVarint64 buf p number;
  buf ← formatEncodeFixed8 (ValueType_val kTypeValue) buf p;
  '(buf, _) ← encodeVarint32 buf (p + 1) (u32 (zlen v));
  Done buf.

(** The entry [Delete] builds. *)
Definition delete_entry (d : DeleteContext) : outcome bytes :=
  let k := del_key d in
  number ← of_option Uninit (del_number d);
  f_key ← fmt32 (varintLength (zlen k));
  f_num ← fmt64 (varintLength number);
  let buf := f_key ++ k ++ f_num ++ kEmpty1Space in
  '(buf, p) ← encodeVarint32 buf 0 (u32 (zlen k));
  let p := (p + length k)%nat in
  '(buf, p) ← encodeVarint32 buf p (u32 number);
  formatEncodeFixed8 (Z.of_nat (code_val kDelete)) buf p.

(** The string [Get] looks up. *)
Definition lookup_entry (k : bytes) : outcome bytes :=
  f_key ← fmt32 (varintLength (zlen k));
  '(buf, _) ← encodeVarint32 (f_key ++ k) 0 (u32 (zlen k));
  Done buf.

(** What [Get] reads from the entry it found: [None] for a deletion mark. A
    null result of the last decoding leaves the value's size 0. *)
Definition read_entry (s : bytes) : outcome (option bytes) :=
  let m := c_data s in
  r ← getVarint32Ptr m 0 5;
  _ ← cassert (bool_decide (is_Some r));
  '(end_ptr, mem_key_size) ← of_option NullDeref r;
  let p := (end_ptr + Z.to_nat mem_key_size)%nat in
  '(end_ptr, _) ← nonnull (getVarint64Ptr m p (p + 9));
  key_type ← formatDecodeFixed8 m end_ptr;
  if key_type =? ValueType_val kTypeDeletion then Done None
  else
    r ← getVarint32Ptr m (end_ptr + 1) (end_ptr + 6);
    v ← match r with
        | Some (vp, mem_value_size) => view m vp (Z.to_nat mem_value_size)
        | None => Done []
        end;
    Done (Some v).

Section Ops.
Context {F : Type} {KF : KeyFilter F}.

Definition init : Memtable F := mkMem F 0 false None 0 0 [] kf_empty.

Definition Set_ (t : Memtable F) (c : SetContext) : outcome (Memtable F) :=
  s ← set_entry c;
  f ← kf_insert (bloomFilter_ t) (set_key c);
  map' ← OrdSet.insert str_lt s (memMap_ t);
  let size :=
    if bool_decide (length (memMap_ t) < length map')%nat
    then u32 (memSize_ t + zlen s) else memSize_ t in
  Done (mkMem F size (isReadonly_ t) (memtable_number_ t) (compaction_number_ t)
          (refs_ t) map' f).

Definition Get (t : Memtable F) (g : GetContext) : outcome GetContext :=
  m ← kf_match (bloomFilter_ t) (get_key g);
  if (m : bool) then
    s ← lookup_entry (get_key g);
    iter ← OrdSet.find str_lt s (memMap_ t);
    match iter with
    | None => Done (get_setCode g kNotFound)
    | Some e =>
        r ← read_entry e;
        match r with
        | None => Done (get_setCode g kDelete)
        | Some v => Done (get_setCode (get_setValue g v) kOk)
        end
    end
  else Done (get_setCode g kNotFound).

Definition Delete (t : Memtable F) (d : DeleteContext) : outcome (Memtable F) :=
  s ← delete_entry d;
  f ← kf_insert (bloomFilter_ t) (del_key d);
  map' ← OrdSet.insert str_lt s (memMap_ t);
  Done (mkMem F (memSize_ t) (isReadonly_ t) (memtable_number_ t)
          (compaction_number_ t) (refs_ t) map' f).

Definition getMemSize (t : Memtable F) : Z := memSize_ t.

Definition setReadOnly (t : Memtable F) : Memtable F :=
  mkMem F (memSize_ t) true (memtable_number_ t) (compaction_number_ t)
    (refs_ t) (memMap_ t) (bloomFilter_ t).

Definition setNumber (t : Memtable F) (number : Z) : Memtable F :=
  mkMem F (memSize_ t) (isReadonly_ t) (Some (u32 number)) (compaction_number_ t)
    (refs_ t) (memMap_ t) (bloomFilter_ t).

Definition getMemNumber (t : Memtable F) : outcome Z :=
  n ← of_option Uninit (memtable_number_ t); Done (u32 n).

Definition set_refs (t : Memtable F) (r : Z) : Memtable F :=
  mkMem F (memSize_ t) (isReadonly_ t) (memtable_number_ t) (compaction_number_ t)
    r (memMap_ t) (bloomFilter_ t).

Definition addRefs (t : Memtable F) : Memtable F := set_refs t (u32 (refs_ t + 1)).
Definition getRefs (t : Memtable F) : Z := refs_ t.
Definition decreaseRefs (t : Memtable F) : Memtable F := set_refs t (u32 (refs_ t - 1)).

Definition getCompactionN (t : Memtable F) : Z := compaction_number_ t.
Definition setCompactionN (t : Memtable F) (n : Z) : Memtable F :=
  mkMem F (memSize_ t) (isReadonly_ t) (memtable_number_ t) n
    (refs_ t) (memMap_ t) (bloomFilter_ t).

End Ops.

(** ** Entries that are written as they will be read *)

(** The sequence number of a Set takes as many varint bytes as its value's
    size: then the fields end up where [Get] looks for them. *)
Definition fits (c : SetContext) (n : Z) : Prop :=
  set_number c = Some n ∧ 0 ≤ n < 2 ^ 63 ∧ small (set_key c) ∧ small (set_value c) ∧
  varintLength n = varintLength (zlen (set_value c)).

Definition del_fits (d : DeleteContext) (n : Z) : Prop :=
  del_number d = Some n ∧ 0 ≤ n < 2 ^ 32 ∧ small (del_key d).

Lemma fmt32_done (i : Z) : 1 ≤ i ≤ 5 → fmt32 i = Done (spaces (Z.to_nat i)).
Proof.
  intros H. assert (E : i = 1 ∨ i = 2 ∨ i = 3 ∨ i = 4 ∨ i = 5) by lia.
  by repeat (destruct E as [->|E]; [done|]); subst.
Qed.

Lemma fmt64_done (i : Z) : 1 ≤ i ≤ 9 → fmt64 i = Done (spaces (Z.to_nat i)).
Proof.
  intros H.
  assert (E : i = 1 ∨ i = 2 ∨ i = 3 ∨ i = 4 ∨ i = 5 ∨ i = 6 ∨ i = 7 ∨ i = 8 ∨ i = 9) by lia.
  by repeat (destruct E as [->|E]; [done|]); subst.
Qed.

Lemma varint32_zlen (b : bytes) :
  small b → u32 (zlen b) = zlen b ∧ 1 ≤ varintLength (zlen b) ≤ 5 ∧
    length (varint32_bytes (zlen b)) = Z.to_nat (varintLength (zlen b)).
Proof.
  intros Hb. pose proof (zlen_nonneg b). unfold small in Hb.
  pose proof (varintLength_u32 (zlen b) ltac:(lia)).
  pose proof (varint32_length (zlen b) ltac:(lia)) as L. unfold zlen in L at 1.
  split_and!; [by apply u32_small|lia|lia|lia].
Qed.

Lemma encodeVarint32_at (a x b : bytes) (p : nat) (v : Z) :
  p = length a → length x = length (varint32_bytes v) →
  encodeVarint32 (a ++ x ++ b) p v =
  Done (a ++ varint32_bytes v ++ b, (p + length (varint32_bytes v))%nat).
Proof. intros -> Hx. unfold encodeVarint32. by rewrite wr_app by lia. Qed.

Lemma encodeVarint64_at (a x b : bytes) (p : nat) (v : Z) :
  p = length a → length x = length (varint64_bytes v) →
  encodeVarint64 (a ++ x ++ b) p v =
  Done (a ++ varint64_bytes v ++ b, (p + length (varint64_bytes v))%nat).
Proof. intros -> Hx. unfold encodeVarint64. by rewrite wr_app by lia. Qed.

Lemma encodeFixed8_at (a b : bytes) (p : nat) (x v : Z) :
  p = length a → 0 ≤ v < 256 →
  formatEncodeFixed8 v (a ++ [x] ++ b) p = Done (a ++ [v] ++ b).
Proof. intros -> Hv. unfold formatEncodeFixed8. rewrite u8_small by lia. by apply wr_app. Qed.


(** Writing at the end of a prefix. *)
Lemma wr_at (a r bs : bytes) (p : nat) :
  p = length a →
  wr (a ++ r) p bs =
  if decide (length bs ≤ length r)%nat then Done (a ++ bs ++ drop (length bs) r)
  else Fault OutOfBounds.
Proof.
  intros ->. unfold wr. rewrite length_app, take_app_length.
  rewrite (drop_app_add a). by repeat case_decide; try lia.
Qed.

(** What is behind the key before the fields are filled in. *)
Definition blank_fields (v : bytes) : bytes :=
  spaces (Z.to_nat (2 * varintLength (zlen v) + 1)) ++ v.

(** The three fields [Set] writes behind the key. *)
Definition fields (n : Z) (v : bytes) : bytes :=
  varint64_bytes n ++ [1] ++ varint32_bytes (zlen v).

(** The fields overwrite as many bytes as they take, wherever the value is. *)
Lemma set_entry_layout (c : SetContext) (n : Z) :
  set_number c = Some n → 0 ≤ n < 2 ^ 63 → small (set_key c) → small (set_value c) →
  set_entry c =
  let r := blank_fields (set_value c) in
  let w := fields n (set_value c) in
  if decide (length w ≤ length r)%nat
  then Done (keyed (set_key c) (w ++ drop (length w) r))
  else Fault OutOfBounds.
Proof.
  intros Hn Hr Hk Hv. destruct c as [k v code num]. simpl in *. subst num.
  destruct (varint32_zlen k Hk) as (Uk & Bk & Lk).
  destruct (varint32_zlen v Hv) as (Uv & Bv & Lv).
  pose proof (varint64_length n ltac:(lia)) as Ln. unfold zlen in Ln.
  unfold set_entry. cbn [set_key set_value set_number]. rewrite Uk, Uv.
  rewrite (fmt32_done (varintLength (zlen k))), (fmt32_done (varintLength (zlen v))),
    fmt64_done by lia.
  rewrite !bind_Done_l. cbv zeta.
  set (lv := Z.to_nat (varintLength (zlen v))) in *.
  assert (Hb : spaces lv ++ kEmpty1Space ++ spaces lv ++ v = blank_fields v).
  { unfold blank_fields, kEmpty1Space, spaces. rewrite !app_assoc, <- !replicate_add.
    do 2 f_equal. unfold lv. lia. }
  rewrite Hb. set (r := blank_fields v).
  pose proof (encodeVarint32_at [] (spaces (Z.to_nat (varintLength (zlen k))))) as E.
  cbn [app] in E. rewrite E by (try done; rewrite length_spaces; lia). clear E.
  rewrite bind_Done_l. cbn [of_option]. rewrite bind_Done_l.
  rewrite (app_assoc (varint32_bytes _)). unfold encodeVarint64, encodeVarint32,
    formatEncodeFixed8. change (u8 (ValueType_val kTypeValue)) with 1.
  set (pre := varint32_bytes (zlen k) ++ k). unfold fields. rewrite !length_app.
  rewrite (wr_at pre) by (unfold pre; rewrite length_app; simpl; lia).
  repeat case_decide; try lia; rewrite ?bind_Fault_l; try done.
  all: rewrite !bind_Done_l, (app_assoc pre).
  all: rewrite wr_at by (unfold pre; rewrite !length_app; simpl; lia).
  all: rewrite length_drop; cbn [length] in *; case_decide; try lia;
    rewrite ?bind_Fault_l; try done.
  all: rewrite bind_Done_l, (app_assoc _ [1]).
  all: rewrite wr_at by (unfold pre; rewrite !length_app; simpl; lia).
  all: rewrite !length_drop; case_decide; try lia; rewrite ?bind_Fault_l; try done.
  rewrite !bind_Done_l. f_equal. unfold keyed, pre. rewrite !drop_drop, <- !app_assoc.
  repeat f_equal.
Qed.

Lemma set_entry_fits (c : SetContext) (n : Z) :
  fits c n → set_entry c = Done (entry (set_key c) n 1 (set_value c)).
Proof.
  intros (Hn & Hr & Hk & Hv & Hfit). rewrite (set_entry_layout c n) by done.
  destruct (varint32_zlen (set_value c) Hv) as (_ & Bv & Lv).
  pose proof (varint64_length n ltac:(lia)) as Ln. unfold zlen in Ln.
  assert (Hw : length (fields n (set_value c)) =
    Z.to_nat (2 * varintLength (zlen (set_value c)) + 1)).
  { unfold fields. rewrite !length_app. simpl. lia. }
  cbv zeta. unfold blank_fields. rewrite decide_True
    by (rewrite Hw, length_app, length_spaces; lia).
  rewrite Hw, drop_app_length' by (symmetry; apply length_spaces).
  unfold entry, fields. by rewrite <- !app_assoc.
Qed.

(** The entry of a deletion: type [kDelete] and nothing after it. *)
Definition tombstone (k : bytes) (n : Z) : bytes := keyed k (varint64_bytes n ++ [6]).

Lemma delete_entry_fits (d : DeleteContext) (n : Z) :
  del_fits d n → delete_entry d = Done (tombstone (del_key d) n).
Proof.
  intros (Hn & Hr & Hk). destruct d as [k code num cb calls]. simpl in *. subst num.
  destruct (varint32_zlen k Hk) as (Uk & Bk & Lk).
  pose proof (varint32_length n ltac:(lia)) as Ln. unfold zlen in Ln.
  pose proof (varintLength_u32 n ltac:(lia)).
  unfold delete_entry. cbn [del_key del_number of_option]. rewrite bind_Done_l, Uk.
  rewrite (fmt32_done (varintLength (zlen k))), fmt64_done by lia.
  rewrite !bind_Done_l. cbv zeta.
  pose proof (encodeVarint32_at [] (spaces (Z.to_nat (varintLength (zlen k))))) as E.
  cbn [app] in E. rewrite E by (try done; rewrite length_spaces; lia). clear E.
  rewrite bind_Done_l. rewrite (u32_small n) by lia.
  rewrite (app_assoc (varint32_bytes _)).
  rewrite encodeVarint32_at; [|rewrite length_app; simpl; lia|rewrite length_spaces; lia].
  rewrite bind_Done_l, (app_assoc (_ ++ k)).
  change kEmpty1Space with ([32] ++ []). change (Z.of_nat (code_val kDelete)) with 6.
  rewrite encodeFixed8_at; [|rewrite !length_app; simpl; lia|lia].
  unfold tombstone, keyed. rewrite (varint32_loop n) by lia. rewrite app_nil_r.
  by rewrite <- !app_assoc.
Qed.

Lemma lookup_entry_small (k : bytes) : small k → lookup_entry k = Done (keyed k []).
Proof.
  intros Hk. destruct (varint32_zlen k Hk) as (Uk & Bk & Lk).
  unfold lookup_entry. rewrite fmt32_done, bind_Done_l, Uk by lia.
  pose proof (encodeVarint32_at [] (spaces (Z.to_nat (varintLength (zlen k)))) k 0) as E.
  cbn [app] in E. rewrite E by (try done; rewrite length_spaces; lia).
  rewrite bind_Done_l. unfold keyed. by rewrite app_nil_r.
Qed.

(** ** Reading an entry back *)

(** Any bytes behind a key, a number, a type and a length [L]: the value is
    [L] bytes of what follows, the terminating NUL included. *)
Lemma read_entry_fields (k : bytes) (n t L : Z) (tail : bytes) :
  small k → 0 ≤ n < 2 ^ 63 → 0 ≤ L < 2 ^ 32 →
  read_entry (keyed k (varint64_bytes n ++ [t] ++ varint32_bytes L ++ tail)) =
  if t =? 0 then Done None
  else if decide (L ≤ zlen tail + 1) then Done (Some (take (Z.to_nat L) (tail ++ [0])))
  else Fault OutOfBounds.
Proof.
  intros Hk Hn HL. unfold read_entry.
  set (rest := varint64_bytes n ++ [t] ++ varint32_bytes L ++ tail).
  destruct (keyed_data k rest Hk) as [K1 _].
  rewrite K1, bind_Done_l, bool_decide_true by eauto.
  cbn [cassert guard_fault of_option]. rewrite !bind_Done_l, zlen_to_nat. cbv zeta.
  set (pre := varint32_bytes (zlen k) ++ k).
  assert (Hm : c_data (keyed k rest) =
    pre ++ varint64_bytes n ++ [t] ++ varint32_bytes L ++ tail ++ [0]).
  { unfold c_data, keyed, pre, rest. by rewrite <- !app_assoc. }
  rewrite Hm, <- length_app. fold pre. unfold nonnull.
  rewrite getVarint64_within9 by lia. cbn [mbind outcome_bind of_option].
  set (q := (length pre + length (varint64_bytes n))%nat).
  assert (Hq : q = length (pre ++ varint64_bytes n)) by (by rewrite length_app).
  unfold formatDecodeFixed8. rewrite app_assoc.
  assert (Hrd : rd ((pre ++ varint64_bytes n) ++ [t] ++ varint32_bytes L ++ tail ++ [0]) q
    = Done t) by (by apply rd_app).
  rewrite Hrd.
  cbn [mbind outcome_bind ValueType_val]. destruct (t =? 0); [done|].
  rewrite (app_assoc _ [t]).
  pose proof (varint32_size L HL).
  replace (q + 1)%nat with (length ((pre ++ varint64_bytes n) ++ [t]))
    by (rewrite length_app; simpl; lia).
  rewrite getVarint32_at; [|lia|rewrite length_app, <- Hq; simpl; lia].
  cbn [mbind outcome_bind]. rewrite (app_assoc _ (varint32_bytes L)), <- length_app.
  unfold view. rewrite drop_app_length. rewrite (length_app _ (tail ++ [0])).
  assert (Ht : length (tail ++ [0]) = S (length tail)) by (rewrite length_app; simpl; lia).
  rewrite Ht. unfold zlen. by repeat case_decide; try lia.
Qed.

Lemma read_entry_entry (k : bytes) (n t : Z) (v : bytes) :
  small k → small v → 0 ≤ n < 2 ^ 63 →
  read_entry (entry k n t v) = Done (if t =? 0 then None else Some v).
Proof.
  intros Hk Hv Hn. unfold entry. unfold small in Hv. pose proof (zlen_nonneg v).
  rewrite read_entry_fields by (done || lia). destruct (t =? 0); [done|].
  rewrite decide_True by lia. by rewrite zlen_to_nat, take_app_length.
Qed.

(** C25: what Set stores is governed by the two varint lengths. Let [d] be the
    varint length of the sequence number less that of the value's size; keys
    and values are below 4 GiB and the number below 2^63. If [d <= 0], reading
    the stored entry yields the value shifted right by [-d] blanks and cut to
    its size, so the value itself exactly when [d = 0]. If [d = 1] it yields
    the value without its first byte and with the terminating NUL. If [d >= 2]
    the reader runs past the end of the entry, and if the value is shorter than
    [d] the writer already does. *)
Theorem Set_then_read (c : SetContext) (n : Z)
  (Hn : set_number c = Some n) (Hr : 0 ≤ n < 2 ^ 63)
  (Hk : small (set_key c)) (Hv : small (set_value c)) :
  let v := set_value c in
  let d := varintLength n - varintLength (zlen v) in
  let stored := (e ← set_entry c; read_entry e) in
  (d ≤ 0 → stored = Done (Some (take (length v) (spaces (Z.to_nat (- d)) ++ v)))) ∧
  (d = 1 → v ≠ [] → stored = Done (Some (drop 1 v ++ [0]))) ∧
  (2 ≤ d → stored = Fault OutOfBounds) ∧
  (zlen v < d → set_entry c = Fault OutOfBounds).
Proof.
  intros v d stored. subst stored. rewrite (set_entry_layout c n) by done. cbv zeta. fold v.
  destruct (varint32_zlen v Hv) as (_ & Bv & Lv).
  pose proof (varint64_length n ltac:(lia)) as Ln. unfold zlen in Ln.
  assert (Hw : Z.of_nat (length (fields n v)) = varintLength n + 1 + varintLength (zlen v)).
  { unfold fields. rewrite !length_app. simpl. lia. }
  assert (Hb : Z.of_nat (length (blank_fields v)) = 2 * varintLength (zlen v) + 1 + zlen v).
  { unfold blank_fields, zlen. rewrite length_app, length_spaces. unfold zlen in Bv. lia. }
  set (w := fields n v) in *. set (r := blank_fields v) in *.
  assert (Hread : ∀ tail,
    read_entry (keyed (set_key c) (w ++ tail)) =
    if decide (zlen v ≤ zlen tail + 1) then Done (Some (take (length v) (tail ++ [0])))
    else Fault OutOfBounds).
  { intros tail. unfold w, fields. rewrite <- !app_assoc. unfold small in Hv.
    pose proof (zlen_nonneg v). rewrite read_entry_fields by (done || lia).
    change (1 =? 0) with false. cbv iota. by rewrite zlen_to_nat. }
  unfold zlen in *. split_and!.
  - intros Hd. rewrite decide_True by lia. rewrite bind_Done_l, Hread.
    assert (E : drop (length w) r = spaces (Z.to_nat (- d)) ++ v).
    { unfold r, blank_fields, spaces, zlen. rewrite drop_app_le
        by (rewrite length_replicate; lia).
      rewrite drop_replicate. do 2 f_equal. lia. }
    rewrite E, decide_True by (rewrite length_app; lia).
    by rewrite take_app_le by (rewrite length_app; lia).
  - intros Hd Hne. rewrite decide_True by (destruct v; [done|simpl in *; lia]).
    rewrite bind_Done_l, Hread.
    assert (E : drop (length w) r = drop 1 v).
    { unfold r, blank_fields, zlen. rewrite drop_app_ge by (rewrite length_spaces; lia).
      rewrite length_spaces. f_equal. lia. }
    assert (length v ≠ O) by (by destruct v).
    rewrite E, decide_True by (rewrite length_drop; lia). do 2 f_equal.
    apply take_ge. rewrite length_app, length_drop. simpl. lia.
  - intros Hd. case_decide; [|done]. rewrite bind_Done_l, Hread, decide_False; [done|].
    rewrite length_drop. lia.
  - intros Hd. by rewrite decide_False by lia.
Qed.

(** A value of 300 bytes under sequence number 7 comes back with a blank in
    front; a one-byte value under sequence number 300 comes back as a NUL. *)
Lemma Set_then_read_witness :
  let c := mkSet (str "k") (str "v") kOk (Some 300) in
  set_number c = Some 300 ∧ 0 ≤ 300 < 2 ^ 63 ∧ small (set_key c) ∧ small (set_value c) ∧
  (e ← set_entry c; read_entry e) = Done (Some [0]).
Proof.
  intros c. split; [reflexivity|]. split; [lia|]. split; [reflexivity|].
  split; [reflexivity|].
  refine (proj1 (proj2 (Set_then_read c 300 eq_refl ltac:(lia) eq_refl eq_refl)) _ _);
    [reflexivity|discriminate].
Defined.

Lemma read_entry_tombstone (k : bytes) (n : Z) :
  small k → 0 ≤ n < 2 ^ 63 → read_entry (tombstone k n) = Done (Some []).
Proof.
  intros Hk Hn. unfold read_entry, tombstone.
  destruct (keyed_data k (varint64_bytes n ++ [6]) Hk) as [K1 _].
  rewrite K1, bind_Done_l. rewrite bool_decide_true by eauto.
  cbn [cassert guard_fault of_option]. rewrite !bind_Done_l, zlen_to_nat. cbv zeta.
  set (pre := varint32_bytes (zlen k) ++ k).
  assert (Hm : c_data (keyed k (varint64_bytes n ++ [6])) =
    pre ++ varint64_bytes n ++ [6; 0]).
  { unfold c_data, keyed, pre. by rewrite <- !app_assoc. }
  rewrite Hm. rewrite <- length_app. fold pre. unfold nonnull.
  rewrite getVarint64_within9 by lia. cbn [mbind outcome_bind of_option].
  set (q := (length pre + length (varint64_bytes n))%nat).
  assert (Hq : q = length (pre ++ varint64_bytes n)) by (by rewrite length_app).
  unfold formatDecodeFixed8. rewrite app_assoc, rd_app by done.
  cbn [mbind outcome_bind]. change (6 =? ValueType_val kTypeDeletion) with false.
  cbv iota. change [6; 0] with ([6] ++ varint32_bytes 0 ++ []). rewrite (app_assoc _ [6]).
  replace (q + 1)%nat with (length ((pre ++ varint64_bytes n) ++ [6]))
    by (rewrite length_app; simpl; lia).
  rewrite getVarint32_at; [|lia|rewrite length_app, <- Hq; simpl; lia].
  cbn [mbind outcome_bind]. unfold view. rewrite decide_True; [done|].
  rewrite !length_app. simpl. lia.
Qed.


(** ** The memtable as a map *)

(** A well-formed element: a length-prefixed key that [Get] can read past. *)
Definition wf_entry (e : bytes) : Prop :=
  ∃ k rest, e = keyed k rest ∧ small k ∧ ∃ v, read_entry e = Done (Some v).

(** The user key of an element. *)
Definition ukey (e : bytes) : bytes :=
  match getMemTableViewKeyView (c_data e) with Done k => k | Fault _ => [] end.

Lemma ukey_keyed (k rest : bytes) : small k → ukey (keyed k rest) = k.
Proof. intros Hk. unfold ukey. by rewrite c_data_keyed, getMemTableViewKeyView_keyed. Qed.

Lemma ukey_entry (k : bytes) (n t : Z) (v : bytes) : small k → ukey (entry k n t v) = k.
Proof. apply ukey_keyed. Qed.

Lemma ukey_tombstone (k : bytes) (n : Z) : small k → ukey (tombstone k n) = k.
Proof. apply ukey_keyed. Qed.

(** Elements compare by key; the string looked up is one too. *)
Definition keylike (e : bytes) : Prop := ∃ k rest, e = keyed k rest ∧ small k.

Lemma str_lt_ukey (a b : bytes) :
  keylike a → keylike b → str_lt a b = Done (bytes_lt (ukey a) (ukey b)).
Proof.
  intros (k1 & r1 & -> & H1) (k2 & r2 & -> & H2).
  unfold str_lt. by rewrite !ukey_keyed, !c_data_keyed, Comparator_keyed.
Qed.

Lemma entry_wf (k : bytes) (n : Z) (v : bytes) :
  small k → small v → 0 ≤ n < 2 ^ 63 → wf_entry (entry k n 1 v).
Proof.
  intros Hk Hv Hn. eexists k, _. split; [done|]. split; [done|]. exists v.
  by rewrite read_entry_entry.
Qed.

Lemma tombstone_wf (k : bytes) (n : Z) :
  small k → 0 ≤ n < 2 ^ 63 → wf_entry (tombstone k n).
Proof.
  intros Hk Hn. eexists k, _. split; [done|]. split; [done|]. exists [].
  by apply read_entry_tombstone.
Qed.

Section Spec.
Context {F : Type} {KF : KeyFilter F} {KL : KeyFilterLaws F}.

(** The element stored for a key. *)
Definition lookup (t : Memtable F) (k : bytes) : option bytes :=
  OrdSet.get_by ukey k (memMap_ t).

(** The invariant: elements sorted by key without duplicates, well-formed, and
    known to the filter. *)
Definition ok (t : Memtable F) : Prop :=
  OrdSet.ok keylike ukey (memMap_ t) ∧ Forall wf_entry (memMap_ t) ∧
  kf_ok (bloomFilter_ t) ∧
  Forall (λ e, kf_match (bloomFilter_ t) (ukey e) = Done true) (memMap_ t).

Lemma Memtable_init_ok : ok init.
Proof. split_and!; try constructor; try constructor. apply kf_empty_ok. Qed.

(** What inserting element [e] under its key does to a table. *)
Lemma insert_spec (t : Memtable F) (e : bytes) :
  ok t → wf_entry e →
  ∃ f l, kf_insert (bloomFilter_ t) (ukey e) = Done f ∧
    OrdSet.insert str_lt e (memMap_ t) = Done l ∧
    (∀ a b c d r, ok (mkMem F a b c d r l f)) ∧
    (lookup t (ukey e) ≠ None → l = memMap_ t) ∧
    (lookup t (ukey e) = None → length l = S (length (memMap_ t))) ∧
    ∀ k, OrdSet.get_by ukey k l =
      match lookup t k with
      | Some x => Some x
      | None => if decide (ukey e = k) then Some e else None
      end.
Proof.
  intros (Hs & Hwf & Hf & Hm) He.
  assert (Hk : keylike e) by (destruct He as (k & r & -> & Hk & _); by exists k, r).
  destruct (kf_insert_ok (bloomFilter_ t) (ukey e) Hf) as (f & Ef & Hf' & Hme & Hmono).
  assert (Hm' : Forall (λ x, kf_match f (ukey x) = Done true) (memMap_ t)).
  { eapply Forall_impl; [exact Hm|]. intros x Hx. by apply Hmono. }
  exists f. unfold lookup. destruct (OrdSet.get_by ukey (ukey e) (memMap_ t)) as [x|] eqn:G.
  - exists (memMap_ t).
    rewrite (OrdSet.insert_present str_lt keylike ukey str_lt_ukey e x) by done.
    split_and!; try done. intros k. destruct (OrdSet.get_by ukey k _) eqn:Gk; [done|].
    rewrite decide_False; [done|]. intros <-. by rewrite G in Gk.
  - destruct (OrdSet.insert_absent str_lt keylike ukey str_lt_ukey e (memMap_ t))
      as (l & El & Hl & Hp & Hget); [done|done|done|].
    exists l. split_and!; try done.
    + intros. split_and!; simpl; [done| |done|].
      * rewrite Hp. by constructor.
      * rewrite Hp. by constructor.
    + intros _. by rewrite Hp.
    + intros k. rewrite Hget. case_decide as D; [by rewrite <- D, G|].
      by destruct (OrdSet.get_by ukey k (memMap_ t)).
Qed.

(** [Set] of a fitting context. *)
Lemma Set_spec (t : Memtable F) (c : SetContext) (n : Z) :
  ok t → fits c n →
  ∃ t', Set_ t c = Done t' ∧ ok t' ∧
    memSize_ t' = (if decide (lookup t (set_key c) = None)
                   then u32 (memSize_ t + zlen (entry (set_key c) n 1 (set_value c)))
                   else memSize_ t) ∧
    ∀ k, lookup t' k =
      match lookup t k with
      | Some x => Some x
      | None => if decide (set_key c = k)
                then Some (entry (set_key c) n 1 (set_value c)) else None
      end.
Proof.
  intros Hok Hfit. pose proof Hfit as (_ & Hn & Hk & Hv & _).
  destruct (insert_spec t (entry (set_key c) n 1 (set_value c)) Hok)
    as (f & l & Ef & El & Hok' & Hsame & Hlen & Hget); [by apply entry_wf|].
  rewrite ukey_entry in Ef, Hsame, Hlen, Hget by done. unfold Set_. rewrite (set_entry_fits c n Hfit).
  rewrite bind_Done_l, Ef, bind_Done_l, El, bind_Done_l. cbv zeta.
  eexists. split; [done|]. split; [by apply Hok'|]. split; [|exact Hget]. simpl.
  case_decide as D.
  - rewrite bool_decide_true; [done|]. rewrite (Hlen D). lia.
  - rewrite bool_decide_false; [done|]. rewrite (Hsame D). lia.
Qed.

Lemma Delete_spec (t : Memtable F) (d : DeleteContext) (n : Z) :
  ok t → del_fits d n →
  ∃ t', Delete t d = Done t' ∧ ok t' ∧ memSize_ t' = memSize_ t ∧
    ∀ k, lookup t' k =
      match lookup t k with
      | Some x => Some x
      | None => if decide (del_key d = k) then Some (tombstone (del_key d) n) else None
      end.
Proof.
  intros Hok Hfit. pose proof Hfit as (_ & Hn & Hk).
  destruct (insert_spec t (tombstone (del_key d) n) Hok)
    as (f & l & Ef & El & Hok' & _ & _ & Hget); [apply tombstone_wf; lia || done|].
  rewrite ukey_tombstone in Ef, Hget by done.
  unfold Delete. rewrite (delete_entry_fits d n Hfit), bind_Done_l, Ef, bind_Done_l, El,
    bind_Done_l.
  eexists. split; [done|]. split; [by apply Hok'|]. by split.
Qed.

Lemma Get_spec (t : Memtable F) (g : GetContext) :
  ok t → small (get_key g) →
  match lookup t (get_key g) with
  | Some e => ∃ v, read_entry e = Done (Some v) ∧
                   Get t g = Done (get_setCode (get_setValue g v) kOk)
  | None => Get t g = Done (get_setCode g kNotFound)
  end.
Proof.
  intros (Hs & Hwf & Hf & Hm) Hk.
  destruct (kf_match_total (bloomFilter_ t) (get_key g) Hf) as [b Hb].
  assert (Hkl : keylike (keyed (get_key g) [])) by (by eexists _, _).
  assert (Hfind : OrdSet.find str_lt (keyed (get_key g) []) (memMap_ t) =
    Done (lookup t (get_key g))).
  { rewrite (OrdSet.find_ok str_lt keylike ukey str_lt_ukey) by done.
    by rewrite ukey_keyed. }
  unfold Get. rewrite Hb, bind_Done_l.
  destruct (lookup t (get_key g)) as [e|] eqn:E.
  - pose proof E as E'. apply OrdSet.get_by_key in E' as [Hke Hin].
    rewrite Forall_forall in Hm, Hwf. specialize (Hm e Hin). rewrite Hke, Hb in Hm.
    injection Hm as ->. destruct (Hwf e Hin) as (_ & _ & _ & _ & v & Hr).
    exists v. split; [done|].
    by rewrite lookup_entry_small, bind_Done_l, Hfind, bind_Done_l, Hr.
  - destruct b; [|done].
    by rewrite lookup_entry_small, bind_Done_l, Hfind.
Qed.

(** *** Refinement: a first-write-wins map *)

Inductive op : Type :=
  | OSet (c : SetContext)
  | ODelete (d : DeleteContext).

Definition op_key (o : op) : bytes :=
  match o with OSet c => set_key c | ODelete d => del_key d end.

Definition op_ok (o : op) : Prop :=
  match o with OSet c => ∃ n, fits c n | ODelete d => ∃ n, del_fits d n end.

Definition step (t : Memtable F) (o : op) : outcome (Memtable F) :=
  match o with OSet c => Set_ t c | ODelete d => Delete t d end.

Fixpoint steps (t : Memtable F) (os : list op) : outcome (Memtable F) :=
  match os with [] => Done t | o :: os' => t' ← step t o; steps t' os' end.

(** The specification: a key that is present keeps its value, a fresh key of a
    Set gets the value, a fresh key of a Delete gets the empty value. *)
Definition spec_step (m : gmap bytes bytes) (o : op) : gmap bytes bytes :=
  match m !! op_key o with
  | Some _ => m
  | None => <[op_key o := match o with OSet c => set_value c | ODelete _ => [] end]> m
  end.

(** The table holds exactly the entries of the map. *)
Definition repr (t : Memtable F) (m : gmap bytes bytes) : Prop :=
  ok t ∧ ∀ k, match m !! k with
              | Some v => ∃ e, lookup t k = Some e ∧ read_entry e = Done (Some v)
              | None => lookup t k = None
              end.

Lemma repr_init : repr init ∅.
Proof. split; [apply Memtable_init_ok|]. intros k. by rewrite lookup_empty. Qed.

(** Adding under a key what reads back as [v]. *)
Lemma repr_add (t t' : Memtable F) (m : gmap bytes bytes) (k e v : bytes) :
  repr t m → ok t' → read_entry e = Done (Some v) →
  (∀ k', lookup t' k' = match lookup t k' with
                        | Some x => Some x
                        | None => if decide (k = k') then Some e else None
                        end) →
  repr t' (match m !! k with Some _ => m | None => <[k := v]> m end).
Proof.
  intros [Hok Hr] Hok' He Hl. split; [done|]. intros k'.
  pose proof (Hr k) as Hk. pose proof (Hr k') as Hk'. rewrite Hl.
  destruct (decide (k = k')) as [<-|Hne].
  - destruct (m !! k) as [w|] eqn:Em.
    + rewrite Em. destruct Hk as (x & -> & Hx). by exists x.
    + rewrite lookup_insert_eq, Hk. by exists e.
  - assert (E : (match m !! k with Some _ => m | None => <[k := v]> m end) !! k' = m !! k').
    { destruct (m !! k); [done|]. by rewrite lookup_insert_ne. }
    rewrite E. destruct (m !! k') as [w|].
    + destruct Hk' as (x & -> & Hx). by exists x.
    + by rewrite Hk'.
Qed.

Lemma step_repr (t : Memtable F) (m : gmap bytes bytes) (o : op) :
  repr t m → op_ok o → ∃ t', step t o = Done t' ∧ repr t' (spec_step m o).
Proof.
  intros Hr Ho. pose proof Hr as [Hok _]. destruct o as [c|d]; destruct Ho as [n Hn].
  - destruct (Set_spec t c n Hok Hn) as (t' & E & Hok' & _ & Hl).
    exists t'. split; [done|]. pose proof Hn as (_ & Hn1 & Hk & Hv & _).
    eapply repr_add; [done|done| |exact Hl]. by rewrite read_entry_entry.
  - destruct (Delete_spec t d n Hok Hn) as (t' & E & Hok' & _ & Hl).
    exists t'. split; [done|]. pose proof Hn as (_ & Hn1 & Hk).
    eapply repr_add; [done|done| |exact Hl]. apply read_entry_tombstone; lia || done.
Qed.

Lemma steps_repr (os : list op) : ∀ (t : Memtable F) (m : gmap bytes bytes),
  repr t m → Forall op_ok os →
  ∃ t', steps t os = Done t' ∧ repr t' (foldl spec_step m os).
Proof.
  induction os as [|o os IH]; intros t m Hr Hos; [by exists t|].
  inversion Hos as [|? ? Ho Hos']; subst.
  destruct (step_repr t m o Hr Ho) as (t1 & E & Hr1).
  destruct (IH t1 _ Hr1 Hos') as (t' & E' & Hr').
  exists t'. split; [|done]. simpl. by rewrite E, bind_Done_l.
Qed.

Lemma Get_repr (t : Memtable F) (m : gmap bytes bytes) (g : GetContext) :
  repr t m → small (get_key g) →
  Get t g = Done match m !! get_key g with
                 | Some v => get_setCode (get_setValue g v) kOk
                 | None => get_setCode g kNotFound
                 end.
Proof.
  intros [Hok Hr] Hk. pose proof (Get_spec t g Hok Hk) as HG. specialize (Hr (get_key g)).
  destruct (m !! get_key g) as [v|].
  - destruct Hr as (e & E & He). rewrite E in HG. destruct HG as (v' & Hv' & ->).
    rewrite He in Hv'. by injection Hv' as ->.
  - by rewrite Hr in HG.
Qed.

(** C3: the memtable implements a first-write-wins map. Start from an empty
    table over any filter that keeps its promise and run any sequence of Sets
    and Deletes that fit ([op_ok]): the sequence number of a Set, below 2^63, has
    a varint of the length of that of its value's size, the number of a Delete
    is below 2^32, keys and values are below 4 GiB. ([Set_then_read] says what a
    Set that does not fit leaves.) Then no operation fails, and a Get of any key
    below 4 GiB returns [kNotFound] for a key never written, and otherwise
    [kOk] with the value of the FIRST operation on that key — later Sets are
    ignored, a Delete of a present key changes nothing, and a Delete of a fresh
    key makes it readable with an empty value. *)
Theorem Memtable_refines_map (os : list op) (g : GetContext)
  (Hos : Forall op_ok os) (Hk : small (get_key g)) :
  ∃ t, steps init os = Done t ∧
    Get t g = Done match foldl spec_step ∅ os !! get_key g with
                   | Some v => get_setCode (get_setValue g v) kOk
                   | None => get_setCode g kNotFound
                   end.
Proof.
  destruct (steps_repr os init ∅ repr_init Hos) as (t & E & Hr).
  exists t. split; [done|]. by apply Get_repr.
Qed.

(** C24: memory accounting: a fitting Set of a fresh key adds the size of the
    stored entry to [memSize_] modulo 2^32 and stores that entry; a Set of a
    present key leaves the size and every entry as they are; a fitting Delete
    never changes the size; and all of them keep the invariant — entries in
    strict key order, well-formed, and matched by the filter. *)
Theorem Memtable_accounting (t : Memtable F) (c : SetContext) (d : DeleteContext)
  (n nd : Z) (Hok : ok t) (Hc : fits c n) (Hd : del_fits d nd) :
  (∃ t', Set_ t c = Done t' ∧ ok t' ∧
     (lookup t (set_key c) = None →
        getMemSize t' = u32 (getMemSize t + zlen (entry (set_key c) n 1 (set_value c))) ∧
        lookup t' (set_key c) = Some (entry (set_key c) n 1 (set_value c))) ∧
     (lookup t (set_key c) ≠ None → getMemSize t' = getMemSize t ∧
        ∀ k, lookup t' k = lookup t k)) ∧
  (∃ t', Delete t d = Done t' ∧ ok t' ∧ getMemSize t' = getMemSize t).
Proof.
  split.
  - destruct (Set_spec t c n Hok Hc) as (t' & E & Hok' & Hsz & Hl).
    exists t'. unfold getMemSize. split_and!; try done.
    + intros Hnone. rewrite Hsz, decide_True by done. split; [done|].
      rewrite Hl, Hnone. by rewrite decide_True.
    + intros Hsome. rewrite Hsz, decide_False by done. split; [done|].
      intros k. rewrite Hl. destruct (lookup t k) eqn:Ek; [done|].
      rewrite decide_False; [done|]. intros <-. done.
  - destruct (Delete_spec t d nd Hok Hd) as (t' & E & Hok' & Hsz & _). by exists t'.
Qed.

End Spec.

(** A filter that keeps the keys themselves, to run the model on. *)
Module SetFilter.
Definition exact_filter : KeyFilter (list bytes) := {|
  kf_empty := [];
  kf_insert f k := Done (k :: f);
  kf_match f k := Done (bool_decide (k ∈ f))
|}.

Definition exact_laws : @KeyFilterLaws (list bytes) exact_filter.
Proof.
  refine (@Build_KeyFilterLaws _ exact_filter (λ _, True) I _ _).
  - intros f k _. by eexists.
  - intros f k _. exists (k :: f). split_and!; [done|done| |].
    + simpl. f_equal. apply bool_decide_true. by left.
    + simpl. intros k' [= H]. f_equal. apply bool_decide_eq_true in H.
      apply bool_decide_true. by right.
Defined.
End SetFilter.

Definition ex_set (k v : bytes) (n : Z) : SetContext := mkSet k v kOk (Some n).

Lemma Memtable_refines_map_witness :
  Forall op_ok [OSet (ex_set (str "k") (str "v1") 1); OSet (ex_set (str "k") (str "v2") 2)] ∧
  small (str "k") ∧
  ∃ t, @steps _ SetFilter.exact_filter (@init _ SetFilter.exact_filter)
         [OSet (ex_set (str "k") (str "v1") 1); OSet (ex_set (str "k") (str "v2") 2)] = Done t ∧
    @Get _ SetFilter.exact_filter t (new_GetContext (str "k")) =
    Done (get_setCode (get_setValue (new_GetContext (str "k")) (str "v1")) kOk).
Proof.
  assert (H : Forall op_ok
    [OSet (ex_set (str "k") (str "v1") 1); OSet (ex_set (str "k") (str "v2") 2)]).
  { repeat constructor; [exists 1|exists 2]; by vm_compute. }
  split; [exact H|]. split; [by vm_compute|].
  exact (@Memtable_refines_map _ SetFilter.exact_filter SetFilter.exact_laws _
    (new_GetContext (str "k")) H ltac:(by vm_compute)).
Defined.

Lemma Memtable_accounting_witness :
  @ok _ SetFilter.exact_filter SetFilter.exact_laws (@init _ SetFilter.exact_filter) ∧
  fits (ex_set (str "k") (str "v") 1) 1 ∧
  del_fits (mkDel (str "k") kOk (Some 7) false 0) 7 ∧
  ∃ t', @Delete _ SetFilter.exact_filter (@init _ SetFilter.exact_filter)
          (mkDel (str "k") kOk (Some 7) false 0) = Done t' ∧
    @ok _ SetFilter.exact_filter SetFilter.exact_laws t' ∧ getMemSize t' = 0.
Proof.
  assert (H1 : fits (ex_set (str "k") (str "v") 1) 1) by (by vm_compute).
  assert (H2 : del_fits (mkDel (str "k") kOk (Some 7) false 0) 7) by (by vm_compute).
  split; [apply Memtable_init_ok|]. split; [exact H1|]. split; [exact H2|].
  exact (proj2 (@Memtable_accounting _ SetFilter.exact_filter SetFilter.exact_laws _ _ _ _ _
    (@Memtable_init_ok _ SetFilter.exact_filter SetFilter.exact_laws) H1 H2)).
Defined.

End Memtable.
