(* ===== verification/KLRUCache.v ===== *)
(** * The segmented LRU cache

    [src/util/klrucache.{hpp,cpp}]: a probation (cold) list and a protected (hot)
    list of handles, a hash map from keys to list iterators, and byte counters.

    A list node is known by an identity, which is what an iterator holds; a map
    node by an address. A handle's [key] pointer is the address of a map node
    with the key that node carries: it dangles once that node is erased, and
    dereferencing it then is a fault. *)
From S2P Require Import Prelude.

Module KLRU.

(** [CacheHandle], with the identity of the list node that holds it. *)
Record CacheHandle : Type := mkHandle {
  node : nat;
  key : option (nat * bytes);
  value : bytes;
  isHot : bool;
  isExist : bool
}.

Record kLRUCache : Type := mkCache {
  max_probation_mem_size_ : Z;
  max_protected_mem_size_ : Z;
  probation_memory_usage_ : Z;
  protected_memory_usage_ : Z;
  protected_list_ : list CacheHandle;
  probation_list_ : list CacheHandle;
  cache_map_ : gmap bytes (nat * nat);
  fresh : nat
}.

(** The constructor. *)
Definition new_kLRUCache (cold_memory_usage hot_memory_usage : Z) : kLRUCache :=
  mkCache cold_memory_usage hot_memory_usage 0 0 [] [] ∅ 0.

(** The default constructor leaves the limits and the counters indeterminate;
    [Init] sets the limits only. *)
Definition default_kLRUCache (a b c d : Z) : kLRUCache := mkCache a b c d [] [] ∅ 0.

Definition Init (c : kLRUCache) (cold_memory_usage hot_memory_usage : Z) : kLRUCache :=
  mkCache cold_memory_usage hot_memory_usage (probation_memory_usage_ c)
    (protected_memory_usage_ c) (protected_list_ c) (probation_list_ c)
    (cache_map_ c) (fresh c).

Definition getMemsize (c : kLRUCache) : Z :=
  u32 (probation_memory_usage_ c + protected_memory_usage_ c).
Definition getMaxMemsize (c : kLRUCache) : Z :=
  u32 (max_probation_mem_size_ c + max_protected_mem_size_ c).

(** [*(h.key)]. *)
Definition deref (m : gmap bytes (nat * nat)) (h : CacheHandle) : outcome bytes :=
  match key h with
  | None => Fault NullDeref
  | Some (a, k) =>
      match m !! k with
      | Some (a', _) => if decide (a' = a) then Done k else Fault Dangling
      | None => Fault Dangling
      end
  end.

(** [h.key->size () + h.value.size ()]. *)
Definition kv_size (k : bytes) (h : CacheHandle) : Z := zlen k + zlen (value h).

(** [cache_map_[k] = iterator], for a key that is present. *)
Definition map_assign (m : gmap bytes (nat * nat)) (k : bytes) (it : nat)
  : gmap bytes (nat * nat) := alter (λ e, (e.1, it)) k m.

(** The eviction loop of [set], [setEraseRecord] and a cold [get], on the
    probation list from its back; [rbegin] of an empty list is no element. *)
Fixpoint evict (limit : Z) (back : list CacheHandle) (usage : Z)
    (m : gmap bytes (nat * nat))
  : outcome (list CacheHandle * Z * gmap bytes (nat * nat)) :=
  if limit <=? usage then
    match back with
    | [] => Fault OutOfBounds
    | h :: back' =>
        k ← deref m h;
        evict limit back' (u32 (usage - kv_size k h)) (delete k m)
    end
  else Done (back, usage, m).

Definition evict_probation (c : kLRUCache) : outcome kLRUCache :=
  '(back, usage, m) ←
    evict (max_probation_mem_size_ c) (reverse (probation_list_ c))
      (probation_memory_usage_ c) (cache_map_ c);
  Done (mkCache (max_probation_mem_size_ c) (max_protected_mem_size_ c) usage
          (protected_memory_usage_ c) (protected_list_ c) (reverse back) m (fresh c)).

(** The demotion loops of [get]. A cold hit asserts that the list is not empty
    and moves the size to the probation counter; a hot hit does neither. *)
Fixpoint demote (cold : bool) (limit : Z) (back : list CacheHandle) (hot_usage : Z)
    (probation : list CacheHandle) (cold_usage : Z)
    (m : gmap bytes (nat * nat)) (next : nat)
  : outcome (list CacheHandle * Z * list CacheHandle * Z * gmap bytes (nat * nat) * nat) :=
  if limit <=? hot_usage then
    match back with
    | [] => Fault (if cold then AssertFailed else OutOfBounds)
    | h :: back' =>
        _ ← cassert (negb cold || bool_decide (is_Some (key h)));
        k ← deref m h;
        let size := kv_size k h in
        let t_cache := mkHandle next (key h) (value h) false (isExist h) in
        demote cold limit back' (u32 (hot_usage - size)) (t_cache :: probation)
          (if cold then u32 (cold_usage + size) else cold_usage)
          (map_assign m k next) (S next)
    end
  else Done (back, hot_usage, probation, cold_usage, m, next).

Definition demote_protected (cold : bool) (c : kLRUCache) : outcome kLRUCache :=
  '(back, hot_usage, probation, cold_usage, m, next) ←
    demote cold (max_protected_mem_size_ c) (reverse (protected_list_ c))
      (protected_memory_usage_ c) (probation_list_ c) (probation_memory_usage_ c)
      (cache_map_ c) (fresh c);
  Done (mkCache (max_probation_mem_size_ c) (max_protected_mem_size_ c) cold_usage
          hot_usage (reverse back) probation m next).

(** The node an iterator refers to. *)
Definition find_node (it : nat) (l : list CacheHandle) : option CacheHandle :=
  List.find (λ h, bool_decide (node h = it)) l.

Definition erase_node (it : nat) (l : list CacheHandle) : list CacheHandle :=
  List.filter (λ h, negb (bool_decide (node h = it))) l.

(** What [get] hands out: [*value] when it assigns it, and [*isErase]. *)
Record Answer : Type := mkAnswer { out_value : option bytes; out_isErase : bool }.

Definition get (c : kLRUCache) (k : bytes) : outcome (option Answer * kLRUCache) :=
  match cache_map_ c !! k with
  | None => Done (None, c)
  | Some (a, it) =>
      h ← of_option Dangling (find_node it (probation_list_ c ++ protected_list_ c));
      let answer :=
        if isExist h then mkAnswer (Some (value h)) false else mkAnswer None true in
      let cur_kv_size := u32 (kv_size k h) in
      let n := fresh c in
      if isHot h then
        let cache := mkHandle n (key h) (value h) true (isExist h) in
        let old := map (λ g, if bool_decide (node g = it)
                             then mkHandle (node g) (Some (a, k)) [] (isHot g) (isExist g)
                             else g) in
        kb ← deref (cache_map_ c) cache;
        let c1 := mkCache (max_probation_mem_size_ c) (max_protected_mem_size_ c)
                    (probation_memory_usage_ c) (protected_memory_usage_ c)
                    (cache :: old (protected_list_ c)) (old (probation_list_ c))
                    (map_assign (cache_map_ c) kb n) (S n) in
        c2 ← demote_protected false c1;
        Done (Some answer, c2)
      else
        let cache := mkHandle n (key h) (value h) true (isExist h) in
        kb ← deref (cache_map_ c) cache;
        let c1 := mkCache (max_probation_mem_size_ c) (max_protected_mem_size_ c)
                    (u32 (probation_memory_usage_ c - cur_kv_size))
                    (u32 (protected_memory_usage_ c + cur_kv_size))
                    (cache :: protected_list_ c) (erase_node it (probation_list_ c))
                    (map_assign (cache_map_ c) kb n) (S n) in
        c2 ← demote_protected true c1;
        c3 ← evict_probation c2;
        Done (Some answer, c3)
  end.

(** The insertion [set] and [setEraseRecord] share: push a node to the front of
    the probation list, point the map at it and it at the map's key. *)
Definition push_probation (c : kLRUCache) (k v : bytes) (exist : bool) (size : Z)
  : kLRUCache :=
  let n := fresh c in
  let a := match cache_map_ c !! k with Some (a, _) => a | None => n end in
  mkCache (max_probation_mem_size_ c) (max_protected_mem_size_ c)
    (u32 (probation_memory_usage_ c + size)) (protected_memory_usage_ c)
    (protected_list_ c)
    (mkHandle n (Some (a, k)) v false exist :: probation_list_ c)
    (<[k := (a, n)]> (cache_map_ c)) (S n).

Definition set (c : kLRUCache) (k v : bytes) : outcome kLRUCache :=
  evict_probation (push_probation c k v true (zlen k + zlen v)).

Definition setEraseRecord (c : kLRUCache) (k : bytes) : outcome kLRUCache :=
  evict_probation (push_probation c k [] false (zlen k)).

(** ** The invariant *)

(** Map and handles are linked one to one: every handle's key pointer is live
    and its map node points back at it. *)
Definition linked (m : gmap bytes (nat * nat)) (hs : list CacheHandle) : Prop :=
  NoDup (node <$> hs) ∧
  (∀ h, h ∈ hs → ∃ a k, key h = Some (a, k) ∧ m !! k = Some (a, node h)) ∧
  (∀ k a it, m !! k = Some (a, it) → ∃ h, h ∈ hs ∧ node h = it ∧ key h = Some (a, k)).

Definition size_of (h : CacheHandle) : Z :=
  match key h with Some (_, k) => kv_size k h | None => 0 end.

Definition total (hs : list CacheHandle) : Z := foldr (λ h s, size_of h + s) 0 hs.

Definition all (c : kLRUCache) : list CacheHandle := probation_list_ c ++ protected_list_ c.

Record ok (c : kLRUCache) : Prop := mkOk {
  ok_linked : linked (cache_map_ c) (all c);
  ok_fresh : Forall (λ h, (node h < fresh c)%nat) (all c);
  ok_cold : Forall (λ h, isHot h = false) (probation_list_ c);
  ok_hot : Forall (λ h, isHot h = true) (protected_list_ c);
  ok_cold_usage : probation_memory_usage_ c = total (probation_list_ c);
  ok_hot_usage : protected_memory_usage_ c = total (protected_list_ c)
}.

#[export] Instance linked_perm (m : gmap bytes (nat * nat)) :
  Proper ((≡ₚ) ==> iff) (linked m).
Proof.
  assert (H : ∀ hs1 hs2, hs1 ≡ₚ hs2 → linked m hs1 → linked m hs2).
  { intros hs1 hs2 Hp (H1 & H2 & H3). split_and!.
    - by rewrite <- Hp.
    - intros h Hh. apply H2. by rewrite Hp.
    - intros k a it Hk. destruct (H3 k a it Hk) as (h & Hh & ?). exists h.
      by rewrite <- Hp. }
  intros hs1 hs2 Hp. split; by apply H.
Qed.

Lemma linked_deref (m : gmap bytes (nat * nat)) (hs : list CacheHandle) (h : CacheHandle) :
  linked m hs → h ∈ hs →
  ∃ a k, key h = Some (a, k) ∧ m !! k = Some (a, node h) ∧ deref m h = Done k.
Proof.
  intros (_ & H & _) Hh. destruct (H h Hh) as (a & k & Ek & Em). exists a, k.
  split_and!; try done. unfold deref. rewrite Ek, Em. by rewrite decide_True.
Qed.

Lemma linked_nodes (m : gmap bytes (nat * nat)) (h : CacheHandle) (hs : list CacheHandle)
    (g : CacheHandle) :
  linked m (h :: hs) → g ∈ hs → node g ≠ node h.
Proof.
  intros (Hnd & _) Hg E. simpl in Hnd. apply NoDup_cons in Hnd as [Hn _].
  apply Hn. rewrite <- E. by apply list_elem_of_fmap_2.
Qed.

Lemma linked_delete (m : gmap bytes (nat * nat)) (h : CacheHandle) (hs : list CacheHandle)
    (a : nat) (k : bytes) :
  linked m (h :: hs) → key h = Some (a, k) → linked (delete k m) hs.
Proof.
  intros Hl Ek. pose proof (linked_nodes m h hs) as Hne. destruct Hl as (H1 & H2 & H3).
  pose proof (conj H1 (conj H2 H3)) as Hl.
  destruct (H2 h) as (a0 & k0 & Ek0 & Em); [by left|].
  rewrite Ek in Ek0. injection Ek0 as <- <-. split_and!.
  - simpl in H1. by apply NoDup_cons in H1 as [_ ?].
  - intros g Hg. destruct (H2 g) as (a' & k' & Eg & Em'); [by right|].
    exists a', k'. split; [done|]. rewrite lookup_delete_ne; [done|].
    intros <-. rewrite Em in Em'. injection Em' as _ En. by apply (Hne g Hl Hg).
  - intros k' a' it Hk. apply lookup_delete_Some in Hk as [Hkk Hk].
    destruct (H3 k' a' it Hk) as (g & Hg & En & Eg). exists g. split_and!; try done.
    apply elem_of_cons in Hg as [->|Hg]; [congruence|done].
Qed.

(** Moving a handle to a new node. *)
Lemma linked_move (m : gmap bytes (nat * nat)) (h t : CacheHandle) (hs : list CacheHandle)
    (a : nat) (k : bytes) :
  linked m (h :: hs) → key h = Some (a, k) → key t = Some (a, k) →
  Forall (λ g, node g ≠ node t) hs →
  linked (map_assign m k (node t)) (t :: hs).
Proof.
  intros Hl Ek Et Hf. pose proof (linked_nodes m h hs) as Hne.
  pose proof Hl as (H1 & H2 & H3).
  destruct (H2 h) as (a0 & k0 & Ek0 & Em); [by left|].
  rewrite Ek in Ek0. injection Ek0 as <- <-. rewrite Forall_forall in Hf.
  unfold map_assign. split_and!.
  - simpl in *. apply NoDup_cons in H1 as [_ ?]. apply NoDup_cons. split; [|done].
    intros Hin. apply list_elem_of_fmap in Hin as (g & E & Hg). by apply (Hf g Hg).
  - intros g Hg. apply elem_of_cons in Hg as [->|Hg].
    + exists a, k. split; [done|]. by rewrite lookup_alter_eq, Em.
    + destruct (H2 g) as (a' & k' & Eg & Em'); [by right|]. exists a', k'.
      split; [done|]. rewrite lookup_alter_ne; [done|]. intros <-. rewrite Em in Em'.
      injection Em' as _ En. by apply (Hne g Hl Hg).
  - intros k' a' it. destruct (decide (k = k')) as [<-|Hkk].
    + rewrite lookup_alter_eq, Em. intros [= <- <-]. exists t. split_and!; [by left|done|done].
    + rewrite lookup_alter_ne by done. intros Hk.
      destruct (H3 k' a' it Hk) as (g & Hg & En & Eg). exists g. split_and!; try done.
      apply elem_of_cons in Hg as [->|Hg]; [congruence|by right].
Qed.

Lemma linked_insert (m : gmap bytes (nat * nat)) (t : CacheHandle) (hs : list CacheHandle)
    (a : nat) (k : bytes) :
  linked m hs → m !! k = None → key t = Some (a, k) →
  Forall (λ g, node g ≠ node t) hs →
  linked (<[k := (a, node t)]> m) (t :: hs).
Proof.
  intros (H1 & H2 & H3) Hm Et Hf. rewrite Forall_forall in Hf. split_and!.
  - simpl. apply NoDup_cons. split; [|done].
    intros Hin. apply list_elem_of_fmap in Hin as (g & E & Hg). by apply (Hf g Hg).
  - intros g Hg. apply elem_of_cons in Hg as [->|Hg].
    + exists a, k. split; [done|]. by rewrite lookup_insert_eq.
    + destruct (H2 g Hg) as (a' & k' & Eg & Em'). exists a', k'.
      split; [done|]. rewrite lookup_insert_ne; [done|]. intros <-. congruence.
  - intros k' a' it. destruct (decide (k = k')) as [<-|Hkk].
    + rewrite lookup_insert_eq. intros [= <- <-]. exists t. split_and!; [by left|done|done].
    + rewrite lookup_insert_ne by done. intros Hk.
      destruct (H3 k' a' it Hk) as (g & Hg & En & Eg). exists g.
      split_and!; [by right|done|done].
Qed.

Lemma size_of_nonneg (h : CacheHandle) : 0 ≤ size_of h.
Proof. unfold size_of, kv_size, zlen. destruct (key h) as [[]|]; lia. Qed.

Lemma total_nonneg (hs : list CacheHandle) : 0 ≤ total hs.
Proof. induction hs as [|h hs IH]; simpl; [lia|]. pose proof (size_of_nonneg h). lia. Qed.

Lemma total_app (a b : list CacheHandle) : total (a ++ b) = total a + total b.
Proof. induction a as [|h a IH]; simpl; lia. Qed.

Lemma total_rev (a : list CacheHandle) : total (reverse a) = total a.
Proof. induction a as [|h a IH]; [done|]. rewrite reverse_cons, total_app. simpl. lia. Qed.


(** ** The loops *)

Lemma u32_total (hs : list CacheHandle) (x : Z) :
  x = total hs → total hs < 2 ^ 32 → u32 x = total hs.
Proof. intros -> H. apply u32_small. pose proof (total_nonneg hs). lia. Qed.

Lemma size_of_key (h : CacheHandle) (a : nat) (k : bytes) :
  key h = Some (a, k) → kv_size k h = size_of h.
Proof. intros E. unfold size_of. by rewrite E. Qed.

(** Eviction drops a run from the back, no longer than it must be. *)
Lemma evict_spec (limit : Z) (other back : list CacheHandle) : ∀ m,
  0 < limit → total back < 2 ^ 32 → linked m (back ++ other) →
  ∃ dropped back' m',
    evict limit back (total back) m = Done (back', total back', m') ∧
    back = dropped ++ back' ∧ linked m' (back' ++ other) ∧ total back' < limit ∧
    (∀ d h, dropped = d ++ [h] → limit ≤ size_of h + total back').
Proof.
  induction back as [|h back IH]; intros m Hlim Hlt Hl;
    cbn [evict];
    match goal with |- context [limit <=? ?u] => destruct (Z.leb_spec limit u) as [Hle|Hgt] end.
  - simpl in Hle. lia.
  - exists [], [], m. split_and!; try done. by intros [] ?.
  - destruct (linked_deref m _ h Hl) as (a & k & Ek & _ & ->); [by left|].
    rewrite bind_Done_l, (size_of_key h a k Ek).
    pose proof (size_of_nonneg h). simpl in Hlt.
    rewrite (u32_total back) by (simpl; lia).
    destruct (IH (delete k m)) as (dr & back' & m' & -> & -> & Hl' & Hb & Hmin);
      [done|lia|by eapply linked_delete|].
    exists (h :: dr), back', m'. split_and!; try done. intros d g E.
    destruct dr as [|g' dr].
    + destruct d as [|? []]; simplify_eq/=. simpl in Hle. lia.
    + destruct d as [|x d]; simplify_eq/=. by apply (Hmin d g).
  - exists [], (h :: back), m. split_and!; try done. by intros [] ?.
Qed.

(** What a handle keeps when it changes lists. *)
Definition content (h : CacheHandle) : option (nat * bytes) * bytes * bool :=
  (key h, value h, isExist h).

(** Demotion moves a run from the back of the hot list, in order, to the front
    of the cold one; nothing is lost and no counter drifts. *)
Lemma demote_spec (limit : Z) (back : list CacheHandle) : ∀ probation m next,
  0 < limit → total back + total probation < 2 ^ 32 →
  linked m (back ++ probation) →
  Forall (λ h, (node h < next)%nat) (back ++ probation) →
  Forall (λ h, isHot h = false) probation →
  ∃ dropped back' moved m' next',
    demote true limit back (total back) probation (total probation) m next =
      Done (back', total back', moved ++ probation, total (moved ++ probation), m', next') ∧
    back = dropped ++ back' ∧ content <$> moved = reverse (content <$> dropped) ∧
    linked m' (back' ++ moved ++ probation) ∧ total back' < limit ∧
    total back' + total (moved ++ probation) = total back + total probation ∧
    Forall (λ h, (node h < next')%nat) (back' ++ moved ++ probation) ∧
    Forall (λ h, isHot h = false) (moved ++ probation).
Proof.
  induction back as [|h back IH]; intros prob m next Hlim Hlt Hl Hn Hc;
    cbn [demote];
    match goal with |- context [limit <=? ?u] => destruct (Z.leb_spec limit u) as [Hle|Hgt] end.
  - simpl in Hle. lia.
  - exists [], [], [], m, next. by split_and!.
  - destruct (linked_deref m _ h Hl) as (a & k & Ek & _ & ->); [by left|].
    rewrite bool_decide_true by (rewrite Ek; eauto).
    cbn [negb orb cassert guard_fault]. rewrite !bind_Done_l. cbv zeta.
    rewrite (size_of_key h a k Ek).
    set (t := mkHandle next (key h) (value h) false (isExist h)).
    assert (Et : size_of t = size_of h) by done.
    pose proof (size_of_nonneg h). pose proof (total_nonneg back).
    pose proof (total_nonneg prob). simpl in Hlt.
    rewrite (u32_total back) by (simpl; lia).
    rewrite (u32_total (t :: prob)) by (simpl; lia).
    inversion Hn as [|? ? Hnh Hnr]; subst.
    assert (Hl' : linked (map_assign m k next) (back ++ t :: prob)).
    { rewrite <- Permutation_middle. eapply (linked_move m h t); [done|done|done|].
      eapply Forall_impl; [exact Hnr|]. simpl. lia. }
    destruct (IH (t :: prob) (map_assign m k next) (S next))
      as (dr & back' & mv & m' & next' & E & -> & Hmv & Hl2 & Hb & Htot & Hn2 & Hc2);
      [done|simpl; lia|done| |by constructor|].
    { rewrite <- Permutation_middle. constructor; [simpl; lia|].
      eapply Forall_impl; [exact Hnr|]. simpl. lia. }
    rewrite E. exists (h :: dr), back', (mv ++ [t]), m', next'.
    rewrite <- !app_assoc in *. simpl app in *. split_and!; try done.
    + rewrite fmap_app, Hmv. change (content <$> h :: dr) with (content h :: (content <$> dr)). by rewrite reverse_cons.
    + rewrite Htot. simpl. lia.
  - exists [], (h :: back), [], m, next. by split_and!.
Qed.

Lemma ok_new (cold hot : Z) : ok (new_kLRUCache cold hot).
Proof.
  constructor; try done; try (by constructor). split_and!.
  - constructor.
  - intros h Hh. by apply elem_of_nil in Hh.
  - intros k a it E. simpl in E. by rewrite lookup_empty in E.
Qed.

(** Evicting from a cache whose cold counter is exact. *)
Lemma evict_ok (c : kLRUCache) :
  ok c → 0 < max_probation_mem_size_ c → total (probation_list_ c) < 2 ^ 32 →
  ∃ c' dropped, evict_probation c = Done c' ∧ ok c' ∧
    probation_list_ c = probation_list_ c' ++ dropped ∧
    protected_list_ c' = protected_list_ c ∧
    max_probation_mem_size_ c' = max_probation_mem_size_ c ∧
    max_protected_mem_size_ c' = max_protected_mem_size_ c ∧
    protected_memory_usage_ c' = protected_memory_usage_ c ∧
    probation_memory_usage_ c' < max_probation_mem_size_ c ∧
    (∀ h d, dropped = h :: d →
       max_probation_mem_size_ c ≤ size_of h + probation_memory_usage_ c').
Proof.
  intros [Hl Hn Hc Hh Hcu Hhu] Hlim Hlt. unfold evict_probation, all in *.
  rewrite Hcu, <- (total_rev (probation_list_ c)).
  destruct (evict_spec (max_probation_mem_size_ c) (protected_list_ c)
    (reverse (probation_list_ c)) (cache_map_ c))
    as (dr & back' & m' & -> & Eb & Hl' & Hb & Hmin);
    [done|by rewrite total_rev|by rewrite reverse_Permutation|].
  rewrite bind_Done_l.
  assert (Ep : probation_list_ c = reverse back' ++ reverse dr).
  { rewrite <- (reverse_involutive (probation_list_ c)), Eb. apply reverse_app. }
  eexists _, (reverse dr). split; [done|].
  rewrite Ep in Hn, Hc. rewrite <- app_assoc in Hn.
  apply Forall_app in Hn as [Hn1 Hn2]. apply Forall_app in Hn2 as [_ Hn2].
  apply Forall_app in Hc as [Hc1 _].
  split; [constructor; simpl|].
  - unfold all. simpl. by rewrite reverse_Permutation.
  - unfold all. simpl. apply Forall_app. by split.
  - done.
  - done.
  - by rewrite total_rev.
  - done.
  - simpl. split_and!; try done. intros h d E.
    apply (Hmin (reverse d) h). by rewrite <- (reverse_involutive dr), E, reverse_cons.
Qed.


Lemma push_ok (c : kLRUCache) (k v : bytes) (exist : bool) (size : Z) :
  ok c → cache_map_ c !! k = None → size = zlen k + zlen v →
  total (probation_list_ c) + size < 2 ^ 32 → ok (push_probation c k v exist size).
Proof.
  intros [Hl Hn Hc Hh Hcu Hhu] Hk -> Hlt. unfold push_probation. rewrite Hk.
  pose proof (total_nonneg (probation_list_ c)).
  assert (0 ≤ zlen k + zlen v) by (unfold zlen; lia).
  constructor; unfold all in *; simpl in *; try done.
  - apply linked_insert; [done|done|done|]. eapply Forall_impl; [exact Hn|]. simpl. lia.
  - constructor; [simpl; lia|]. eapply Forall_impl; [exact Hn|]. simpl. lia.
  - by constructor.
  - rewrite Hcu. unfold size_of, kv_size. simpl. rewrite u32_small; lia.
Qed.

Lemma find_node_in (h : CacheHandle) (l : list CacheHandle) :
  NoDup (node <$> l) → h ∈ l → find_node (node h) l = Some h.
Proof.
  induction l as [|g l IH]; simpl; [by intros _ H%elem_of_nil|].
  intros Hnd Hh. apply NoDup_cons in Hnd as [Hn Hnd].
  unfold find_node. simpl. case_bool_decide as E.
  - apply elem_of_cons in Hh as [->|Hh]; [done|].
    exfalso. apply Hn. rewrite E. by apply list_elem_of_fmap_2.
  - apply elem_of_cons in Hh as [->|Hh]; [done|]. by apply IH.
Qed.

Lemma erase_node_notin (it : nat) (l : list CacheHandle) :
  it ∉ (node <$> l) → erase_node it l = l.
Proof.
  induction l as [|g l IH]; [done|]. rewrite fmap_cons, not_elem_of_cons.
  intros [H1 H2]. unfold erase_node. simpl. rewrite bool_decide_false by congruence.
  simpl. f_equal. by apply IH.
Qed.

Lemma erase_node_split (h : CacheHandle) (p1 p2 : list CacheHandle) :
  NoDup (node <$> (p1 ++ h :: p2)) → erase_node (node h) (p1 ++ h :: p2) = p1 ++ p2.
Proof.
  rewrite fmap_app, fmap_cons, NoDup_app. intros (H1 & H2 & H3).
  apply NoDup_cons in H3 as [H3 _]. unfold erase_node. rewrite List.filter_app. simpl.
  rewrite bool_decide_true by done. simpl. f_equal.
  - apply erase_node_notin. intros Hin. apply (H2 _ Hin). by left.
  - by apply erase_node_notin.
Qed.

(** C14: inserting a fresh key keeps the cache consistent and within its cold
    limit. On a consistent cache with a positive cold limit, [set] (and
    [setEraseRecord]) of a key that is not cached finishes: its eviction loop
    terminates without touching a dangling pointer or an empty list, the cold
    list becomes the new record followed by the old records less a run from
    the back, that run is no longer than needed, the hot list is untouched,
    the cold counter is exact and below its limit, and map and lists still
    correspond one to one. *)
Theorem set_fresh (c : kLRUCache) (k v : bytes) (Hok : ok c)
  (Hfresh : cache_map_ c !! k = None) (Hlim : 0 < max_probation_mem_size_ c)
  (Hfit : probation_memory_usage_ c + zlen k + zlen v < 2 ^ 32) :
  ∀ exist : bool, (exist = false → v = []) →
  ∃ c' h dropped,
    (if exist then set c k v else setEraseRecord c k) = Done c' ∧ ok c' ∧
    value h = v ∧ isExist h = exist ∧ (∃ a, key h = Some (a, k)) ∧
    h :: probation_list_ c = probation_list_ c' ++ dropped ∧
    protected_list_ c' = protected_list_ c ∧
    probation_memory_usage_ c' < max_probation_mem_size_ c ∧
    (∀ g d, dropped = g :: d →
       max_probation_mem_size_ c ≤ size_of g + probation_memory_usage_ c').
Proof.
  intros exist Hv. pose proof Hok as [_ _ _ _ Hcu _].
  assert (E : (if exist then set c k v else setEraseRecord c k) =
    evict_probation (push_probation c k v exist (zlen k + zlen v))).
  { destruct exist; [done|]. rewrite (Hv eq_refl). unfold setEraseRecord. do 2 f_equal.
    unfold zlen. simpl. lia. }
  assert (Hp : ok (push_probation c k v exist (zlen k + zlen v)))
    by (apply push_ok; [done|done|done|lia]).
  destruct (evict_ok _ Hp) as (c' & dr & Ee & Hok' & Epl & Eh & _ & _ & _ & Hu & Hmin).
  - done.
  - simpl. unfold size_of, kv_size. simpl. lia.
  - rewrite E, Ee. unfold push_probation in Epl, Eh, Hu, Hmin. simpl in *.
    eexists c', _, dr. split; [done|]. split; [done|].
    split; [|split; [|split; [|split; [exact Epl|]]]]; try done. by eexists.
Qed.

Lemma set_fresh_witness :
  ok (new_kLRUCache 10 10) ∧ cache_map_ (new_kLRUCache 10 10) !! str "a" = None ∧
  ∃ c', set (new_kLRUCache 10 10) (str "a") (str "12345") = Done c' ∧ ok c'.
Proof.
  split; [apply ok_new|]. split; [reflexivity|].
  destruct (set_fresh (new_kLRUCache 10 10) (str "a") (str "12345") (ok_new 10 10) eq_refl
    ltac:(by vm_compute) ltac:(by vm_compute) true ltac:(discriminate))
    as (c' & _ & _ & E & Hok & _).
  exists c'. split; [exact E|exact Hok].
Defined.

(** The fields of an explicit cache. *)
Ltac proj := cbn [max_probation_mem_size_ max_protected_mem_size_ probation_memory_usage_
    protected_memory_usage_ protected_list_ probation_list_ cache_map_ fresh].

(** Demoting brings the hot usage below its limit and keeps the cache
    consistent. *)
Lemma demote_protected_ok (c : kLRUCache) :
  ok c → 0 < max_protected_mem_size_ c →
  total (protected_list_ c) + total (probation_list_ c) < 2 ^ 32 →
  ∃ c' dropped moved, demote_protected true c = Done c' ∧ ok c' ∧
    protected_list_ c = protected_list_ c' ++ dropped ∧
    probation_list_ c' = moved ++ probation_list_ c ∧
    content <$> moved = content <$> dropped ∧
    max_probation_mem_size_ c' = max_probation_mem_size_ c ∧
    protected_memory_usage_ c' < max_protected_mem_size_ c ∧
    total (probation_list_ c') < 2 ^ 32.
Proof.
  intros [Hl Hn Hc Hh Hcu Hhu] Hlim Hlt. unfold demote_protected, all in *.
  rewrite Hcu, Hhu, <- (total_rev (protected_list_ c)).
  rewrite <- (total_rev (protected_list_ c)) in Hlt.
  destruct (demote_spec (max_protected_mem_size_ c) (reverse (protected_list_ c))
    (probation_list_ c) (cache_map_ c) (fresh c))
    as (dr & back' & mv & m' & next' & -> & Eb & Hmv & Hl2 & Hb & Htot & Hn2 & Hc2);
    [done|done|by rewrite reverse_Permutation, Permutation_app_comm
    |by rewrite reverse_Permutation, Permutation_app_comm|done|].
  cbn [mbind outcome_bind].
  assert (Ep : protected_list_ c = reverse back' ++ reverse dr).
  { rewrite <- (reverse_involutive (protected_list_ c)), Eb. apply reverse_app. }
  eexists _, (reverse dr), mv. split; [done|]. pose proof (total_nonneg back').
  rewrite Ep in Hh. apply Forall_app in Hh as [Hh _].
  split_and!; try done; proj; [|by rewrite Hmv, fmap_reverse|lia].
  assert (Hp : (mv ++ probation_list_ c) ++ reverse back' ≡ₚ back' ++ mv ++ probation_list_ c)
    by (rewrite reverse_Permutation; apply Permutation_app_comm).
  constructor; unfold all; proj; rewrite ?Hp; try done. by rewrite total_rev.
Qed.

(** A cold hit first moves the record to the front of the hot list. *)
Lemma get_promotes (c : kLRUCache) (k : bytes) (a : nat) (h : CacheHandle)
    (p1 p2 : list CacheHandle) :
  ok c → probation_list_ c = p1 ++ h :: p2 → key h = Some (a, k) →
  total (probation_list_ c) + total (protected_list_ c) < 2 ^ 32 →
  let cache := mkHandle (fresh c) (key h) (value h) true (isExist h) in
  let c1 := mkCache (max_probation_mem_size_ c) (max_protected_mem_size_ c)
    (total (p1 ++ p2)) (total (cache :: protected_list_ c)) (cache :: protected_list_ c)
    (p1 ++ p2) (map_assign (cache_map_ c) k (fresh c)) (S (fresh c)) in
  ok c1 ∧
  get c k =
    (c2 ← demote_protected true c1;
     c3 ← evict_probation c2;
     Done (Some (if isExist h then mkAnswer (Some (value h)) false else mkAnswer None true), c3)).
Proof.
  intros [Hl Hn Hc Hh Hcu Hhu] Hp Hkey Hfit cache c1. unfold all in *.
  assert (Hin : h ∈ probation_list_ c ++ protected_list_ c)
    by (rewrite Hp, <- app_assoc; apply elem_of_app; right; by left).
  destruct (linked_deref _ _ h Hl Hin) as (a' & k' & Ek & Em & Ed).
  rewrite Hkey in Ek. injection Ek as <- <-.
  assert (Hnd : NoDup (node <$> (p1 ++ h :: p2))).
  { destruct Hl as (Hnd & _). rewrite Hp, fmap_app in Hnd. by apply NoDup_app in Hnd as [? _]. }
  pose proof (Hl) as Hl0. rewrite Hp in Hl, Hn, Hc, Hcu.
  apply Forall_app in Hc as [Hc1 Hc2]. inversion Hc2 as [|? ? Hhc Hc2']; subst.
  rewrite <- app_assoc in Hn. apply Forall_app in Hn as [Hn1 Hn2].
  inversion Hn2 as [|? ? _ Hn2']; subst. apply Forall_app in Hn2' as [Hn2' Hn3].
  assert (Hn : Forall (λ g, (node g < fresh c)%nat) (protected_list_ c ++ p1 ++ p2))
    by (rewrite !Forall_app; done).
  assert (Hlink : linked (cache_map_ c) (h :: protected_list_ c ++ p1 ++ p2)).
  { rewrite <- Permutation_middle in Hl. cbn [app] in Hl.
    by rewrite (Permutation_app_comm (protected_list_ c)). }
  assert (Hperm : all c1 ≡ₚ cache :: protected_list_ c ++ p1 ++ p2)
    by (unfold all, c1; proj; apply Permutation_app_comm).
  split.
  - constructor; unfold c1 in *; proj.
    + rewrite Hperm. apply (linked_move _ h cache _ a k); try done.
      eapply Forall_impl; [exact Hn|]. simpl. lia.
    + rewrite Hperm. constructor; [simpl; lia|]. eapply Forall_impl; [exact Hn|]. simpl. lia.
    + by apply Forall_app.
    + by constructor.
    + done.
    + done.
  - unfold get. rewrite Em, (find_node_in h) by (done || apply Hl0).
    cbn [of_option]. rewrite bind_Done_l. cbv zeta. rewrite Hhc. fold cache.
    rewrite (Ed : deref (cache_map_ c) cache = Done k), bind_Done_l.
    rewrite Hp, erase_node_split, Hcu, Hhu by done.
    pose proof (size_of_nonneg h). pose proof (size_of_key h a k Hkey) as Hs.
    pose proof (total_nonneg (p1 ++ p2)). pose proof (total_nonneg (protected_list_ c)).
    rewrite Hp in Hfit. rewrite total_app in Hfit |- *. rewrite total_app in *. simpl in Hfit |- *.
    rewrite Hs, (u32_small (size_of h)), !u32_small by lia. unfold c1.
    rewrite total_app. simpl. change (size_of cache) with (size_of h).
    replace (total p1 + (size_of h + total p2) - size_of h) with (total p1 + total p2) by lia.
    by rewrite (Z.add_comm (total (protected_list_ c))).
Qed.

(** C15: a cold hit promotes the record. On a consistent cache with positive
    limits, [get] of a key whose record [h] is in the cold list finishes,
    answers [h]'s value (or that it is erased), puts the record at the front
    of the hot list, demotes a run from the back of the hot list to the front
    of the cold one in order, evicts from the cold list's back, and leaves a
    consistent cache with both counters exact and below their limits. *)
Theorem get_cold (c : kLRUCache) (k : bytes) (a : nat) (h : CacheHandle)
  (p1 p2 : list CacheHandle) (Hok : ok c)
  (Hp : probation_list_ c = p1 ++ h :: p2) (Hkey : key h = Some (a, k))
  (Hcold : 0 < max_probation_mem_size_ c) (Hhot : 0 < max_protected_mem_size_ c)
  (Hfit : probation_memory_usage_ c + protected_memory_usage_ c < 2 ^ 32) :
  ∃ c' demoted evicted,
    get c k = Done (Some (if isExist h then mkAnswer (Some (value h)) false
                          else mkAnswer None true), c') ∧ ok c' ∧
    content h :: (content <$> protected_list_ c) =
      (content <$> protected_list_ c') ++ demoted ∧
    demoted ++ (content <$> (p1 ++ p2)) = (content <$> probation_list_ c') ++ evicted ∧
    probation_memory_usage_ c' < max_probation_mem_size_ c ∧
    protected_memory_usage_ c' < max_protected_mem_size_ c.
Proof.
  pose proof Hok as [_ _ _ _ Hcu Hhu]. rewrite Hcu, Hhu in Hfit.
  destruct (get_promotes c k a h p1 p2 Hok Hp Hkey Hfit) as [Hok1 ->].
  set (cache := mkHandle _ _ _ _ _) in *. set (c1 := mkCache _ _ _ _ _ _ _ _) in *.
  assert (Ht : total (protected_list_ c1) + total (probation_list_ c1) < 2 ^ 32).
  { rewrite Hp, total_app in Hfit. unfold c1. proj. rewrite total_app. simpl in *.
    change (size_of cache) with (size_of h). lia. }
  destruct (demote_protected_ok c1 Hok1 Hhot Ht)
    as (c2 & dr & mv & -> & Hok2 & Epr & Epl & Hmv & Emax & Hu & Ht2).
  rewrite bind_Done_l.
  destruct (evict_ok c2 Hok2) as (c' & ev & -> & Hok' & Epl' & Eh & _ & _ & Ehu & Hu' & _);
    [by rewrite Emax|done|].
  rewrite bind_Done_l. exists c', (content <$> dr), (content <$> ev). split_and!; try done.
  - rewrite Eh, <- fmap_app, <- Epr. done.
  - rewrite <- Hmv, <- !fmap_app, <- Epl'. by rewrite Epl.
  - by rewrite <- (Emax : _ = max_probation_mem_size_ c).
  - by rewrite Ehu.
Qed.

Lemma get_cold_witness :
  ∃ c a h, set (new_kLRUCache 10 10) (str "a") (str "1") = Done c ∧ ok c ∧
    probation_list_ c = [] ++ h :: [] ∧ key h = Some (a, str "a") ∧
    ∃ c' demoted evicted,
      get c (str "a") = Done (Some (mkAnswer (Some (str "1")) false), c') ∧ ok c' ∧
      content h :: (content <$> protected_list_ c) =
        (content <$> protected_list_ c') ++ demoted ∧
      demoted ++ (content <$> ([] ++ [])) = (content <$> probation_list_ c') ++ evicted ∧
      probation_memory_usage_ c' < max_probation_mem_size_ c ∧
      protected_memory_usage_ c' < max_protected_mem_size_ c.
Proof.
  set (h := mkHandle 0 (Some (0%nat, str "a")) (str "1") false true).
  set (c := mkCache 10 10 2 0 [] [h] {[ str "a" := (0%nat, 0%nat) ]} 1).
  assert (E : set (new_kLRUCache 10 10) (str "a") (str "1") = Done c) by reflexivity.
  assert (Hok : ok c).
  { constructor; [|by repeat constructor|by repeat constructor|done|done|done].
    split_and!.
    - apply NoDup_singleton.
    - intros g Hg. apply list_elem_of_singleton in Hg as ->. by exists 0%nat, (str "a").
    - intros k a it Hk. unfold c in Hk. cbn [cache_map_] in Hk. apply lookup_singleton_Some in Hk as [<- [= <- <-]].
      exists h. split_and!; [by left|done|done]. }
  exists c, 0%nat, h. split; [exact E|]. split; [exact Hok|]. split; [reflexivity|].
  split; [reflexivity|].
  exact (get_cold c (str "a") 0 h [] [] Hok eq_refl eq_refl ltac:(by vm_compute)
    ltac:(by vm_compute) ltac:(by vm_compute)).
Defined.

(** Two ways the cache goes wrong. Setting a cached key again leaves the
    old record in the list: when that record is evicted it takes the live
    record's map entry with it — the key is no longer found — and the eviction
    of the live record then dereferences a dangling key pointer. And a second
    hit on a hot record leaves its emptied copy in the hot list: once that copy
    is demoted, the key answers an empty value that was never stored. *)
Theorem stale_records_break_the_cache :
  let run1 := (c ← set (new_kLRUCache 10 10) (str "a") (str "1");
               c ← set c (str "a") (str "2");
               set c (str "b") (str "12345")) in
  let run2 := (c ← set (new_kLRUCache 20 7) (str "a") (str "1");
               '(_, c) ← get c (str "a"); '(_, c) ← get c (str "a");
               c ← set c (str "b") (str "1234"); '(_, c) ← get c (str "b");
               get c (str "a")) in
  (c ← run1; '(r, _) ← get c (str "a"); Done r) = Done None ∧
  (c ← run1; set c (str "c") (str "12345")) = Fault Dangling ∧
  ('(r, _) ← run2; Done r) = Done (Some (mkAnswer (Some []) false)).
Proof. vm_compute. split_and!; reflexivity. Qed.

End KLRU.
