(* ===== verification/SSTable.v ===== *)
(** * SSTable files and their manager

    [src/db/sstable.{hpp,cpp}] and [src/db/sstable_manager.{hpp,cpp}]: the
    table file with its descriptor and mapping, and the table of tables by
    memtable number and level. The system calls are arguments: the result of
    [::open] on a path, of [::stat] and [::fstat], of [::mmap]. The tables are
    shared objects: the manager keeps their identities, so a table that two
    callers hold is one table. *)
From S2P Require Import Prelude.

Module SSTable.

(** [mmapBasePtr_]: null, [MAP_FAILED], a mapping, or a mapping that has been
    given back. *)
Inductive map_ptr : Type :=
  | PNull
  | PFailed
  | PMap (m : bytes)
  | PGone.

(** [None]: not initialised by the constructor. *)
Record SSTable : Type := mkTable {
  isMmap_ : bool;
  mmapBasePtr_ : map_ptr;
  fileLength_ : option Z;
  isOpen_ : bool;
  fd_ : option Z;
  sstable_number_ : option Z;
  sstable_level_ : option Z;
  fullfilename_ : bytes;
  fileName_ : bytes;
  filePath_ : bytes
}.

Definition init : SSTable := mkTable false PNull None false None None None [] [] [].

Definition getFd (t : SSTable) : outcome Z := of_option Uninit (fd_ t).

(** A failed [::open] stores its negative result in [fd_] all the same. *)
Definition Init (open : bytes → Z) (t : SSTable) (path filename : bytes)
    (level number : Z) : bool * SSTable :=
  let full := path ++ str "/" ++ filename in
  let fd := open full in
  if fd <? 0 then
    (false, mkTable (isMmap_ t) (mmapBasePtr_ t) (fileLength_ t) (isOpen_ t) (Some fd)
              (sstable_number_ t) (sstable_level_ t) full (fileName_ t) (filePath_ t))
  else
    (true, mkTable (isMmap_ t) (mmapBasePtr_ t) (fileLength_ t) true (Some fd)
             (Some number) (Some level) full filename path).

(** The descriptors closed, and the table. *)
Definition Close (t : SSTable) : outcome (list Z * SSTable) :=
  if isOpen_ t then
    fd ← getFd t;
    Done ([fd], mkTable (isMmap_ t) (mmapBasePtr_ t) (fileLength_ t) false (fd_ t)
                  (sstable_number_ t) (sstable_level_ t) (fullfilename_ t)
                  (fileName_ t) (filePath_ t))
  else Done ([], t).

Definition getLevel (t : SSTable) : outcome Z := of_option Uninit (sstable_level_ t).
Definition setLevel (t : SSTable) (n : Z) : SSTable :=
  mkTable (isMmap_ t) (mmapBasePtr_ t) (fileLength_ t) (isOpen_ t) (fd_ t)
    (sstable_number_ t) (Some n) (fullfilename_ t) (fileName_ t) (filePath_ t).
Definition setNumber (t : SSTable) (n : Z) : SSTable :=
  mkTable (isMmap_ t) (mmapBasePtr_ t) (fileLength_ t) (isOpen_ t) (fd_ t)
    (Some n) (sstable_level_ t) (fullfilename_ t) (fileName_ t) (filePath_ t).
Definition getNumber (t : SSTable) : outcome Z := of_option Uninit (sstable_number_ t).

(** [fstat] is the size of an open descriptor's file, [None] for -1. *)
Definition getFileSize (fstat : Z → option Z) (t : SSTable) : outcome Z :=
  fd ← getFd t;
  size ← of_option AssertFailed (fstat fd);
  Done (u32 size).

(** [mmap fd length]: [None] for [MAP_FAILED], which is stored. *)
Definition InitMmap (stat : bytes → option Z) (mmap : Z → Z → option bytes)
    (t : SSTable) : outcome (bool * SSTable) :=
  match stat (fullfilename_ t) with
  | None => Done (false, t)
  | Some size =>
      fd ← getFd t;
      match mmap fd size with
      | None =>
          Done (false, mkTable (isMmap_ t) PFailed (Some size) (isOpen_ t) (fd_ t)
                         (sstable_number_ t) (sstable_level_ t) (fullfilename_ t)
                         (fileName_ t) (filePath_ t))
      | Some m =>
          Done (true, mkTable true (PMap m) (Some size) (isOpen_ t) (fd_ t)
                        (sstable_number_ t) (sstable_level_ t) (fullfilename_ t)
                        (fileName_ t) (filePath_ t))
      end
  end.

(** [munmap] leaves the pointer and [isMmap_] as they are. *)
Definition CloseMmap (t : SSTable) : SSTable :=
  mkTable (isMmap_ t) PGone (fileLength_ t) (isOpen_ t) (fd_ t)
    (sstable_number_ t) (sstable_level_ t) (fullfilename_ t) (fileName_ t) (filePath_ t).

Definition getMmapPtr (t : SSTable) : map_ptr := mmapBasePtr_ t.
Definition getfileName (t : SSTable) : bytes := fullfilename_ t.
Definition getPath (t : SSTable) : bytes := filePath_ t.

(** The destructor: the descriptors it closes, and whether it unmaps. *)
Definition destroy (t : SSTable) : outcome (list Z * bool) :=
  fds ← (if isOpen_ t then fd ← getFd t; Done [fd] else Done []);
  Done (fds, isMmap_ t).

(** The bytes behind a pointer that is dereferenced. *)
Definition mapped (p : map_ptr) : outcome bytes :=
  match p with
  | PNull => Fault NullDeref
  | PFailed => Fault OutOfBounds
  | PMap m => Done m
  | PGone => Fault Dangling
  end.

End SSTable.

(** ** The manager *)
Module SSTableManager.
Import SSTable.

Definition kDefaultSSTableSize : Z := 12.

(** The vectors hold the identities of tables, [heap] the tables. *)
Record SSTableManager : Type := mkMgr {
  memtable_n_ : nat;
  db_path_ : bytes;
  sstable_vec_ : list (list nat);
  comp_sstable_vec_ : list (list nat);
  heap : list SSTable
}.

Definition new_SSTableManager : SSTableManager := mkMgr 0 [] [] [] [].

(** [Init] on a manager just constructed. *)
Definition Manager_Init (memtable_N : nat) (db_path : bytes) (t : SSTableManager)
  : SSTableManager :=
  mkMgr memtable_N db_path
    (take memtable_N (sstable_vec_ t) ++
     replicate (memtable_N - length (sstable_vec_ t)) [])
    (comp_sstable_vec_ t) (heap t).

(** [push_back (make_shared ())] on row [number] of a vector. *)
Definition push_new (vec : list (list nat)) (number : nat) (id : nat)
  : outcome (list (list nat)) :=
  row ← of_option OutOfBounds (vec !! number);
  Done (<[number := row ++ [id]]> vec).

Definition getSSTable (t : SSTableManager) (number level : nat) : outcome nat :=
  row ← of_option OutOfBounds (sstable_vec_ t !! number);
  of_option OutOfBounds (row !! level).

Definition newSSTable (t : SSTableManager) (number level : nat)
  : outcome (nat * SSTableManager) :=
  let id := length (heap t) in
  vec ← push_new (sstable_vec_ t) number id;
  let t' := mkMgr (memtable_n_ t) (db_path_ t) vec (comp_sstable_vec_ t)
              (heap t ++ [SSTable.init]) in
  r ← getSSTable t' number level;
  Done (r, t').

Definition newCompactionSSTable (t : SSTableManager) (number level : nat)
  : outcome (nat * SSTableManager) :=
  let id := length (heap t) in
  vec ← push_new (comp_sstable_vec_ t) number id;
  let t' := mkMgr (memtable_n_ t) (db_path_ t) (sstable_vec_ t) vec
              (heap t ++ [SSTable.init]) in
  r ← getSSTable t' number level;
  Done (r, t').

Definition getVecSize (t : SSTableManager) : nat := length (sstable_vec_ t).

Definition getNumSize (t : SSTableManager) (number : nat) : outcome nat :=
  row ← of_option OutOfBounds (sstable_vec_ t !! number);
  Done (length row).

(** A call through a shared_ptr. *)
Definition on_table (t : SSTableManager) (id : nat) (f : SSTable → SSTable)
  : SSTableManager :=
  mkMgr (memtable_n_ t) (db_path_ t) (sstable_vec_ t) (comp_sstable_vec_ t)
    (alter f id (heap t)).

(** ** Which table a request for a level gets *)

(** Distinct positions hold distinct live tables. *)
Definition ok (t : SSTableManager) : Prop :=
  comp_sstable_vec_ t = [] ∧ NoDup (concat (sstable_vec_ t)) ∧
  Forall (λ id, id < length (heap t))%nat (concat (sstable_vec_ t)).

Lemma concat_insert_perm (vec : list (list nat)) (i : nat) (row : list nat) (x : nat) :
  vec !! i = Some row → concat (<[i := row ++ [x]]> vec) ≡ₚ x :: concat vec.
Proof.
  revert i; induction vec as [|r vec IH]; intros [|i] H; simpl in *; try done.
  - injection H as ->. by rewrite <- app_assoc, Permutation_middle.
  - rewrite (IH i H). by rewrite Permutation_middle.
Qed.

Lemma newSSTable_row (t : SSTableManager) (number level : nat) (row : list nat) :
  sstable_vec_ t !! number = Some row →
  newSSTable t number level =
    (r ← of_option OutOfBounds ((row ++ [length (heap t)]) !! level);
     Done (r, mkMgr (memtable_n_ t) (db_path_ t)
                (<[number := row ++ [length (heap t)]]> (sstable_vec_ t))
                (comp_sstable_vec_ t) (heap t ++ [SSTable.init]))).
Proof.
  intros H. unfold newSSTable, push_new, getSSTable. rewrite H.
  cbn [of_option]. rewrite !bind_Done_l. cbn [sstable_vec_].
  rewrite list_lookup_insert_eq by (by eapply lookup_lt_Some). done.
Qed.

Lemma newSSTable_ok (t : SSTableManager) (number : nat) (row : list nat) :
  ok t → sstable_vec_ t !! number = Some row →
  ok (mkMgr (memtable_n_ t) (db_path_ t)
       (<[number := row ++ [length (heap t)]]> (sstable_vec_ t))
       (comp_sstable_vec_ t) (heap t ++ [SSTable.init])).
Proof.
  intros (Hc & Hnd & Hlt) H. split_and!; [done| |]; cbn [sstable_vec_ heap].
  - rewrite (concat_insert_perm _ _ _ _ H). constructor; [|done].
    intros Hin. rewrite Forall_forall in Hlt. apply Hlt in Hin. lia.
  - rewrite (concat_insert_perm _ _ _ _ H), length_app. simpl. constructor; [lia|].
    eapply Forall_impl; [exact Hlt|]. simpl. lia.
Qed.

(** Requests in the order a memtable's levels are flushed: each number asks
    for the level after the last one it got. *)
Fixpoint requests (t : SSTableManager) (rs : list (nat * nat))
  : outcome (list nat * SSTableManager) :=
  match rs with
  | [] => Done ([], t)
  | (number, level) :: rs' =>
      '(r, t) ← newSSTable t number level;
      '(ids, t) ← requests t rs';
      Done (r :: ids, t)
  end.

(** The level each request should name, given the rows' lengths. *)
Fixpoint in_order (sizes : list nat) (rs : list (nat * nat)) : Prop :=
  match rs with
  | [] => True
  | (number, level) :: rs' =>
      sizes !! number = Some level ∧ in_order (<[number := S level]> sizes) rs'
  end.

Lemma requests_fresh (rs : list (nat * nat)) : ∀ t,
  ok t → in_order (length <$> sstable_vec_ t) rs →
  ∃ ids t', requests t rs = Done (ids, t') ∧ ok t' ∧
    ids = seq (length (heap t)) (length rs) ∧
    (∀ i j, (∃ id, getSSTable t i j = Done id) → getSSTable t' i j = getSSTable t i j) ∧
    Forall2 (λ r id, getSSTable t' r.1 r.2 = Done id) rs ids.
Proof.
  induction rs as [|[number level] rs IH]; intros t Hok Hio.
  { exists [], t. by split_and!. }
  destruct Hio as [Hrow Hio]. rewrite list_lookup_fmap in Hrow.
  destruct (sstable_vec_ t !! number) as [row|] eqn:E; [|done]. injection Hrow as <-.
  cbn [requests]. rewrite (newSSTable_row _ _ _ _ E).
  rewrite list_lookup_middle by done. cbn [of_option]. rewrite !bind_Done_l.
  set (t1 := mkMgr _ _ _ _ _).
  assert (Hio1 : in_order (length <$> sstable_vec_ t1) rs).
  { unfold t1. cbn [sstable_vec_]. rewrite list_fmap_insert, length_app. simpl.
    by rewrite Nat.add_1_r. }
  destruct (IH t1 (newSSTable_ok t number row Hok E) Hio1)
    as (ids & t' & -> & Hok' & Hids & Hold & Hnew).
  assert (Hget : ∀ i j id, getSSTable t i j = Done id → getSSTable t1 i j = Done id).
  { intros i j id. unfold getSSTable, t1. cbn [sstable_vec_]. intros H. inv_done.
    destruct (decide (i = number)) as [->|Hne].
    - rewrite list_lookup_insert_eq by (by eapply lookup_lt_Some). cbn [of_option].
      rewrite bind_Done_l. simplify_eq. by rewrite (lookup_app_l_Some _ _ _ _ H0).
    - rewrite list_lookup_insert_ne by done. rewrite H. cbn [of_option].
      rewrite bind_Done_l. by rewrite H0. }
  assert (Hnow : getSSTable t1 number (length row) = Done (length (heap t))).
  { unfold getSSTable, t1. cbn [sstable_vec_].
    rewrite list_lookup_insert_eq by (by eapply lookup_lt_Some). cbn [of_option].
    rewrite bind_Done_l. by rewrite list_lookup_middle. }
  exists (length (heap t) :: ids), t'. split_and!; [done|done| | |].
  - simpl. f_equal. rewrite Hids. unfold t1. cbn [heap]. rewrite length_app. simpl.
    by rewrite Nat.add_1_r.
  - intros i j (id & Hid). rewrite Hold by eauto. by rewrite Hid, (Hget _ _ _ Hid).
  - constructor; [|done]. simpl. rewrite Hold by eauto. done.
Qed.

(** A fresh table for every flush, as long as levels come in order. On a
    manager initialised for [N] memtables, any interleaving of requests in
    which each memtable number asks for levels 0, 1, 2, ... in turn succeeds,
    every request gets a table no other request has, and the table stays the
    one [getSSTable] gives for that number and level. Out of order it does not
    hold: a level further than the next one reads past the row, an earlier one
    is given a table that is already in use; and a table for a merge can never
    be made, as [comp_sstable_vec_] is never sized. *)
Theorem newSSTable_levels (N : nat) (path : bytes) (rs : list (nat * nat)) :
  let t0 := Manager_Init N path new_SSTableManager in
  (in_order (replicate N O) rs →
   ∃ ids t, requests t0 rs = Done (ids, t) ∧ NoDup ids ∧ length ids = length rs ∧
     Forall2 (λ r id, getSSTable t r.1 r.2 = Done id) rs ids ∧
     (∀ number level row, sstable_vec_ t !! number = Some row →
        (length row < level)%nat → newSSTable t number level = Fault OutOfBounds) ∧
     (∀ number level id, getSSTable t number level = Done id →
        ∃ t', newSSTable t number level = Done (id, t')) ∧
     (∀ number level, newCompactionSSTable t number level = Fault OutOfBounds)).
Proof.
  intros t0 Hio.
  assert (Hv : sstable_vec_ t0 = replicate N []).
  { unfold t0. simpl. by rewrite take_nil, Nat.sub_0_r. }
  assert (Hok : ok t0).
  { assert (Hc : concat (sstable_vec_ t0) = []).
    { rewrite Hv. clear. by induction N. }
    split_and!; [done| |]; rewrite Hc; constructor. }
  destruct (requests_fresh rs t0 Hok) as (ids & t & E & (Hc & _) & Hids & _ & Hget).
  { rewrite Hv, fmap_replicate. done. }
  exists ids, t. split_and!; try done.
  - rewrite Hids. apply NoDup_seq.
  - rewrite Hids. apply length_seq.
  - intros number level row Hrow Hl. rewrite (newSSTable_row _ _ _ _ Hrow).
    rewrite lookup_ge_None_2 by (rewrite length_app; simpl; lia). done.
  - intros number level id Hid. unfold getSSTable in Hid. inv_done.
    erewrite newSSTable_row by done. erewrite lookup_app_l_Some by done. eauto.
  - intros number level. unfold newCompactionSSTable, push_new. by rewrite Hc.
Qed.

Lemma newSSTable_levels_witness :
  in_order (replicate 2 O) [(0, 0); (1, 0); (0, 1)]%nat ∧
  ∃ ids t, requests (Manager_Init 2 (str "db") new_SSTableManager)
             [(0, 0); (1, 0); (0, 1)]%nat = Done (ids, t) ∧ NoDup ids.
Proof.
  assert (H : in_order (replicate 2 O) [(0, 0); (1, 0); (0, 1)]%nat)
    by (simpl; repeat split).
  split; [exact H|].
  destruct (newSSTable_levels 2 (str "db") [(0, 0); (1, 0); (0, 1)]%nat H)
    as (ids & t & E & Hnd & _).
  exists ids, t. split; [exact E|exact Hnd].
Defined.

End SSTableManager.
