(* ===== verification/IOUring.v ===== *)
(** * The io_uring wrapper

    [src/util/iouring.{hpp,cpp}]: requests, and the class that prepares,
    submits and collects them. liburing is a library the source calls: its
    operations are the interface [Liburing], its documented behaviour the laws
    [LiburingLaws]. *)
From S2P Require Import Prelude.

Module IOUring.

(** What a request asks of the kernel. *)
Inductive opcode : Type := OpRead | OpWrite.

(** A submission queue entry: the operation, the descriptor, the buffer's
    address, its size, the file offset, the data returned with the completion
    and whether the entry is linked to the next one. *)
Record sqe : Type := mkSqe {
  sqe_op : opcode;
  sqe_fd : Z;
  sqe_addr : Z;
  sqe_len : Z;
  sqe_off : Z;
  sqe_data : Z;
  sqe_link : bool
}.

(** liburing on a ring [R]: [pending] are the entries handed out and not yet
    submitted, [sent] those the kernel was given. [get_sqe] is [None] when the
    submission queue is full; [set_last] stores an entry through the pointer
    [get_sqe] returned last; [prep_rw] is the entry as a prep function leaves
    it. [peek] and [wait] yield the address of a completion, or nothing. *)
Class Liburing (R : Type) : Type := {
  queue_init : Z → option R;
  queue_exit : R → R;
  get_sqe : R → option (sqe * R);
  set_last : sqe → R → R;
  prep_rw : opcode → sqe → Z → Z → Z → Z → sqe;
  submit : R → Z * R;
  peek_cqe : R → option Z * R;
  wait_cqe : R → option Z * R;
  cqe_seen : Z → R → R;
  cqe_data : R → Z → Z;
  pending : R → list sqe;
  sent : R → list sqe;
  depth : R → Z
}.

Class LiburingLaws (R : Type) {L : Liburing R} : Type := {
  init_empty : ∀ n r, queue_init n = Some r → pending r = [] ∧ sent r = [] ∧ n ≤ depth r;
  get_room : ∀ r, zlen (pending r) < depth r →
    ∃ e r', get_sqe r = Some (e, r') ∧ pending r' = pending r ++ [e] ∧
            sent r' = sent r ∧ depth r' = depth r;
  get_full : ∀ r, depth r ≤ zlen (pending r) → get_sqe r = None;
  set_pending : ∀ r es e e', pending r = es ++ [e] → pending (set_last e' r) = es ++ [e'];
  set_rest : ∀ r e', sent (set_last e' r) = sent r ∧ depth (set_last e' r) = depth r;
  prep_fields : ∀ op e fd addr len off,
    prep_rw op e fd addr len off = mkSqe op fd addr len off (sqe_data e) false;
  submit_ok : ∀ r, 0 ≤ (submit r).1 →
    pending (submit r).2 = [] ∧ sent (submit r).2 = sent r ++ pending r ∧
    depth (submit r).2 = depth r
}.

Record ReadRequest : Type := mkReadReq {
  rr_fd_ : Z;
  rr_data_ : Z;
  rr_data_size_ : Z;
  rr_file_offset_ : Z
}.
Definition new_ReadRequest (file_fd data data_size : Z) : ReadRequest :=
  mkReadReq file_fd data data_size (-1).

Record WriteRequest : Type := mkWriteReq {
  wr_fd_ : Z;
  wr_data_ : Z;
  wr_data_size_ : Z;
  wr_file_offset : Z
}.
Definition new_WriteRequest (file_fd data data_size : Z) : WriteRequest :=
  mkWriteReq file_fd data data_size (-1).

(** A completion's address, [None] for null. *)
Record ConSumptionQueue : Type := mkConsumption { _con_queue_ : option Z }.

Definition isEmpty (q : ConSumptionQueue) : bool := bool_decide (_con_queue_ q = None).

Section Ops.
Context {R : Type} {L : Liburing R}.

Definition getData (r : R) (q : ConSumptionQueue) : outcome Z :=
  c ← of_option NullDeref (_con_queue_ q); Done (cqe_data r c).

(** [ring_] is uninitialised storage before [Init]. *)
Record IOUring : Type := mkRing {
  ring_depth_ : option Z;
  ring_ : option R;
  isInit_ : bool
}.

Definition new_IOUring : IOUring := mkRing None None false.

(** [queue_init] returning anything but 0 fails the assertion. *)
Definition Init (ring_depth : Z) (t : IOUring) : outcome (bool * IOUring) :=
  match queue_init ring_depth with
  | None => Fault AssertFailed
  | Some r => Done (true, mkRing (Some ring_depth) (Some r) true)
  end.

Definition Stop (t : IOUring) : outcome IOUring :=
  if isInit_ t then
    r ← of_option Uninit (ring_ t);
    Done (mkRing (ring_depth_ t) (Some (queue_exit r)) false)
  else Done t.

(** The entry is used without a test for null. *)
Definition prep (op : opcode) (link : bool) (fd data size off : Z) (t : IOUring)
  : outcome IOUring :=
  r ← of_option Uninit (ring_ t);
  '(e, r) ← of_option NullDeref (get_sqe r);
  let e1 := mkSqe (sqe_op e) (sqe_fd e) (sqe_addr e) (sqe_len e) (sqe_off e) data (sqe_link e) in
  let e2 := prep_rw op e1 fd data size (u64 off) in
  let e3 := if link
            then mkSqe (sqe_op e2) (sqe_fd e2) (sqe_addr e2) (sqe_len e2) (sqe_off e2)
                   (sqe_data e2) true
            else e2 in
  Done (mkRing (ring_depth_ t) (Some (set_last e3 r)) (isInit_ t)).

Definition PrepRead (q : ReadRequest) : IOUring → outcome IOUring :=
  prep OpRead false (rr_fd_ q) (rr_data_ q) (rr_data_size_ q) (rr_file_offset_ q).
Definition PrepWrite (q : WriteRequest) : IOUring → outcome IOUring :=
  prep OpWrite false (wr_fd_ q) (wr_data_ q) (wr_data_size_ q) (wr_file_offset q).
Definition PrepReadLink (q : ReadRequest) : IOUring → outcome IOUring :=
  prep OpRead true (rr_fd_ q) (rr_data_ q) (rr_data_size_ q) (rr_file_offset_ q).
Definition PrepWriteLink (q : WriteRequest) : IOUring → outcome IOUring :=
  prep OpWrite true (wr_fd_ q) (wr_data_ q) (wr_data_size_ q) (wr_file_offset q).

(** A negative result is returned as an unsigned number. *)
Definition Submit (t : IOUring) : outcome (Z * IOUring) :=
  r ← of_option Uninit (ring_ t);
  let '(ue, r) := submit r in
  Done (u32 ue, mkRing (ring_depth_ t) (Some r) (isInit_ t)).

Definition PeekFinishQueue (t : IOUring) : outcome (ConSumptionQueue * IOUring) :=
  r ← of_option Uninit (ring_ t);
  let '(c, r) := peek_cqe r in
  Done (mkConsumption c, mkRing (ring_depth_ t) (Some r) (isInit_ t)).

Definition WaitFinishQueue (t : IOUring) : outcome (ConSumptionQueue * IOUring) :=
  r ← of_option Uninit (ring_ t);
  let '(c, r) := wait_cqe r in
  Done (mkConsumption c, mkRing (ring_depth_ t) (Some r) (isInit_ t)).

Definition DeleteEvent (q : ConSumptionQueue) (t : IOUring) : outcome IOUring :=
  _ ← cassert (bool_decide (is_Some (_con_queue_ q)));
  c ← of_option NullDeref (_con_queue_ q);
  r ← of_option Uninit (ring_ t);
  Done (mkRing (ring_depth_ t) (Some (cqe_seen c r)) (isInit_ t)).

(** ** Queueing requests *)

Inductive request : Type :=
  | RRead (q : ReadRequest) (link : bool)
  | RWrite (q : WriteRequest) (link : bool).

Definition Prep (q : request) : IOUring → outcome IOUring :=
  match q with
  | RRead q false => PrepRead q
  | RRead q true => PrepReadLink q
  | RWrite q false => PrepWrite q
  | RWrite q true => PrepWriteLink q
  end.

Fixpoint Prep_all (qs : list request) (t : IOUring) : outcome IOUring :=
  match qs with
  | [] => Done t
  | q :: qs' => t ← Prep q t; Prep_all qs' t
  end.

(** The entry a request should become. *)
Definition sqe_of (q : request) : sqe :=
  match q with
  | RRead q l => mkSqe OpRead (rr_fd_ q) (rr_data_ q) (rr_data_size_ q)
                   (u64 (rr_file_offset_ q)) (rr_data_ q) l
  | RWrite q l => mkSqe OpWrite (wr_fd_ q) (wr_data_ q) (wr_data_size_ q)
                    (u64 (wr_file_offset q)) (wr_data_ q) l
  end.

Context {LL : LiburingLaws R}.

Lemma Prep_room (q : request) (t : IOUring) (r : R) :
  ring_ t = Some r → zlen (pending r) < depth r →
  ∃ r', Prep q t = Done (mkRing (ring_depth_ t) (Some r') (isInit_ t)) ∧
        pending r' = pending r ++ [sqe_of q] ∧ sent r' = sent r ∧ depth r' = depth r.
Proof.
  intros Hr Hroom. destruct (get_room r Hroom) as (e & r1 & Hg & Hp & Hs & Hd).
  assert (H : ∀ op link fd data size off,
    ∃ r', prep op link fd data size off t =
            Done (mkRing (ring_depth_ t) (Some r') (isInit_ t)) ∧
      pending r' = pending r ++ [mkSqe op fd data size (u64 off) data link] ∧
      sent r' = sent r ∧ depth r' = depth r).
  { intros. unfold prep. rewrite Hr. cbn [of_option]. rewrite bind_Done_l, Hg.
    cbn [of_option]. rewrite bind_Done_l, prep_fields. eexists. split; [done|].
    destruct (set_rest r1 (if link then mkSqe op fd data size (u64 off) data true
                           else mkSqe op fd data size (u64 off) data false)) as [Hs1 Hd1].
    destruct link; simpl in *; rewrite Hs1, Hd1, (set_pending _ _ _ _ Hp); done. }
  destruct q as [q []|q []]; apply H.
Qed.

Lemma Prep_full (q : request) (t : IOUring) (r : R) :
  ring_ t = Some r → depth r ≤ zlen (pending r) → Prep q t = Fault NullDeref.
Proof.
  intros Hr Hfull. apply get_full in Hfull.
  destruct q as [q []|q []]; cbv beta iota delta [Prep PrepRead PrepReadLink PrepWrite PrepWriteLink prep];
    rewrite Hr; cbn [of_option]; by rewrite bind_Done_l, Hfull.
Qed.

Lemma Prep_all_room (qs : list request) : ∀ t r,
  ring_ t = Some r → zlen (pending r) + zlen qs ≤ depth r →
  ∃ r', Prep_all qs t = Done (mkRing (ring_depth_ t) (Some r') (isInit_ t)) ∧
        pending r' = pending r ++ (sqe_of <$> qs) ∧ sent r' = sent r ∧ depth r' = depth r.
Proof.
  induction qs as [|q qs IH]; intros t r Hr Hroom.
  - exists r. destruct t. simpl in *. subst. by rewrite app_nil_r.
  - unfold zlen in *. cbn [length] in Hroom.
    destruct (Prep_room q t r Hr) as (r1 & E1 & P1 & S1 & D1); [unfold zlen; lia|].
    cbn [Prep_all]. rewrite E1, bind_Done_l.
    destruct (IH (mkRing (ring_depth_ t) (Some r1) (isInit_ t)) r1 eq_refl)
      as (r' & E & P & S' & D).
    { rewrite P1, D1, length_app. simpl. lia. }
    exists r'. rewrite E, P, P1, S', D, <- app_assoc. by rewrite S1, D1.
Qed.

End Ops.
Arguments IOUring R : clear implicits.

(** Requests reach the kernel as they were made and in their order. On a
    ring just initialised with [n] entries whose library keeps its documented
    behaviour, any [n] or fewer reads and writes are queued without a fault;
    after a [Submit] that succeeds the kernel holds exactly one entry for each,
    in order: its descriptor, buffer, size, the offset -1 as an unsigned number
    (the file's own position), linked to the next one only if asked, and
    carrying the buffer's address as the data the completion returns. The
    request that finds the queue full is written through a null pointer. *)
Theorem submit_in_order {R : Type} {L : Liburing R} {LL : LiburingLaws R}
  (n : Z) (r : R) (qs : list request) (q : request)
  (Hi : queue_init n = Some r) (Hn : zlen qs ≤ n) :
  ∃ t t' : IOUring R, Init n new_IOUring = Done (true, t) ∧ Prep_all qs t = Done t' ∧
    (zlen qs = depth r → Prep q t' = Fault NullDeref) ∧
    ∀ r1, ring_ t' = Some r1 → 0 ≤ (submit r1).1 →
      ∃ t'' : IOUring R, Submit t' = Done (u32 (submit r1).1, t'') ∧
        ∃ r2, ring_ t'' = Some r2 ∧ sent r2 = sqe_of <$> qs ∧ pending r2 = [].
Proof.
  destruct (init_empty n r Hi) as (Hp & Hs & Hd).
  set (t := mkRing (Some n) (Some r) true).
  destruct (Prep_all_room qs t r eq_refl) as (r1 & E & P & S1 & D).
  { rewrite Hp. unfold zlen at 1. simpl. lia. }
  eexists t, _. split; [unfold Init; by rewrite Hi|]. split; [exact E|].
  rewrite Hp in P. simpl in P. split.
  - intros Hl. eapply Prep_full; [done|]. rewrite P, D. unfold zlen in *.
    rewrite length_fmap. lia.
  - intros r2 [= <-] Hok. destruct (submit_ok r1 Hok) as (P2 & S2 & _).
    unfold Submit. cbn [ring_ of_option]. rewrite bind_Done_l.
    destruct (submit r1) as [ue r2] eqn:Es. simpl in *.
    eexists. split; [done|]. exists r2. by rewrite S2, S1, Hs, P.
Qed.

(** A ring of a fixed number of entries: the witness's library. *)
Module ListRing.
Record ring : Type := mkR { r_n : Z; r_pending : list sqe; r_sent : list sqe }.
Definition blank : sqe := mkSqe OpRead 0 0 0 0 0 false.
Definition set_last_ (e : sqe) (l : list sqe) : list sqe :=
  match l with [] => [] | _ => removelast l ++ [e] end.
#[export] Instance list_ring : Liburing ring := {|
  queue_init n := Some (mkR n [] []);
  queue_exit r := r;
  get_sqe r := if zlen (r_pending r) <? r_n r
               then Some (blank, mkR (r_n r) (r_pending r ++ [blank]) (r_sent r)) else None;
  set_last e r := mkR (r_n r) (set_last_ e (r_pending r)) (r_sent r);
  prep_rw op e fd addr len off := mkSqe op fd addr len off (sqe_data e) false;
  submit r := (zlen (r_pending r), mkR (r_n r) [] (r_sent r ++ r_pending r));
  peek_cqe r := (None, r);
  wait_cqe r := (None, r);
  cqe_seen _ r := r;
  cqe_data _ c := c;
  pending := r_pending;
  sent := r_sent;
  depth := r_n
|}.
#[export] Instance list_ring_laws : LiburingLaws ring.
Proof.
  split; simpl; try done.
  - by intros n r [= <-].
  - intros r H. apply Z.ltb_lt in H. rewrite H. eauto 10.
  - intros r H. apply Z.ltb_ge in H. by rewrite H.
  - intros r es e e' ->. unfold set_last_. rewrite removelast_last. by destruct es.
Qed.
End ListRing.
Import ListRing.

Lemma submit_in_order_witness :
  @queue_init _ ListRing.list_ring 2 = Some (ListRing.mkR 2 [] []) ∧
  zlen [RWrite (new_WriteRequest 3 64 10) true; RWrite (new_WriteRequest 3 128 5) false] ≤ 2 ∧
  ∃ t t' : IOUring ListRing.ring, Init 2 new_IOUring = Done (true, t) ∧
    Prep_all [RWrite (new_WriteRequest 3 64 10) true; RWrite (new_WriteRequest 3 128 5) false] t
      = Done t' ∧ Prep (RRead (new_ReadRequest 4 0 1) false) t' = Fault NullDeref.
Proof.
  split; [reflexivity|]. split; [by vm_compute|].
  destruct (@submit_in_order _ ListRing.list_ring ListRing.list_ring_laws 2
    (ListRing.mkR 2 [] [])
    [RWrite (new_WriteRequest 3 64 10) true; RWrite (new_WriteRequest 3 128 5) false]
    (RRead (new_ReadRequest 4 0 1) false) eq_refl ltac:(by vm_compute))
    as (t & t' & E1 & E2 & E3 & _).
  exists t, t'. split; [exact E1|]. split; [exact E2|]. by apply E3.
Defined.

End IOUring.
