(* ===== verification/Files.v ===== *)
(** * Files: the append buffer, the write-ahead log and the read-only map

    [src/util/file/appendfile.{hpp,cpp}], [src/util/file/wal_log.{hpp,cpp}],
    [src/db/wal_writer.{hpp,cpp}] and [src/util/file/readonlyfile.{hpp,cpp}].

    An open descriptor is used through the operations of [FileOps], the system
    calls; [FileLaws] is what POSIX documents of them: a write stores a prefix of
    the buffer at the file position and reports how much. [RamFile] is a file
    with these laws, to run the definitions on. *)
From S2P Require Import Prelude Request.
Import Status.

(** ** Descriptors *)

Class FileOps (T : Type) : Type := {
  f_write : T → bytes → Z * T;
  f_seek_begin : T → T;
  f_truncate : T → T;
  f_read : T → nat → bytes * T;
  f_size : T → Z
}.

(** Storing [bs] at offset [p], with zeros up to [p] if the file ends before. *)
Definition overwrite (c : bytes) (p : nat) (bs : bytes) : bytes :=
  take p (c ++ replicate (p - length c) 0) ++ bs ++ drop (p + length bs) c.

Class FileLaws (T : Type) {FO : FileOps T} : Type := {
  content : T → bytes;
  pos : T → nat;
  write_law : ∀ f bs n f', f_write f bs = (n, f') →
    (n < 0 ∧ content f' = content f ∧ pos f' = pos f) ∨
    (0 ≤ n ≤ zlen bs ∧ content f' = overwrite (content f) (pos f) (take (Z.to_nat n) bs) ∧
     pos f' = (pos f + Z.to_nat n)%nat);
  seek_law : ∀ f, content (f_seek_begin f) = content f ∧ pos (f_seek_begin f) = O;
  truncate_law : ∀ f, content (f_truncate f) = [] ∧ pos (f_truncate f) = pos f;
  read_law : ∀ f n bs f', f_read f n = (bs, f') →
    bs = take n (drop (pos f) (content f)) ∧ content f' = content f ∧
    pos f' = (pos f + length bs)%nat;
  size_law : ∀ f, f_size f = zlen (content f)
}.

(** A medium that accepts every write in full. *)
Definition never_short {T} {FO : FileOps T} : Prop :=
  ∀ (f : T) (bs : bytes), fst (f_write f bs) = zlen bs.

Lemma overwrite_nil (c : bytes) (p : nat) : (p ≤ length c)%nat → overwrite c p [] = c.
Proof.
  intros H. unfold overwrite. simpl. rewrite Nat.add_0_r.
  rewrite take_app_le by done. apply take_drop.
Qed.

Lemma overwrite_length (c : bytes) (p : nat) (bs : bytes) :
  length (overwrite c p bs) = Nat.max (length c) (p + length bs).
Proof.
  unfold overwrite. rewrite !length_app, length_take, length_drop, length_app,
    length_replicate. lia.
Qed.

Lemma overwrite_at (x d b : bytes) (p : nat) :
  p = length x → overwrite (x ++ d) p b = x ++ b ++ drop (length b) d.
Proof.
  intros ->. unfold overwrite. rewrite <- app_assoc, take_app_length.
  by rewrite drop_app_add.
Qed.

(** Two consecutive writes are one. *)
Lemma overwrite_app (c : bytes) (p : nat) (a b : bytes) :
  (p ≤ length c)%nat → overwrite (overwrite c p a) (p + length a) b = overwrite c p (a ++ b).
Proof.
  intros Hp. assert (Hl : p = length (take p c)) by (rewrite length_take; lia).
  pose proof (take_drop p c) as Ec. revert Hl Ec.
  generalize (take p c) as x. generalize (drop p c) as d. intros d x Hl <-.
  rewrite !(overwrite_at x d) by done. rewrite app_assoc, overwrite_at
    by (rewrite length_app; lia).
  by rewrite drop_drop, length_app, <- !app_assoc.
Qed.

(** The bytes just written are there. *)
Lemma overwrite_slice (c : bytes) (p : nat) (bs : bytes) :
  take (length bs) (drop p (overwrite c p bs)) = bs.
Proof.
  unfold overwrite. rewrite drop_app_length'.
  - by rewrite take_app_length.
  - rewrite length_take, length_app, length_replicate. lia.
Qed.

(** ** AppendFile *)
Module AppendFile.

Definition kAppendFileBufferSize : Z := 65536.

(** [buf_] holds the first [offset_] bytes of the buffer; [fd_] is [None] for
    -1. *)
Record AppendFile {T : Type} : Type := mkAppend {
  buf_ : bytes;
  fullFilename_ : bytes;
  path_ : bytes;
  filename_ : bytes;
  fd_ : option T
}.
Arguments AppendFile T : clear implicits.

Section Ops.
Context {T : Type} {FO : FileOps T}.

Definition init : AppendFile T := mkAppend T [] [] [] [] None.

(** [open] is the result of [::open (path, O_RDWR | O_CREAT, 0655)]. *)
Definition Init (open : bytes → option T) (a : AppendFile T) (path filename : bytes)
  : AppendFile T :=
  let full := path ++ str "/" ++ filename in
  match open full with
  | None => mkAppend T (buf_ a) full (path_ a) (filename_ a) None
  | Some f => mkAppend T (buf_ a) full path filename (Some f)
  end.

Definition with_fd (a : AppendFile T) (f : T) : AppendFile T :=
  mkAppend T (buf_ a) (fullFilename_ a) (path_ a) (filename_ a) (Some f).

Definition with_buf (a : AppendFile T) (b : bytes) : AppendFile T :=
  mkAppend T b (fullFilename_ a) (path_ a) (filename_ a) (fd_ a).

Definition WriteDirect (a : AppendFile T) (data : bytes) : outcome (AppendFile T) :=
  _ ← cassert (bool_decide (is_Some (fd_ a)));
  fd ← of_option AssertFailed (fd_ a);
  let '(write_size, fd') := f_write fd data in
  _ ← cassert (write_size =? zlen data);
  Done (with_fd a fd').

Definition FlushBuffer (a : AppendFile T) : outcome (AppendFile T) :=
  a ← WriteDirect a (buf_ a);
  Done (with_buf a []).

Definition Append (a : AppendFile T) (data : bytes) : outcome (AppendFile T) :=
  let remain := kAppendFileBufferSize - zlen (buf_ a) in
  let n := Z.to_nat remain in
  if decide (zlen data < remain)
  then Done (with_buf a (buf_ a ++ data))
  else
    let a := with_buf a (buf_ a ++ take n data) in
    a ← FlushBuffer a;
    let rest := drop n data in
    if decide (zlen rest < kAppendFileBufferSize / 4)
    then Done (with_buf a (buf_ a ++ rest))
    else WriteDirect a rest.

(** [fstat]'s size as a uint32_t. *)
Definition getFileSize (a : AppendFile T) : outcome Z :=
  fd ← of_option Uninit (fd_ a); Done (u32 (f_size fd)).

(** The loop of [Read], 4096000 bytes at a time, until a read yields nothing. *)
Fixpoint read_loop (fuel : nat) (chunk : nat) (f : T) (data : bytes) : option (bytes * T) :=
  match fuel with
  | O => None
  | S fuel' =>
      let '(bs, f') := f_read f chunk in
      match bs with
      | [] => Some (data, f')
      | _ => read_loop fuel' chunk f' (data ++ bs)
      end
  end.

Definition Read (fuel : nat) (a : AppendFile T) (data : bytes)
  : option (bytes * AppendFile T) :=
  match fd_ a with
  | None => Some (data, a)
  | Some f =>
      match read_loop fuel (Z.to_nat 4096000) (f_seek_begin f) data with
      | Some (data', f') => Some (data', with_fd a f')
      | None => None
      end
  end.

Definition Close (a : AppendFile T) : outcome (AppendFile T) :=
  match fd_ a with
  | None => Done a
  | Some _ =>
      a ← FlushBuffer a;
      Done (mkAppend T (buf_ a) (fullFilename_ a) (path_ a) (filename_ a) None)
  end.

Definition Clear (a : AppendFile T) : AppendFile T :=
  match fd_ a with
  | None => a
  | Some f => with_fd a (f_seek_begin (f_truncate f))
  end.

Definition getPath (a : AppendFile T) : bytes := path_ a.
Definition getFileName (a : AppendFile T) : bytes := filename_ a.

Fixpoint Append_all (a : AppendFile T) (ds : list bytes) : outcome (AppendFile T) :=
  match ds with [] => Done a | d :: ds' => a' ← Append a d; Append_all a' ds' end.

Context {L : FileLaws T}.

(** [a] has been handed [d] since its descriptor stood at the start of a file
    holding [c0]. *)
Definition appended (c0 d : bytes) (a : AppendFile T) : Prop :=
  ∃ f w, fd_ a = Some f ∧ d = w ++ buf_ a ∧ content f = overwrite c0 0 w ∧
    pos f = length w ∧ zlen (buf_ a) < kAppendFileBufferSize.

Lemma WriteDirect_spec (a : AppendFile T) (f : T) (data : bytes) :
  fd_ a = Some f →
  match WriteDirect a data with
  | Done a' => ∃ f', a' = with_fd a f' ∧
      content f' = overwrite (content f) (pos f) data ∧ pos f' = (pos f + length data)%nat
  | Fault e => e = AssertFailed ∧ fst (f_write f data) ≠ zlen data
  end.
Proof.
  intros Hf. unfold WriteDirect. rewrite Hf, bool_decide_true by eauto.
  cbn [cassert guard_fault of_option]. rewrite !bind_Done_l.
  destruct (f_write f data) as [n f'] eqn:E.
  destruct (Z.eqb_spec n (zlen data)) as [->|Hne]; cbn; [|done].
  exists f'. split; [done|].
  destruct (write_law f data _ f' E) as [(Hneg & _)|(_ & Hc & Hp)];
    [unfold zlen in Hneg; lia|].
  unfold zlen in Hc, Hp. rewrite Nat2Z.id in Hc, Hp. by rewrite take_ge in Hc.
Qed.

(** A direct write moves everything written so far into the file. *)
Lemma WriteDirect_appended (c0 d bs : bytes) (a : AppendFile T) (f : T) (w : bytes) :
  never_short → fd_ a = Some f → content f = overwrite c0 0 w → pos f = length w →
  ∃ a' f', WriteDirect a bs = Done a' ∧ fd_ a' = Some f' ∧ buf_ a' = buf_ a ∧
    content f' = overwrite c0 0 (w ++ bs) ∧ pos f' = length (w ++ bs).
Proof.
  intros Hns Hf Hc Hp. pose proof (WriteDirect_spec a f bs Hf) as H.
  destruct (WriteDirect a bs) as [a'|e]; [|destruct H as [_ []]; apply Hns].
  destruct H as (f' & -> & Hc' & Hp'). exists (with_fd a f'), f'.
  split_and!; try done.
  - rewrite Hc', Hc, Hp. rewrite <- (overwrite_app c0 0 w bs) by lia. done.
  - rewrite Hp', Hp, length_app. done.
Qed.

Lemma Append_appended (c0 d bs : bytes) (a : AppendFile T) :
  never_short → appended c0 d a →
  ∃ a', Append a bs = Done a' ∧ appended c0 (d ++ bs) a'.
Proof.
  intros Hns (f & w & Hf & -> & Hc & Hp & Hb). unfold Append, FlushBuffer. cbv zeta.
  generalize (Z.to_nat (kAppendFileBufferSize - zlen (buf_ a))) as n. intros n.
  case_decide as Hfit.
  - eexists. split; [done|]. exists f, w. split_and!; try done.
    + simpl. by rewrite app_assoc.
    + unfold zlen in *. simpl. rewrite length_app. lia.
  - set (a1 := with_buf a (buf_ a ++ take n bs)).
    destruct (WriteDirect_appended c0 [] (buf_ a1) a1 f w Hns Hf Hc Hp)
      as (a2 & f2 & -> & Hf2 & _ & Hc2 & Hp2).
    rewrite !bind_Done_l. unfold a1 in Hc2, Hp2. simpl in Hc2, Hp2.
    case_decide as Hq.
    + eexists. split; [done|]. exists f2, (w ++ buf_ a ++ take n bs).
      split_and!; try done.
      * simpl. by rewrite <- !app_assoc, take_drop.
      * simpl. unfold kAppendFileBufferSize in *. change (65536 / 4) with 16384 in Hq.
        lia.
    + destruct (WriteDirect_appended c0 [] (drop n bs) (with_buf a2 []) f2
        (w ++ buf_ a ++ take n bs) Hns Hf2 Hc2 Hp2)
        as (a3 & f3 & -> & Hf3 & Hb3 & Hc3 & Hp3).
      exists a3. split; [done|]. exists f3, ((w ++ buf_ a ++ take n bs) ++ drop n bs).
      rewrite Hb3. simpl. split_and!; try done.
      by rewrite app_nil_r, <- !app_assoc, take_drop.
Qed.

Lemma Append_all_appended (c0 : bytes) (ds : list bytes) : ∀ d a,
  never_short → appended c0 d a →
  ∃ a', Append_all a ds = Done a' ∧ appended c0 (d ++ concat ds) a'.
Proof.
  induction ds as [|x ds IH]; intros d a Hns Ha; simpl.
  - exists a. by rewrite app_nil_r.
  - destruct (Append_appended c0 d x a Hns Ha) as (a1 & -> & Ha1). rewrite bind_Done_l.
    destruct (IH (d ++ x) a1 Hns Ha1) as (a' & -> & Ha'). exists a'.
    split; [done|]. by rewrite app_assoc.
Qed.

(** Reading back: the loop stops, with everything from the start of the file. *)
Lemma read_loop_spec (chunk : nat) (fuel : nat) : ∀ f data,
  (0 < chunk)%nat → (length (content f) - pos f < fuel)%nat →
  ∃ f', read_loop fuel chunk f data = Some (data ++ drop (pos f) (content f), f') ∧
    content f' = content f.
Proof.
  induction fuel as [|fuel IH]; intros f data Hch Hf; [lia|]. simpl.
  destruct (f_read f chunk) as [bs f'] eqn:E.
  destruct (read_law f chunk bs f' E) as (Hbs & Hc & Hp).
  assert (Hl : length bs = Nat.min chunk (length (content f) - pos f)).
  { by rewrite Hbs, length_take, length_drop. }
  destruct bs as [|b bs'].
  - exists f'. split; [|done]. rewrite drop_ge, app_nil_r; [done|]. simpl in Hl. lia.
  - destruct (IH f' (data ++ b :: bs') Hch) as (f2 & -> & Hc2).
    { rewrite Hc, Hp, Hl. simpl in Hl. lia. }
    exists f2. rewrite Hc2, Hc. split; [|done]. do 2 f_equal. rewrite <- app_assoc.
    f_equal. rewrite Hp, <- drop_drop. rewrite Hbs at 1.
    rewrite <- (take_drop chunk (drop (pos f) (content f))) at 3. f_equal.
    rewrite Hl. destruct (decide (chunk ≤ length (content f) - pos f)%nat).
    + by rewrite Nat.min_l by lia.
    + rewrite Nat.min_r by lia. rewrite !drop_ge; [done|..]; rewrite length_drop; lia.
Qed.

Lemma Init_appended (open : bytes → option T) (path filename : bytes) (f : T) :
  open (path ++ str "/" ++ filename) = Some f → pos f = O →
  appended (content f) [] (Init open init path filename).
Proof.
  intros E Hp. unfold Init. rewrite E. exists f, []. by split_and!.
Qed.

Definition names (a : AppendFile T) : bytes * bytes := (path_ a, filename_ a).

Lemma WriteDirect_names (a a' : AppendFile T) (bs : bytes) :
  WriteDirect a bs = Done a' → names a' = names a.
Proof.
  unfold WriteDirect. intros H. inv_done. destruct (f_write _ bs) as [n g].
  by inv_done.
Qed.

Lemma Append_names (a a' : AppendFile T) (bs : bytes) :
  Append a bs = Done a' → names a' = names a.
Proof.
  unfold Append, FlushBuffer. cbv zeta. intros H. case_decide; inv_done; [done|].
  match goal with H : WriteDirect _ _ = Done ?x |- _ =>
    apply WriteDirect_names in H; change (names x = names a) in H end.
  case_decide; inv_done; [done|].
  match goal with H : WriteDirect _ _ = Done _ |- _ => apply WriteDirect_names in H end.
  etrans; [done|]. done.
Qed.

Lemma Append_all_names (ds : list bytes) : ∀ a a' : AppendFile T,
  Append_all a ds = Done a' → names a' = names a.
Proof.
  induction ds as [|d ds IH]; intros a a' H; simpl in H; inv_done; [done|].
  etrans; [by apply IH|by eapply Append_names].
Qed.


End Ops.
End AppendFile.

(** ** A file in memory with the documented behaviour *)
Module RamFile.

Record file : Type := mkFile { bytes_ : bytes; at_ : nat }.

#[export] Instance ram_ops : FileOps file := {
  f_write f bs := (zlen bs, mkFile (overwrite (bytes_ f) (at_ f) bs) (at_ f + length bs));
  f_seek_begin f := mkFile (bytes_ f) 0;
  f_truncate f := mkFile [] (at_ f);
  f_read f n := let bs := take n (drop (at_ f) (bytes_ f)) in
                (bs, mkFile (bytes_ f) (at_ f + length bs));
  f_size f := zlen (bytes_ f)
}.

#[export] Instance ram_laws : FileLaws file.
Proof.
  refine (Build_FileLaws _ _ bytes_ at_ _ _ _ _ _); try done.
  - intros f bs n f' [= <- <-]. right. unfold zlen. rewrite Nat2Z.id, take_ge by lia.
    split_and!; [lia|lia|done|done].
  - by intros f n bs f' [= <- <-].
Defined.

Lemma ram_never_short : never_short (T := file).
Proof. done. Qed.

End RamFile.
Export (hints) RamFile.


(** ** WalLog *)
Module WalLog.
Section Ops.
Context {T : Type} {FO : FileOps T}.

(** [fd_] is indeterminate before [Init]; [None] is -1 or a failed open. *)
Record WalLog : Type := mkLog {
  fd_ : option T;
  fullFilename_ : bytes;
  fileName_ : bytes;
  path_ : bytes
}.

(** The name is the path and the file name with nothing in between. *)
Definition Init (open : bytes → option T) (l : WalLog) (path filename : bytes)
  : bool * WalLog :=
  let full := path ++ filename in
  match open full with
  | None => (false, mkLog None full (fileName_ l) (path_ l))
  | Some f => (true, mkLog (Some f) full filename path)
  end.

Definition with_fd (l : WalLog) (f : T) : WalLog :=
  mkLog (Some f) (fullFilename_ l) (fileName_ l) (path_ l).

Definition AddRecord (l : WalLog) (data : bytes) : outcome WalLog :=
  _ ← cassert (bool_decide (is_Some (fd_ l)));
  fd ← of_option AssertFailed (fd_ l);
  let '(n, fd') := f_write fd data in
  _ ← cassert (n =? zlen data);
  Done (with_fd l fd').

Definition Close (l : WalLog) : WalLog :=
  mkLog None (fullFilename_ l) (fileName_ l) (path_ l).

Definition getFileSize (l : WalLog) : outcome Z :=
  fd ← of_option Uninit (fd_ l); Done (u32 (f_size fd)).

Definition SeekBegin (l : WalLog) : WalLog :=
  match fd_ l with Some f => with_fd l (f_seek_begin f) | None => l end.

Definition Read (l : WalLog) (size : nat) : outcome (bytes * WalLog) :=
  let l := SeekBegin l in
  fd ← of_option Uninit (fd_ l);
  let '(bs, fd') := f_read fd size in
  Done (bs, with_fd l fd').

End Ops.
Arguments WalLog T : clear implicits.
End WalLog.

(** ** WalWriter *)
Module WalWriter.

Definition kDefaultWalLogSize : Z := 64 * 1024 * 1024.

Section Ops.
Context {T : Type} {FO : FileOps T}.

Record WalWriter : Type := mkWal {
  current_log_size_ : Z;
  wal_log_size_ : Z;
  wal_file_ : WalLog.WalLog T
}.

Definition init : WalWriter :=
  mkWal 0 kDefaultWalLogSize (WalLog.mkLog None [] [] []).

(** Returns what the function returns, the writer and the status. *)
Definition Init (open : bytes → option T) (w : WalWriter) (path filename : bytes)
    (status : Status) : outcome (bool * WalWriter * Status) :=
  let '(ue, l) := WalLog.Init open (wal_file_ w) path filename in
  if (ue : bool) then
    n ← WalLog.getFileSize l;
    Done (false, mkWal (u32 (current_log_size_ w + n)) (wal_log_size_ w) l,
          setCode status kOk)
  else Done (false, mkWal (current_log_size_ w) (wal_log_size_ w) l,
             setCode status kIoError).

Definition AddRecord (w : WalWriter) (record : bytes) : outcome (bool * WalWriter) :=
  let current := u32 (current_log_size_ w + zlen record) in
  let '(current, l) :=
    if wal_log_size_ w <=? current then (0, WalLog.SeekBegin (wal_file_ w))
    else (current, wal_file_ w) in
  l ← WalLog.AddRecord l record;
  Done (true, mkWal current (wal_log_size_ w) l).

Definition SetWalLogDefultSize (w : WalWriter) (log_size : Z) : WalWriter :=
  mkWal (current_log_size_ w) log_size (wal_file_ w).

Definition ReadLog (w : WalWriter) (size : nat) : outcome (bytes * WalWriter) :=
  '(bs, l) ← WalLog.Read (wal_file_ w) size;
  Done (bs, mkWal (current_log_size_ w) (wal_log_size_ w) l).

Fixpoint AddRecords (w : WalWriter) (rs : list bytes) : outcome WalWriter :=
  match rs with
  | [] => Done w
  | r :: rs' => '(_, w') ← AddRecord w r; AddRecords w' rs'
  end.

Context {L : FileLaws T}.

(** The write position is at most the counter plus the size of one record,
    the one written after the last wrap; the counter is below the limit. *)
Definition ring (M : Z) (f : T) (w : WalWriter) : Prop :=
  WalLog.fd_ (wal_file_ w) = Some f ∧ 0 ≤ current_log_size_ w < wal_log_size_ w ∧
  Z.of_nat (pos f) ≤ current_log_size_ w + M ∧ (pos f ≤ length (content f))%nat.

Lemma AddRecord_ring (M : Z) (f : T) (w : WalWriter) (r : bytes) :
  never_short → ring M f w → zlen r ≤ M → wal_log_size_ w + M ≤ 2 ^ 32 →
  ∃ w' f' p, AddRecord w r = Done (true, w') ∧ ring M f' w' ∧
    wal_log_size_ w' = wal_log_size_ w ∧
    current_log_size_ w' = (if wal_log_size_ w <=? current_log_size_ w + zlen r then 0
                            else current_log_size_ w + zlen r) ∧
    p = (if wal_log_size_ w <=? current_log_size_ w + zlen r then O else pos f) ∧
    content f' = overwrite (content f) p r ∧ pos f' = (p + length r)%nat ∧
    zlen (content f') ≤ Z.max (zlen (content f)) (wal_log_size_ w + M).
Proof.
  intros Hns (Hf & Hc & Hp & Hlen) Hr Hlim. unfold AddRecord.
  rewrite u32_small by (unfold zlen in *; lia).
  set (p := if wal_log_size_ w <=? current_log_size_ w + zlen r then O else pos f).
  assert (G : ∃ g cur, (if wal_log_size_ w <=? current_log_size_ w + zlen r
      then (0, WalLog.SeekBegin (wal_file_ w))
      else (current_log_size_ w + zlen r, wal_file_ w)) =
      (cur, WalLog.mkLog (Some g) (WalLog.fullFilename_ (wal_file_ w))
         (WalLog.fileName_ (wal_file_ w)) (WalLog.path_ (wal_file_ w))) ∧
      content g = content f ∧ pos g = p ∧ 0 ≤ cur < wal_log_size_ w ∧
      cur = (if wal_log_size_ w <=? current_log_size_ w + zlen r then 0
             else current_log_size_ w + zlen r) ∧
      Z.of_nat p + zlen r ≤ cur + M).
  { unfold p. pose proof (seek_law f) as [S1 S2].
    destruct (Z.leb_spec (wal_log_size_ w) (current_log_size_ w + zlen r)).
    - exists (f_seek_begin f), 0. split_and!; try done; try lia.
      unfold WalLog.SeekBegin. by rewrite Hf.
    - exists f, (current_log_size_ w + zlen r). split_and!; try done; try lia.
      + destruct w as [? ? [fd ? ? ?]]. simpl in *. by rewrite Hf.
      + unfold zlen. lia. }
  destruct G as (g & cur & -> & Gc & Gp & Hcur & Ecur & Hpos).
  unfold WalLog.AddRecord. cbn [WalLog.fd_]. rewrite bool_decide_true by eauto.
  cbn [cassert guard_fault of_option]. rewrite !bind_Done_l.
  destruct (f_write g r) as [n f'] eqn:E.
  pose proof (Hns g r) as Hn. rewrite E in Hn. simpl in Hn. subst n.
  rewrite Z.eqb_refl. cbn [cassert guard_fault]. rewrite !bind_Done_l.
  destruct (write_law g r _ f' E) as [(Hneg & _)|(_ & Hc' & Hp')];
    [unfold zlen in Hneg; lia|].
  unfold zlen in Hc', Hp'. rewrite Nat2Z.id in Hc', Hp'. rewrite take_ge in Hc' by done.
  rewrite Gc, Gp in Hc'. rewrite Gp in Hp'.
  pose proof (overwrite_length (content f) p r) as Hol. rewrite <- Hc' in Hol.
  eexists _, f', p. split; [done|]. unfold zlen in *. unfold ring.
  split_and!; simpl; try done; lia.
Qed.

(** The ring as a reader of the file sees it: counter, position and content. A
    record goes to the position unless the counter would reach the limit with
    it; then it goes to the start, and counting starts behind it. *)
Definition place (S : Z) (st : Z * nat * bytes) (r : bytes) : Z * nat * bytes :=
  let '(n, p, c) := st in
  if S <=? n + zlen r then (0, length r, overwrite c 0 r)
  else (n + zlen r, (p + length r)%nat, overwrite c p r).

Lemma AddRecords_ring (M : Z) (rs : list bytes) : ∀ (f : T) (w : WalWriter),
  never_short → ring M f w → Forall (λ r, zlen r ≤ M) rs → wal_log_size_ w + M ≤ 2 ^ 32 →
  ∃ w' f', AddRecords w rs = Done w' ∧ ring M f' w' ∧
    wal_log_size_ w' = wal_log_size_ w ∧
    (current_log_size_ w', pos f', content f') =
      fold_left (place (wal_log_size_ w)) rs (current_log_size_ w, pos f, content f) ∧
    zlen (content f') ≤ Z.max (zlen (content f)) (wal_log_size_ w + M).
Proof.
  induction rs as [|r rs IH]; intros f w Hns Hr Hrs Hlim; simpl.
  - exists w, f. split_and!; try done. lia.
  - inversion Hrs as [|? ? H1 H2]; subst.
    destruct (AddRecord_ring M f w r Hns Hr H1 Hlim)
      as (w1 & f1 & p & -> & Hr1 & El & En & Ep & Ec & Eq & Hb).
    rewrite bind_Done_l.
    destruct (IH f1 w1 Hns Hr1 H2 ltac:(lia)) as (w' & f' & -> & Hr' & El' & Ef & Hb').
    exists w', f'. rewrite El in Ef, Hb'. split_and!; try done; [congruence| |lia].
    rewrite Ef, En, Ec, Eq, Ep. f_equal. by destruct (_ <=? _).
Qed.

(** C11: the write-ahead log is a bounded ring. Open a writer with limit [S] on
    a file of fewer than [S] bytes and add any records of at most [M] bytes
    ([S + M <= 2^32], a medium that accepts writes in full): no assertion
    fails, and counter, position and content are what [place] makes of the
    records from the opened file, its size the first counter and its start the
    first position. So each further record [r] is stored whole, at the start of
    the file exactly when the counter would reach the limit with it and at the
    current position otherwise; nothing else changes, and the file never grows
    beyond [S + M] bytes. [Init] itself reports failure even when it succeeds:
    its result is always [false]. *)
Theorem WalWriter_ring (open : bytes → option T) (path filename : bytes) (f : T)
  (status : Status) (S M : Z) (rs : list bytes) (r : bytes)
  (Hopen : open (path ++ filename) = Some f) (Hpos : pos f = O) (HM : 0 ≤ M)
  (Hsize : zlen (content f) < S) (HS : S + M ≤ 2 ^ 32) (Hns : never_short)
  (Hrs : Forall (λ r, zlen r ≤ M) (r :: rs)) :
  ∃ w w' f' w'' f'',
    Init open (SetWalLogDefultSize init S) path filename status =
      Done (false, w, setCode status kOk) ∧
    AddRecords w rs = Done w' ∧ WalLog.fd_ (wal_file_ w') = Some f' ∧
    (current_log_size_ w', pos f', content f') =
      fold_left (place S) rs (zlen (content f), O, content f) ∧
    zlen (content f') ≤ S + M ∧
    AddRecord w' r = Done (true, w'') ∧ WalLog.fd_ (wal_file_ w'') = Some f'' ∧
    (let wraps := S <=? current_log_size_ w' + zlen r in
     let p := if wraps then O else pos f' in
     current_log_size_ w'' = (if wraps then 0 else current_log_size_ w' + zlen r) ∧
     pos f'' = (p + length r)%nat ∧ content f'' = overwrite (content f') p r ∧
     take (length r) (drop p (content f'')) = r) ∧
    zlen (content f'') ≤ S + M.
Proof.
  inversion Hrs as [|? ? H1 H2]; subst.
  assert (0 ≤ zlen (content f)) by (unfold zlen; lia).
  set (w := mkWal (zlen (content f)) S (WalLog.mkLog (Some f) (path ++ filename) filename path)).
  assert (Ew : Init open (SetWalLogDefultSize init S) path filename status =
    Done (false, w, setCode status kOk)).
  { unfold Init, WalLog.Init. rewrite Hopen. unfold WalLog.getFileSize.
    cbn [WalLog.fd_ of_option mbind outcome_bind]. rewrite size_law.
    rewrite (u32_small (zlen (content f))) by lia. cbn [current_log_size_].
    rewrite Z.add_0_l, u32_small by lia. done. }
  assert (Hring : ring M f w).
  { split_and!; try done; simpl; lia. }
  destruct (AddRecords_ring M rs f w Hns Hring H2 HS) as (w' & f' & E' & Hr' & El & Ef & Hb).
  destruct (AddRecord_ring M f' w' r Hns Hr' H1 ltac:(rewrite El; simpl; lia))
    as (w'' & f'' & p & E'' & Hr'' & _ & En & Ep & Hc & Eq & Hb').
  exists w, w', f', w'', f''. rewrite Hpos in Ef. rewrite El in En, Ep, Hb'. simpl in *. subst p.
  split_and!; try done; try apply Hr'; try apply Hr''; try lia.
  rewrite Hc. apply overwrite_slice.
Qed.

End Ops.
Arguments WalWriter T : clear implicits.
End WalWriter.

(** The second record reaches the limit of 10 and goes to the start; the third
    follows it. *)
Lemma WalWriter_ring_witness :
  let f := RamFile.mkFile [] 0 in
  ∃ w' f' w'' f'',
    WalWriter.AddRecords
      (WalWriter.mkWal 0 10 (WalLog.mkLog (Some f) (str "dl") (str "l") (str "d")))
      [str "12345"; str "67890"] = Done w' ∧
    WalLog.fd_ (WalWriter.wal_file_ w') = Some f' ∧
    (WalWriter.current_log_size_ w', pos f', content f') = (0, 5%nat, str "67890") ∧
    WalWriter.AddRecord w' (str "abcdef") = Done (true, w'') ∧
    WalLog.fd_ (WalWriter.wal_file_ w'') = Some f'' ∧
    content f'' = overwrite (content f') (pos f') (str "abcdef").
Proof.
  intros f.
  destruct (@WalWriter.WalWriter_ring _ RamFile.ram_ops RamFile.ram_laws (λ _, Some f) (str "d") (str "l") f Status.init 10 6
    [str "12345"; str "67890"] (str "abcdef") eq_refl eq_refl ltac:(lia) ltac:(by vm_compute)
    ltac:(lia) RamFile.ram_never_short ltac:(repeat constructor; by vm_compute))
    as (w & w' & f' & w'' & f'' & E0 & E1 & E2 & E3 & _ & E4 & E5 & (_ & _ & E6 & _) & _).
  vm_compute in E0. injection E0 as <-.
  assert (E3' : (WalWriter.current_log_size_ w', pos f', content f') = (0, 5%nat, str "67890"))
    by (rewrite E3; by vm_compute).
  exists w', f', w'', f''.
  split; [exact E1|]. split; [exact E2|]. split; [exact E3'|]. split; [exact E4|].
  split; [exact E5|]. injection E3' as En _ _. rewrite En in E6. exact E6.
Defined.

(** ** ReadonlyFile *)
Module ReadonlyFile.

(** The files below the process's working directory, by the path a call names
    them with. *)
Definition fs : Type := gmap bytes bytes.

Record ReadonlyFile : Type := mkRead {
  mmap_base_ptr_ : option bytes;
  length_ : option Z;
  fullfilename_ : bytes;
  path_ : bytes;
  filename_ : bytes
}.

Definition init : ReadonlyFile := mkRead None None [] [] [].

(** [::open] is given the file name alone, [::stat] the full name; the mapping
    is of the opened file with the other one's length. *)
Definition Init (d : fs) (r : ReadonlyFile) (path filename : bytes)
  : bool * ReadonlyFile :=
  let full := path ++ str "/" ++ filename in
  let r1 := mkRead (mmap_base_ptr_ r) (length_ r) full (path_ r) (filename_ r) in
  match d !! filename with
  | None => (false, r1)
  | Some opened =>
      match d !! full with
      | None => (false, r1)
      | Some c =>
          let base := if 0 <? zlen c then Some opened else mmap_base_ptr_ r in
          (true, mkRead base (Some (zlen c)) full path
                   (take (length filename) (drop (length path) full)))
      end
  end.

(** [None]: the size test failed and [*result] is not assigned. *)
Definition Read (r : ReadonlyFile) (offset n : Z) : outcome (option bytes) :=
  m ← of_option AssertFailed (mmap_base_ptr_ r);
  len ← of_option Uninit (length_ r);
  if len <? u64 (offset + n) then Done None
  else v ← view m (Z.to_nat offset) (Z.to_nat n); Done (Some v).

Definition getLength (r : ReadonlyFile) : outcome Z := of_option Uninit (length_ r).
Definition getPath (r : ReadonlyFile) : bytes := path_ r.
Definition getFileName (r : ReadonlyFile) : bytes := filename_ r.

(** Reads of a mapped file stay inside it unless the sum wraps. For a file
    [c] mapped with its own length and 64-bit arguments, [Read] returns the
    slice when [offset + n] is within the file and refuses when it is between
    the length and 2^64; when the sum reaches 2^64 and wraps to at most the
    length, the test passes and the view leaves the mapping. *)
Theorem Read_bounds (c path filename : bytes) (offset n : Z)
  (Hc : 0 < zlen c < 2 ^ 64) (Ho : is_u 64 offset) (Hn : is_u 64 n) :
  let r := mkRead (Some c) (Some (zlen c)) (path ++ str "/" ++ filename) path filename in
  (offset + n ≤ zlen c →
     Read r offset n = Done (Some (take (Z.to_nat n) (drop (Z.to_nat offset) c)))) ∧
  (zlen c < offset + n < 2 ^ 64 → Read r offset n = Done None) ∧
  (2 ^ 64 ≤ offset + n → offset + n - 2 ^ 64 ≤ zlen c → Read r offset n = Fault OutOfBounds).
Proof.
  intros r. unfold Read, is_u in *. cbn [mmap_base_ptr_ length_ r of_option].
  rewrite !bind_Done_l. unfold view, zlen in *. split_and!.
  - intros H. rewrite u64_small by lia. rewrite (proj2 (Z.ltb_ge _ _)) by lia.
    by rewrite decide_True by lia.
  - intros H. rewrite u64_small by lia. by rewrite (proj2 (Z.ltb_lt _ _)) by lia.
  - intros H1 H2. assert (E : u64 (offset + n) = offset + n - 2 ^ 64).
    { unfold u64, wrap. rewrite <- (Z.mod_add _ (-1)) by lia.
      rewrite Z.mod_small by lia. lia. }
    rewrite E, (proj2 (Z.ltb_ge _ _)) by lia. by rewrite decide_False by lia.
Qed.

Lemma Read_bounds_witness :
  (0 < zlen (str "hello") < 2 ^ 64) ∧ is_u 64 (2 ^ 64 - 1) ∧ is_u 64 3 ∧
  Read (mkRead (Some (str "hello")) (Some 5) (str "p/f") (str "p") (str "f")) (2 ^ 64 - 1) 3 =
  Fault OutOfBounds.
Proof.
  split; [by vm_compute|]. split; [by vm_compute|]. split; [by vm_compute|].
  exact (proj2 (proj2 (Read_bounds (str "hello") (str "p") (str "f") (2 ^ 64 - 1) 3
    ltac:(by vm_compute) ltac:(by vm_compute) ltac:(by vm_compute)))
    ltac:(lia) ltac:(by vm_compute)).
Defined.

End ReadonlyFile.
