(* ===== verification/MemtableView.v ===== *)
(** * Memtable views and their manager

    [src/db/memtable_view.{hpp,cpp}] and
    [src/db/memtable_view_manager.{hpp,cpp}]: the read-only index over a mapped
    SSTable, and the per-memtable stacks of views behind a mutex.

    A mapping is the object [m]: the file's bytes and whatever the mapping holds
    behind them. A string_view into it is the memory from its pointer on and its
    size. Log messages are not modelled. *)
From S2P Require Import Prelude Request Crc32 KeyFormat Entry XXHash64 CityHash FarmHash Bloom Memtable.
Import Fixed Varint Status Request Entry.

Module MemtableView.

Record CompactInfo : Type := mkInfo {
  firstLevel : Z;
  secondLevel : Z;
  IsInstead : bool
}.

(** A std::string_view: what its pointer points to, and its size. *)
Record sview : Type := mkSview { sv_data : bytes; sv_size : nat }.

Definition sview_at (m : bytes) (p n : nat) : sview := mkSview (drop p m) n.

(** The comparator of [MemBTreeView], on the pointers. *)
Definition view_lt (a b : sview) : outcome bool := Comparator (sv_data a) (sv_data b).

Record MemTable_view : Type := mkView {
  info_ : option CompactInfo;
  version_ : Z;
  memViewPtr_ : bytes;
  memViewSize_ : nat;
  cur_level_ : option Z;
  isReadable_ : option bool;
  number_n_ : Z;
  memMapView_ : list sview;
  bloomFilter_ : Bloom.BloomFilter
}.

(** One record of the body at [end_ptr]: where the next one starts, and the
    element to insert. *)
Definition load_record (m : bytes) (end_ptr : nat) : outcome (nat * sview) :=
  let begin_ptr := end_ptr in
  r ← getVarint32Ptr m end_ptr (end_ptr + 5);
  _ ← cassert (bool_decide (is_Some r));
  '(end_2_ptr, key_size) ← of_option NullDeref r;
  let after_key := (end_2_ptr + Z.to_nat key_size)%nat in
  r ← getVarint32Ptr m after_key (after_key + 5);
  match r with
  | None => Done (end_2_ptr, sview_at m end_2_ptr (Z.to_nat key_size))
  | Some (vp, value_size) =>
      let next := (vp + Z.to_nat value_size)%nat in
      Done (next, sview_at m begin_ptr (next - begin_ptr))
  end.

(** [while (end_ptr < mmapViewEndPtr)]. *)
Fixpoint load_loop (fuel : nat) (m : bytes) (end_ptr stop : nat) (s : list sview)
  : outcome (list sview) :=
  if decide (end_ptr < stop)%nat then
    match fuel with
    | O => Fault NoReturn
    | S fuel' =>
        '(next, v) ← load_record m end_ptr;
        s' ← OrdSet.insert view_lt v s;
        load_loop fuel' m next stop s'
    end
  else Done s.

(** [getVarint32Ptr (p, p + n, ...)] at a pointer that may be null: decoding at
    the null pointer reads address 0, as any positive [n] makes [p < limit]. *)
Definition next32 (m : bytes) (p : option nat) (n : nat) : outcome (option nat * Z) :=
  match p with
  | None => Fault NullDeref
  | Some q => r ← getVarint32Ptr m q (q + n);
              Done match r with Some (q', v) => (Some q', v) | None => (None, 0) end
  end.

Definition next64 (m : bytes) (p : option nat) (limit : nat → nat)
  : outcome (option nat * Z) :=
  match p with
  | None => Fault NullDeref
  | Some q => r ← getVarint64Ptr m q (limit q);
              Done match r with Some (q', v) => (Some q', v) | None => (None, 0) end
  end.

(** The fields of a flushed memtable's header, up to the filter's data: the
    version, the number of keys, the filter's seed, size and place. *)
Definition Init_header (m : bytes) (level : Z) : outcome (Z * Z * Z * Z * nat) :=
  '(p, version) ← next32 m (Some O) 5;
  '(p, create_time) ← next64 m p (λ q, q + 9)%nat;
  '(p, cur_lev) ← next32 m p 5;
  '(p, cur_number) ← next32 m p 5;
  '(p, all_key_size) ← next32 m p 5;
  _ ← cassert (cur_lev =? level);
  _ ← cassert (cur_number =? cur_number);
  '(p, seed) ← next64 m p (λ _, 5%nat);
  '(p, bloomfilter_size) ← next32 m p 4;
  q ← of_option NullDeref p;
  Done (version, all_key_size, seed, bloomfilter_size, q).

Section Views.
Context (fuel : nat).

(** [MemTable_view::Init] of a view built for [number] and [level]. *)
Definition Init (m : bytes) (size : nat) (number level : Z) : outcome MemTable_view :=
  '(version, all_key_size, seed, bloomfilter_size, q) ← Init_header m level;
  let bloom := Bloom.view_of (take (Z.to_nat bloomfilter_size) (drop q m))
                 (u32 (bloomfilter_size * 8)) seed in
  s ← load_loop fuel m (q + Z.to_nat bloomfilter_size) size [];
  _ ← cassert (all_key_size =? zlen s);
  Done (mkView None version m size (Some level) None number s bloom).

(** The merge constructor. [seed] stands for [bloom_filter_seed], which is
    never assigned. *)
Definition merge_view (seed : Z) (m : bytes) (size : nat) (number level_1 level_2 : Z)
  : outcome MemTable_view :=
  '(p, version) ← next32 m (Some O) 5;
  '(p, createTime) ← next64 m p (λ q, q + 9)%nat;
  '(p, cur_lev_1) ← next32 m p 5;
  '(p, cur_lev_2) ← next32 m p 5;
  _ ← cassert (cur_lev_2 =? level_1);
  '(p, memtable_number) ← next32 m p 5;
  _ ← cassert (memtable_number =? number);
  '(p, all_key_size) ← next32 m p 5;
  '(p, bloom_filter_size) ← next32 m p 5;
  q ← of_option NullDeref p;
  let bloom := Bloom.view_of (take (Z.to_nat bloom_filter_size) (drop q m))
                 (u32 (bloom_filter_size * 8)) seed in
  s ← load_loop fuel m (q + Z.to_nat bloom_filter_size) size [];
  _ ← cassert (all_key_size =? zlen s);
  Done (mkView (Some (mkInfo level_1 level_2 false)) version m size None None number s bloom).

End Views.

Definition setReadOnly (v : MemTable_view) : MemTable_view :=
  mkView (info_ v) (version_ v) (memViewPtr_ v) (memViewSize_ v) (cur_level_ v)
    (Some true) (number_n_ v) (memMapView_ v) (bloomFilter_ v).
Definition setNumber (v : MemTable_view) (n : Z) : MemTable_view :=
  mkView (info_ v) (version_ v) (memViewPtr_ v) (memViewSize_ v) (cur_level_ v)
    (isReadable_ v) n (memMapView_ v) (bloomFilter_ v).
Definition getNumber (v : MemTable_view) : Z := number_n_ v.
Definition setLevel (v : MemTable_view) (n : Z) : MemTable_view :=
  mkView (info_ v) (version_ v) (memViewPtr_ v) (memViewSize_ v) (Some n)
    (isReadable_ v) (number_n_ v) (memMapView_ v) (bloomFilter_ v).
Definition getLevel (v : MemTable_view) : outcome Z := of_option Uninit (cur_level_ v).
Definition getBloomFilterSize (v : MemTable_view) : Z := Bloom.getBitSetSize (bloomFilter_ v).

(** ** Get *)
Section Get.
Context {KF : KeyFilter Bloom.BloomFilter}.

(** The value of the element found; a null result of the last decoding leaves
    [value_size] indeterminate. *)
Definition read_view (v : sview) : outcome bytes :=
  r ← getVarint32Ptr (sv_data v) 0 5;
  _ ← cassert (bool_decide (is_Some r));
  '(p, key_size) ← of_option NullDeref r;
  let q := (p + Z.to_nat key_size)%nat in
  r ← getVarint32Ptr (sv_data v) q (q + 5);
  '(vp, value_size) ← of_option Uninit r;
  view (sv_data v) vp (Z.to_nat value_size).

Definition Get (t : MemTable_view) (g : GetContext) : outcome GetContext :=
  m ← kf_match (bloomFilter_ t) (get_key g);
  if (m : bool) then
    s ← Memtable.lookup_entry (get_key g);
    iter ← OrdSet.find view_lt (mkSview (c_data s) (length s)) (memMapView_ t);
    match iter with
    | None => Done (get_setCode g kNotFound)
    | Some e =>
        if decide (sv_size e = length s) then Done (get_setCode g kDelete)
        else
          v ← read_view e;
          Done (get_setCode (get_setValue g v) kOk)
    end
  else Done (get_setCode g kNotFound).

End Get.

(** ** The decoded header *)

Lemma next32_ge (m : bytes) (p : option nat) (n : nat) (p' : option nat) (v : Z) (b : nat) :
  next32 m p n = Done (p', v) → (∀ q, p = Some q → (b ≤ q)%nat) →
  ∀ q', p' = Some q' → (S b ≤ q')%nat.
Proof.
  intros H Hb q' ->. destruct p as [q|]; [|done]. specialize (Hb q eq_refl).
  unfold next32 in H. inv_done. destruct x as [[q1 w]|]; simplify_eq.
  match goal with H : getVarint32Ptr _ _ _ = _ |- _ =>
    apply getVarint32Ptr_advances in H end. lia.
Qed.

Lemma next64_ge (m : bytes) (p : option nat) (l : nat → nat) (p' : option nat) (v : Z)
    (b : nat) :
  next64 m p l = Done (p', v) → (∀ q, p = Some q → (b ≤ q)%nat) →
  ∀ q', p' = Some q' → (S b ≤ q')%nat.
Proof.
  intros H Hb q' ->. destruct p as [q|]; [|done]. specialize (Hb q eq_refl).
  unfold next64 in H. inv_done. destruct x as [[q1 w]|]; simplify_eq.
  match goal with H : getVarint64Ptr _ _ _ = _ |- _ =>
    apply getVarint64Ptr_advances in H end. lia.
Qed.

(** A limit the pointer has already passed: the null pointer. *)
Lemma next64_passed (m : bytes) (p p' : option nat) (v : Z) (b : nat) :
  next64 m p (λ _, b) = Done (p', v) → (∀ q, p = Some q → (b ≤ q)%nat) → p' = None.
Proof.
  intros H Hb. destruct p' as [q'|]; [|done].
  destruct p as [q|]; [|done]. specialize (Hb q eq_refl).
  unfold next64 in H. inv_done. destruct x as [[q1 w]|]; simplify_eq.
  match goal with H : getVarint64Ptr _ _ _ = _ |- _ =>
    apply getVarint64Ptr_advances in H end. lia.
Qed.

Lemma stuck_bind {A B} (m : outcome A) (f : A → outcome B) (b : B) :
  (∀ a, m = Done a → f a = Done b → False) → (m ≫= f) = Done b → False.
Proof. intros H E. apply bind_done in E as (a & E1 & E2). by eapply H. Qed.

Lemma Init_header_returns (m : bytes) (level : Z) : returns (Init_header m level).
Proof. unfold Init_header, next32, next64. returns_steps. Qed.

Lemma Init_faults (m : bytes) (level : Z) :
  ∃ e, e ≠ NoReturn ∧ Init_header m level = Fault e ∧
       ∀ (fuel size : nat) (number : Z), Init fuel m size number level = Fault e.
Proof.
  pose proof (Init_header_returns m level) as Hret.
  destruct (Init_header m level) as [t|e] eqn:E.
  2: { exists e. split; [intros ->; by apply Hret|]. split; [done|].
       intros. unfold Init. by rewrite E. }
  clear Hret.
  exfalso. revert E. unfold Init_header. apply stuck_bind. intros [p1 v1] E1.
  apply stuck_bind. intros [p2 v2] E2. apply stuck_bind. intros [p3 v3] E3.
  apply stuck_bind. intros [p4 v4] E4. apply stuck_bind. intros [p5 v5] E5.
  pose proof (next32_ge _ _ _ _ _ 0 E1 ltac:(intros q [= <-]; lia)) as H1.
  pose proof (next64_ge _ _ _ _ _ _ E2 H1) as H2.
  pose proof (next32_ge _ _ _ _ _ _ E3 H2) as H3.
  pose proof (next32_ge _ _ _ _ _ _ E4 H3) as H4.
  pose proof (next32_ge _ _ _ _ _ _ E5 H4) as H5.
  do 2 (apply stuck_bind; intros ? _).
  apply stuck_bind. intros [p6 v6] E6. apply (next64_passed _ _ _ _ _) in E6; [|exact H5].
  subst p6. apply stuck_bind. intros [p7 v7] E7. discriminate E7.
Qed.

(** No view of a flushed memtable is ever built. Whatever the mapping
    holds, [MemTable_view::Init] faults in its header, before its loop: the
    bloom filter's seed is decoded with the limit [mmap_view.data () + 5], which
    the five fields before it have reached, so the decoder returns the null
    pointer and the next field is read through it (if an earlier field or
    assertion has not failed already). *)
Theorem Init_never_finishes (m : bytes) (level : Z) :
  ∃ e, Init_header m level = Fault e ∧
       ∀ (fuel size : nat) (number : Z), Init fuel m size number level = Fault e.
Proof. destruct (Init_faults m level) as (e & _ & H). by exists e. Qed.

(** ** MemTableViewManager *)

(** [mtx_] is held or not; [isCompaction_] starts as false. *)
Record MemTableViewVec : Type := mkVec {
  memtable_vec_ : list MemTable_view;
  held : bool;
  isCompaction_ : bool
}.

Definition new_MemTableViewVec : MemTableViewVec := mkVec [] false false.

(** [mtx_.lock ()], which blocks for ever when this thread's earlier call left
    the mutex locked. *)
Definition lock (v : MemTableViewVec) : outcome MemTableViewVec :=
  if held v then Fault Deadlock else Done (mkVec (memtable_vec_ v) true (isCompaction_ v)).
Definition unlock (v : MemTableViewVec) : MemTableViewVec :=
  mkVec (memtable_vec_ v) false (isCompaction_ v).

(** [compare_exchange_strong (false, true)]. *)
Definition getCompactLock (v : MemTableViewVec) : bool * MemTableViewVec :=
  if isCompaction_ v then (false, v) else (true, mkVec (memtable_vec_ v) (held v) true).

Definition finishCompact (v : MemTableViewVec) : MemTableViewVec :=
  mkVec (memtable_vec_ v) (held v) true.

Record MemTableViewManager : Type := mkManager {
  memtable_n_ : nat;
  mem_all_vec_ : list MemTableViewVec
}.

Definition Manager_Init (n : nat) : MemTableViewManager :=
  mkManager n (replicate n new_MemTableViewVec).

Definition getMemViewVecSize (t : MemTableViewManager) (number : nat) : outcome nat :=
  v ← of_option OutOfBounds (mem_all_vec_ t !! number);
  Done (length (memtable_vec_ v)).

Definition with_vec (t : MemTableViewManager) (number : nat) (v : MemTableViewVec)
  : MemTableViewManager := mkManager (memtable_n_ t) (<[number := v]> (mem_all_vec_ t)).

(** [w] is the view the function constructs. *)
Definition PushTableView_with (w : MemTable_view) (t : MemTableViewManager) (number : nat)
  : outcome MemTableViewManager :=
  v ← of_option OutOfBounds (mem_all_vec_ t !! number);
  v ← lock v;
  Done (with_vec t number (unlock (mkVec (memtable_vec_ v ++ [w]) (held v) (isCompaction_ v)))).

Definition PushTableView (fuel : nat) (t : MemTableViewManager) (number : nat) (m : bytes)
    (size : nat) : outcome MemTableViewManager :=
  _ ← cassert (bool_decide (number < length (mem_all_vec_ t))%nat);
  v ← of_option OutOfBounds (mem_all_vec_ t !! number);
  w ← Init fuel m size (Z.of_nat number) (zlen (memtable_vec_ v));
  PushTableView_with w t number.

(** [erase (begin () + i)]: the position must be that of an element. *)
Definition erase {A} (l : list A) (i : nat) : outcome (list A) :=
  if decide (i < length l)%nat then Done (take i l ++ drop (S i) l) else Fault OutOfBounds.

Lemma erase_lt {A} (l : list A) (i : nat) :
  (i < length l)%nat → erase l i = Done (take i l ++ drop (S i) l).
Proof. intros H. unfold erase. by rewrite decide_True. Qed.

(** [w] is the merged view the function constructs. *)
Definition PushTableMergeView_with (w : MemTable_view) (t : MemTableViewManager)
    (number level_1 level_2 : nat) : outcome MemTableViewManager :=
  v ← of_option OutOfBounds (mem_all_vec_ t !! number);
  _ ← cassert (bool_decide (level_1 < length (memtable_vec_ v))%nat);
  _ ← cassert (bool_decide (level_2 < length (memtable_vec_ v))%nat);
  v ← lock v;
  l ← erase (memtable_vec_ v) level_1;
  l ← erase l level_2;
  Done (with_vec t number (unlock (mkVec l (held v) (isCompaction_ v)))).

Definition PushTableMergeView (fuel : nat) (seed : Z) (t : MemTableViewManager)
    (number : nat) (m : bytes) (size level_1 level_2 : nat) : outcome MemTableViewManager :=
  _ ← cassert (bool_decide (number < length (mem_all_vec_ t))%nat);
  w ← merge_view fuel seed m size (Z.of_nat number) (Z.of_nat level_1) (Z.of_nat level_2);
  PushTableMergeView_with w t number level_1 level_2.

Section Requests.
Context {KF : KeyFilter Bloom.BloomFilter}.

(** The loop from the newest view; the flag says that the loop returned from
    the function. *)
Fixpoint scan (views : list MemTable_view) (g : GetContext) : outcome (bool * GetContext) :=
  match views with
  | [] => Done (false, g)
  | w :: views' =>
      g ← Get w g;
      if bool_decide (get_code g = kOk ∨ get_code g = kDelete) then Done (true, g)
      else scan views' g
  end.

Definition getRequest (t : MemTableViewManager) (number : nat) (g : GetContext)
  : outcome (MemTableViewManager * GetContext) :=
  v ← of_option OutOfBounds (mem_all_vec_ t !! number);
  v ← lock v;
  '(found, g) ← scan (reverse (memtable_vec_ v)) g;
  Done (with_vec t number (if (found : bool) then v else unlock v), g).

Lemma scan_found (views : list MemTable_view) : ∀ g b g',
  scan views g = Done (b, g') → b = true → get_code g' = kOk ∨ get_code g' = kDelete.
Proof.
  induction views as [|w views IH]; intros g b g' H ->; simpl in H; [done|].
  inv_done. case_bool_decide as Hc; [by simplify_eq|]. by eapply IH.
Qed.

Lemma scan_missed (views : list MemTable_view) : ∀ g g',
  views ≠ [] → scan views g = Done (false, g') →
  get_code g' ≠ kOk ∧ get_code g' ≠ kDelete.
Proof.
  induction views as [|w views IH]; intros g g' Hne H; [done|]. simpl in H.
  inv_done. case_bool_decide as Hc; [done|]. destruct views as [|w' views].
  - simpl in *. simplify_eq. tauto.
  - by eapply IH.
Qed.

(** A locked mutex stops whoever gets to it: requests, and pushes of a view that
    has been constructed. *)
Lemma held_deadlocks (t : MemTableViewManager) (number : nat) (v : MemTableViewVec) :
  mem_all_vec_ t !! number = Some v → held v = true →
  (∀ g, getRequest t number g = Fault Deadlock) ∧
  (∀ w, PushTableView_with w t number = Fault Deadlock) ∧
  (∀ w l1 l2, l1 < length (memtable_vec_ v) → l2 < length (memtable_vec_ v) →
     PushTableMergeView_with w t number l1 l2 = Fault Deadlock)%nat.
Proof.
  intros Hv Hh. unfold getRequest, PushTableView_with, PushTableMergeView_with, lock.
  rewrite Hv. cbn. rewrite Hh. split_and!; [done|done|].
  intros w l1 l2 H1 H2. by rewrite !bool_decide_true.
Qed.

(** Pushing a flushed view never gets to the mutex: the view's header fails. *)
Lemma PushTableView_header (t : MemTableViewManager) (number : nat) (v : MemTableViewVec)
    (m : bytes) :
  mem_all_vec_ t !! number = Some v →
  ∃ f, f ≠ NoReturn ∧ Init_header m (zlen (memtable_vec_ v)) = Fault f ∧
       ∀ fuel size, PushTableView fuel t number m size = Fault f.
Proof.
  intros Hv. destruct (Init_faults m (zlen (memtable_vec_ v))) as (f & Hf & Eh & Ei).
  exists f. split; [done|]. split; [done|]. intros fuel size. unfold PushTableView.
  rewrite bool_decide_true by (by eapply lookup_lt_Some). rewrite Hv. cbn [cassert guard_fault of_option].
  by rewrite !bind_Done_l, Ei.
Qed.

(** C33: a request answered from a view locks its stack for good. On a stack
    that holds a view and whose mutex is free, a [getRequest] that finishes
    leaves the mutex locked exactly when it reports [kOk] or [kDelete]. After
    that, every further [getRequest] on the stack deadlocks, and so does every
    push that has its view constructed: of a flushed view, and of a merged one
    whose levels pass the assertions. [PushTableMergeView] fails as the
    construction of its view does, or deadlocks; [PushTableView] does not get to
    the mutex, as the construction of its view always fails in the header. *)
Theorem getRequest_keeps_lock (t t' : MemTableViewManager) (number : nat)
  (v : MemTableViewVec) (g g' : GetContext)
  (Hv : mem_all_vec_ t !! number = Some v) (Hfree : held v = false)
  (Hne : memtable_vec_ v ≠ []) (Hget : getRequest t number g = Done (t', g')) :
  ∃ v', mem_all_vec_ t' !! number = Some v' ∧ memtable_vec_ v' = memtable_vec_ v ∧
    (held v' = true ↔ get_code g' = kOk ∨ get_code g' = kDelete) ∧
    (held v' = true →
       (∀ h, getRequest t' number h = Fault Deadlock) ∧
       (∀ w, PushTableView_with w t' number = Fault Deadlock) ∧
       (∀ w l1 l2, l1 < length (memtable_vec_ v) → l2 < length (memtable_vec_ v) →
          PushTableMergeView_with w t' number l1 l2 = Fault Deadlock) ∧
       ∀ fuel seed m size l1 l2, l1 < length (memtable_vec_ v) → l2 < length (memtable_vec_ v) →
         PushTableMergeView fuel seed t' number m size l1 l2 =
         match merge_view fuel seed m size (Z.of_nat number) (Z.of_nat l1) (Z.of_nat l2) with
         | Done _ => Fault Deadlock
         | Fault f => Fault f
         end)%nat ∧
    ∀ m, ∃ f, f ≠ NoReturn ∧ Init_header m (zlen (memtable_vec_ v)) = Fault f ∧
      ∀ fuel size, PushTableView fuel t' number m size = Fault f.
Proof.
  unfold getRequest in Hget. rewrite Hv in Hget. cbn [of_option] in Hget.
  rewrite bind_Done_l in Hget. unfold lock in Hget. rewrite Hfree, bind_Done_l in Hget.
  cbn [memtable_vec_] in Hget. apply bind_done in Hget as ([b g1] & Hs & Hget).
  simplify_eq. pose proof (lookup_lt_Some _ _ _ Hv) as Hlt.
  set (v' := if b then _ else _). exists v'.
  assert (Hv' : mem_all_vec_ (with_vec t number v') !! number = Some v')
    by (by apply list_lookup_insert_eq).
  assert (Em : memtable_vec_ v' = memtable_vec_ v) by (unfold v'; by destruct b).
  rewrite <- Em. split_and!; [done|done| | |].
  - unfold v'. destruct b; cbn.
    + split; [|done]. intros _. by eapply scan_found.
    + split; [done|]. intros Hc. exfalso.
      assert (Hr : reverse (memtable_vec_ v) ≠ []).
      { intros E. apply (f_equal reverse) in E. by rewrite reverse_involutive in E. }
      destruct (scan_missed _ _ _ Hr Hs). tauto.
  - intros Hh. destruct (held_deadlocks _ _ _ Hv' Hh) as (H1 & H2 & H3).
    split_and!; [done|done|done|]. intros fuel seed m size l1 l2 Hl1 Hl2.
    unfold PushTableMergeView. rewrite bool_decide_true by (by eapply lookup_lt_Some).
    cbn [cassert guard_fault]. rewrite bind_Done_l.
    destruct (merge_view fuel seed m size _ _ _) as [w|f]; [by apply H3|done].
  - intros m. by apply PushTableView_header.
Qed.

End Requests.

(** Merging two levels loses three. When [PushTableMergeView] replaces
    [level_1 < level_2] of a free stack by their merge, it erases by position
    twice: if [level_2] is the newest level the second position is no element
    any more; otherwise [level_1] and the level AFTER [level_2] are erased,
    [level_2] stays, and the merged view is stored nowhere. And the compaction
    lock is never released: [finishCompact] leaves it taken. *)
Theorem PushTableMergeView_erases (w : MemTable_view) (t : MemTableViewManager)
  (number level_1 level_2 : nat) (v : MemTableViewVec)
  (Hv : mem_all_vec_ t !! number = Some v) (Hfree : held v = false)
  (H1 : (level_1 < level_2)%nat) (H2 : (level_2 < length (memtable_vec_ v))%nat) :
  PushTableMergeView_with w t number level_1 level_2 =
    (if decide (S level_2 = length (memtable_vec_ v)) then Fault OutOfBounds
     else Done (with_vec t number (mkVec
       (take level_1 (memtable_vec_ v) ++
        take (level_2 - level_1) (drop (S level_1) (memtable_vec_ v)) ++
        drop (S (S level_2)) (memtable_vec_ v)) false (isCompaction_ v)))) ∧
  fst (getCompactLock (finishCompact v)) = false.
Proof.
  split; [|done]. unfold PushTableMergeView_with. rewrite Hv. cbn [of_option].
  rewrite bind_Done_l, !bool_decide_true by lia. cbn [cassert guard_fault].
  rewrite !bind_Done_l. unfold lock. rewrite Hfree, bind_Done_l. cbn [memtable_vec_].
  rewrite erase_lt by lia. rewrite bind_Done_l.
  set (l := take level_1 (memtable_vec_ v) ++ drop (S level_1) (memtable_vec_ v)).
  assert (Hl : length l = (length (memtable_vec_ v) - 1)%nat).
  { unfold l. rewrite length_app, length_take, length_drop. lia. }
  unfold erase. rewrite Hl. repeat case_decide; try lia; [|done].
  rewrite bind_Done_l. do 3 f_equal. unfold unlock. f_equal. unfold l.
  assert (Ht : length (take level_1 (memtable_vec_ v)) = level_1)
    by (rewrite length_take; lia).
  rewrite take_app, drop_app, Ht. rewrite take_ge by lia.
  rewrite (drop_ge (take level_1 _)) by lia. rewrite drop_drop, <- app_assoc.
  cbn [app]. replace (S level_1 + (S level_2 - level_1))%nat with (S (S level_2)) by lia.
  done.
Qed.

(** *** A stack of one view that maps the record of [k -> v] *)

Definition any_filter : KeyFilter Bloom.BloomFilter := {|
  kf_empty := Bloom.mkBloom 0 (BitSet.mkBits [] 0);
  kf_insert f _ := Done f;
  kf_match _ _ := Done true
|}.

Definition ex_view : MemTable_view :=
  mkView None 1 [] 0 (Some 0) None 0 [mkSview [1; 107; 1; 118] 4]
    (Bloom.mkBloom 0 (BitSet.mkBits [] 0)).

Definition ex_manager (b : bool) : MemTableViewManager :=
  mkManager 1 [mkVec [ex_view; ex_view] b false].

Lemma getRequest_keeps_lock_witness :
  ∃ t' g' v', @getRequest any_filter (ex_manager false) 0 (new_GetContext (str "k")) =
      Done (t', g') ∧
    get_value g' = str "v" ∧ mem_all_vec_ t' !! 0%nat = Some v' ∧ held v' = true ∧
    (∀ h, @getRequest any_filter t' 0 h = Fault Deadlock) ∧
    PushTableView_with ex_view t' 0 = Fault Deadlock.
Proof.
  eexists _, _, _. split; [vm_compute; reflexivity|]. split; [reflexivity|].
  split; [reflexivity|]. split; [reflexivity|].
  destruct (@getRequest_keeps_lock any_filter (ex_manager false) (ex_manager true) 0
    (mkVec [ex_view; ex_view] false false) (new_GetContext (str "k"))
    (get_setCode (get_setValue (new_GetContext (str "k")) (str "v")) kOk)
    eq_refl eq_refl ltac:(done) ltac:(by vm_compute)) as (v' & E & _ & _ & H & _).
  destruct H as (H1 & H2 & _); [injection E as <-; reflexivity|].
  split; [exact H1|apply H2].
Defined.

Lemma PushTableMergeView_erases_witness :
  PushTableMergeView_with ex_view (ex_manager false) 0 0 1 = Fault OutOfBounds ∧
  fst (getCompactLock (finishCompact new_MemTableViewVec)) = false.
Proof.
  split; [|reflexivity].
  exact (proj1 (PushTableMergeView_erases ex_view (ex_manager false) 0 0 1
    (mkVec [ex_view; ex_view] false false) eq_refl eq_refl ltac:(lia) ltac:(simpl; lia))).
Defined.

End MemtableView.
