(* ===== verification/SharedMemtable.v ===== *)
(** * The sharded memtable and its workers

    [src/db/dbconfig.hpp] and [src/db/shared_memtable.{hpp,cpp}]: requests are
    hashed to workers; each worker drains its queue against its active
    memtable, its cache, its read-only tables and the views, drops the
    read-only tables that have been flushed, and hands a full table to the
    compactor. The compactor and the views are used through interfaces, which
    [Compactor] and [MemtableView] implement. A worker's loop is the function
    [round] of one turn; [Worker] has the thread that runs the turns, with its
    condition variable. Log messages are not modelled. *)
From S2P Require Import Prelude Request Crc32 KeyFormat Entry Bloom Memtable KLRUCache MemtableView.
Import Status Request.

Module DBConfig.

(** [isRecover] and [version_] have no initialiser. *)
Record DBConfig : Type := mkConfig {
  wal_log_size : Z;
  wal_log_is_sync : bool;
  db_path : bytes;
  memtable_N : Z;
  memtable_trigger_size : Z;
  compactor_thread_size : Z;
  lru_cache_size : Z;
  max_level_size : Z;
  isRecover : option bool;
  version_ : option Z
}.

Definition default_DBConfig : DBConfig :=
  mkConfig (64 * 1024 * 1024) false [] 8 (128 * 1024 * 1024) 1 (15 * 1024 * 1024) 8
    None None.

End DBConfig.

(** ** Interfaces *)

(** What a worker asks of the compactor: to take a full table, and how many
    references to it the compactor holds when the worker goes on. *)
Class ReadOnlySink (C F : Type) : Type := {
  sink_add : C → Memtable.Memtable F → outcome C;
  sink_refs : C → nat
}.

(** A sink that takes every numbered table and then holds it once. *)
Class ReadOnlySinkLaws (C F : Type) {RS : ReadOnlySink C F} : Type := {
  sink_ok : C → Prop;
  sink_add_ok : ∀ c t, sink_ok c → is_Some (Memtable.memtable_number_ t) →
    ∃ c', sink_add c t = Done c' ∧ sink_refs c' = 1%nat ∧ sink_ok c'
}.

(** What a worker asks of the view manager. *)
Class ViewStore (V : Type) : Type := {
  vs_get : V → nat → GetContext → outcome (V * GetContext);
  vs_size : V → nat → outcome nat
}.

(** A store whose stack for a number is empty answers nothing. *)
Class ViewStoreLaws (V : Type) {VS : ViewStore V} : Type := {
  vs_free : V → nat → Prop;
  vs_get_empty : ∀ v n g, vs_free v n → vs_size v n = Done O → vs_get v n g = Done (v, g)
}.

Module SharedMemtable.

Record SnapShotContext : Type := mkSnapCtx { snapshot : SnapShot; snap_code : StatusCode }.

(** [Memtask]: the alternatives of the variant, by index. *)
Inductive Memtask : Type :=
  | TSet (c : SetContext)
  | TGet (g : GetContext)
  | TDelete (d : DeleteContext)
  | TSnapShot (s : SnapShotContext).

Section Workers.
Context {F C V : Type} {KF : KeyFilter F} {RS : ReadOnlySink C F} {VS : ViewStore V}.

(** [compactor_] and [memview_manager_] say whether the pointers are set: the
    objects are shared by all workers and passed along. *)
Record TaskWorker : Type := mkWorker {
  remove_N_ : Z;
  preRemove_N_ : Z;
  memtable_ : Memtable.Memtable F;
  handle_vec_ : list Memtask;
  bg_handle_vec_ : list Memtask;
  isRunning_ : bool;
  maxMemTableSize_ : Z;
  compactor_ : bool;
  memview_manager_ : bool;
  readonly_memtable_vec_ : list (Memtable.Memtable F);
  klrucache_ : KLRU.kLRUCache
}.

(** The fields a turn changes. *)
Definition with_queues (w : TaskWorker) (handle bg : list Memtask) : TaskWorker :=
  mkWorker (remove_N_ w) (preRemove_N_ w) (memtable_ w) handle bg (isRunning_ w)
    (maxMemTableSize_ w) (compactor_ w) (memview_manager_ w)
    (readonly_memtable_vec_ w) (klrucache_ w).
Definition with_tables (w : TaskWorker) (pre : Z) (t : Memtable.Memtable F)
    (ro : list (Memtable.Memtable F)) : TaskWorker :=
  mkWorker (remove_N_ w) pre t (handle_vec_ w) (bg_handle_vec_ w) (isRunning_ w)
    (maxMemTableSize_ w) (compactor_ w) (memview_manager_ w) ro (klrucache_ w).
Definition with_cache (w : TaskWorker) (c : KLRU.kLRUCache) : TaskWorker :=
  mkWorker (remove_N_ w) (preRemove_N_ w) (memtable_ w) (handle_vec_ w) (bg_handle_vec_ w)
    (isRunning_ w) (maxMemTableSize_ w) (compactor_ w) (memview_manager_ w)
    (readonly_memtable_vec_ w) c.

Definition addTask (w : TaskWorker) (hand : Memtask) : TaskWorker :=
  with_queues w (handle_vec_ w) (bg_handle_vec_ w ++ [hand]).

Definition getWorkerBusyN (w : TaskWorker) : Z :=
  u32 (zlen (handle_vec_ w) + zlen (bg_handle_vec_ w)).

(** *** Handlers *)

Definition is_found (g : GetContext) : bool :=
  bool_decide (get_code g = kOk ∨ get_code g = kDelete).

Definition handle_set (w : TaskWorker) (c : SetContext) : outcome TaskWorker :=
  t ← Memtable.Set_ (memtable_ w) c;
  Done (with_tables w (preRemove_N_ w) t (readonly_memtable_vec_ w)).

(** The read-only tables, from the newest. *)
Fixpoint scan_readonly (ts : list (Memtable.Memtable F)) (g : GetContext)
  : outcome GetContext :=
  match ts with
  | [] => Done g
  | t :: ts' =>
      g ← Memtable.Get t g;
      if is_found g then Done (get_fire g) else scan_readonly ts' g
  end.

(** What a hit in the cache does to the context. *)
Definition cache_answer (g : GetContext) (a : option KLRU.Answer) : GetContext :=
  match a with
  | None => g
  | Some a =>
      let g := match KLRU.out_value a with Some x => get_setValue g x | None => g end in
      get_fire (get_setCode g (if KLRU.out_isErase a then kDelete else kOk))
  end.

(** What the cache is told at the end. *)
Definition cache_store (c : KLRU.kLRUCache) (g : GetContext) : outcome KLRU.kLRUCache :=
  if bool_decide (get_code g = kNotFound ∨ get_code g = kDelete)
  then KLRU.setEraseRecord c (get_key g)
  else if bool_decide (get_code g = kOk) then KLRU.set c (get_key g) (get_value g)
  else Done c.

Definition handle_get (w : TaskWorker) (v : V) (g : GetContext)
  : outcome (TaskWorker * V * GetContext) :=
  g ← Memtable.Get (memtable_ w) g;
  let g := if is_found g then get_fire g else g in
  '(ue, cache) ← KLRU.get (klrucache_ w) (get_key g);
  let g := cache_answer g ue in
  g ← (if bool_decide (get_code g = kNotFound)
       then scan_readonly (reverse (readonly_memtable_vec_ w)) g else Done g);
  '(v, g) ← (if bool_decide (get_code g = kNotFound) then
               number ← Memtable.getMemNumber (memtable_ w);
               _ ← guard_fault (memview_manager_ w) NullDeref;
               '(v, g) ← vs_get v (Z.to_nat number) g;
               Done (v, get_fire g)
             else Done (v, g));
  cache ← cache_store cache g;
  Done (with_cache w cache, v, g).

Definition handle_delete (w : TaskWorker) (d : DeleteContext)
  : outcome (TaskWorker * DeleteContext) :=
  t ← Memtable.Delete (memtable_ w) d;
  Done (with_tables w (preRemove_N_ w) t (readonly_memtable_vec_ w), del_fire d).

(** One task: the worker, the views and the context as it leaves it. *)
Definition handle (w : TaskWorker) (v : V) (h : Memtask)
  : outcome (TaskWorker * V * Memtask) :=
  match h with
  | TSet c => w ← handle_set w c; Done (w, v, TSet c)
  | TGet g => '(w, v, g) ← handle_get w v g; Done (w, v, TGet g)
  | TDelete d => '(w, d) ← handle_delete w d; Done (w, v, TDelete d)
  | TSnapShot s => Done (w, v, TSnapShot s)
  end.

Fixpoint handle_all (w : TaskWorker) (v : V) (hs : list Memtask)
  : outcome (TaskWorker * V * list Memtask) :=
  match hs with
  | [] => Done (w, v, [])
  | h :: hs' =>
      '(w, v, h) ← handle w v h;
      '(w, v, hs) ← handle_all w v hs';
      Done (w, v, h :: hs)
  end.

(** [erase (begin ())], [n] times. *)
Fixpoint erase_front {A} (n : nat) (l : list A) : outcome (list A) :=
  match n, l with
  | O, _ => Done l
  | S _, [] => Fault OutOfBounds
  | S n', _ :: l' => erase_front n' l'
  end.

(** Dropping the read-only tables that have been flushed. *)
Definition remove_flushed (w : TaskWorker) : outcome TaskWorker :=
  if preRemove_N_ w <? remove_N_ w then
    let size := u64 (remove_N_ w - preRemove_N_ w) in
    ro ← erase_front (Z.to_nat size) (readonly_memtable_vec_ w);
    Done (with_tables w (remove_N_ w) (memtable_ w) ro)
  else Done w.

(** Handing a full table to the compactor and starting a new one. *)
Definition rotate (w : TaskWorker) (c : C) : outcome (TaskWorker * C) :=
  if maxMemTableSize_ w <=? Memtable.getMemSize (memtable_ w) then
    let t := Memtable.setReadOnly (memtable_ w) in
    number ← Memtable.getMemNumber t;
    let n := Memtable.getCompactionN t in
    _ ← cassert (compactor_ w);
    c ← sink_add c t;
    let ro := readonly_memtable_vec_ w ++ [t] in
    _ ← cassert (bool_decide (2 + sink_refs c = 3)%nat);
    let t' := Memtable.setCompactionN (Memtable.setNumber Memtable.init number)
                (u32 (n + 1)) in
    Done (with_tables w (preRemove_N_ w) t' ro, c)
  else Done (w, c).

(** One turn of the worker's loop, once it is awake. The messages it logs ask
    for the size of the views' stack. *)
Definition round (w : TaskWorker) (v : V) (c : C)
  : outcome (TaskWorker * V * C * list Memtask) :=
  let w := with_queues w (bg_handle_vec_ w) (handle_vec_ w) in
  '(w, v, hs) ← handle_all w v (handle_vec_ w);
  number ← Memtable.getMemNumber (memtable_ w);
  _ ← guard_fault (memview_manager_ w) NullDeref;
  _ ← vs_size v (Z.to_nat number);
  w ← remove_flushed w;
  let w := with_queues w [] (bg_handle_vec_ w) in
  '(w, c) ← rotate w c;
  Done (w, v, c, hs).

(** *** The shards *)

Record SharedMemtable : Type := mkShared {
  singleMemTableSize_ : Z;
  memtable_N_ : Z;
  taskworkers_ : list TaskWorker;
  comp_actor_ : bool
}.

(** A worker of [Init]: [junk] are the cache's counters, which nothing
    initialises. *)
Definition new_worker (cfg : DBConfig.DBConfig) (comp : bool) (junk : Z * Z) (i : nat)
  : TaskWorker :=
  let cold := DBConfig.lru_cache_size cfg / 5 in
  mkWorker 0 0 (Memtable.setNumber Memtable.init (Z.of_nat i)) [] [] false
    (DBConfig.memtable_trigger_size cfg) comp false []
    (KLRU.Init (KLRU.default_kLRUCache 0 0 junk.1 junk.2) cold (u32 (cold * 4))).

Definition Init (cfg : DBConfig.DBConfig) (comp : bool) (junk : nat → Z * Z)
  : outcome SharedMemtable :=
  _ ← cassert (negb (DBConfig.memtable_N cfg =? 0));
  Done (mkShared (DBConfig.memtable_trigger_size cfg) (DBConfig.memtable_N cfg)
          ((λ i, new_worker cfg comp (junk i) i) <$> seq 0 (Z.to_nat (DBConfig.memtable_N cfg)))
          comp).

Definition on_worker (t : SharedMemtable) (i : nat) (f : TaskWorker → TaskWorker)
  : outcome SharedMemtable :=
  w ← of_option OutOfBounds (taskworkers_ t !! i);
  Done (mkShared (singleMemTableSize_ t) (memtable_N_ t) (<[i := f w]> (taskworkers_ t))
          (comp_actor_ t)).

Definition on_all (t : SharedMemtable) (f : TaskWorker → TaskWorker) : SharedMemtable :=
  mkShared (singleMemTableSize_ t) (memtable_N_ t) (f <$> taskworkers_ t) (comp_actor_ t).

Definition set_running (b : bool) (w : TaskWorker) : TaskWorker :=
  mkWorker (remove_N_ w) (preRemove_N_ w) (memtable_ w) (handle_vec_ w) (bg_handle_vec_ w)
    b (maxMemTableSize_ w) (compactor_ w) (memview_manager_ w)
    (readonly_memtable_vec_ w) (klrucache_ w).

Definition Run (t : SharedMemtable) : outcome SharedMemtable :=
  _ ← cassert (0 <? memtable_N_ t);
  _ ← cassert (bool_decide (0 < length (taskworkers_ t))%nat);
  Done (on_all t (set_running true)).

(** The destructor's calls on the workers. *)
Definition stop_all (t : SharedMemtable) : SharedMemtable := on_all t (set_running false).

Definition SetCompactorRef (t : SharedMemtable) : SharedMemtable :=
  mkShared (singleMemTableSize_ t) (memtable_N_ t)
    ((λ w, mkWorker (remove_N_ w) (preRemove_N_ w) (memtable_ w) (handle_vec_ w)
             (bg_handle_vec_ w) (isRunning_ w) (maxMemTableSize_ w) true (memview_manager_ w)
             (readonly_memtable_vec_ w) (klrucache_ w)) <$> taskworkers_ t) true.

Definition SetMemTableViewRef (t : SharedMemtable) : SharedMemtable :=
  on_all t (λ w, mkWorker (remove_N_ w) (preRemove_N_ w) (memtable_ w) (handle_vec_ w)
                   (bg_handle_vec_ w) (isRunning_ w) (maxMemTableSize_ w) (compactor_ w) true
                   (readonly_memtable_vec_ w) (klrucache_ w)).

Definition getMemTaskWorkerLevel (t : SharedMemtable) (n : nat) : outcome Z :=
  w ← of_option OutOfBounds (taskworkers_ t !! n);
  Done (Memtable.getCompactionN (memtable_ w)).

Definition getMemTaskWorkerNumber (t : SharedMemtable) (n : nat) : outcome Z :=
  w ← of_option OutOfBounds (taskworkers_ t !! n);
  Memtable.getMemNumber (memtable_ w).

Definition PushRemoveReadonlyMemtableContext (t : SharedMemtable) (n : nat)
  : outcome SharedMemtable :=
  on_worker t n (λ w, mkWorker (u64 (remove_N_ w + 1)) (preRemove_N_ w) (memtable_ w)
                        (handle_vec_ w) (bg_handle_vec_ w) (isRunning_ w)
                        (maxMemTableSize_ w) (compactor_ w) (memview_manager_ w)
                        (readonly_memtable_vec_ w) (klrucache_ w)).

(** [stdHash_ (key) % memtable_N_]; [std_hash] is the library's hash. *)
Section Routing.
Context (std_hash : bytes → Z).

Definition route (t : SharedMemtable) (key : bytes) : nat :=
  Z.to_nat (u64 (std_hash key) mod memtable_N_ t).

Definition SM_Set (t : SharedMemtable) (c : SetContext) : outcome SharedMemtable :=
  on_worker t (route t (set_key c)) (λ w, addTask w (TSet c)).
Definition SM_Get (t : SharedMemtable) (g : GetContext) : outcome SharedMemtable :=
  on_worker t (route t (get_key g)) (λ w, addTask w (TGet g)).
Definition SM_Delete (t : SharedMemtable) (d : DeleteContext) : outcome SharedMemtable :=
  on_worker t (route t (del_key d)) (λ w, addTask w (TDelete d)).
Definition SM_SnapShot (t : SharedMemtable) (s : SnapShotContext) : outcome SharedMemtable :=
  Done (on_all t (λ w, addTask w (TSnapShot s))).

Definition dispatch (t : SharedMemtable) (h : Memtask) : outcome SharedMemtable :=
  match h with
  | TSet c => SM_Set t c
  | TGet g => SM_Get t g
  | TDelete d => SM_Delete t d
  | TSnapShot s => SM_SnapShot t s
  end.
End Routing.

(** ** Requests reach their worker, in order *)
Section Dispatch.
Context (std_hash : bytes → Z).

Fixpoint dispatch_all (t : SharedMemtable) (hs : list Memtask) : outcome SharedMemtable :=
  match hs with
  | [] => Done t
  | h :: hs' => t ← dispatch std_hash t h; dispatch_all t hs'
  end.

(** The tasks that are worker [i]'s: those whose key hashes to it, and every
    snapshot. *)
Definition task_for (N : Z) (i : nat) (h : Memtask) : bool :=
  let mine k := bool_decide (Z.to_nat (u64 (std_hash k) mod N) = i) in
  match h with
  | TSet c => mine (set_key c)
  | TGet g => mine (get_key g)
  | TDelete d => mine (del_key d)
  | TSnapShot _ => true
  end.

Definition shards_ok (t : SharedMemtable) : Prop :=
  0 < memtable_N_ t ∧ zlen (taskworkers_ t) = memtable_N_ t.

Lemma addTasks_nil (w : TaskWorker) : with_queues w (handle_vec_ w) (bg_handle_vec_ w ++ []) = w.
Proof. destruct w. unfold with_queues. simpl. by rewrite app_nil_r. Qed.

Lemma route_lt (t : SharedMemtable) (k : bytes) :
  shards_ok t → (route std_hash t k < length (taskworkers_ t))%nat.
Proof.
  intros [HN Hl]. unfold route, zlen in *.
  pose proof (Z.mod_pos_bound (u64 (std_hash k)) _ HN). lia.
Qed.

Lemma on_worker_lookup (t : SharedMemtable) (j : nat) (f : TaskWorker → TaskWorker) :
  (j < length (taskworkers_ t))%nat →
  ∃ t', on_worker t j f = Done t' ∧ memtable_N_ t' = memtable_N_ t ∧
    length (taskworkers_ t') = length (taskworkers_ t) ∧
    ∀ i w, taskworkers_ t !! i = Some w →
      taskworkers_ t' !! i = Some (if bool_decide (j = i) then f w else w).
Proof.
  intros Hj. destruct (lookup_lt_is_Some_2 _ _ Hj) as [w0 Hw0]. unfold on_worker.
  rewrite Hw0. cbn [of_option]. rewrite bind_Done_l. eexists. split; [done|].
  cbn [memtable_N_ taskworkers_]. split; [done|]. split; [apply length_insert|].
  intros i w Hi. case_bool_decide as E.
  - subst. simplify_eq. by rewrite list_lookup_insert_eq.
  - by rewrite list_lookup_insert_ne.
Qed.

Lemma dispatch_step (t : SharedMemtable) (h : Memtask) :
  shards_ok t →
  ∃ t', dispatch std_hash t h = Done t' ∧ shards_ok t' ∧ memtable_N_ t' = memtable_N_ t ∧
    ∀ i w, taskworkers_ t !! i = Some w →
      taskworkers_ t' !! i = Some (if task_for (memtable_N_ t) i h then addTask w h else w).
Proof.
  intros Hok.
  assert (H : ∀ k, ∃ t', on_worker t (route std_hash t k) (λ w, addTask w h) = Done t' ∧
    shards_ok t' ∧ memtable_N_ t' = memtable_N_ t ∧
    ∀ i w, taskworkers_ t !! i = Some w →
      taskworkers_ t' !! i = Some
        (if bool_decide (route std_hash t k = i) then addTask w h else w)).
  { intros k. destruct (on_worker_lookup t _ (λ w, addTask w h) (route_lt t k Hok))
      as (t' & E & HN & Hl & Hw).
    exists t'. split; [done|]. split; [|by split].
    split; unfold zlen; rewrite HN, ?Hl; apply Hok. }
  destruct h as [c|g|d|s]; [apply H|apply H|apply H|].
  unfold dispatch, SM_SnapShot, on_all. eexists. split; [done|]. split; [|split; [done|]].
  - destruct Hok as [HN Hl]. split; [done|]. cbn [taskworkers_ memtable_N_].
    unfold zlen. by rewrite length_fmap.
  - intros i w Hw. cbn [taskworkers_]. by rewrite list_lookup_fmap, Hw.
Qed.

(** Requests are sharded by key and never reordered. On a table with a
    worker for each of its [N >= 1] numbers, any sequence of Sets, Gets,
    Deletes and snapshots is accepted, and each worker's queue grows by exactly
    the requests that are its own — a key's requests all go to the worker its
    hash names, a snapshot to every worker — in the order they were made, and
    nothing else about any worker changes. *)
Theorem dispatch_all_sharded (t : SharedMemtable) (hs : list Memtask) (Hok : shards_ok t) :
  ∃ t', dispatch_all t hs = Done t' ∧ shards_ok t' ∧
    ∀ i w, taskworkers_ t !! i = Some w →
      taskworkers_ t' !! i =
        Some (with_queues w (handle_vec_ w)
                (bg_handle_vec_ w ++ List.filter (task_for (memtable_N_ t) i) hs)).
Proof.
  revert t Hok; induction hs as [|h hs IH]; intros t Hok.
  - exists t. split; [done|]. split; [done|]. intros i w Hw. by rewrite addTasks_nil.
  - cbn [dispatch_all List.filter].
    destruct (dispatch_step t h Hok) as (t1 & -> & Hok1 & HN & H1). rewrite bind_Done_l.
    destruct (IH t1 Hok1) as (t' & -> & Hok' & H'). exists t'. split; [done|]. split; [done|].
    intros i w Hw. rewrite (H' i _ (H1 i w Hw)), HN.
    destruct (task_for (memtable_N_ t) i h); [|done].
    unfold addTask, with_queues. simpl. by rewrite <- app_assoc.
Qed.
End Dispatch.

(** ** What a worker's tables hold *)
Section Visible.
Context {KL : KeyFilterLaws F} {VL : ViewStoreLaws V}.

Definition table_value (t : Memtable.Memtable F) (k : bytes) : option bytes :=
  Memtable.lookup t k ≫= λ e,
    match Memtable.read_entry e with Done r => r | Fault _ => None end.

(** The newest table that has the key. *)
Definition newest (ts : list (Memtable.Memtable F)) (k : bytes) : option bytes :=
  foldr (λ t r, match table_value t k with Some x => Some x | None => r end) None ts.

Definition visible (w : TaskWorker) (k : bytes) : option bytes :=
  newest (memtable_ w :: reverse (readonly_memtable_vec_ w)) k.

Definition tables_ok (w : TaskWorker) : Prop :=
  Memtable.ok (memtable_ w) ∧ Forall Memtable.ok (readonly_memtable_vec_ w) ∧
  is_Some (Memtable.memtable_number_ (memtable_ w)).

Lemma Get_value (t : Memtable.Memtable F) (g : GetContext) :
  Memtable.ok t → Entry.small (get_key g) →
  Memtable.Get t g = Done match table_value t (get_key g) with
                          | Some x => get_setCode (get_setValue g x) kOk
                          | None => get_setCode g kNotFound
                          end.
Proof.
  intros Hok Hk. pose proof (Memtable.Get_spec t g Hok Hk) as H. unfold table_value.
  destruct (Memtable.lookup t (get_key g)) as [e|]; [|done].
  destruct H as (x & Hx & ->). cbn. by rewrite Hx.
Qed.

Lemma scan_readonly_newest (ts : list (Memtable.Memtable F)) : ∀ g,
  Forall Memtable.ok ts → Entry.small (get_key g) → get_code g = kNotFound →
  scan_readonly ts g = Done match newest ts (get_key g) with
                            | Some x => get_fire (get_setCode (get_setValue g x) kOk)
                            | None => g
                            end.
Proof.
  induction ts as [|t ts IH]; intros g Hts Hk Hc; [done|].
  apply Forall_cons in Hts as [Ht Hts]. cbn [scan_readonly newest foldr].
  rewrite Get_value, bind_Done_l by done.
  destruct (table_value t (get_key g)) as [x|].
  - unfold is_found. by rewrite bool_decide_true by (left; done).
  - unfold is_found. rewrite bool_decide_false by (intros [|]; done).
    rewrite IH by done. destruct g. simpl in *. by subst.
Qed.

(** Handing a full table over loses nothing. When the active table has
    reached the size limit, its compactor is set and takes the table, and holds
    the one reference the worker's assertion counts on, the turn ends with a
    new, empty, writable table of the same number and the next level, the old
    one becomes the newest of the read-only tables, and every key is answered
    as before. If the compactor has already let go of the table — its thread
    may flush it before the assertion runs — the worker aborts. Below the limit
    nothing happens. *)
Theorem rotate_keeps_visible (w : TaskWorker) (c c' : C)
  (Hok : tables_ok w) (Hc : compactor_ w = true)
  (Hadd : sink_add c (Memtable.setReadOnly (memtable_ w)) = Done c') :
  (Memtable.getMemSize (memtable_ w) < maxMemTableSize_ w → rotate w c = Done (w, c)) ∧
  (maxMemTableSize_ w ≤ Memtable.getMemSize (memtable_ w) →
   (sink_refs c' ≠ 1%nat → rotate w c = Fault AssertFailed) ∧
   (sink_refs c' = 1%nat → ∃ w', rotate w c = Done (w', c') ∧ tables_ok w' ∧
      (∀ k, visible w' k = visible w k) ∧
      readonly_memtable_vec_ w' =
        readonly_memtable_vec_ w ++ [Memtable.setReadOnly (memtable_ w)] ∧
      Memtable.memMap_ (memtable_ w') = [] ∧ Memtable.getMemSize (memtable_ w') = 0 ∧
      Memtable.isReadonly_ (memtable_ w') = false ∧
      Memtable.getMemNumber (memtable_ w') = Memtable.getMemNumber (memtable_ w) ∧
      Memtable.getCompactionN (memtable_ w') =
        u32 (Memtable.getCompactionN (memtable_ w) + 1))).
Proof.
  destruct Hok as (Hm & Hro & n & Hn).
  assert (Hnum : Memtable.getMemNumber (Memtable.setReadOnly (memtable_ w)) = Done (u32 n))
    by (unfold Memtable.getMemNumber; simpl; by rewrite Hn).
  split; intros Hfull; unfold rotate.
  { rewrite (proj2 (Z.leb_gt _ _)) by done. done. }
  rewrite (proj2 (Z.leb_le _ _)) by done. rewrite Hnum, bind_Done_l, Hc.
  cbn [cassert guard_fault]. rewrite bind_Done_l, Hadd, bind_Done_l. split; intros Hr.
  - rewrite bool_decide_false by lia. done.
  - rewrite bool_decide_true by lia. eexists. split; [done|]. cbv zeta.
    split; [|split; [|split; [done|split; [done|split; [done|split; [done|split; [|done]]]]]]].
    + split; [exact Memtable.Memtable_init_ok|]. split; [|by eexists].
      cbn [readonly_memtable_vec_ with_tables]. apply Forall_app. split; [done|].
      constructor; [exact Hm|done].
    + intros k. unfold visible. cbn [readonly_memtable_vec_ with_tables memtable_].
      rewrite reverse_app. done.
    + unfold Memtable.getMemNumber at 2. rewrite Hn. unfold Memtable.getMemNumber. simpl.
      f_equal. unfold u32, wrap. by rewrite !Z.mod_mod.
Qed.

(** What storing a fresh key [k] leaves of a cache: the limits, a cold counter
    below its own, and no other key that was not there. *)
Record grown (c : KLRU.kLRUCache) (k : bytes) (c' : KLRU.kLRUCache) : Prop := mkGrown {
  gr_limit : KLRU.max_probation_mem_size_ c' = KLRU.max_probation_mem_size_ c;
  gr_usage : KLRU.probation_memory_usage_ c' < KLRU.max_probation_mem_size_ c';
  gr_keys : ∀ k', KLRU.cache_map_ c' !! k' ≠ None → k' = k ∨ KLRU.cache_map_ c !! k' ≠ None
}.

(** Inserting a fresh key and evicting. *)
Lemma push_evict_grown (c : KLRU.kLRUCache) (k x : bytes) (e : bool) (size : Z) :
  KLRU.ok c → KLRU.cache_map_ c !! k = None → 0 < KLRU.max_probation_mem_size_ c →
  size = zlen k + zlen x → KLRU.total (KLRU.probation_list_ c) + size < 2 ^ 32 →
  ∃ c', KLRU.evict_probation (KLRU.push_probation c k x e size) = Done c' ∧
        KLRU.ok c' ∧ grown c k c'.
Proof.
  intros Hok Hk Hmax Hs Hlt.
  pose proof (KLRU.push_ok c k x e size Hok Hk Hs Hlt) as Hp.
  destruct (KLRU.evict_ok (KLRU.push_probation c k x e size))
    as (c' & dropped & E & Hok' & Hcold & Hhot & Hm & _ & _ & Hu & _); [done|done| |].
  { cbn [KLRU.probation_list_ KLRU.push_probation KLRU.total foldr].
    fold (KLRU.total (KLRU.probation_list_ c)).
    unfold KLRU.size_of, KLRU.kv_size. cbn [KLRU.key KLRU.value]. lia. }
  exists c'. split; [done|]. split; [done|]. split; [done|by rewrite Hm|].
  intros k' Hk'. destruct (KLRU.cache_map_ c' !! k') as [[a it]|] eqn:E'; [|done].
  destruct (proj2 (proj2 (KLRU.ok_linked _ Hok')) k' a it E') as (h & Hh & Hn & Hkey).
  destruct (proj1 (proj2 (KLRU.ok_linked _ Hp)) h) as (a2 & k2 & Hkey2 & Hm2).
  { unfold KLRU.all in *. rewrite Hhot in Hh. rewrite Hcold, !elem_of_app.
    apply elem_of_app in Hh. tauto. }
  rewrite Hkey in Hkey2. injection Hkey2 as <- <-.
  unfold KLRU.push_probation in Hm2. cbn [KLRU.cache_map_] in Hm2.
  apply lookup_insert_Some in Hm2 as [[-> _]|[_ Hm2]]; [by left|right]. by rewrite Hm2.
Qed.

(** Storing a key the cache does not have. *)
Lemma cache_store_fresh (c : KLRU.kLRUCache) (g : GetContext) :
  KLRU.ok c → KLRU.cache_map_ c !! get_key g = None →
  0 < KLRU.max_probation_mem_size_ c → get_code g = kOk ∨ get_code g = kNotFound →
  KLRU.total (KLRU.probation_list_ c) + zlen (get_key g) + zlen (get_value g) < 2 ^ 32 →
  ∃ c', cache_store c g = Done c' ∧ KLRU.ok c' ∧ grown c (get_key g) c'.
Proof.
  intros Hok Hk Hmax Hc Hlt. pose proof (Entry.zlen_nonneg (get_value g)).
  unfold cache_store. case_bool_decide as Hn.
  - apply push_evict_grown; [done|done|done|unfold zlen; simpl; lia|lia].
  - destruct Hc as [Hc|Hc]; [|by destruct Hn; left]. rewrite bool_decide_true by done.
    apply push_evict_grown; [done|done|done|done|lia].
Qed.

Lemma fire_fields (g : GetContext) :
  get_code (get_fire g) = get_code g ∧ get_key (get_fire g) = get_key g ∧
  get_value (get_fire g) = get_value g.
Proof. by destruct g as [? ? ? [] ?]. Qed.

Lemma cache_answer_code (g : GetContext) (ue : option KLRU.Answer) :
  get_code g = kOk →
  get_code (cache_answer g ue) = kOk ∨ get_code (cache_answer g ue) = kDelete.
Proof.
  intros H. destruct ue as [[ov [|]]|]; [right|left|by left]; unfold cache_answer;
    rewrite (proj1 (fire_fields _)); done.
Qed.

(** The end of a Get once its status is settled. *)
Lemma settled (w : TaskWorker) (v : V) (g : GetContext) (cache : KLRU.kLRUCache) :
  get_code g = kOk ∨ get_code g = kDelete →
  (g ← (if bool_decide (get_code g = kNotFound)
        then scan_readonly (reverse (readonly_memtable_vec_ w)) g else Done g);
   '(v, g) ← (if bool_decide (get_code g = kNotFound) then
                number ← Memtable.getMemNumber (memtable_ w);
                _ ← guard_fault (memview_manager_ w) NullDeref;
                '(v, g) ← vs_get v (Z.to_nat number) g;
                Done (v, get_fire g)
              else Done (v, g));
   cache ← cache_store cache g;
   Done (with_cache w cache, v, g)) =
  (cache ← cache_store cache g; Done (with_cache w cache, v, g)).
Proof.
  intros H. assert (Hne : get_code g ≠ kNotFound) by (intros E; rewrite E in H; by destruct H).
  do 2 (rewrite bool_decide_false by done; cbn [mbind outcome_bind]). done.
Qed.

(** A Get the active table answers, whatever the cache says. *)
Lemma handle_get_active (w : TaskWorker) (v : V) (g : GetContext) (x : bytes)
    (ue : option KLRU.Answer) (cache : KLRU.kLRUCache) :
  Memtable.ok (memtable_ w) → Entry.small (get_key g) →
  table_value (memtable_ w) (get_key g) = Some x →
  KLRU.get (klrucache_ w) (get_key g) = Done (ue, cache) →
  let g' := cache_answer (get_fire (get_setCode (get_setValue g x) kOk)) ue in
  handle_get w v g = (c ← cache_store cache g'; Done (with_cache w c, v, g')).
Proof.
  intros Hm Hk Hx Hc. cbv zeta. unfold handle_get. rewrite Get_value, bind_Done_l, Hx by done.
  unfold is_found. rewrite bool_decide_true by (left; done).
  rewrite (proj1 (proj2 (fire_fields _))).
  change (get_key (get_setCode (get_setValue g x) kOk)) with (get_key g).
  rewrite Hc, bind_Done_l. apply settled, cache_answer_code.
  by rewrite (proj1 (fire_fields _)).
Qed.

(** A Get neither the active table nor the cache answers. *)
Lemma handle_get_below (w : TaskWorker) (v : V) (g : GetContext) (n : Z)
    (cache : KLRU.kLRUCache) :
  Memtable.ok (memtable_ w) → Forall Memtable.ok (readonly_memtable_vec_ w) →
  Entry.small (get_key g) → table_value (memtable_ w) (get_key g) = None →
  KLRU.get (klrucache_ w) (get_key g) = Done (None, cache) →
  Memtable.getMemNumber (memtable_ w) = Done n → memview_manager_ w = true →
  vs_free v (Z.to_nat n) → vs_size v (Z.to_nat n) = Done O →
  let g' := get_fire match newest (reverse (readonly_memtable_vec_ w)) (get_key g) with
                     | Some x => get_setCode (get_setValue g x) kOk
                     | None => get_setCode g kNotFound
                     end in
  handle_get w v g = (c ← cache_store cache g'; Done (with_cache w c, v, g')).
Proof.
  intros Hm Hro Hk Hx Hc Hn Hview Hfree Hempty. cbv zeta. unfold handle_get.
  rewrite Get_value, bind_Done_l, Hx by done. unfold is_found.
  rewrite bool_decide_false by (intros [|]; done).
  change (get_key (get_setCode g kNotFound)) with (get_key g). rewrite Hc, bind_Done_l.
  cbn [cache_answer]. rewrite bool_decide_true by done.
  rewrite scan_readonly_newest, bind_Done_l by (done || by apply Forall_reverse).
  change (get_key (get_setCode g kNotFound)) with (get_key g).
  destruct (newest (reverse (readonly_memtable_vec_ w)) (get_key g)) as [x|].
  - rewrite bool_decide_false by (by rewrite (proj1 (fire_fields _))). done.
  - rewrite bool_decide_true by done. rewrite Hn, bind_Done_l, Hview.
    cbn [guard_fault mbind outcome_bind]. by rewrite vs_get_empty.
Qed.

(** What a Get the cache does not answer leaves in its context. *)
Definition got (w : TaskWorker) (g : GetContext) : GetContext :=
  match visible w (get_key g) with
  | Some x => get_setCode (get_setValue g x) kOk
  | None => get_setCode g kNotFound
  end.

Lemma handle_get_fresh (w : TaskWorker) (v : V) (g : GetContext) (n : Z) :
  tables_ok w → Entry.small (get_key g) → Memtable.getMemNumber (memtable_ w) = Done n →
  memview_manager_ w = true → vs_free v (Z.to_nat n) → vs_size v (Z.to_nat n) = Done O →
  KLRU.ok (klrucache_ w) → KLRU.cache_map_ (klrucache_ w) !! get_key g = None →
  0 < KLRU.max_probation_mem_size_ (klrucache_ w) →
  KLRU.total (KLRU.probation_list_ (klrucache_ w)) + zlen (get_key g) +
    zlen (get_value (got w g)) < 2 ^ 32 →
  ∃ c, handle_get w v g = Done (with_cache w c, v, get_fire (got w g)) ∧ KLRU.ok c ∧
       grown (klrucache_ w) (get_key g) c.
Proof.
  intros (Hm & Hro & _) Hk Hn Hview Hfree Hempty Hc Hmiss Hmax. unfold got, visible.
  cbn [newest foldr]. fold (newest (reverse (readonly_memtable_vec_ w)) (get_key g)).
  assert (Hget : KLRU.get (klrucache_ w) (get_key g) = Done (None, klrucache_ w))
    by (unfold KLRU.get; by rewrite Hmiss).
  assert (Hst : ∀ g1, get_key g1 = get_key g → get_code g1 = kOk ∨ get_code g1 = kNotFound →
    KLRU.total (KLRU.probation_list_ (klrucache_ w)) + zlen (get_key g) +
      zlen (get_value g1) < 2 ^ 32 →
    ∃ c, (c ← cache_store (klrucache_ w) (get_fire g1); Done (with_cache w c, v, get_fire g1)) =
           Done (with_cache w c, v, get_fire g1) ∧ KLRU.ok c ∧
         grown (klrucache_ w) (get_key g) c).
  { intros g1 E1 E2 Hs. destruct (fire_fields g1) as (Ec & Ek & Ev).
    destruct (cache_store_fresh (klrucache_ w) (get_fire g1)) as (c & -> & Hc' & Hg);
      [by rewrite ?Ec, ?Ek, ?Ev, ?E1..|]. rewrite Ek, E1 in Hg. by exists c. }
  destruct (table_value (memtable_ w) (get_key g)) as [x|] eqn:Hx; intros Hs.
  - rewrite (handle_get_active w v g x None (klrucache_ w)) by done.
    apply Hst; [done|by left|done].
  - rewrite (handle_get_below w v g n (klrucache_ w)) by done.
    apply Hst; [by destruct (newest _ _)| |done]. destruct (newest _ _); [by left|by right].
Qed.

(** C4: a Get that the cache does not answer sees the newest table. On a
    worker whose tables and cache are well-formed and whose cache does not hold
    the key, a Get finishes and calls back exactly once: with [kOk] and the
    value of the newest table that has the key — the active one, then the
    read-only ones from the last handed over — and if none has it and the views
    of the worker's number are empty, with [kNotFound]. The tables and the
    views are unchanged and the cache stays well-formed. *)
Theorem handle_get_newest (w : TaskWorker) (v : V) (g : GetContext) (n : Z)
  (Hok : tables_ok w) (Hk : Entry.small (get_key g))
  (Hn : Memtable.getMemNumber (memtable_ w) = Done n)
  (Hview : memview_manager_ w = true) (Hfree : vs_free v (Z.to_nat n))
  (Hempty : vs_size v (Z.to_nat n) = Done O)
  (Hc : KLRU.ok (klrucache_ w)) (Hmiss : KLRU.cache_map_ (klrucache_ w) !! get_key g = None)
  (Hmax : 0 < KLRU.max_probation_mem_size_ (klrucache_ w)) :
  let g' := match visible w (get_key g) with
            | Some x => get_setCode (get_setValue g x) kOk
            | None => get_setCode g kNotFound
            end in
  KLRU.total (KLRU.probation_list_ (klrucache_ w)) + zlen (get_key g) +
    zlen (get_value g') < 2 ^ 32 →
  ∃ c, handle_get w v g = Done (with_cache w c, v, get_fire g') ∧ KLRU.ok c.
Proof.
  intros g' Hs. destruct (handle_get_fresh w v g n) as (c & E & Hc' & _); try done.
  by exists c.
Qed.

(** *** A cache that has room *)

Lemma evict_nothing (c : KLRU.kLRUCache) :
  KLRU.probation_memory_usage_ c < KLRU.max_probation_mem_size_ c →
  KLRU.evict_probation c = Done c.
Proof.
  intros H. unfold KLRU.evict_probation. destruct c as [a b p q hot cold m fr].
  cbn [KLRU.probation_memory_usage_ KLRU.max_probation_mem_size_ KLRU.probation_list_ KLRU.cache_map_
    KLRU.protected_memory_usage_ KLRU.protected_list_ KLRU.max_protected_mem_size_ KLRU.fresh] in *.
  destruct (reverse cold) eqn:E; cbn [KLRU.evict]; rewrite (proj2 (Z.leb_gt _ _)) by done;
    cbn [mbind outcome_bind]; rewrite <- E, reverse_involutive; done.
Qed.

Lemma demote_nothing (cold : bool) (c : KLRU.kLRUCache) :
  KLRU.protected_memory_usage_ c < KLRU.max_protected_mem_size_ c →
  KLRU.demote_protected cold c = Done c.
Proof.
  intros H. unfold KLRU.demote_protected. destruct c as [a b p q hot pr m fr].
  cbn [KLRU.probation_memory_usage_ KLRU.max_probation_mem_size_ KLRU.probation_list_ KLRU.cache_map_
    KLRU.protected_memory_usage_ KLRU.protected_list_ KLRU.max_protected_mem_size_ KLRU.fresh] in *.
  destruct (reverse hot) eqn:E; cbn [KLRU.demote]; rewrite (proj2 (Z.leb_gt _ _)) by done;
    cbn [mbind outcome_bind]; rewrite <- E, reverse_involutive; done.
Qed.

(** The one record a miss leaves in an empty cache. *)
Definition missed (a b : Z) (k : bytes) : KLRU.kLRUCache :=
  KLRU.mkCache a b (zlen k) 0 [] [KLRU.mkHandle 0 (Some (0%nat, k)) [] false false]
    {[k := (0, 0)%nat]} 1.

Lemma erase_record_empty (a b : Z) (k : bytes) :
  zlen k < a → a < 2 ^ 32 → KLRU.setEraseRecord (KLRU.new_kLRUCache a b) k = Done (missed a b k).
Proof.
  intros H Ha. pose proof (Entry.zlen_nonneg k). unfold KLRU.setEraseRecord, KLRU.push_probation.
  cbn [KLRU.cache_map_ KLRU.new_kLRUCache]. rewrite lookup_empty.
  rewrite evict_nothing; cbn; rewrite u32_small by lia; done.
Qed.

(** A hit on that record: erased, and it moves to the hot list. *)
Lemma get_missed (a b : Z) (k : bytes) :
  0 < a → zlen k < b → b < 2 ^ 32 →
  ∃ c, KLRU.get (missed a b k) k = Done (Some (KLRU.mkAnswer None true), c) ∧
    KLRU.probation_memory_usage_ c = 0 ∧ KLRU.max_probation_mem_size_ c = a.
Proof.
  intros Ha H Hb. pose proof (Entry.zlen_nonneg k). unfold KLRU.get, missed.
  cbn [KLRU.cache_map_]. rewrite lookup_singleton_eq.
  cbn [KLRU.probation_list_ KLRU.protected_list_ app KLRU.find_node List.find KLRU.node].
  rewrite bool_decide_true by done. cbn [of_option mbind outcome_bind].
  cbn [KLRU.isExist KLRU.isHot KLRU.key KLRU.value KLRU.kv_size KLRU.max_probation_mem_size_
    KLRU.max_protected_mem_size_ KLRU.probation_memory_usage_ KLRU.protected_memory_usage_
    KLRU.fresh].
  unfold KLRU.deref. cbn [KLRU.key]. rewrite lookup_singleton_eq, decide_True by done.
  cbn [mbind outcome_bind]. unfold KLRU.kv_size. cbn [KLRU.value]. change (zlen (@nil Z)) with 0.
  rewrite Z.add_0_r, (u32_small (zlen k)), Z.sub_diag, (u32_small 0) by lia.
  rewrite demote_nothing by (cbn; by rewrite u32_small by lia).
  cbn [mbind outcome_bind]. rewrite evict_nothing by (cbn; lia). by eexists.
Qed.

(** C27: asking for a key before it is written hides the write. On a new
    worker — no tables, an empty cache with room for the key, no views — a Get
    of a key calls back [kNotFound] and leaves an "erased" record in the cache.
    A Set of that key, whose entry fits, does not touch the cache; so the next
    Get finds the value in the active table, calls back [kOk] with it, then
    consults the cache and calls back a second time with [kDelete], which is
    the status it ends with. *)
Theorem miss_hides_later_Set (a b : Z) (w : TaskWorker) (v : V) (c : SetContext) (n m : Z)
  (Hfit : Memtable.fits c n) (Ha : zlen (set_key c) < a < 2 ^ 32)
  (Hb : zlen (set_key c) < b < 2 ^ 32)
  (Hm : memtable_ w = Memtable.setNumber Memtable.init m) (Hro : readonly_memtable_vec_ w = [])
  (Hk : klrucache_ w = KLRU.new_kLRUCache a b) (Hview : memview_manager_ w = true)
  (Hfree : vs_free v (Z.to_nat (u32 m))) (Hempty : vs_size v (Z.to_nat (u32 m)) = Done O) :
  let g := mkGet (set_key c) [] kOk true [] in
  ∃ w' g1 g2, handle_all w v [TGet g; TSet c; TGet g] = Done (w', v, [TGet g1; TSet c; TGet g2]) ∧
    get_calls g1 = [(kNotFound, [])] ∧
    get_calls g2 = [(kOk, set_value c); (kDelete, set_value c)] ∧ get_code g2 = kDelete.
Proof.
  pose proof Hfit as (_ & Hn & Hkey & Hval & _). set (k := set_key c) in *. cbv zeta.
  pose proof (Entry.zlen_nonneg k).
  set (t := Memtable.setNumber Memtable.init m) in *.
  assert (Hok : Memtable.ok t) by exact Memtable.Memtable_init_ok.
  (* the miss *)
  assert (E1 : handle_get w v (mkGet k [] kOk true []) =
    Done (with_cache w (missed a b k), v, mkGet k [] kNotFound true [(kNotFound, [])])).
  { assert (Hmem : Memtable.getMemNumber t = Done (u32 m))
      by (unfold t, Memtable.getMemNumber; simpl; unfold u32, wrap; by rewrite Z.mod_mod).
    rewrite (handle_get_below w v _ (u32 m) (KLRU.new_kLRUCache a b));
      rewrite ?Hm, ?Hro, ?Hk; try done.
    cbn [reverse rev_append newest foldr]. unfold cache_store.
    change (get_key (get_fire _)) with k. change (get_code (get_fire _)) with kNotFound.
    rewrite bool_decide_true by (left; done). by rewrite erase_record_empty by lia. }
  (* the write *)
  destruct (Memtable.Set_spec t c n Hok Hfit) as (t' & Et & Hok' & _ & Hl).
  specialize (Hl k). change (Memtable.lookup t k) with (@None bytes) in Hl.
  unfold k in Hl at 2. rewrite decide_True in Hl by done.
  assert (Hx : table_value t' k = Some (set_value c)).
  { unfold table_value. rewrite Hl. cbn. by rewrite Memtable.read_entry_entry. }
  cbn [handle_all handle]. rewrite E1. cbn [mbind outcome_bind]. unfold handle_set.
  cbn [memtable_ with_cache]. rewrite Hm. fold t. rewrite Et. cbn [mbind outcome_bind].
  (* the read *)
  destruct (get_missed a b k) as (c2 & E2 & U2 & M2); [lia..|].
  set (w2 := with_tables _ _ _ _).
  assert (E3 : ∃ c3, handle_get w2 v (mkGet k [] kOk true []) =
    Done (with_cache w2 c3, v,
          mkGet k (set_value c) kDelete true [(kOk, set_value c); (kDelete, set_value c)])).
  { rewrite (handle_get_active w2 v _ (set_value c) (Some (KLRU.mkAnswer None true)) c2) by done.
    unfold cache_store.
    change (get_key (cache_answer _ _)) with k. change (get_code (cache_answer _ _)) with kDelete.
    rewrite bool_decide_true by (right; done).
    unfold KLRU.setEraseRecord. rewrite evict_nothing; [by eexists|].
    unfold KLRU.push_probation. cbn [KLRU.probation_memory_usage_ KLRU.max_probation_mem_size_].
    rewrite U2, M2, u32_small by lia. lia. }
  destruct E3 as [c3 ->]. cbn [mbind outcome_bind]. by eexists _, _, _.
Qed.

End Visible.

End Workers.
Arguments TaskWorker F : clear implicits.
Arguments SharedMemtable F : clear implicits.

(** ** The view manager is a view store *)
#[export] Instance manager_store {KF : KeyFilter Bloom.BloomFilter} :
    ViewStore MemtableView.MemTableViewManager := {|
  vs_get := MemtableView.getRequest;
  vs_size := MemtableView.getMemViewVecSize
|}.

#[export] Instance manager_store_laws {KF : KeyFilter Bloom.BloomFilter} :
  ViewStoreLaws MemtableView.MemTableViewManager.
Proof.
  refine {| vs_free := λ t n, ∃ l, MemtableView.mem_all_vec_ t !! n =
                                Some (MemtableView.mkVec l false false) |}.
  intros t n g (l & Hl) Hs. simpl in *. unfold MemtableView.getMemViewVecSize in Hs.
  rewrite Hl in Hs. cbn in Hs. destruct l as [|x l]; [|done].
  unfold MemtableView.getRequest. rewrite Hl. cbn. unfold MemtableView.with_vec,
    MemtableView.unlock. cbn. rewrite list_insert_id by done. by destruct t.
Defined.

(** ** Witnesses *)
Module Examples.
(** A compactor that keeps what it is given. *)
Definition keep_sink (F : Type) : ReadOnlySink (list (Memtable.Memtable F)) F := {|
  sink_add c t := Done (c ++ [t]);
  sink_refs _ := 1%nat
|}.

Definition keep_sink_laws (F : Type) : @ReadOnlySinkLaws _ F (keep_sink F).
Proof. refine (@Build_ReadOnlySinkLaws _ _ (keep_sink F) (λ _, True) _). intros c t _ _. by eexists. Defined.

Definition F : Type := list bytes.
Definition filter : KeyFilter F := Memtable.SetFilter.exact_filter.
Definition filter_laws : @KeyFilterLaws F filter := Memtable.SetFilter.exact_laws.
Definition V : Type := MemtableView.MemTableViewManager.
Definition views : ViewStore V := @manager_store MemtableView.any_filter.
Definition views_laws : @ViewStoreLaws V views := @manager_store_laws MemtableView.any_filter.

(** A worker of memtable 0 with the given limit. *)
Definition worker (limit : Z) : TaskWorker F :=
  mkWorker 0 0 (Memtable.setNumber (@Memtable.init F filter) 0) [] [] true limit true true []
    (KLRU.new_kLRUCache 100 400).

Lemma worker_ok (limit : Z) : @tables_ok F filter filter_laws (worker limit).
Proof.
  split; [exact (@Memtable.Memtable_init_ok F filter filter_laws)|].
  split; [constructor|by eexists].
Qed.

Definition shards : SharedMemtable F :=
  mkShared 0 2 [worker 0; worker 0] true.
End Examples.
Import Examples.

Lemma dispatch_all_sharded_witness :
  shards_ok shards ∧
  ∃ t', dispatch_all (λ k, zlen k) shards
          [TSet (new_SetContext (str "k") (str "v")); TGet (new_GetContext (str "kk"))] = Done t' ∧
    shards_ok t'.
Proof.
  assert (H : shards_ok shards) by (split; reflexivity).
  split; [exact H|].
  destruct (dispatch_all_sharded (λ k, zlen k) shards
    [TSet (new_SetContext (str "k") (str "v")); TGet (new_GetContext (str "kk"))] H)
    as (t' & E & Hok & _).
  exists t'. split; [exact E|exact Hok].
Defined.

Lemma rotate_keeps_visible_witness :
  @tables_ok F filter filter_laws (worker 0) ∧ compactor_ (worker 0) = true ∧
  @sink_add _ _ (keep_sink F) [] (Memtable.setReadOnly (memtable_ (worker 0))) =
    Done [Memtable.setReadOnly (memtable_ (worker 0))] ∧
  ∃ w' c', @rotate F _ filter (keep_sink F) (worker 0) [] = Done (w', c') ∧
    Memtable.getCompactionN (memtable_ w') = 1.
Proof.
  split; [apply worker_ok|]. split; [reflexivity|]. split; [reflexivity|].
  destruct (proj2 (proj2 (@rotate_keeps_visible F _ filter (keep_sink F) filter_laws
    (worker 0) [] _ (worker_ok 0) eq_refl eq_refl) ltac:(by vm_compute)) eq_refl)
    as (w' & E & _ & _ & _ & _ & _ & _ & _ & Hl).
  exists w', [Memtable.setReadOnly (memtable_ (worker 0))]. split; [exact E|exact Hl].
Defined.

Lemma handle_get_newest_witness :
  @tables_ok F filter filter_laws (worker 9) ∧
  @vs_free V views views_laws (MemtableView.Manager_Init 1) 0 ∧
  ∃ c, @handle_get F V filter views (worker 9) (MemtableView.Manager_Init 1)
         (mkGet (str "k") [] kOk true []) =
       Done (with_cache (worker 9) c, MemtableView.Manager_Init 1,
             mkGet (str "k") [] kNotFound true [(kNotFound, [])]).
Proof.
  assert (Hf : @vs_free V views views_laws (MemtableView.Manager_Init 1) 0)
    by (exists []; reflexivity).
  split; [apply worker_ok|]. split; [exact Hf|].
  destruct (@handle_get_newest F V filter views filter_laws views_laws
    (worker 9) (MemtableView.Manager_Init 1) (mkGet (str "k") [] kOk true []) 0 (worker_ok 9)
    eq_refl eq_refl eq_refl Hf eq_refl (KLRU.ok_new 100 400) eq_refl eq_refl eq_refl)
    as (c & E & _).
  exists c. exact E.
Defined.

Lemma miss_hides_later_Set_witness :
  Memtable.fits (Memtable.ex_set (str "k") (str "v") 1) 1 ∧
  ∃ w' g1 g2, @handle_all F V filter views (worker 9) (MemtableView.Manager_Init 1)
      [TGet (mkGet (str "k") [] kOk true []); TSet (Memtable.ex_set (str "k") (str "v") 1);
       TGet (mkGet (str "k") [] kOk true [])] =
    Done (w', MemtableView.Manager_Init 1,
          [TGet g1; TSet (Memtable.ex_set (str "k") (str "v") 1); TGet g2]) ∧
    get_code g2 = kDelete.
Proof.
  assert (H : Memtable.fits (Memtable.ex_set (str "k") (str "v") 1) 1) by (by vm_compute).
  split; [exact H|].
  destruct (@miss_hides_later_Set F V filter views filter_laws views_laws 100 400
    (worker 9) (MemtableView.Manager_Init 1) (Memtable.ex_set (str "k") (str "v") 1) 1 0 H
    ltac:(by vm_compute) ltac:(by vm_compute) eq_refl eq_refl eq_refl eq_refl
    ltac:(by exists []) eq_refl) as (w' & g1 & g2 & E & _ & _ & Hc).
  exists w', g1, g2. split; [exact E|exact Hc].
Defined.

End SharedMemtable.
