(* ===== verification/Worker.v ===== *)
(** * The worker's thread

    [TaskWorker::Run] of [src/db/shared_memtable.cpp] step by step, interleaved
    with the threads that add requests, notify, report flushed tables and stop
    the worker. [SharedMemtable.round] treats a turn of the loop as one step;
    here the loop is a machine with a program counter, the other threads act
    between any two of its steps, and the theorems say when a turn is that one
    step after all, that it ends, and where the condition variable and the
    unlocked counter go wrong. *)
From stdpp Require Import relations.
From S2P Require Import Prelude Request Entry Bloom Memtable KLRUCache MemtableView SharedMemtable.
Import Status Request SharedMemtable.

Module Worker.

(** Where the thread is. [Decided] is between finding the queue empty and
    waiting, [Dropped] between erasing the flushed tables and noting how many
    there were. *)
Inductive Pc : Type :=
  | AtLoop
  | Decided
  | Asleep
  | Awake
  | Handling (rest : list Memtask)
  | Dropping
  | Dropped
  | Rotating
  | Exited.

(** What the worker is sent. *)
Inductive Label : Type :=
  | LWorker
  | LAdd (h : Memtask)
  | LNotify
  | LWake
  | LFlushed
  | LStop.

Section Loop.
Context {F C V : Type} {KF : KeyFilter F} {RS : ReadOnlySink C F} {VS : ViewStore V}.

(** [pending] counts the [notify_one] calls that other threads are still to
    make. The rest is history: the tasks in the order they were added, the
    tasks taken, the contexts as the worker left them, and how many
    notifications arrived while the thread was [Decided]. *)
Record Sys : Type := mkSys {
  wk : TaskWorker F;
  vs : V;
  cs : C;
  pc : Pc;
  pending : nat;
  added : list Memtask;
  served : list Memtask;
  answered : list Memtask;
  missed : nat
}.

Definition at_pc (s : Sys) (p : Pc) : Sys :=
  mkSys (wk s) (vs s) (cs s) p (pending s) (added s) (served s) (answered s) (missed s).
Definition at_wk (s : Sys) (w : TaskWorker F) (p : Pc) : Sys :=
  mkSys w (vs s) (cs s) p (pending s) (added s) (served s) (answered s) (missed s).

Definition start (w : TaskWorker F) (v : V) (c : C) : Sys :=
  mkSys (set_running true w) v c AtLoop 0 [] [] [] 0.

(** ** The loop *)

Definition check (s : Sys) : Sys :=
  if isRunning_ (wk s) then
    match bg_handle_vec_ (wk s) with [] => at_pc s Decided | _ => at_pc s Awake end
  else at_pc s Exited.

Definition swap (s : Sys) : Sys :=
  let w := with_queues (wk s) (bg_handle_vec_ (wk s)) (handle_vec_ (wk s)) in
  at_wk s w (Handling (handle_vec_ w)).

Definition handle_one (s : Sys) (h : Memtask) (rest : list Memtask) : outcome Sys :=
  '(w, v, h') ← handle (wk s) (vs s) h;
  Done (mkSys w v (cs s) (Handling rest) (pending s) (added s) (served s ++ [h])
          (answered s ++ [h']) (missed s)).

(** The message after the loop. *)
Definition log_sizes (s : Sys) : outcome Sys :=
  number ← Memtable.getMemNumber (memtable_ (wk s));
  _ ← guard_fault (memview_manager_ (wk s)) NullDeref;
  _ ← vs_size (vs s) (Z.to_nat number);
  Done (at_pc s Dropping).

(** [remove_N_] is read here ... *)
Definition drop_tables (s : Sys) : outcome Sys :=
  let w := wk s in
  if preRemove_N_ w <? remove_N_ w then
    let size := u64 (remove_N_ w - preRemove_N_ w) in
    ro ← erase_front (Z.to_nat size) (readonly_memtable_vec_ w);
    Done (at_wk s (with_tables w (preRemove_N_ w) (memtable_ w) ro) Dropped)
  else Done (at_pc s Rotating).

(** ... and again here. *)
Definition drop_note (s : Sys) : Sys :=
  let w := wk s in
  at_wk s (with_tables w (remove_N_ w) (memtable_ w) (readonly_memtable_vec_ w)) Rotating.

Definition end_turn (s : Sys) : outcome Sys :=
  let w := with_queues (wk s) [] (bg_handle_vec_ (wk s)) in
  '(w, c) ← rotate w (cs s);
  Done (mkSys w (vs s) c AtLoop (pending s) (added s) (served s) (answered s) (missed s)).

(** One step of the thread; [None] when it cannot move by itself. *)
Definition wstep (s : Sys) : option (outcome Sys) :=
  match pc s with
  | AtLoop => Some (Done (check s))
  | Decided => Some (Done (at_pc s Asleep))
  | Asleep => None
  | Awake => Some (Done (swap s))
  | Handling (h :: rest) => Some (handle_one s h rest)
  | Handling [] => Some (log_sizes s)
  | Dropping => Some (drop_tables s)
  | Dropped => Some (Done (drop_note s))
  | Rotating => Some (end_turn s)
  | Exited => None
  end.

(** ** The other threads *)

Definition add (s : Sys) (h : Memtask) : Sys :=
  mkSys (addTask (wk s) h) (vs s) (cs s) (pc s) (S (pending s)) (added s ++ [h])
    (served s) (answered s) (missed s).

(** [notify_one] wakes a waiting thread and is forgotten when there is none. *)
Definition notified (s : Sys) : Sys :=
  mkSys (wk s) (vs s) (cs s) (match pc s with Asleep => Awake | p => p end)
    (pred (pending s)) (added s) (served s) (answered s)
    (match pc s with Decided => S (missed s) | _ => missed s end).

Definition flushed (s : Sys) : Sys :=
  let w := wk s in
  at_wk s (mkWorker (u64 (remove_N_ w + 1)) (preRemove_N_ w) (memtable_ w) (handle_vec_ w)
             (bg_handle_vec_ w) (isRunning_ w) (maxMemTableSize_ w) (compactor_ w)
             (memview_manager_ w) (readonly_memtable_vec_ w) (klrucache_ w)) (pc s).

(** The destructor notifies twice, once itself and once in [Stop], and joins. *)
Definition stop (s : Sys) : Sys :=
  mkSys (set_running false (wk s)) (vs s) (cs s) (pc s) (2 + pending s) (added s)
    (served s) (answered s) (missed s).

Inductive step : Label → Sys → Sys → Prop :=
  | step_worker s s' : wstep s = Some (Done s') → step LWorker s s'
  | step_add s h : step (LAdd h) s (add s h)
  | step_notify s : (0 < pending s)%nat → step LNotify s (notified s)
  | step_wake s : pc s = Asleep → step LWake s (at_pc s Awake)
  | step_flushed s : step LFlushed s (flushed s)
  | step_stop s : step LStop s (stop s).

Definition moves (s s' : Sys) : Prop := ∃ l, step l s s'.
Definition reachable (s0 s : Sys) : Prop := rtc moves s0 s.

(** ** First in, first out *)

(** The tasks of the turn that are still to be handled. *)
Definition todo (p : Pc) : list Memtask :=
  match p with Handling rest => rest | _ => [] end.

(** Before the swap the vector of the turn is empty. *)
Definition idle (p : Pc) : bool :=
  match p with AtLoop | Decided | Asleep | Awake => true | _ => false end.

Record fifo (s : Sys) : Prop := {
  fifo_order : added s = served s ++ todo (pc s) ++ bg_handle_vec_ (wk s);
  fifo_idle : idle (pc s) = true → handle_vec_ (wk s) = [];
  fifo_answers : length (answered s) = length (served s)
}.

(** Handling a task leaves the queues alone. *)
Lemma handle_queues (w w' : TaskWorker F) (v v' : V) (h h' : Memtask) :
  handle w v h = Done (w', v', h') →
  handle_vec_ w' = handle_vec_ w ∧ bg_handle_vec_ w' = bg_handle_vec_ w.
Proof.
  destruct h as [c|g|d|sn]; cbn [handle]; intros H.
  - unfold handle_set in H. inv_done. done.
  - apply bind_done in H as ([[w1 v1] g1] & H & E). inv_done. unfold handle_get in H.
    apply bind_done in H as (g2 & _ & H). apply bind_done in H as ([ue c] & _ & H).
    apply bind_done in H as (g3 & _ & H). apply bind_done in H as ([v3 g4] & _ & H).
    inv_done. done.
  - apply bind_done in H as ([w1 d1] & H & E). inv_done. unfold handle_delete in H.
    inv_done. done.
  - by inv_done.
Qed.

Lemma rotate_queues (w w' : TaskWorker F) (c c' : C) :
  rotate w c = Done (w', c') →
  handle_vec_ w' = handle_vec_ w ∧ bg_handle_vec_ w' = bg_handle_vec_ w.
Proof.
  unfold rotate. destruct (_ <=? _); intros H; inv_done; done.
Qed.

Lemma wstep_fifo (s s' : Sys) : wstep s = Some (Done s') → fifo s → fifo s'.
Proof.
  intros H [Ho Hi Ha]. unfold wstep in H. destruct (pc s) as [| | | |[|h rest]| | | |] eqn:Ep;
    try discriminate H; injection H as H; subst; cbn [todo app idle] in *.
  - unfold check. destruct (isRunning_ (wk s)), (bg_handle_vec_ (wk s)) eqn:Eb;
      split; cbn; rewrite ?Eb; auto.
  - split; cbn; auto.
  - unfold swap. split; cbn; [by rewrite Ho, (Hi eq_refl), app_nil_r|done|done].
  - unfold log_sizes in H. inv_done. split; cbn; auto.
  - apply bind_done in H as ([[w v] h'] & H & E). injection E as <-.
    apply handle_queues in H as [Hq1 Hq2].
    split; cbn; [by rewrite Hq2, Ho, <- app_assoc|done|rewrite !length_app; simpl; lia].
  - unfold drop_tables in H. destruct (_ <? _); inv_done; split; cbn; auto; done.
  - split; cbn; auto.
  - apply bind_done in H as ([w c] & H & E). injection E as <-.
    apply rotate_queues in H as [Hq1 Hq2]. split; cbn; rewrite ?Hq1, ?Hq2; auto.
Qed.

Lemma step_fifo (l : Label) (s s' : Sys) : step l s s' → fifo s → fifo s'.
Proof.
  intros H. destruct H as [s s' H|s h|s Hp|s Hp|s|s].
  - by apply wstep_fifo.
  - intros [Ho Hi Ha]. split; cbn; [by rewrite Ho, !app_assoc|done|done].
  - intros [Ho Hi Ha]. split; cbn; [|destruct (pc s); auto|done].
    by destruct (pc s).
  - intros [Ho Hi Ha]. rewrite Hp in *. split; cbn; auto.
  - by intros [Ho Hi Ha].
  - by intros [Ho Hi Ha].
Qed.

Lemma reachable_fifo (s0 s : Sys) : reachable s0 s → fifo s0 → fifo s.
Proof. induction 1 as [|s0 s1 s2 [l H] _ IH]; [done|]. eauto using step_fifo. Qed.
(** ** A turn as one step

    What the other threads do during a turn, other than reporting a flushed
    table, changes fields that the turn does not read. *)
Record transparent (f : TaskWorker F → TaskWorker F) : Prop := {
  tr_memtable : ∀ w, memtable_ (f w) = memtable_ w;
  tr_readonly : ∀ w, readonly_memtable_vec_ (f w) = readonly_memtable_vec_ w;
  tr_cache : ∀ w, klrucache_ (f w) = klrucache_ w;
  tr_views : ∀ w, memview_manager_ (f w) = memview_manager_ w;
  tr_compactor : ∀ w, compactor_ (f w) = compactor_ w;
  tr_max : ∀ w, maxMemTableSize_ (f w) = maxMemTableSize_ w;
  tr_remove : ∀ w, remove_N_ (f w) = remove_N_ w;
  tr_preRemove : ∀ w, preRemove_N_ (f w) = preRemove_N_ w;
  tr_tables : ∀ w n t ro, with_tables (f w) n t ro = f (with_tables w n t ro);
  tr_with_cache : ∀ w c, with_cache (f w) c = f (with_cache w c);
  tr_clear : ∀ w, with_queues (f w) [] (bg_handle_vec_ (f w)) =
                  f (with_queues w [] (bg_handle_vec_ w))
}.

Lemma addTask_transparent (h : Memtask) : transparent (λ w, addTask w h).
Proof. by split. Qed.

Lemma set_running_transparent (b : bool) : transparent (set_running b).
Proof. by split. Qed.

Section Transparent.
Context (f : TaskWorker F → TaskWorker F) (Hf : transparent f).

Lemma handle_transparent (w : TaskWorker F) (v : V) (h : Memtask) :
  handle (f w) v h = ('(w, v, h) ← handle w v h; Done (f w, v, h)).
Proof.
  destruct h as [c|g|d|sn]; cbn [handle]; [| | |done].
  - unfold handle_set. rewrite (tr_memtable f Hf), (tr_readonly f Hf), (tr_preRemove f Hf).
    bind_case. by rewrite (tr_tables f Hf).
  - unfold handle_get.
    rewrite (tr_memtable f Hf), (tr_readonly f Hf), (tr_cache f Hf), (tr_views f Hf).
    do 5 bind_case. by rewrite (tr_with_cache f Hf).
  - unfold handle_delete. rewrite (tr_memtable f Hf), (tr_readonly f Hf), (tr_preRemove f Hf).
    bind_case. by rewrite (tr_tables f Hf).
Qed.

Lemma handle_all_transparent (hs : list Memtask) : ∀ (w : TaskWorker F) (v : V),
  handle_all (f w) v hs = ('(w, v, r) ← handle_all w v hs; Done (f w, v, r)).
Proof.
  induction hs as [|h hs IH]; intros w v; cbn [handle_all]; [done|].
  rewrite handle_transparent. bind_case.
  rewrite IH. by bind_case.
Qed.

Lemma remove_flushed_transparent (w : TaskWorker F) :
  remove_flushed (f w) = (w ← remove_flushed w; Done (f w)).
Proof.
  unfold remove_flushed. rewrite (tr_remove f Hf), (tr_preRemove f Hf).
  destruct (_ <? _); [|done]. rewrite (tr_readonly f Hf), (tr_memtable f Hf). cbv zeta.
  bind_case. by rewrite (tr_tables f Hf).
Qed.

Lemma rotate_transparent (w : TaskWorker F) (c : C) :
  rotate (f w) c = ('(w, c) ← rotate w c; Done (f w, c)).
Proof.
  unfold rotate. rewrite (tr_max f Hf), (tr_memtable f Hf). destruct (_ <=? _); [|done].
  rewrite (tr_compactor f Hf), (tr_readonly f Hf), (tr_preRemove f Hf). cbv zeta.
  do 4 bind_case. by rewrite (tr_tables f Hf).
Qed.
End Transparent.
Definition in_turn (p : Pc) : bool :=
  match p with Handling _ | Dropping | Dropped | Rotating => true | _ => false end.

(** The rest of a turn, run without interruption. *)
Definition last_part (w : TaskWorker F) (v : V) (c : C) (ans : list Memtask)
  : outcome (TaskWorker F * V * C * list Memtask) :=
  '(w, c) ← rotate (with_queues w [] (bg_handle_vec_ w)) c; Done (w, v, c, ans).

Definition complete (s : Sys) : outcome (TaskWorker F * V * C * list Memtask) :=
  match pc s with
  | Handling rest =>
      '(w, v, hs) ← handle_all (wk s) (vs s) rest;
      number ← Memtable.getMemNumber (memtable_ w);
      _ ← guard_fault (memview_manager_ w) NullDeref;
      _ ← vs_size v (Z.to_nat number);
      w ← remove_flushed w;
      last_part w v (cs s) (answered s ++ hs)
  | Dropping => w ← remove_flushed (wk s); last_part w (vs s) (cs s) (answered s)
  | Dropped => last_part (wk (drop_note s)) (vs s) (cs s) (answered s)
  | Rotating => last_part (wk s) (vs s) (cs s) (answered s)
  | _ => Done (wk s, vs s, cs s, answered s)
  end.

Lemma complete_swap (s : Sys) :
  complete (swap s) = ('(w, v, c, hs) ← round (wk s) (vs s) (cs s);
                       Done (w, v, c, answered s ++ hs)).
Proof.
  unfold complete, round, last_part. cbn [pc swap at_wk wk vs cs answered]. cbv zeta.
  by do 6 bind_case.
Qed.

Lemma complete_wstep (s s' : Sys) :
  in_turn (pc s) = true → wstep s = Some (Done s') → complete s' = complete s.
Proof.
  intros Ht H. unfold wstep in H. destruct (pc s) as [| | | |[|h rest]| | | |] eqn:Ep;
    try discriminate Ht; injection H as H; subst.
  - unfold log_sizes in H. inv_done. unfold complete. rewrite Ep.
    cbn [pc at_pc handle_all wk vs cs answered]. rewrite bind_Done_l.
    rewrite H, bind_Done_l, H0, bind_Done_l, H1, bind_Done_l, app_nil_r. done.
  - apply bind_done in H as ([[w v] h'] & H & E). injection E as <-.
    unfold complete. rewrite Ep. cbn [pc handle_all wk vs cs answered].
    rewrite H, bind_Done_l, bind_assoc. destruct (handle_all w v rest) as [[[w1 v1] hs]|]; [|done].
    rewrite !bind_Done_l. by rewrite <- app_assoc.
  - unfold complete. rewrite Ep. unfold remove_flushed, drop_tables in *.
    destruct (_ <? _).
    + inv_done. cbn. rewrite H. done.
    + by inv_done.
  - unfold complete. rewrite Ep. done.
  - apply bind_done in H as ([w c] & H & E). injection E as <-.
    unfold complete at 2. rewrite Ep. unfold last_part. by rewrite H.
Qed.

(** What a step of another thread does to the worker. *)
Definition effect (l : Label) (w : TaskWorker F) : TaskWorker F :=
  match l with LAdd h => addTask w h | LStop => set_running false w | _ => w end.

Lemma complete_transparent (f : TaskWorker F → TaskWorker F) (s s' : Sys) :
  transparent f → in_turn (pc s) = true →
  wk s' = f (wk s) → vs s' = vs s → cs s' = cs s → pc s' = pc s →
  answered s' = answered s →
  complete s' = ('(w, v, c, a) ← complete s; Done (f w, v, c, a)).
Proof.
  intros Hf Ht Hw Hv Hc Hp Ha.
  assert (L : ∀ w v c a, last_part (f w) v c a =
    ('(w, v, c, a) ← last_part w v c a; Done (f w, v, c, a))).
  { intros w v c a. unfold last_part.
    rewrite (tr_clear f Hf), (rotate_transparent f Hf). by bind_case. }
  unfold complete. rewrite Hw, Hv, Hc, Hp, Ha. destruct (pc s); try discriminate Ht.
  - rewrite (handle_all_transparent f Hf). bind_case.
    rewrite (tr_memtable f Hf), (tr_views f Hf).
    do 3 bind_case. rewrite (remove_flushed_transparent f Hf). bind_case. apply L.
  - rewrite (remove_flushed_transparent f Hf). bind_case. apply L.
  - unfold drop_note. cbn [wk at_wk]. rewrite Hw, (tr_remove f Hf), (tr_memtable f Hf),
      (tr_readonly f Hf), (tr_tables f Hf). apply L.
  - apply L.
Qed.

Lemma complete_step (l : Label) (s s' : Sys) :
  in_turn (pc s) = true → l ≠ LFlushed → step l s s' →
  complete s' = ('(w, v, c, a) ← complete s; Done (effect l w, v, c, a)).
Proof.
  intros Ht Hl H.
  assert (I : complete s = ('(w, v, c, a) ← complete s; Done (w, v, c, a)))
    by (by destruct (complete s) as [[[[] ?] ?]|]).
  destruct H as [s s' H|s h|s Hp|s Hp|s|s].
  - rewrite (complete_wstep s s') by done. exact I.
  - by apply (complete_transparent (λ w, addTask w h)); [apply addTask_transparent|..].
  - rewrite (complete_transparent (λ w, w) s); [by destruct (complete s) as [[[[] ?] ?]|]|by split|..]; try done.
    cbn. by destruct (pc s).
  - by rewrite Hp in Ht.
  - done.
  - by apply complete_transparent; [apply set_running_transparent|..].
Qed.

(** A turn after its swap, as a sequence of steps of all threads in which no
    table is reported flushed. *)
Inductive turn : list Label → Sys → Sys → Prop :=
  | turn_nil s : turn [] s s
  | turn_cons l ls s s1 s2 :
      in_turn (pc s) = true → l ≠ LFlushed → step l s s1 → turn ls s1 s2 →
      turn (l :: ls) s s2.

Lemma turn_complete (ls : list Label) (s s' : Sys) :
  turn ls s s' →
  complete s' = ('(w, v, c, a) ← complete s; Done (foldl (flip effect) w ls, v, c, a)).
Proof.
  induction 1 as [s|l ls s s1 s2 Ht Hl H _ IH].
  - by destruct (complete s) as [[[[] ?] ?]|].
  - rewrite IH, (complete_step l s s1) by done. by bind_case.
Qed.

(** Every step of the thread brings the end of the turn nearer. *)
Definition steps_left (p : Pc) : nat :=
  match p with
  | Handling rest => length rest + 4
  | Dropping => 3
  | Dropped => 2
  | Rotating => 1
  | _ => 0
  end.

Definition is_worker (l : Label) : bool := match l with LWorker => true | _ => false end.

Lemma turn_steps (ls : list Label) (s s' : Sys) :
  turn ls s s' →
  (length (List.filter is_worker ls) + steps_left (pc s') ≤ steps_left (pc s))%nat.
Proof.
  induction 1 as [s|l ls s s1 s2 Ht Hl H _ IH]; [simpl; lia|].
  assert (G : (steps_left (pc s1) + (if is_worker l then 1 else 0) ≤ steps_left (pc s))%nat).
  { destruct H as [s s1 H|s h|s Hp|s Hp|s|s]; cbn [pc is_worker add flushed stop at_wk]; [|lia| | |done|lia].
    - unfold wstep in H. destruct (pc s) as [| | | |[|h rest]| | | |]; try discriminate Ht;
        injection H as H; subst;
        try unfold log_sizes, handle_one, drop_tables, end_turn in H.
      + inv_done. simpl. lia.
      + apply bind_done in H as ([[w v] h'] & H & E). injection E as <-. simpl. lia.
      + destruct (_ <? _); inv_done; simpl; lia.
      + simpl. lia.
      + apply bind_done in H as ([w c] & H & E). injection E as <-. simpl. lia.
    - cbn. destruct (pc s); simpl; lia || done.
    - by rewrite Hp in Ht. }
  cbn [List.filter]. destruct (is_worker l); simpl length; lia.
Qed.

(** The thread can move as long as the rest of its turn is defined. *)
Lemma turn_progress (s : Sys) (r : TaskWorker F * V * C * list Memtask) :
  in_turn (pc s) = true → complete s = Done r → ∃ s', wstep s = Some (Done s').
Proof.
  intros Ht H. unfold wstep. unfold complete in H.
  destruct (pc s) as [| | | |[|h rest]| | | |] eqn:Ep; try discriminate Ht.
  - cbn [handle_all] in H. rewrite bind_Done_l in H. unfold log_sizes.
    apply bind_done in H as (n & -> & H). apply bind_done in H as (u & Hg & H).
    apply bind_done in H as (k & Hk & H). eexists. rewrite !bind_Done_l, Hg, bind_Done_l, Hk. done.
  - cbn [handle_all] in H. rewrite bind_assoc in H. apply bind_done in H as ([[w v] h'] & E & H).
    eexists. unfold handle_one. rewrite E. done.
  - apply bind_done in H as (w & E & H). unfold remove_flushed in E. unfold drop_tables.
    destruct (_ <? _); [|by eexists]. apply bind_done in E as (ro & -> & E). by eexists.
  - by eexists.
  - apply bind_done in H as ([w c] & E & H). eexists. unfold end_turn. rewrite E. done.
Qed.

Lemma turn_served (ls : list Label) (s s' : Sys) :
  turn ls s s' → served s' ++ todo (pc s') = served s ++ todo (pc s).
Proof.
  induction 1 as [s|l ls s s1 s2 Ht Hl H _ IH]; [done|]. rewrite IH.
  destruct H as [s s1 H|s h|s Hp|s Hp|s|s]; try done.
  - unfold wstep in H. destruct (pc s) as [| | | |[|h rest]| | | |]; try discriminate Ht;
      injection H as H; subst;
        try unfold log_sizes, handle_one, drop_tables, end_turn in H.
    + by inv_done.
    + apply bind_done in H as ([[w v] h'] & H & E). injection E as <-. cbn.
      by rewrite <- app_assoc.
    + by destruct (_ <? _); inv_done.
    + done.
    + apply bind_done in H as ([w c] & H & E). by injection E as <-.
  - cbn. by destruct (pc s).
  - by rewrite Hp in Ht.
Qed.
Lemma turn_pc (ls : list Label) (s s' : Sys) :
  turn ls s s' → in_turn (pc s) = true → in_turn (pc s') = true ∨ pc s' = AtLoop.
Proof.
  induction 1 as [s|l ls s s1 s2 Ht Hl H Hr IH]; intros Hp; [by left|].
  assert (G : in_turn (pc s1) = true ∨ pc s1 = AtLoop).
  { destruct H as [s s1 H|s h|s Hq|s Hq|s|s]; try (left; exact Hp).
    - unfold wstep in H. destruct (pc s) as [| | | |[|h rest]| | | |]; try discriminate Ht;
        injection H as H; subst;
        try unfold log_sizes, handle_one, drop_tables, end_turn in H; try (by left).
      + inv_done. by left.
      + apply bind_done in H as ([[w v] h'] & H & E). injection E as <-. by left.
      + destruct (_ <? _); inv_done; by left.
      + apply bind_done in H as ([w c] & H & E). injection E as <-. by right.
    - left. cbn. by destruct (pc s).
    - by rewrite Hq in Ht. }
  destruct G as [G|G]; [by apply IH|]. right.
  destruct Hr as [|l' ls' s1 s3 s4 Ht1]; [done|]. by rewrite G in Ht1.
Qed.

(** The double-buffered queue is first in, first out and loses nothing.
    Starting a worker whose queues are empty, whatever the interleaving of its
    thread with threads that add requests, notify, report flushed tables or stop
    it, and wherever in a turn they act: the requests added so far, in the order
    of their [addTask]s, are those already handled, then those of the running
    turn that are not, then those of the next turn; and each handled request
    has been handled once. *)
Theorem worker_fifo (w : TaskWorker F) (v : V) (c : C) (s : Sys)
  (Hq : handle_vec_ w = []) (Hb : bg_handle_vec_ w = [])
  (Hr : reachable (start w v c) s) :
  added s = served s ++ todo (pc s) ++ bg_handle_vec_ (wk s) ∧
  length (answered s) = length (served s).
Proof.
  destruct (reachable_fifo _ s Hr) as [Ho _ Ha]; [|by split].
  split; cbn; [by rewrite Hb|done|done].
Qed.

Lemma turn_done (s s' : Sys) (ls : list Label)
  (Hs : pc s = Awake) (Ht : turn ls (swap s) s') (Hend : pc s' = AtLoop) :
  ∃ w hs, round (wk s) (vs s) (cs s) = Done (w, vs s', cs s', hs) ∧
    wk s' = foldl (flip effect) w ls ∧ answered s' = answered s ++ hs ∧
    served s' = served s ++ bg_handle_vec_ (wk s).
Proof.
  pose proof (turn_complete ls _ _ Ht) as H. rewrite complete_swap in H.
  unfold complete in H. rewrite Hend in H. symmetry in H.
  apply bind_done in H as ([[[w v] c] a] & H & E). injection E as E1 E2 E3 E4.
  apply bind_done in H as ([[[w1 v1] c1] hs] & H & E). injection E as <- <- <- <-.
  exists w1, hs. subst. split; [done|]. split; [done|]. split; [done|].
  pose proof (turn_served ls _ _ Ht) as Hsv. rewrite Hend in Hsv. cbn in Hsv.
  by rewrite app_nil_r in Hsv.
Qed.

(** A turn of the worker's thread is the single step [round]. Between the
    swap that starts a turn and its end, other threads may add requests, notify
    or stop the worker between any two steps of the thread, as long as no table
    is reported flushed. The turn then computes what [round] computes from the
    state before the swap - same tables, cache, views and compactor, same
    contexts called back in the same order - followed by what the other threads
    did to the queue and the running flag. *)
Theorem turn_is_round (s s' : Sys) (ls : list Label)
  (Hs : pc s = Awake) (Ht : turn ls (swap s) s') (Hend : pc s' = AtLoop) :
  ∃ w hs, round (wk s) (vs s) (cs s) = Done (w, vs s', cs s', hs) ∧
    wk s' = foldl (flip effect) w ls ∧ answered s' = answered s ++ hs ∧
    served s' = served s ++ bg_handle_vec_ (wk s).
Proof. by apply turn_done. Qed.

(** C9: a woken worker answers everything that is queued. If [round] is defined
    on the state of a woken worker, then however the other threads interleave
    with its turn (reporting no flushed table), its thread is never stuck before
    the end of the turn, the turn takes it at most four steps more than there
    are queued requests, and at its end every request queued at the swap has
    been handled and has the context [round] gives it. *)
Theorem turn_ends (s s' : Sys) (ls : list Label) (w : TaskWorker F) (v : V) (c : C)
  (hs : list Memtask)
  (Hs : pc s = Awake) (Hround : round (wk s) (vs s) (cs s) = Done (w, v, c, hs))
  (Ht : turn ls (swap s) s') :
  (length (List.filter is_worker ls) ≤ length (bg_handle_vec_ (wk s)) + 4)%nat ∧
  ((∃ s'', wstep s' = Some (Done s'')) ∧
   (in_turn (pc s') = true ∨
    pc s' = AtLoop ∧ answered s' = answered s ++ hs ∧
    served s' = served s ++ bg_handle_vec_ (wk s))).
Proof.
  pose proof (turn_steps ls _ _ Ht) as Hn. cbn in Hn. split; [lia|].
  pose proof (turn_complete ls _ _ Ht) as H. rewrite complete_swap, Hround in H.
  rewrite !bind_Done_l in H.
  destruct (turn_pc ls _ _ Ht eq_refl) as [Hp|Hp].
  - split; [by eapply turn_progress|by left].
  - split; [unfold wstep; rewrite Hp; by eexists|]. right. split; [done|].
    destruct (turn_done s s' ls Hs Ht Hp) as (w1 & hs1 & E & _ & Ha & Hsv).
    rewrite Hround in E. by injection E as _ _ _ <-.
Qed.

(** ** Sleeping *)

Definition dozing (p : Pc) : bool :=
  match p with Decided | Asleep => true | _ => false end.

Lemma step_dozing (l : Label) (s s' : Sys) :
  step l s s' →
  (missed s = O → dozing (pc s) = true → bg_handle_vec_ (wk s) ≠ [] → (0 < pending s)%nat) →
  missed s' = O → dozing (pc s') = true → bg_handle_vec_ (wk s') ≠ [] → (0 < pending s')%nat.
Proof.
  intros H IH. destruct H as [s s' H|s h|s Hp|s Hp|s|s]; cbn; intros Hm Hd Hb; try lia.
  - unfold wstep in H. destruct (pc s) as [| | | |[|h rest]| | | |] eqn:Ep; try discriminate H;
      injection H as H; subst; try done;
      try unfold log_sizes, handle_one, drop_tables, end_turn in H.
    + unfold check in *. destruct (isRunning_ (wk s)); [|done].
      destruct (bg_handle_vec_ (wk s)) eqn:E; [|done]. cbn in Hb. by rewrite E in Hb.
    + by apply IH.
    + by inv_done.
    + apply bind_done in H as ([[w v] h'] & H & E). by injection E as <-.
    + destruct (_ <? _); by inv_done.
    + apply bind_done in H as ([w c] & H & E). by injection E as <-.
  - by destruct (pc s).
  - by apply IH.
Qed.

(** C21: a queued request keeps its worker from sleeping, but for one window. In
    every interleaving in which no notification is delivered while the thread
    has found the queue empty and is about to wait, a thread that waits or is
    about to wait with a request in its queue has a notification coming. *)
Theorem queued_requests_are_notified (w : TaskWorker F) (v : V) (c : C) (s : Sys)
  (Hb : bg_handle_vec_ w = []) (Hr : reachable (start w v c) s)
  (Hm : missed s = O) (Hp : pc s = Decided ∨ pc s = Asleep)
  (Hq : bg_handle_vec_ (wk s) ≠ []) :
  (0 < pending s)%nat.
Proof.
  revert Hm Hq. assert (dozing (pc s) = true) as Hd by (by destruct Hp as [-> | ->]).
  revert Hd. clear Hp.
  assert (G : reachable (start w v c) s →
    missed s = O → dozing (pc s) = true → bg_handle_vec_ (wk s) ≠ [] → (0 < pending s)%nat);
    [|auto].
  clear Hr. intros Hr. remember (start w v c) as s0.
  assert (H0 : missed s0 = O → dozing (pc s0) = true → bg_handle_vec_ (wk s0) ≠ [] →
    (0 < pending s0)%nat) by (by subst).
  clear Heqs0 Hb w v c. induction Hr as [|s0 s1 s2 [l H] _ IH]; [done|].
  apply IH. by eapply step_dozing.
Qed.

(** C22: a request can be left behind. The thread reads the queue without the
    condition variable's mutex and waits without testing it again: if a request
    is added and notified between the two, the notification is lost and the
    thread sleeps with the request in its queue and no notification coming.
    Nothing the worker does and no notification already under way will serve it
    - only a spurious wake-up or another request or stop. The same window loses
    both notifications of the destructor, whose join then never returns. *)
Theorem lost_wakeup (s : Sys) (h : Memtask)
  (Hp : pc s = AtLoop) (Hrun : isRunning_ (wk s) = true)
  (Hb : bg_handle_vec_ (wk s) = []) (Hn : pending s = O) :
  (∃ s', reachable s s' ∧ pc s' = Asleep ∧ bg_handle_vec_ (wk s') = [h] ∧
     served s' = served s ∧
     ∀ l s'', step l s' s'' → l ≠ LWorker ∧ l ≠ LNotify) ∧
  (∃ s', reachable s s' ∧ pc s' = Asleep ∧ isRunning_ (wk s') = false ∧
     ∀ l s'', step l s' s'' → l ≠ LWorker ∧ l ≠ LNotify).
Proof.
  assert (Hc : step LWorker s (at_pc s Decided)).
  { apply step_worker. unfold wstep. rewrite Hp. unfold check. by rewrite Hrun, Hb. }
  assert (Hstuck : ∀ s', pc s' = Asleep → pending s' = O →
    ∀ l s'', step l s' s'' → l ≠ LWorker ∧ l ≠ LNotify).
  { intros s' Ep En l s'' H. destruct H as [s' s'' H| | | | |]; try done; [|lia].
    unfold wstep in H. by rewrite Ep in H. }
  split.
  - exists (at_pc (notified (add (at_pc s Decided) h)) Asleep).
    split; [|split; [done|split; [by cbn; rewrite Hb|split; [done|by apply Hstuck; cbn]]]].
    apply rtc_l with (at_pc s Decided); [by eexists|].
    apply rtc_l with (add (at_pc s Decided) h); [eexists; by apply step_add|].
    apply rtc_l with (notified (add (at_pc s Decided) h)).
    { eexists. apply step_notify. cbn. lia. }
    apply rtc_once. eexists. by apply step_worker.
  - exists (at_pc (notified (notified (stop (at_pc s Decided)))) Asleep).
    split; [|split; [done|split; [done|by apply Hstuck; cbn]]].
    apply rtc_l with (at_pc s Decided); [by eexists|].
    apply rtc_l with (stop (at_pc s Decided)); [eexists; by apply step_stop|].
    apply rtc_l with (notified (stop (at_pc s Decided))).
    { eexists. apply step_notify. cbn. lia. }
    apply rtc_l with (notified (notified (stop (at_pc s Decided)))).
    { eexists. apply step_notify. cbn. lia. }
    apply rtc_once. eexists. by apply step_worker.
Qed.

(** A flush reported at the wrong moment is forgotten. When a worker with
    one flushed table to drop is told of a second one after it has erased the
    first and before it notes how far it has come, the note covers both: the
    second table stays among the read-only tables, and no later turn drops it.
    Told before the turn instead, the worker drops both. *)
Theorem lost_flush (s : Sys) (t1 t2 : Memtable.Memtable F) (ro : list (Memtable.Memtable F))
  (Hp : pc s = Dropping) (Hpre : 0 ≤ preRemove_N_ (wk s) < 2 ^ 64 - 2)
  (Hrem : remove_N_ (wk s) = preRemove_N_ (wk s) + 1)
  (Hro : readonly_memtable_vec_ (wk s) = t1 :: t2 :: ro) :
  (∃ s1, drop_tables s = Done s1 ∧
     let w := wk (drop_note (flushed s1)) in
     readonly_memtable_vec_ w = t2 :: ro ∧ remove_flushed w = Done w) ∧
  (∃ w, remove_flushed (wk (flushed s)) = Done w ∧ readonly_memtable_vec_ w = ro).
Proof.
  unfold drop_tables, remove_flushed. cbn [wk at_wk flushed preRemove_N_ remove_N_
    readonly_memtable_vec_].
  rewrite Hrem, Hro.
  rewrite (proj2 (Z.ltb_lt _ _)) by lia.
  replace (preRemove_N_ (wk s) + 1 - preRemove_N_ (wk s)) with 1 by lia.
  rewrite (u64_small (preRemove_N_ (wk s) + 1 + 1)) by lia.
  rewrite (proj2 (Z.ltb_lt _ (_ + 1 + 1))) by lia.
  replace (preRemove_N_ (wk s) + 1 + 1 - preRemove_N_ (wk s)) with 2 by lia.
  split.
  - eexists. split; [reflexivity|]. cbn. split; [done|].
    by rewrite Z.ltb_irrefl.
  - eexists. split; [reflexivity|]. done.
Qed.
(** ** Running the machine *)

Definition wgo (s : Sys) : Sys :=
  match wstep s with Some (Done s') => s' | _ => s end.

Definition can_move (s : Sys) : bool :=
  match wstep s with Some (Done _) => true | _ => false end.

Lemma wgo_step (s : Sys) : can_move s = true → step LWorker s (wgo s).
Proof.
  unfold can_move, wgo. intros H. destruct (wstep s) as [[s'|]|] eqn:E; try done.
  by apply step_worker.
Qed.
End Loop.
Arguments Sys F C V : clear implicits.

(** ** Witnesses *)
Module Examples.
Export SharedMemtable.Examples.

Definition C : Type := list (Memtable.Memtable F).
#[export] Instance ex_filter : KeyFilter F := filter.
#[export] Instance ex_sink : ReadOnlySink C F := keep_sink F.
#[export] Instance ex_views : ViewStore V := views.

Definition set_k : Memtask := TSet (Memtable.ex_set (str "k") (str "v") 1).
Definition get_k : Memtask := TGet (mkGet (str "k") [] kOk true []).

(** A worker woken with a Set in its queue, and one about to look at its
    empty queue. *)
Definition woken : Sys F C V :=
  mkSys (addTask (worker 1000) set_k) (MemtableView.Manager_Init 1) [] Awake 0
    [set_k] [] [] 0.
Definition at_loop : Sys F C V := start (worker 1000) (MemtableView.Manager_Init 1) [].

(** The turn of [woken], with a Get added after the Set is handled. *)
Definition turn_labels : list Label := [LWorker; LAdd get_k; LWorker; LWorker; LWorker].
Definition turn_over : Sys F C V := wgo (wgo (wgo (add (wgo (swap woken)) get_k))).

Lemma woken_turn : turn turn_labels (swap woken) turn_over.
Proof.
  unfold turn_over, turn_labels.
  eapply turn_cons; [reflexivity|done|apply wgo_step; by vm_compute|].
  eapply turn_cons; [by vm_compute|done|apply step_add|].
  do 3 (eapply turn_cons; [by vm_compute|done|apply wgo_step; by vm_compute|]).
  apply turn_nil.
Qed.

(** Two flushed tables, of which the worker has been told one. *)
Definition table (n : Z) : Memtable.Memtable F := Memtable.setNumber Memtable.init n.
Definition dropping : Sys F C V :=
  mkSys (mkWorker 1 0 (table 0) [] [] true 1000 true true [table 1; table 2]
           (KLRU.new_kLRUCache 100 400))
    (MemtableView.Manager_Init 1) [] Dropping 0 [] [] [] 0.
End Examples.
Import Examples.

Lemma worker_fifo_witness :
  reachable at_loop (add at_loop get_k) ∧
  added (add at_loop get_k) = [get_k].
Proof.
  assert (H : reachable at_loop (add at_loop get_k))
    by (apply rtc_once; eexists; apply step_add).
  split; [exact H|].
  exact (proj1 (worker_fifo (worker 1000) _ _ _ eq_refl eq_refl H)).
Defined.

Lemma turn_is_round_witness :
  turn turn_labels (swap woken) turn_over ∧
  ∃ w hs, round (wk woken) (vs woken) (cs woken) = Done (w, vs turn_over, cs turn_over, hs).
Proof.
  split; [exact woken_turn|].
  destruct (turn_is_round woken turn_over turn_labels eq_refl woken_turn
    ltac:(by vm_compute)) as (w & hs & E & _).
  exists w, hs. exact E.
Defined.

Lemma turn_ends_witness :
  turn turn_labels (swap woken) turn_over ∧
  ∃ s'', wstep turn_over = Some (Done s'').
Proof.
  split; [exact woken_turn|].
  destruct (round (wk woken) (vs woken) (cs woken)) as [[[[w v] c] hs]|] eqn:E;
    [|by vm_compute in E].
  exact (proj1 (proj2 (turn_ends woken turn_over turn_labels w v c hs eq_refl E woken_turn))).
Defined.

Lemma queued_requests_are_notified_witness :
  reachable at_loop (add (wgo at_loop) get_k) ∧
  (0 < pending (add (wgo at_loop) get_k))%nat.
Proof.
  assert (H : reachable at_loop (add (wgo at_loop) get_k)).
  { apply rtc_l with (wgo at_loop); [eexists; apply wgo_step; by vm_compute|].
    apply rtc_once. eexists. apply step_add. }
  split; [exact H|].
  exact (queued_requests_are_notified (worker 1000) _ _ _ eq_refl H eq_refl
    (or_introl eq_refl) ltac:(by vm_compute)).
Defined.

Lemma lost_wakeup_witness :
  pc at_loop = AtLoop ∧
  ∃ s', reachable at_loop s' ∧ pc s' = Asleep ∧ bg_handle_vec_ (wk s') = [get_k].
Proof.
  split; [reflexivity|].
  destruct (proj1 (lost_wakeup at_loop get_k eq_refl eq_refl eq_refl eq_refl))
    as (s' & Hr & Hp & Hb & _).
  exists s'. split; [exact Hr|]. split; [exact Hp|exact Hb].
Defined.

Lemma lost_flush_witness :
  pc dropping = Dropping ∧
  ∃ s1, drop_tables dropping = Done s1 ∧
    readonly_memtable_vec_ (wk (drop_note (flushed s1))) = [table 2].
Proof.
  split; [reflexivity|].
  destruct (proj1 (lost_flush dropping (table 1) (table 2) [] eq_refl
    ltac:(by vm_compute) eq_refl eq_refl)) as (s1 & E & H & _).
  exists s1. split; [exact E|exact H].
Defined.

End Worker.
