(* ===== verification/Typing.v ===== *)
(** * Types

    The model keeps integers and bytes as [Z]. This file says which of them fit
    the type the source declares - counters of 32 or 64 bits, strings of bytes -
    for the contexts, the memtable, the cache, the worker and the machine of
    its thread, and shows that every operation keeps them so. The views are
    typed through the interface [ViewStoreTyped], which [MemtableView]'s manager
    implements. *)
From S2P Require Import Prelude Request KeyFormat Entry Bloom Memtable KLRUCache MemtableView SharedMemtable Worker.
Import Fixed Varint Status Request.

Module Typing.

Create HintDb typed.

(** ** Strings *)

Lemma u8_byte (x : Z) : is_byte (u8 x).
Proof. apply u8_range. Qed.
#[local] Hint Resolve u8_byte : typed.

Lemma bytes_take (n : nat) (s : bytes) : bytes_ok s → bytes_ok (take n s).
Proof. apply Forall_take. Qed.

Lemma bytes_drop (n : nat) (s : bytes) : bytes_ok s → bytes_ok (drop n s).
Proof. apply Forall_drop. Qed.

Lemma bytes_spaces (n : nat) : bytes_ok (spaces n).
Proof. unfold spaces. apply Forall_replicate. unfold is_byte. lia. Qed.

Lemma bytes_app (a b : bytes) : bytes_ok a → bytes_ok b → bytes_ok (a ++ b).
Proof. intros. by apply Forall_app. Qed.

Lemma bytes_c_data (s : bytes) : bytes_ok s → bytes_ok (c_data s).
Proof. intros. apply bytes_app; [done|]. constructor; [unfold is_byte; lia|done]. Qed.
#[local] Hint Resolve bytes_take bytes_drop bytes_spaces bytes_app bytes_c_data : typed.

Lemma wlp_wr (m : bytes) (p : nat) (bs : bytes) :
  bytes_ok m → bytes_ok bs → wlp (wr m p bs) bytes_ok.
Proof. intros Hm Hb. unfold wr. case_decide; simpl; auto with typed. Qed.

Lemma wlp_view (m : bytes) (p n : nat) : bytes_ok m → wlp (view m p n) bytes_ok.
Proof. intros Hm. unfold view. case_decide; simpl; auto with typed. Qed.

Lemma varint32_bytes_ok (v : Z) : bytes_ok (varint32_bytes v).
Proof. unfold varint32_bytes. repeat case_match; repeat constructor; apply u8_range. Qed.

Lemma varint64_bytes_ok (v : Z) : bytes_ok (varint64_bytes v).
Proof.
  unfold varint64_bytes. generalize 10%nat as n. intros n. revert v.
  induction n as [|n IH]; intros v; simpl; [done|].
  case_match; constructor; auto using u8_byte.
Qed.

Lemma wlp_encodeVarint32 (m : bytes) (p : nat) (v : Z) :
  bytes_ok m → wlp (encodeVarint32 m p v) (λ r, bytes_ok r.1).
Proof.
  intros Hm. eapply wlp_bind; [apply wlp_wr; [done|apply varint32_bytes_ok]|]. done.
Qed.

Lemma wlp_encodeVarint64 (m : bytes) (p : nat) (v : Z) :
  bytes_ok m → wlp (encodeVarint64 m p v) (λ r, bytes_ok r.1).
Proof.
  intros Hm. eapply wlp_bind; [apply wlp_wr; [done|apply varint64_bytes_ok]|]. done.
Qed.

Lemma wlp_encodeFixed8 (v : Z) (m : bytes) (p : nat) :
  bytes_ok m → wlp (formatEncodeFixed8 v m p) bytes_ok.
Proof.
  intros Hm. apply wlp_wr; [done|]. constructor; [apply u8_range|done].
Qed.

Lemma wlp_of_option {A} (e : fault) (o : option A) (P : A → Prop) :
  (∀ a, o = Some a → P a) → wlp (of_option e o) P.
Proof. destruct o; simpl; auto. Qed.

Lemma format_vec_ok (l : list nat) (i : nat) :
  wlp (of_option OutOfBounds (map spaces l !! i)) bytes_ok.
Proof.
  apply wlp_of_option. intros a H. apply list_lookup_fmap_Some in H as (n & -> & _).
  apply bytes_spaces.
Qed.

Lemma wlp_fmt32 (n : Z) : wlp (Memtable.fmt32 n) bytes_ok.
Proof. apply format_vec_ok. Qed.

Lemma wlp_fmt64 (n : Z) : wlp (Memtable.fmt64 n) bytes_ok.
Proof. apply format_vec_ok. Qed.

(** ** Contexts *)

Definition opt {A} (P : A → Prop) (o : option A) : Prop := ∀ a, o = Some a → P a.

Definition set_typed (c : SetContext) : Prop :=
  bytes_ok (set_key c) ∧ bytes_ok (set_value c) ∧ opt (is_u 64) (set_number c).
Definition get_typed (g : GetContext) : Prop :=
  bytes_ok (get_key g) ∧ bytes_ok (get_value g) ∧
  Forall (λ r, bytes_ok r.2) (get_calls g).
Definition del_typed (d : DeleteContext) : Prop :=
  bytes_ok (del_key d) ∧ opt (is_u 64) (del_number d).

Definition task_typed (h : SharedMemtable.Memtask) : Prop :=
  match h with
  | SharedMemtable.TSet c => set_typed c
  | SharedMemtable.TGet g => get_typed g
  | SharedMemtable.TDelete d => del_typed d
  | SharedMemtable.TSnapShot _ => True
  end.

Lemma get_setCode_typed (g : GetContext) (c : StatusCode) :
  get_typed g → get_typed (get_setCode g c).
Proof. by destruct g. Qed.

Lemma get_setValue_typed (g : GetContext) (v : bytes) :
  get_typed g → bytes_ok v → get_typed (get_setValue g v).
Proof. intros (Hk & _ & Hc) Hv. by destruct g. Qed.

Lemma get_fire_typed (g : GetContext) : get_typed g → get_typed (get_fire g).
Proof.
  intros (Hk & Hv & Hc). destruct g as [k v code [] calls]; [|done].
  split; [done|]. split; [done|]. simpl in *. apply Forall_app. by repeat constructor.
Qed.
#[local] Hint Resolve get_setCode_typed get_setValue_typed get_fire_typed : typed.

(** ** The memtable *)

Lemma wlp_insert {A} (lt : A → A → outcome bool) (P : A → Prop) (x : A) (l : list A) :
  P x → Forall P l → wlp (OrdSet.insert lt x l) (Forall P).
Proof.
  intros Hx. induction 1 as [|y l Hy Hl IH]; simpl; [by constructor|].
  apply wlp_skip. intros [|]; [by repeat constructor|].
  apply wlp_skip. intros [|]; [|by constructor].
  eapply wlp_bind; [exact IH|]. intros l' Hl'. by constructor.
Qed.

Lemma wlp_find {A} (lt : A → A → outcome bool) (P : A → Prop) (x : A) (l : list A) :
  Forall P l → wlp (OrdSet.find lt x l) (opt P).
Proof.
  induction 1 as [|y l Hy Hl IH]; simpl; [done|].
  apply wlp_skip. intros [|]; [done|]. apply wlp_skip. intros [|]; [done|].
  by intros a [= <-].
Qed.

Lemma set_entry_typed (c : SetContext) : set_typed c → wlp (Memtable.set_entry c) bytes_ok.
Proof.
  intros (Hk & Hv & _). unfold Memtable.set_entry.
  eapply wlp_bind; [apply wlp_fmt32|]. intros f1 H1.
  eapply wlp_bind; [apply wlp_fmt64|]. intros f2 H2.
  eapply wlp_bind; [apply wlp_fmt32|]. intros f3 H3. cbv zeta.
  eapply wlp_bind; [apply wlp_encodeVarint32|]; unfold Memtable.kEmpty1Space; auto 10 with typed.
  intros [b p] Hb. apply wlp_skip. intros n.
  eapply wlp_bind; [by apply wlp_encodeVarint64|]. intros [b1 p1] Hb1.
  eapply wlp_bind; [by apply wlp_encodeFixed8|]. intros b2 Hb2.
  eapply wlp_bind; [by apply wlp_encodeVarint32|]. by intros [b3 p3] Hb3.
Qed.

Lemma delete_entry_typed (d : DeleteContext) :
  del_typed d → wlp (Memtable.delete_entry d) bytes_ok.
Proof.
  intros (Hk & _). unfold Memtable.delete_entry. apply wlp_skip. intros n.
  eapply wlp_bind; [apply wlp_fmt32|]. intros f1 H1.
  eapply wlp_bind; [apply wlp_fmt64|]. intros f2 H2. cbv zeta.
  eapply wlp_bind; [apply wlp_encodeVarint32|]; unfold Memtable.kEmpty1Space; auto 10 with typed.
  intros [b p] Hb. eapply wlp_bind; [by apply wlp_encodeVarint32|].
  intros [b1 p1] Hb1. by apply wlp_encodeFixed8.
Qed.

Lemma read_entry_typed (s : bytes) :
  bytes_ok s → wlp (Memtable.read_entry s) (opt bytes_ok).
Proof.
  intros Hs. unfold Memtable.read_entry. cbv zeta. do 3 (apply wlp_skip; intros ?).
  destruct a1 as [end_ptr size]. apply wlp_skip. intros [q n]. apply wlp_skip. intros ty.
  case_match; [done|]. apply wlp_skip. intros r.
  eapply (wlp_bind _ _ bytes_ok).
  - destruct r as [[vp n']|]; [|exact (Forall_nil_2 _)]. apply wlp_view. auto with typed.
  - by intros v Hv ? [= <-].
Qed.

Section Table.
Context {F : Type} {KF : KeyFilter F}.

Record table_typed (t : Memtable.Memtable F) : Prop := {
  tt_size : is_u 32 (Memtable.memSize_ t);
  tt_number : opt (is_u 64) (Memtable.memtable_number_ t);
  tt_compaction : is_u 32 (Memtable.compaction_number_ t);
  tt_refs : is_u 32 (Memtable.refs_ t);
  tt_entries : Forall bytes_ok (Memtable.memMap_ t)
}.

Lemma init_typed : table_typed Memtable.init.
Proof. split; cbn; done. Qed.

Lemma Set_typed (t : Memtable.Memtable F) (c : SetContext) :
  table_typed t → set_typed c → wlp (Memtable.Set_ t c) table_typed.
Proof.
  intros [H1 H2 H3 H4 H5] Hc. unfold Memtable.Set_.
  eapply wlp_bind; [by apply set_entry_typed|]. intros s Hs. apply wlp_skip. intros f.
  eapply wlp_bind; [by apply wlp_insert|]. intros m Hm. cbv zeta.
  split; try done. cbn. case_bool_decide; [apply u32_range|done].
Qed.

Lemma Delete_typed (t : Memtable.Memtable F) (d : DeleteContext) :
  table_typed t → del_typed d → wlp (Memtable.Delete t d) table_typed.
Proof.
  intros [H1 H2 H3 H4 H5] Hd. unfold Memtable.Delete.
  eapply wlp_bind; [by apply delete_entry_typed|]. intros s Hs. apply wlp_skip. intros f.
  eapply wlp_bind; [by apply wlp_insert|]. intros m Hm. by split.
Qed.

Lemma Get_typed (t : Memtable.Memtable F) (g : GetContext) :
  table_typed t → get_typed g → wlp (Memtable.Get t g) get_typed.
Proof.
  intros [H1 H2 H3 H4 H5] Hg. unfold Memtable.Get. apply wlp_skip.
  intros [|]; [|simpl; auto with typed]. apply wlp_skip. intros s.
  eapply wlp_bind; [by apply wlp_find|]. intros [e|] He; [|simpl; auto with typed].
  eapply wlp_bind; [apply read_entry_typed; by apply He|].
  intros [v|] Hv; simpl; auto with typed.
Qed.

Lemma setReadOnly_typed (t : Memtable.Memtable F) :
  table_typed t → table_typed (Memtable.setReadOnly t).
Proof. by intros [H1 H2 H3 H4 H5]. Qed.

Lemma setNumber_typed (t : Memtable.Memtable F) (n : Z) :
  table_typed t → table_typed (Memtable.setNumber t n).
Proof.
  intros [H1 H2 H3 H4 H5]. split; try done. cbn. intros a [= <-].
  pose proof (u32_range n). unfold is_u. lia.
Qed.

Lemma setCompactionN_typed (t : Memtable.Memtable F) (n : Z) :
  table_typed t → table_typed (Memtable.setCompactionN t (u32 n)).
Proof. intros [H1 H2 H3 H4 H5]. split; try done. apply u32_range. Qed.

Lemma refs_typed (t : Memtable.Memtable F) :
  table_typed t →
  table_typed (Memtable.addRefs t) ∧ table_typed (Memtable.decreaseRefs t).
Proof. intros [H1 H2 H3 H4 H5]. split; split; try done; apply u32_range. Qed.
End Table.

(** ** The cache *)
Section Cache.
Import KLRU.

Record handle_typed (h : CacheHandle) : Prop := {
  ht_key : ∀ a k, key h = Some (a, k) → bytes_ok k;
  ht_value : bytes_ok (value h)
}.

Definition keys_typed (m : gmap bytes (nat * nat)) : Prop :=
  ∀ k e, m !! k = Some e → bytes_ok k.

Record cache_typed (c : kLRUCache) : Prop := {
  ct_cold_max : is_u 32 (max_probation_mem_size_ c);
  ct_hot_max : is_u 32 (max_protected_mem_size_ c);
  ct_cold : is_u 32 (probation_memory_usage_ c);
  ct_hot : is_u 32 (protected_memory_usage_ c);
  ct_hot_list : Forall handle_typed (protected_list_ c);
  ct_cold_list : Forall handle_typed (probation_list_ c);
  ct_map : keys_typed (cache_map_ c)
}.

#[local] Hint Resolve is_u_u32 : typed.

Lemma keys_delete (m : gmap bytes (nat * nat)) (k : bytes) :
  keys_typed m → keys_typed (delete k m).
Proof. intros H k' e He. apply lookup_delete_Some in He as [_ He]. by eapply H. Qed.

Lemma keys_assign (m : gmap bytes (nat * nat)) (k : bytes) (it : nat) :
  keys_typed m → keys_typed (map_assign m k it).
Proof.
  intros H k' e He. unfold map_assign in He. destruct (decide (k' = k)) as [->|Hne].
  - rewrite lookup_alter_eq in He. destruct (m !! k) as [x|] eqn:E; [|done]. by eapply H.
  - rewrite lookup_alter_ne in He by done. by eapply H.
Qed.

Lemma keys_insert (m : gmap bytes (nat * nat)) (k : bytes) (e : nat * nat) :
  bytes_ok k → keys_typed m → keys_typed (<[k := e]> m).
Proof.
  intros Hk H k' e' He. destruct (decide (k' = k)) as [->|Hne]; [done|].
  rewrite lookup_insert_ne in He by done. by eapply H.
Qed.

Lemma evict_typed (limit : Z) (back : list CacheHandle) : ∀ usage m,
  Forall handle_typed back → is_u 32 usage → keys_typed m →
  wlp (evict limit back usage m)
    (λ r, Forall handle_typed r.1.1 ∧ is_u 32 r.1.2 ∧ keys_typed r.2).
Proof.
  induction back as [|h back IH]; intros usage m Hb Hu Hm; simpl; case_match; try done.
  apply Forall_cons in Hb as [Hh Hb]. apply wlp_skip. intros k.
  apply IH; [done|apply is_u_u32|by apply keys_delete].
Qed.

Lemma evict_probation_typed (c : kLRUCache) :
  cache_typed c → wlp (evict_probation c) cache_typed.
Proof.
  intros [H1 H2 H3 H4 H5 H6 H7]. unfold evict_probation.
  eapply wlp_bind; [apply evict_typed; [by apply Forall_reverse|done|done]|].
  intros [[back usage] m] (Hb & Hu & Hm). split; try done. by apply Forall_reverse.
Qed.

Lemma demote_typed (cold : bool) (limit : Z) (back : list CacheHandle) :
  ∀ hot pr usage m next,
  Forall handle_typed back → is_u 32 hot → Forall handle_typed pr → is_u 32 usage →
  keys_typed m →
  wlp (demote cold limit back hot pr usage m next)
    (λ '(back, hot, pr, usage, m, _), Forall handle_typed back ∧ is_u 32 hot ∧
       Forall handle_typed pr ∧ is_u 32 usage ∧ keys_typed m).
Proof.
  induction back as [|h back IH]; intros hot pr usage m next Hb Hh Hp Hu Hm; simpl;
    case_match; try done.
  apply Forall_cons in Hb as [Hx Hb]. do 2 (apply wlp_skip; intros ?).
  destruct Hx as [Hx1 Hx2].
  apply IH; [done|apply is_u_u32|by constructor|destruct cold; [apply is_u_u32|done]|].
  by apply keys_assign.
Qed.

Lemma demote_protected_typed (cold : bool) (c : kLRUCache) :
  cache_typed c → wlp (demote_protected cold c) cache_typed.
Proof.
  intros [H1 H2 H3 H4 H5 H6 H7]. unfold demote_protected.
  eapply wlp_bind; [apply demote_typed; [by apply Forall_reverse|done..]|].
  intros [[[[[back hot] pr] usage] m] next] (Hb & Hh & Hp & Hu & Hm).
  split; try done. by apply Forall_reverse.
Qed.

Lemma push_typed (c : kLRUCache) (k v : bytes) (e : bool) (size : Z) :
  cache_typed c → bytes_ok k → bytes_ok v → cache_typed (push_probation c k v e size).
Proof.
  intros [H1 H2 H3 H4 H5 H6 H7] Hk Hv. split; try done; cbn.
  - apply is_u_u32.
  - constructor; [|done]. split; [|done]. by intros a k' [= _ <-].
  - by apply keys_insert.
Qed.

Lemma set_cache_typed (c : kLRUCache) (k v : bytes) :
  cache_typed c → bytes_ok k → bytes_ok v → wlp (set c k v) cache_typed.
Proof. intros. by apply evict_probation_typed, push_typed. Qed.

Lemma setErase_typed (c : kLRUCache) (k : bytes) :
  cache_typed c → bytes_ok k → wlp (setEraseRecord c k) cache_typed.
Proof. intros. apply evict_probation_typed, push_typed; [done|done|constructor]. Qed.

Definition answer_typed (o : option Answer) : Prop :=
  opt (λ a, opt bytes_ok (out_value a)) o.

Lemma find_node_typed (it : nat) (l : list CacheHandle) :
  Forall handle_typed l → wlp (of_option Dangling (find_node it l)) handle_typed.
Proof.
  intros Hl. apply wlp_of_option. intros h H. apply List.find_some in H as [H _].
  rewrite Forall_forall in Hl. apply Hl. by apply list_elem_of_In.
Qed.

Lemma get_cache_typed (c : kLRUCache) (k : bytes) :
  cache_typed c → wlp (get c k) (λ r, answer_typed r.1 ∧ cache_typed r.2).
Proof.
  intros Hc. pose proof Hc as [H1 H2 H3 H4 H5 H6 H7]. unfold get.
  destruct (cache_map_ c !! k) as [[a it]|] eqn:Ek; [|by split].
  pose proof (H7 _ _ Ek) as Hk.
  eapply wlp_bind; [apply find_node_typed; by apply Forall_app|]. intros h [Hh1 Hh2].
  cbv zeta.
  assert (Ha : answer_typed (Some (if isExist h then mkAnswer (Some (value h)) false
                                   else mkAnswer None true))).
  { intros x [= <-]. destruct (isExist h); [|done]. by intros y [= <-]. }
  assert (Hn : handle_typed (mkHandle (fresh c) (key h) (value h) true (isExist h)))
    by (by split).
  destruct (isHot h); apply wlp_skip; intros kb.
  - eapply wlp_bind; [apply demote_protected_typed|by intros c2 Hc2].
    assert (Hold : ∀ l, Forall handle_typed l → Forall handle_typed
      (map (λ g, if bool_decide (node g = it)
                 then mkHandle (node g) (Some (a, k)) [] (isHot g) (isExist g) else g) l)).
    { intros l Hl. apply Forall_map. eapply Forall_impl; [exact Hl|]. intros g Hg. cbn.
      case_bool_decide; [|done]. split; [by intros a' k' [= _ <-]|constructor]. }
    split; try done; cbn; [constructor; auto|auto|by apply keys_assign].
  - eapply wlp_bind; [apply demote_protected_typed|].
    { split; try done; cbn; [apply is_u_u32|apply is_u_u32|by constructor| |by apply keys_assign].
      apply Forall_forall. intros g Hg. apply list_elem_of_In, List.filter_In in Hg as [Hg _].
      rewrite Forall_forall in H6. apply H6. by apply list_elem_of_In. }
    intros c2 Hc2. eapply wlp_bind; [by apply evict_probation_typed|]. by intros c3 Hc3.
Qed.

Lemma new_cache_typed (a b : Z) : is_u 32 a → is_u 32 b → cache_typed (new_kLRUCache a b).
Proof.
  intros Ha Hb. split; cbn; [done|done|by vm_compute|by vm_compute|constructor|constructor|].
  intros k e H. by rewrite lookup_empty in H.
Qed.
End Cache.

(** ** Views *)

(** What a store of views must keep for a worker's contexts to stay typed. *)
Class ViewStoreTyped (V : Type) {VS : ViewStore V} : Type := {
  views_typed : V → Prop;
  vs_get_typed : ∀ v n g, views_typed v → get_typed g →
    wlp (vs_get v n g) (λ r, views_typed r.1 ∧ get_typed r.2)
}.

Section Views.
Import MemtableView.

Definition view_typed (w : MemTable_view) : Prop :=
  Forall (λ e, bytes_ok (sv_data e)) (memMapView_ w).
Definition manager_typed (t : MemTableViewManager) : Prop :=
  Forall (λ v, Forall view_typed (memtable_vec_ v)) (mem_all_vec_ t).

Context {KF : KeyFilter Bloom.BloomFilter}.

Lemma read_view_typed (e : sview) : bytes_ok (sv_data e) → wlp (read_view e) bytes_ok.
Proof.
  intros He. unfold read_view. do 3 (apply wlp_skip; intros ?). destruct a1.
  cbv zeta. do 2 (apply wlp_skip; intros ?). destruct a2. by apply wlp_view.
Qed.

Lemma view_Get_typed (w : MemTable_view) (g : GetContext) :
  view_typed w → get_typed g → wlp (Get w g) get_typed.
Proof.
  intros Hw Hg. unfold Get. apply wlp_skip. intros [|]; [|simpl; auto with typed].
  apply wlp_skip. intros s. eapply wlp_bind; [by apply wlp_find|].
  intros [e|] He; [|simpl; auto with typed]. case_decide; [simpl; auto with typed|].
  eapply wlp_bind; [apply read_view_typed; by apply He|]. intros v Hv. simpl. auto with typed.
Qed.

Lemma scan_typed (ws : list MemTable_view) : ∀ g,
  Forall view_typed ws → get_typed g → wlp (scan ws g) (λ r, get_typed r.2).
Proof.
  induction ws as [|w ws IH]; intros g Hws Hg; [done|].
  apply Forall_cons in Hws as [Hw Hws]. simpl.
  eapply wlp_bind; [by apply view_Get_typed|]. intros g' Hg'. case_bool_decide; [done|auto].
Qed.

#[export] Program Instance manager_store_typed :
  @ViewStoreTyped MemTableViewManager SharedMemtable.manager_store := {| views_typed := manager_typed |}.
Next Obligation.
  intros t n g Ht Hg. simpl. unfold getRequest.
  apply (wlp_bind _ _ (λ v, Forall view_typed (memtable_vec_ v))).
  { apply wlp_of_option. intros v Hv. eapply Forall_lookup_1 in Ht; [|exact Hv]. done. }
  intros v Hv. eapply (wlp_bind _ _ (λ v, Forall view_typed (memtable_vec_ v))).
  { unfold lock. by destruct (held v). }
  intros v' Hv'. eapply wlp_bind; [apply scan_typed; [by apply Forall_reverse|done]|].
  intros [found g'] Hg'. split; [|done]. apply Forall_insert; [done|]. by destruct found.
Qed.
End Views.

(** ** The worker and its thread *)
Section Worker.
Import SharedMemtable Worker.
Context {F C V : Type} {KF : KeyFilter F} {RS : ReadOnlySink C F} {VS : ViewStore V}
  {VT : ViewStoreTyped V}.

Record worker_typed (w : TaskWorker F) : Prop := {
  wt_remove : is_u 64 (remove_N_ w);
  wt_preRemove : is_u 64 (preRemove_N_ w);
  wt_memtable : table_typed (memtable_ w);
  wt_queue : Forall task_typed (handle_vec_ w);
  wt_bg : Forall task_typed (bg_handle_vec_ w);
  wt_max : is_u 32 (maxMemTableSize_ w);
  wt_readonly : Forall table_typed (readonly_memtable_vec_ w);
  wt_cache : cache_typed (klrucache_ w)
}.

Lemma with_queues_typed (w : TaskWorker F) (a b : list Memtask) :
  worker_typed w → Forall task_typed a → Forall task_typed b →
  worker_typed (with_queues w a b).
Proof. by intros [H1 H2 H3 H4 H5 H6 H7 H8]. Qed.

Lemma with_tables_typed (w : TaskWorker F) (n : Z) (t : Memtable.Memtable F)
    (ro : list (Memtable.Memtable F)) :
  worker_typed w → is_u 64 n → table_typed t → Forall table_typed ro →
  worker_typed (with_tables w n t ro).
Proof. by intros [H1 H2 H3 H4 H5 H6 H7 H8]. Qed.

Lemma with_cache_typed (w : TaskWorker F) (c : KLRU.kLRUCache) :
  worker_typed w → cache_typed c → worker_typed (with_cache w c).
Proof. by intros [H1 H2 H3 H4 H5 H6 H7 H8]. Qed.

Lemma scan_readonly_typed (ts : list (Memtable.Memtable F)) : ∀ g,
  Forall table_typed ts → get_typed g → wlp (scan_readonly ts g) get_typed.
Proof.
  induction ts as [|t ts IH]; intros g Hts Hg; [done|].
  apply Forall_cons in Hts as [Ht Hts]. cbn [scan_readonly].
  eapply wlp_bind; [by apply Get_typed|]. intros g' Hg'.
  destruct (is_found g'); [|by apply IH]. simpl. auto with typed.
Qed.

Lemma cache_answer_typed (g : GetContext) (o : option KLRU.Answer) :
  get_typed g → answer_typed o → get_typed (cache_answer g o).
Proof.
  intros Hg Ho. destruct o as [[ov e]|]; [|done]. simpl.
  apply get_fire_typed, get_setCode_typed. destruct ov as [x|]; [|done].
  apply get_setValue_typed; [done|]. by apply (Ho _ eq_refl).
Qed.

Lemma cache_store_typed (c : KLRU.kLRUCache) (g : GetContext) :
  cache_typed c → get_typed g → wlp (cache_store c g) cache_typed.
Proof.
  intros Hc (Hk & Hv & _). unfold cache_store. case_bool_decide; [by apply setErase_typed|].
  case_bool_decide; [by apply set_cache_typed|done].
Qed.

Lemma handle_get_typed (w : TaskWorker F) (v : V) (g : GetContext) :
  worker_typed w → views_typed v → get_typed g →
  wlp (handle_get w v g) (λ r, worker_typed r.1.1 ∧ views_typed r.1.2 ∧ get_typed r.2).
Proof.
  intros Hw Hv Hg. pose proof Hw as [H1 H2 H3 H4 H5 H6 H7 H8]. unfold handle_get.
  eapply wlp_bind; [by apply Get_typed|]. intros g1 Hg1. cbv zeta.
  assert (Hf : get_typed (if is_found g1 then get_fire g1 else g1))
    by (destruct (is_found g1); auto with typed).
  eapply wlp_bind; [by apply get_cache_typed|]. intros [ue cache] [Hue Hcache].
  apply (wlp_bind _ _ get_typed).
  { case_bool_decide; [apply scan_readonly_typed; [by apply Forall_reverse|]|];
      by apply cache_answer_typed. }
  intros g2 Hg2. apply (wlp_bind _ _ (λ r, views_typed r.1 ∧ get_typed r.2)).
  { case_bool_decide; [|done]. do 2 (apply wlp_skip; intros ?).
    eapply wlp_bind; [by apply vs_get_typed|]. intros [v' g3] [Hv' Hg3].
    split; [done|]. by apply get_fire_typed. }
  intros [v' g3] [Hv' Hg3]. eapply wlp_bind; [by apply cache_store_typed|].
  intros c' Hc'. split; [by apply with_cache_typed|done].
Qed.

Lemma handle_task_typed (w : TaskWorker F) (v : V) (h : Memtask) :
  worker_typed w → views_typed v → task_typed h →
  wlp (handle w v h) (λ r, worker_typed r.1.1 ∧ views_typed r.1.2 ∧ task_typed r.2).
Proof.
  intros Hw Hv Hh. pose proof Hw as [H1 H2 H3 H4 H5 H6 H7 H8].
  destruct h as [c|g|d|sn]; cbn [handle].
  - eapply (wlp_bind _ _ worker_typed); [|done]. unfold handle_set.
    eapply wlp_bind; [by apply Set_typed|]. intros t Ht. by apply with_tables_typed.
  - eapply wlp_bind; [by apply handle_get_typed|]. by intros [[w' v'] g'] H.
  - eapply (wlp_bind _ _ (λ r, worker_typed r.1 ∧ del_typed r.2)).
    + unfold handle_delete. eapply wlp_bind; [by apply Delete_typed|]. intros t Ht.
      split; [by apply with_tables_typed|]. by destruct d as [k code n [] calls].
    + intros [w' d'] [Hw' Hd']. done.
  - done.
Qed.

Lemma erase_front_typed {A} (P : A → Prop) (n : nat) (l : list A) :
  Forall P l → wlp (erase_front n l) (Forall P).
Proof.
  revert l. induction n as [|n IH]; intros l Hl; [done|]. destruct Hl; [done|]. by apply IH.
Qed.

Lemma rotate_typed (w : TaskWorker F) (c : C) :
  worker_typed w → wlp (rotate w c) (λ r, worker_typed r.1).
Proof.
  intros Hw. pose proof Hw as [H1 H2 H3 H4 H5 H6 H7 H8]. unfold rotate. case_match; [|done].
  cbv zeta. do 4 (apply wlp_skip; intros ?). apply with_tables_typed; [done|done| |].
  - apply setCompactionN_typed, setNumber_typed, init_typed.
  - apply Forall_app. split; [done|]. constructor; [by apply setReadOnly_typed|done].
Qed.

(** The workers of [Init] are well typed, whatever the counters of their caches
    start with. *)
Lemma new_worker_typed (cfg : DBConfig.DBConfig) (comp : bool) (junk : Z * Z) (i : nat) :
  is_u 32 (DBConfig.memtable_trigger_size cfg) → is_u 32 (DBConfig.lru_cache_size cfg) →
  is_u 32 junk.1 → is_u 32 junk.2 → worker_typed (new_worker cfg comp junk i).
Proof.
  intros Ht Hl Hj1 Hj2. split; cbn; [by vm_compute|by vm_compute| |done|done|done|done|].
  - apply setNumber_typed, init_typed.
  - split; cbn; [|apply is_u_u32|done|done|done|done|].
    + unfold is_u in *. split; [apply Z.div_pos; lia|].
      apply Z.div_lt_upper_bound; lia.
    + intros k e H. by rewrite lookup_empty in H.
Qed.

(** The thread's machine: the worker, the views, the tasks of the turn and the
    contexts handed back. *)
Record sys_typed (s : Sys F C V) : Prop := {
  st_worker : worker_typed (wk s);
  st_views : views_typed (vs s);
  st_todo : Forall task_typed (todo (pc s));
  st_answered : Forall task_typed (answered s)
}.

Definition label_typed (l : Label) : Prop :=
  match l with LAdd h => task_typed h | _ => True end.

Lemma wstep_typed (s s' : Sys F C V) :
  wstep s = Some (Done s') → sys_typed s → sys_typed s'.
Proof.
  intros H [Hw Hv Ht Ha]. pose proof Hw as [H1 H2 H3 H4 H5 H6 H7 H8].
  unfold wstep in H. destruct (pc s) as [| | | |[|h rest]| | | |] eqn:Ep;
    try discriminate H; injection H as H; subst; cbn [todo] in *.
  - unfold check. destruct (isRunning_ (wk s)), (bg_handle_vec_ (wk s)); by split.
  - by split.
  - split; try done.
  - unfold log_sizes in H. inv_done. by split.
  - apply Forall_cons in Ht as [Hh Ht]. unfold handle_one in H.
    eapply wlp_done; [|exact H].
    eapply wlp_bind; [by apply handle_task_typed|]. intros [[w v] h'] (Gw & Gv & Gh).
    split; try done. cbn. apply Forall_app. split; [done|by constructor].
  - unfold drop_tables in H. case_match; [|inv_done; by split].
    eapply wlp_done; [|exact H].
    eapply wlp_bind; [by apply erase_front_typed|]. intros ro Hro.
    split; try done.
  - split; try done.
  - eapply wlp_done; [|exact H]. unfold end_turn. cbv zeta.
    eapply wlp_bind; [apply rotate_typed, with_queues_typed; [done|constructor|done]|].
    intros [w c] Gw. by split.
Qed.

(** C6: every step of every thread keeps the worker well typed. Counters stay
    within the 32 or 64 bits they are declared with, and keys, values, entries,
    cache records and the results handed to callbacks stay strings of bytes:
    through Sets, Gets and Deletes, the cache's promotions and evictions, the
    dropping of flushed tables and the rotation of a full one, whatever else the
    other threads do between two steps, as long as what they add is well typed.
    This holds for any views that hand out strings of bytes. *)
Theorem step_preserves_types (l : Label) (s s' : Sys F C V)
  (Hs : sys_typed s) (Hl : label_typed l) (Hstep : step l s s') :
  sys_typed s'.
Proof.
  destruct Hstep as [s s' H|s h|s Hp|s Hp|s|s].
  - by eapply wstep_typed.
  - destruct Hs as [Hw Hv Ht Ha]. split; try done. cbn.
    apply with_queues_typed; [done|apply Hw|]. apply Forall_app.
    split; [apply Hw|by constructor].
  - destruct Hs as [Hw Hv Ht Ha]. split; try done. cbn. by destruct (pc s).
  - destruct Hs as [Hw Hv Ht Ha]. by split.
  - destruct Hs as [[H1 H2 H3 H4 H5 H6 H7 H8] Hv Ht Ha]. split; try done.
    split; try done. apply u64_range.
  - destruct Hs as [[H1 H2 H3 H4 H5 H6 H7 H8] Hv Ht Ha]. by split.
Qed.
End Worker.

Import SharedMemtable Worker Worker.Examples.

#[export] Instance ex_views_typed : @ViewStoreTyped V ex_views :=
  @manager_store_typed MemtableView.any_filter.

Lemma at_loop_typed : sys_typed at_loop.
Proof.
  split; [split|..].
  1,2,6: by vm_compute.
  - split; [by vm_compute|intros n [= <-]; by vm_compute|by vm_compute|by vm_compute|constructor].
  - constructor.
  - constructor.
  - constructor.
  - apply new_cache_typed; by vm_compute.
  - repeat constructor.
  - constructor.
  - constructor.
Qed.

Lemma step_preserves_types_witness :
  sys_typed at_loop ∧ task_typed get_k ∧ sys_typed (add at_loop get_k).
Proof.
  assert (H : task_typed get_k).
  { split; [|split]; [|constructor|constructor]. by apply (bool_decide_unpack _). }
  split; [exact at_loop_typed|]. split; [exact H|].
  exact (step_preserves_types (LAdd get_k) at_loop _ at_loop_typed H (step_add _ _)).
Defined.

End Typing.
