(* ===== verification/Store.v ===== *)
(** * The store

    What the sharded memtable of [src/db/shared_memtable.{hpp,cpp}] promises to
    those who call [Set], [Get] and [Delete], from the dispatch of a request to
    the callback: the workers of [SharedMemtable], each with its queue, its
    tables and its cache, refine a list of shards that are a map each. [Worker]
    shows that a turn of a worker's thread is the single call of [round] that a
    step of the system here takes. *)
From S2P Require Import Prelude Request Entry Bloom Memtable KLRUCache MemtableView SharedMemtable.
Import Status Request SharedMemtable.

Module Store.

(** ** The abstract store *)

(** A shard: what the active table and the tables handed over hold, the
    requests it has handled and those it is still to handle. *)
Record Shard : Type := mkShard {
  active : gmap bytes bytes;
  frozen : gmap bytes bytes;
  handled : list Memtask;
  queue : list Memtask
}.

Definition empty_shard : Shard := mkShard ∅ ∅ [] [].

Definition read (s : Shard) (k : bytes) : option bytes :=
  match active s !! k with Some x => Some x | None => frozen s !! k end.

Definition answer (r : option bytes) (g : GetContext) : GetContext :=
  get_fire match r with
           | Some x => get_setCode (get_setValue g x) kOk
           | None => get_setCode g kNotFound
           end.

Definition enqueue (s : Shard) (h : Memtask) : Shard :=
  mkShard (active s) (frozen s) (handled s) (queue s ++ [h]).

(** A write of a key that the active table has changes nothing. *)
Definition write (s : Shard) (h : Memtask) (o : Memtable.op) : Shard :=
  mkShard (Memtable.spec_step (active s) o) (frozen s) (handled s ++ [h]) (queue s).

Definition spec_task (s : Shard) (h : Memtask) : Shard * Memtask :=
  let s' := mkShard (active s) (frozen s) (handled s ++ [h]) (queue s) in
  match h with
  | TSet c => (write s h (Memtable.OSet c), h)
  | TDelete d => (write s h (Memtable.ODelete d), TDelete (del_fire d))
  | TGet g => (s', TGet (answer (read s (get_key g)) g))
  | TSnapShot _ => (s', h)
  end.

Fixpoint spec_tasks (s : Shard) (hs : list Memtask) : Shard * list Memtask :=
  match hs with
  | [] => (s, [])
  | h :: hs' =>
      let '(s, h) := spec_task s h in
      let '(s, hs) := spec_tasks s hs' in (s, h :: hs)
  end.

(** The active table is handed over. *)
Definition freeze (s : Shard) : Shard :=
  mkShard ∅ (active s ∪ frozen s) (handled s) (queue s).

(** A turn handles what is queued, and may end by handing the table over. *)
Definition spec_turn (s : Shard) (full : bool) : Shard * list Memtask :=
  let '(s', hs) := spec_tasks (mkShard (active s) (frozen s) (handled s) []) (queue s) in
  (if full then freeze s' else s', hs).

Lemma read_freeze (s : Shard) (k : bytes) : read (freeze s) k = read s k.
Proof.
  unfold read. cbn [active frozen freeze]. rewrite lookup_empty, lookup_union.
  by destruct (active s !! k), (frozen s !! k).
Qed.

(** What clients may do: steps of the whole system. *)
Inductive Act : Type :=
  | Dispatch (h : Memtask)
  | Turn (i : nat).

(** The keys that Gets ask for. *)
Definition asked (hs : list Memtask) : list bytes :=
  omap (λ h, match h with TGet g => Some (get_key g) | _ => None end) hs.

Definition dispatched (acts : list Act) : list Memtask :=
  omap (λ a, match a with Dispatch h => Some h | Turn _ => None end) acts.

Lemma asked_app (a b : list Memtask) : asked (a ++ b) = asked a ++ asked b.
Proof. apply omap_app. Qed.

Lemma dispatched_app (a b : list Act) : dispatched (a ++ b) = dispatched a ++ dispatched b.
Proof. apply omap_app. Qed.

(** What is handled is what was queued. *)
Lemma spec_task_handled (s : Shard) (h : Memtask) :
  handled (spec_task s h).1 = handled s ++ [h] ∧ queue (spec_task s h).1 = queue s.
Proof. by destruct h. Qed.

Lemma spec_tasks_handled (hs : list Memtask) : ∀ s : Shard,
  handled (spec_tasks s hs).1 = handled s ++ hs ∧ queue (spec_tasks s hs).1 = queue s.
Proof.
  induction hs as [|h hs IH]; intros s; [by rewrite app_nil_r|]. cbn [spec_tasks].
  destruct (spec_task_handled s h) as [H1 Q1]. destruct (spec_task s h) as [s1 h1]. cbn [fst] in *.
  destruct (IH s1) as [H2 Q2]. destruct (spec_tasks s1 hs) as [s2 hs2]. cbn [fst] in *.
  by rewrite H2, Q2, H1, Q1, <- app_assoc.
Qed.

Lemma spec_turn_eq (s : Shard) (full : bool) :
  let r := spec_tasks (mkShard (active s) (frozen s) (handled s) []) (queue s) in
  spec_turn s full = (if full then freeze r.1 else r.1, r.2).
Proof. unfold spec_turn. by destruct (spec_tasks _ _). Qed.

Lemma spec_turn_handled (s : Shard) (full : bool) :
  handled (spec_turn s full).1 = handled s ++ queue s ∧ queue (spec_turn s full).1 = [].
Proof.
  rewrite spec_turn_eq.
  destruct (spec_tasks_handled (queue s) (mkShard (active s) (frozen s) (handled s) [])) as [H Q].
  by destruct full.
Qed.

(** ** What the abstract store answers *)

(** The values the requests give a key, a Delete the empty one. *)
Definition values (k : bytes) (hs : list Memtask) : list bytes :=
  omap (λ h, match h with
             | TSet c => if decide (set_key c = k) then Some (set_value c) else None
             | TDelete d => if decide (del_key d = k) then Some [] else None
             | _ => None
             end) hs.

(** A result that some of the writes accounts for. *)
Definition from (ws : list bytes) (r : option bytes) : Prop :=
  match r with Some x => x ∈ ws | None => ws = [] end.

Lemma values_app (k : bytes) (a b : list Memtask) : values k (a ++ b) = values k a ++ values k b.
Proof. apply omap_app. Qed.

Definition reads_ok (s : Shard) : Prop := ∀ k, from (values k (handled s)) (read s k).

Lemma write_reads_ok (s : Shard) (h : Memtask) (o : Memtable.op) :
  reads_ok s →
  (∀ k, values k [h] = if decide (Memtable.op_key o = k)
                       then [match o with Memtable.OSet c => set_value c | Memtable.ODelete _ => [] end]
                       else []) →
  reads_ok (write s h o).
Proof.
  intros H Hv k. specialize (H k). unfold read in *. cbn [active frozen handled write].
  rewrite values_app, Hv. unfold Memtable.spec_step.
  destruct (active s !! Memtable.op_key o) as [y|] eqn:E.
  - destruct (match active s !! k with Some x => Some x | None => frozen s !! k end) as [x|] eqn:Er;
      cbn [from] in *; [by apply elem_of_app; left|].
    rewrite H. case_decide as D; [|done]. rewrite D in E. by rewrite E in Er.
  - destruct (decide (Memtable.op_key o = k)) as [<-|Hne].
    + rewrite lookup_insert_eq. cbn [from]. apply elem_of_app. right. by apply list_elem_of_singleton.
    + rewrite lookup_insert_ne, app_nil_r by done. exact H.
Qed.

Lemma spec_task_reads (s : Shard) (h : Memtask) : reads_ok s → reads_ok (spec_task s h).1.
Proof.
  intros H. destruct h as [c|g|d|sn]; cbn [spec_task fst].
  - apply write_reads_ok; [done|]. intros k. cbn. by case_decide.
  - intros k. cbn [handled]. rewrite values_app. cbn. rewrite app_nil_r. apply H.
  - apply write_reads_ok; [done|]. intros k. cbn. by case_decide.
  - intros k. cbn [handled]. rewrite values_app. cbn. rewrite app_nil_r. apply H.
Qed.

(** The Gets of [hs], handled behind [before], and their answers. *)
Record answered (before hs ans : list Memtask) : Prop := mkAnswered {
  an_from : ∀ g', TGet g' ∈ ans → ∃ h1 g h2 r, hs = h1 ++ TGet g :: h2 ∧
    g' = answer r g ∧ from (values (get_key g) (before ++ h1)) r;
  an_all : ∀ g, TGet g ∈ hs → ∃ r, TGet (answer r g) ∈ ans
}.

Lemma answered_cons (before hs ans : list Memtask) (h h' : Memtask) :
  answered (before ++ [h]) hs ans →
  (∀ g', h' = TGet g' → ∃ g r, h = TGet g ∧ g' = answer r g ∧ from (values (get_key g) before) r) →
  (∀ g, h = TGet g → ∃ r, h' = TGet (answer r g)) →
  answered before (h :: hs) (h' :: ans).
Proof.
  intros [Hf Ha] H1 H2. split.
  - intros g' [E|Hin]%elem_of_cons.
    + destruct (H1 g' (eq_sym E)) as (g & r & -> & -> & Hr). exists [], g, hs, r.
      by rewrite app_nil_r.
    + destruct (Hf g' Hin) as (h1 & g & h2 & r & -> & -> & Hr). exists (h :: h1), g, h2, r.
      by rewrite <- app_assoc in Hr.
  - intros g [E|Hin]%elem_of_cons.
    + destruct (H2 g (eq_sym E)) as (r & ->). exists r. by left.
    + destruct (Ha g Hin) as (r & Hr). exists r. by right.
Qed.

Lemma spec_tasks_reads (hs : list Memtask) : ∀ s, reads_ok s →
  reads_ok (spec_tasks s hs).1 ∧ answered (handled s) hs (spec_tasks s hs).2.
Proof.
  induction hs as [|h hs IH]; intros s H.
  { split; [done|]. split; intros g Hg; by apply elem_of_nil in Hg. }
  cbn [spec_tasks]. pose proof (spec_task_reads s h H) as H1.
  pose proof (proj1 (spec_task_handled s h)) as Eh.
  destruct (spec_task s h) as [s1 h'] eqn:E1. cbn [fst] in *.
  destruct (IH s1 H1) as [H2 Ha]. destruct (spec_tasks s1 hs) as [s2 ans] eqn:E2. cbn [fst snd] in *.
  split; [done|]. rewrite Eh in Ha. apply answered_cons; [done| |].
  - intros g' ->. destruct h; cbn in E1; try done. injection E1 as _ <-.
    eexists _, _. split; [done|]. split; [done|]. apply H.
  - intros g ->. cbn in E1. injection E1 as _ <-. by eexists.
Qed.

Lemma spec_turn_reads (s : Shard) (full : bool) : reads_ok s →
  reads_ok (spec_turn s full).1 ∧ answered (handled s) (queue s) (spec_turn s full).2.
Proof.
  intros H. rewrite spec_turn_eq. cbn [fst snd].
  destruct (spec_tasks_reads (queue s) (mkShard (active s) (frozen s) (handled s) []) H) as [H1 Ha].
  split; [|exact Ha]. destruct full; [|exact H1]. intros k. rewrite read_freeze. apply H1.
Qed.

(** ** One worker *)
Section Store.
Context {F C V : Type} {KF : KeyFilter F} {RS : ReadOnlySink C F} {VS : ViewStore V}.
Context {KL : KeyFilterLaws F} {SL : ReadOnlySinkLaws C F} {VL : ViewStoreLaws V}.

(** The limit of a worker's cold list. *)
Context (cap : Z).

(** What a cache of that limit can take in without its counter wrapping. *)
Definition cacheable (k x : bytes) : Prop := cap + zlen k + zlen x < 2 ^ 32.

Definition task_ok (h : Memtask) : Prop :=
  match h with
  | TSet c => (∃ n, Memtable.fits c n) ∧ cacheable (set_key c) (set_value c)
  | TGet g => cacheable (get_key g) (get_value g)
  | TDelete d => (∃ n, Memtable.del_fits d n) ∧ cacheable (del_key d) []
  | TSnapShot _ => True
  end.

(** The tables of worker [n] hold the shard's maps, its cache holds no key that
    no Get has asked for, and it has dropped all tables it was told to. *)
Record holds (w : TaskWorker F) (n : Z) (s : Shard) : Prop := mkHolds {
  h_active : Memtable.repr (memtable_ w) (active s);
  h_ro : Forall Memtable.ok (readonly_memtable_vec_ w);
  h_frozen : ∀ k, newest (reverse (readonly_memtable_vec_ w)) k = frozen s !! k;
  h_number : Memtable.memtable_number_ (memtable_ w) = Some n;
  h_views : memview_manager_ w = true;
  h_compactor : compactor_ w = true;
  h_flushed : remove_N_ w = preRemove_N_ w;
  h_cache : KLRU.ok (klrucache_ w);
  h_limit : KLRU.max_probation_mem_size_ (klrucache_ w) = cap;
  h_usage : KLRU.probation_memory_usage_ (klrucache_ w) < cap;
  h_keys : ∀ k, KLRU.cache_map_ (klrucache_ w) !! k ≠ None → k ∈ asked (handled s);
  h_sizes : map_Forall cacheable (active s) ∧ map_Forall cacheable (frozen s)
}.

Lemma repr_value (t : Memtable.Memtable F) (m : gmap bytes bytes) (k : bytes) :
  Memtable.repr t m → table_value t k = m !! k.
Proof.
  intros [_ H]. specialize (H k). unfold table_value. destruct (m !! k) as [x|].
  - destruct H as (e & -> & E). cbn. by rewrite E.
  - by rewrite H.
Qed.

Lemma holds_visible (w : TaskWorker F) (n : Z) (s : Shard) (k : bytes) :
  holds w n s → visible w k = read s k.
Proof.
  intros H. unfold visible, read. cbn [newest foldr].
  rewrite (repr_value _ _ _ (h_active _ _ _ H)). fold (newest (reverse (readonly_memtable_vec_ w)) k).
  by rewrite (h_frozen _ _ _ H).
Qed.

Lemma holds_cacheable (w : TaskWorker F) (n : Z) (s : Shard) (k x : bytes) :
  holds w n s → read s k = Some x → cacheable k x.
Proof.
  intros H. destruct (h_sizes _ _ _ H) as [H1 H2]. unfold read.
  destruct (active s !! k) eqn:E; [intros [= ->]; by apply (H1 k x)|apply H2].
Qed.

(** Another table for the active one. *)
Lemma holds_write (w : TaskWorker F) (n : Z) (s : Shard) (h : Memtask) (o : Memtable.op)
    (t : Memtable.Memtable F) :
  holds w n s → Memtable.repr t (Memtable.spec_step (active s) o) →
  Memtable.memtable_number_ t = Some n → asked [h] = [] →
  (∀ x, Memtable.spec_step (active s) o !! Memtable.op_key o = Some x →
        active s !! Memtable.op_key o = None → cacheable (Memtable.op_key o) x) →
  holds (with_tables w (preRemove_N_ w) t (readonly_memtable_vec_ w)) n (write s h o).
Proof.
  intros H Hr Hn Ha Hc. split; try apply H; try done.
  - intros k Hk. cbn [handled write]. rewrite asked_app, elem_of_app. left. by apply H.
  - split; [|apply H]. cbn [active write]. intros k x Hx.
    destruct (decide (k = Memtable.op_key o)) as [->|Hne].
    + destruct (active s !! Memtable.op_key o) as [y|] eqn:E; [|by apply Hc].
      unfold Memtable.spec_step in Hx. rewrite E in Hx. by apply (proj1 (h_sizes _ _ _ H)).
    + apply (proj1 (h_sizes _ _ _ H)). unfold Memtable.spec_step in Hx.
      destruct (active s !! Memtable.op_key o); [done|]. by rewrite lookup_insert_ne in Hx.
Qed.

Lemma spec_step_fresh (m : gmap bytes bytes) (o : Memtable.op) (x : bytes) :
  Memtable.spec_step m o !! Memtable.op_key o = Some x → m !! Memtable.op_key o = None →
  x = match o with Memtable.OSet c => set_value c | Memtable.ODelete _ => [] end.
Proof.
  unfold Memtable.spec_step. intros H E. rewrite E, lookup_insert_eq in H. by injection H.
Qed.

(** Set and Delete keep the number of the table. *)
Lemma step_number (t t' : Memtable.Memtable F) (o : Memtable.op) :
  Memtable.step t o = Done t' → Memtable.memtable_number_ t' = Memtable.memtable_number_ t.
Proof.
  destruct o; cbn [Memtable.step]; unfold Memtable.Set_, Memtable.Delete; intros H; by inv_done.
Qed.

Context (v : V).

(** The views of worker [n] hold nothing. *)
Definition no_views (n : Z) : Prop :=
  vs_free v (Z.to_nat (u32 n)) ∧ vs_size v (Z.to_nat (u32 n)) = Done O.

Lemma holds_number (w : TaskWorker F) (n : Z) (s : Shard) :
  holds w n s → Memtable.getMemNumber (memtable_ w) = Done (u32 n).
Proof. intros H. unfold Memtable.getMemNumber. by rewrite (h_number _ _ _ H). Qed.

Lemma holds_tables (w : TaskWorker F) (n : Z) (s : Shard) : holds w n s → tables_ok w.
Proof.
  intros H. split; [apply (h_active _ _ _ H)|]. split; [apply H|].
  exists n. apply H.
Qed.

(** A Get of a key that has not been asked for misses the cache. *)
Lemma get_sim (w : TaskWorker F) (n : Z) (s : Shard) (g : GetContext) :
  0 < cap → no_views n → holds w n s → cacheable (get_key g) (get_value g) →
  get_key g ∉ asked (handled s) →
  ∃ c, handle_get w v g = Done (with_cache w c, v, answer (read s (get_key g)) g) ∧
       holds (with_cache w c) n (spec_task s (TGet g)).1.
Proof.
  intros Hcap [Hfree Hsize] H Hk Hasked. unfold cacheable in Hk.
  pose proof (Entry.zlen_nonneg (get_value g)).
  assert (Hv : cacheable (get_key g) (get_value (got w g))).
  { unfold got. rewrite (holds_visible w n s _ H).
    destruct (read s (get_key g)) as [x|] eqn:E; [by apply (holds_cacheable w n s _ x H E)|done]. }
  destruct (handle_get_fresh w v g (u32 n)) as (c & E & Hc & [Hl Hu Hkeys]).
  - by apply (holds_tables w n s).
  - unfold Entry.small. lia.
  - by apply (holds_number w n s).
  - apply H.
  - done.
  - done.
  - apply H.
  - destruct (KLRU.cache_map_ (klrucache_ w) !! get_key g) eqn:E; [|done].
    destruct Hasked. apply (h_keys _ _ _ H). by rewrite E.
  - by rewrite (h_limit _ _ _ H).
  - rewrite <- (KLRU.ok_cold_usage _ (h_cache _ _ _ H)). pose proof (h_usage _ _ _ H).
    unfold cacheable in Hv. lia.
  - rewrite (h_limit _ _ _ H) in Hl. exists c. split.
    + rewrite E. unfold answer, got. by rewrite (holds_visible w n s _ H).
    + split; try apply H; try done.
      * by rewrite <- Hl.
      * intros k Hk'. cbn [klrucache_ with_cache] in Hk'. cbn [spec_task fst handled].
        rewrite asked_app, elem_of_app. destruct (Hkeys k Hk') as [->|Hold]; [right|left; by apply H].
        by left.
Qed.

(** Handling a request does what the abstract store does. *)
Lemma task_sim (w : TaskWorker F) (n : Z) (s : Shard) (h : Memtask) :
  0 < cap → no_views n → holds w n s → task_ok h →
  NoDup (asked (handled s ++ [h])) →
  ∃ w', handle w v h = Done (w', v, (spec_task s h).2) ∧ holds w' n (spec_task s h).1 ∧
        handle_vec_ w' = handle_vec_ w ∧ bg_handle_vec_ w' = bg_handle_vec_ w.
Proof.
  intros Hcap Hviews H Hok Hnd. destruct h as [c|g|d|sn]; cbn [handle spec_task fst snd].
  - destruct Hok as [[m Hf] Hc].
    destruct (Memtable.step_repr (memtable_ w) (active s) (Memtable.OSet c) (h_active _ _ _ H))
      as (t & E & Hr); [by exists m|].
    unfold handle_set. cbn [Memtable.step] in E. rewrite E. cbn [mbind outcome_bind].
    eexists. split; [done|]. split; [|done]. apply holds_write; try done.
    + by rewrite (step_number (memtable_ w) t (Memtable.OSet c) E), (h_number _ _ _ H).
    + intros x Hx Hn. by rewrite (spec_step_fresh _ (Memtable.OSet c) x Hx Hn).
  - rewrite asked_app in Hnd. apply NoDup_app in Hnd as (_ & Hnd & _).
    destruct (get_sim w n s g Hcap Hviews H Hok) as (c & E & Hh).
    { intros Hin. apply (Hnd _ Hin). by left. }
    rewrite E. cbn [mbind outcome_bind]. eexists. by split.
  - destruct Hok as [[m Hf] Hc].
    destruct (Memtable.step_repr (memtable_ w) (active s) (Memtable.ODelete d) (h_active _ _ _ H))
      as (t & E & Hr); [by exists m|].
    unfold handle_delete. cbn [Memtable.step] in E. rewrite E. cbn [mbind outcome_bind].
    eexists. split; [done|]. split; [|done]. apply holds_write; try done.
    + by rewrite (step_number (memtable_ w) t (Memtable.ODelete d) E), (h_number _ _ _ H).
    + intros x Hx Hn. by rewrite (spec_step_fresh _ (Memtable.ODelete d) x Hx Hn).
  - exists w. split; [done|]. split; [|done]. split; try apply H.
    intros k Hk. cbn [handled]. rewrite asked_app, elem_of_app. left. by apply H.
Qed.

Lemma tasks_sim (hs : list Memtask) : ∀ (w : TaskWorker F) (n : Z) (s : Shard),
  0 < cap → no_views n → holds w n s → Forall task_ok hs → NoDup (asked (handled s ++ hs)) →
  ∃ w', handle_all w v hs = Done (w', v, (spec_tasks s hs).2) ∧ holds w' n (spec_tasks s hs).1 ∧
        handle_vec_ w' = handle_vec_ w ∧ bg_handle_vec_ w' = bg_handle_vec_ w.
Proof.
  induction hs as [|h hs IH]; intros w n s Hcap Hviews H Hok Hnd; [by exists w|].
  apply Forall_cons in Hok as [Hh Hok].
  replace (handled s ++ h :: hs) with ((handled s ++ [h]) ++ hs) in Hnd by (by rewrite <- app_assoc).
  destruct (task_sim w n s h Hcap Hviews H Hh) as (w1 & E1 & H1 & Q1 & Q1').
  { rewrite asked_app in Hnd. by apply NoDup_app in Hnd as [? _]. }
  rewrite <- (proj1 (spec_task_handled s h)) in Hnd.
  destruct (IH w1 n _ Hcap Hviews H1 Hok Hnd) as (w2 & E2 & H2 & Q2 & Q2').
  exists w2. cbn [handle_all spec_tasks]. rewrite E1. cbn [mbind outcome_bind]. rewrite E2.
  cbn [mbind outcome_bind]. destruct (spec_task s h) as [s1 h1]. cbn [fst snd] in *.
  destruct (spec_tasks s1 hs) as [s2 hs2]. by rewrite Q2, Q2'.
Qed.

(** Handing over a full table freezes the shard. *)
Lemma rotate_sim (w : TaskWorker F) (n : Z) (s : Shard) (c : C) :
  holds w n s → sink_ok c → u32 n = n →
  ∃ w' c' full, rotate w c = Done (w', c') ∧ sink_ok c' ∧
    holds w' n (if full : bool then freeze s else s) ∧
    handle_vec_ w' = handle_vec_ w ∧ bg_handle_vec_ w' = bg_handle_vec_ w.
Proof.
  intros H Hc Hn. unfold rotate. destruct (_ <=? _); [|by exists w, c, false].
  unfold Memtable.getMemNumber. cbn [Memtable.memtable_number_ Memtable.setReadOnly].
  rewrite (h_number _ _ _ H). cbn [of_option mbind outcome_bind].
  rewrite (h_compactor _ _ _ H). cbn [cassert guard_fault mbind outcome_bind].
  destruct (sink_add_ok c (Memtable.setReadOnly (memtable_ w)) Hc) as (c' & -> & Hr & Hc').
  { exists n. apply (h_number _ _ _ H). }
  cbn [mbind outcome_bind]. rewrite bool_decide_true by lia. cbn [cassert guard_fault mbind outcome_bind].
  eexists _, c', true. split; [done|]. split; [done|]. split; [|done].
  pose proof (h_active _ _ _ H) as Hr'. split; try apply H;
    cbn [with_tables memtable_ readonly_memtable_vec_ active frozen freeze].
  - exact Memtable.repr_init.
  - apply Forall_app. split; [apply H|]. constructor; [apply Hr'|done].
  - intros k. rewrite reverse_app. cbn [newest foldr reverse rev_append app].
    change (table_value (Memtable.setReadOnly (memtable_ w)) k) with (table_value (memtable_ w) k).
    rewrite (repr_value _ _ _ Hr'). fold (newest (reverse (readonly_memtable_vec_ w)) k).
    rewrite (h_frozen _ _ _ H), lookup_union. by destruct (active s !! k), (frozen s !! k).
  - cbn. by rewrite !Hn.
  - split; [apply map_Forall_empty|]. apply map_Forall_union_2; apply H.
Qed.

(** The queues are no part of what a worker holds. *)
Lemma holds_queues (w : TaskWorker F) (n : Z) (s : Shard) (a b q : list Memtask) :
  holds w n s → holds (with_queues w a b) n (mkShard (active s) (frozen s) (handled s) q).
Proof. intros H. by split; apply H. Qed.

(** What a worker and its shard agree on between two turns. *)
Record simulates (w : TaskWorker F) (n : Z) (s : Shard) : Prop := mkSim {
  sim_holds : holds w n s;
  sim_queue : bg_handle_vec_ w = queue s;
  sim_handle : handle_vec_ w = []
}.

Lemma round_sim (w : TaskWorker F) (n : Z) (s : Shard) (c : C) :
  0 < cap → no_views n → u32 n = n → simulates w n s → sink_ok c →
  Forall task_ok (queue s) → NoDup (asked (handled s ++ queue s)) →
  ∃ w' c' full, round w v c = Done (w', v, c', (spec_turn s full).2) ∧ sink_ok c' ∧
    simulates w' n (spec_turn s full).1.
Proof.
  intros Hcap Hviews Hn [H Hq Hh] Hc Hok Hnd. unfold round. cbv zeta. cbn [handle_vec_ with_queues].
  rewrite Hq, Hh.
  destruct (tasks_sim (queue s) _ n _ Hcap Hviews (holds_queues w n s (queue s) [] [] H) Hok Hnd)
    as (w1 & E1 & H1 & Q1 & Q1').
  rewrite E1. cbn [mbind outcome_bind]. rewrite (holds_number w1 n _ H1). cbn [mbind outcome_bind].
  rewrite (h_views _ _ _ H1). cbn [guard_fault mbind outcome_bind].
  rewrite (proj2 Hviews). cbn [mbind outcome_bind]. unfold remove_flushed.
  rewrite (h_flushed _ _ _ H1), Z.ltb_irrefl. cbn [mbind outcome_bind].
  rewrite Q1'. cbn [bg_handle_vec_ with_queues].
  set (r := spec_tasks _ _) in *.
  destruct (rotate_sim (with_queues w1 [] []) n r.1 c) as (w2 & c' & full & E2 & Hc' & H2 & Q2 & Q2');
    [|done|done|].
  { pose proof (holds_queues w1 n r.1 [] [] (queue r.1) H1) as Hq1. by destruct r.1. }
  rewrite E2. cbn [mbind outcome_bind]. exists w2, c', full. rewrite spec_turn_eq. fold r. cbn [fst snd].
  split; [done|]. split; [done|]. split; [done| |done]. rewrite Q2'. cbn [with_queues bg_handle_vec_].
  pose proof (proj2 (spec_tasks_handled (queue s) (mkShard (active s) (frozen s) (handled s) []))) as Hr.
  fold r in Hr. by destruct full.
Qed.

(** ** The system *)

(** The shards, and what their workers share. *)
Record Sys : Type := mkSys { shared : SharedMemtable F; views : V; sink : C }.

Context (std_hash : bytes → Z).

(** A client's call, or a turn of a worker's thread; what a turn gives back are
    the requests it has handled. *)
Definition step (s : Sys) (a : Act) : outcome (Sys * list Memtask) :=
  match a with
  | Dispatch h =>
      t ← dispatch std_hash (shared s) h; Done (mkSys t (views s) (sink s), [])
  | Turn i =>
      w ← of_option OutOfBounds (taskworkers_ (shared s) !! i);
      '(w, v, c, hs) ← round w (views s) (sink s);
      t ← on_worker (shared s) i (λ _, w);
      Done (mkSys t v c, hs)
  end.

Fixpoint run (s : Sys) (acts : list Act) : outcome (Sys * list Memtask) :=
  match acts with
  | [] => Done (s, [])
  | a :: acts' => '(s, hs) ← step s a; '(s, hs') ← run s acts'; Done (s, hs ++ hs')
  end.

(** The same on abstract shards. Whether a turn hands its table over is open. *)
Inductive spec_step (ss : list Shard) : Act → list Shard → list Memtask → Prop :=
  | spec_Dispatch (h : Memtask) :
      spec_step ss (Dispatch h)
        (imap (λ i s, if task_for std_hash (zlen ss) i h then enqueue s h else s) ss) []
  | spec_Turn (i : nat) (s : Shard) (full : bool) :
      ss !! i = Some s →
      spec_step ss (Turn i) (<[i := (spec_turn s full).1]> ss) (spec_turn s full).2.

Inductive spec_run (ss : list Shard) : list Act → list Shard → list Memtask → Prop :=
  | spec_nil : spec_run ss [] ss []
  | spec_cons (a : Act) (acts : list Act) (ss1 ss2 : list Shard) (hs hs' : list Memtask) :
      spec_step ss a ss1 hs → spec_run ss1 acts ss2 hs' →
      spec_run ss (a :: acts) ss2 (hs ++ hs').

(** [hist] are the requests dispatched so far. *)
Record agrees (s : Sys) (ss : list Shard) (hist : list Memtask) : Prop := mkAgrees {
  ag_shards : shards_ok (shared s);
  ag_views : views s = v;
  ag_sink : sink_ok (sink s);
  ag_length : length ss = length (taskworkers_ (shared s));
  ag_worker : ∀ i w sh, taskworkers_ (shared s) !! i = Some w → ss !! i = Some sh →
    simulates w (Z.of_nat i) sh;
  ag_history : ∀ i sh, ss !! i = Some sh →
    handled sh ++ queue sh = List.filter (task_for std_hash (memtable_N_ (shared s)) i) hist
}.

Definition act_ok (N : Z) (a : Act) : Prop :=
  match a with Dispatch h => task_ok h | Turn i => Z.of_nat i < N end.

Lemma Forall_list_filter {A} (P : A → Prop) (f : A → bool) (l : list A) :
  Forall P l → Forall P (List.filter f l).
Proof. induction 1; cbn [List.filter]; [constructor|]. destruct (f x); by try constructor. Qed.

Lemma asked_filter (f : Memtask → bool) (hs : list Memtask) :
  sublist (asked (List.filter f hs)) (asked hs).
Proof.
  induction hs as [|h hs IH]; [constructor|]. cbn [List.filter].
  change (asked (h :: hs)) with (asked ([h] ++ hs)). rewrite asked_app.
  destruct (f h).
  - change (asked (h :: List.filter f hs)) with (asked ([h] ++ List.filter f hs)).
    rewrite asked_app. by apply sublist_app.
  - apply (sublist_inserts_l (asked [h])). exact IH.
Qed.

Lemma step_sim (s : Sys) (ss : list Shard) (hist : list Memtask) (a : Act) :
  0 < cap → memtable_N_ (shared s) < 2 ^ 32 →
  (∀ i, (i < length ss)%nat → no_views (Z.of_nat i)) →
  agrees s ss hist → Forall task_ok hist → act_ok (memtable_N_ (shared s)) a →
  NoDup (asked (hist ++ dispatched [a])) →
  ∃ s' ss' hs, step s a = Done (s', hs) ∧ spec_step ss a ss' hs ∧
    agrees s' ss' (hist ++ dispatched [a]) ∧ memtable_N_ (shared s') = memtable_N_ (shared s).
Proof.
  intros Hcap HN Hviews [Hsh Hv Hc Hl Hw Hh] Hok Ha Hnd.
  assert (Hlen : zlen ss = memtable_N_ (shared s))
    by (destruct Hsh as [_ <-]; unfold zlen; by rewrite Hl).
  destruct a as [h|i]; cbn [step].
  - destruct (dispatch_step std_hash (shared s) h Hsh) as (t & E & Hsh' & HN' & Ht).
    rewrite E. cbn [mbind outcome_bind]. eexists _, _, _. split; [done|]. split; [constructor|].
    split; [|done]. rewrite Hlen. split; try done.
    + cbn [shared]. rewrite length_imap. destruct Hsh as [_ E1], Hsh' as [_ E2].
      unfold zlen in *. lia.
    + intros i w sh. cbn [shared]. rewrite list_lookup_imap. intros Hi Hi'.
      apply fmap_Some in Hi' as (sh0 & Hi' & ->).
      destruct (lookup_lt_is_Some_2 (taskworkers_ (shared s)) i) as [w0 Hw0].
      { rewrite <- Hl. by eapply lookup_lt_Some. }
      pose proof (Ht i w0 Hw0) as Ht'. rewrite Hi in Ht'. injection Ht' as ->.
      pose proof (Hw i w0 sh0 Hw0 Hi') as [Hh0 Hq0 Hh0'].
      destruct (task_for _ _ _ _); [|done].
      split; [|by cbn; rewrite Hq0|done].
      by apply (holds_queues w0 (Z.of_nat i) sh0 (handle_vec_ w0) _ (queue sh0 ++ [h])).
    + intros i sh. rewrite list_lookup_imap. intros Hi. apply fmap_Some in Hi as (sh0 & Hi & ->).
      cbn [shared dispatched omap list_omap]. rewrite HN', List.filter_app. cbn [List.filter].
      rewrite <- (Hh i sh0 Hi).
      destruct (task_for _ _ _ _); [cbn; by rewrite app_assoc|by rewrite app_nil_r].
  - cbn [act_ok] in Ha.
    assert (Hi : (i < length (taskworkers_ (shared s)))%nat)
      by (destruct Hsh as [_ E]; unfold zlen in E; lia).
    destruct (lookup_lt_is_Some_2 _ _ Hi) as [w Hwi].
    destruct (lookup_lt_is_Some_2 ss i) as [sh Hshi]; [by rewrite Hl|].
    cbn [dispatched omap list_omap] in *. rewrite app_nil_r in *.
    pose proof (Hh i sh Hshi) as Hhist.
    destruct (round_sim w (Z.of_nat i) sh (sink s)) as (w' & c' & full & E & Hc' & Hw').
    + done.
    + apply Hviews. by rewrite Hl.
    + apply u32_small. lia.
    + by apply Hw.
    + done.
    + assert (Hall : Forall task_ok (handled sh ++ queue sh))
        by (rewrite Hhist; by apply Forall_list_filter).
      by apply Forall_app in Hall as [_ ?].
    + rewrite Hhist. eapply sublist_NoDup; [exact Hnd|]. apply asked_filter.
    + destruct (on_worker_lookup (shared s) i (λ _, w') Hi) as (t & Et & HNt & Hlt & Ht).
      rewrite Hwi. cbn [of_option mbind outcome_bind]. rewrite Hv, E. cbn [mbind outcome_bind].
      rewrite Et. cbn [mbind outcome_bind].
      eexists _, _, _. split; [done|]. split; [by apply (spec_Turn ss i sh full)|].
      split; [|done]. split; try done.
      * destruct Hsh as [Hp El]. split; cbn [shared]; [by rewrite HNt|].
        unfold zlen in *. by rewrite Hlt, HNt.
      * cbn [shared]. by rewrite length_insert, Hl.
      * intros j wj shj. cbn [shared]. intros Hj Hsj.
        destruct (decide (i = j)) as [<-|Hne].
        -- rewrite (Ht i w Hwi), bool_decide_true in Hj by done. injection Hj as <-.
           rewrite list_lookup_insert_eq in Hsj by (by rewrite Hl). by injection Hsj as <-.
        -- rewrite list_lookup_insert_ne in Hsj by done.
           destruct (lookup_lt_is_Some_2 (taskworkers_ (shared s)) j) as [w0 Hw0].
           { rewrite <- Hl. by eapply lookup_lt_Some. }
           rewrite (Ht j w0 Hw0), bool_decide_false in Hj by done. injection Hj as <-.
           by apply Hw.
      * intros j shj. cbn [shared]. rewrite HNt. destruct (decide (i = j)) as [<-|Hne].
        -- rewrite list_lookup_insert_eq by (by rewrite Hl). intros [= <-].
           destruct (spec_turn_handled sh full) as [-> ->]. by rewrite app_nil_r.
        -- rewrite list_lookup_insert_ne by done. apply Hh.
Qed.

Lemma run_sim (acts : list Act) : ∀ (s : Sys) (ss : list Shard) (hist : list Memtask),
  0 < cap → memtable_N_ (shared s) < 2 ^ 32 →
  (∀ i, (i < length ss)%nat → no_views (Z.of_nat i)) →
  agrees s ss hist → Forall task_ok hist → Forall (act_ok (memtable_N_ (shared s))) acts →
  NoDup (asked (hist ++ dispatched acts)) →
  ∃ s' ss' ans, run s acts = Done (s', ans) ∧ spec_run ss acts ss' ans ∧
    agrees s' ss' (hist ++ dispatched acts).
Proof.
  induction acts as [|a acts IH]; intros s ss hist Hcap HN Hviews Hag Hok Hacts Hnd.
  { exists s, ss, []. rewrite app_nil_r. split; [done|]. split; [constructor|done]. }
  apply Forall_cons in Hacts as [Ha Hacts].
  change (dispatched (a :: acts)) with (dispatched ([a] ++ acts)) in *.
  rewrite dispatched_app, app_assoc in *.
  destruct (step_sim s ss hist a Hcap HN Hviews Hag Hok Ha) as (s1 & ss1 & hs & E1 & S1 & Hag1 & HN1).
  { rewrite asked_app in Hnd. by apply NoDup_app in Hnd as [? _]. }
  assert (Hl1 : length ss1 = length ss)
    by (destruct S1; [by rewrite length_imap|by rewrite length_insert]).
  destruct (IH s1 ss1 (hist ++ dispatched [a])) as (s2 & ss2 & hs' & E2 & S2 & Hag2);
    rewrite ?HN1, ?Hl1; try done.
  { apply Forall_app. split; [done|]. destruct a; [by constructor|constructor]. }
  exists s2, ss2, (hs ++ hs'). cbn [run]. rewrite E1. cbn [mbind outcome_bind]. rewrite E2.
  split; [done|]. split; [by econstructor|done].
Qed.

(** *** From the start *)

(** [DB::NewDBimp], as far as the workers go. *)
Definition start (cfg : DBConfig.DBConfig) (junk : nat → Z * Z) (c : C) : outcome Sys :=
  t ← Init cfg false junk;
  let t := SetCompactorRef t in
  let t := SetMemTableViewRef t in
  t ← Run t;
  Done (mkSys t v c).

Lemma start_number (cfg : DBConfig.DBConfig) (junk : nat → Z * Z) (c : C) (s : Sys) :
  start cfg junk c = Done s → memtable_N_ (shared s) = DBConfig.memtable_N cfg.
Proof. unfold start, Init, Run. intros H. inv_done. done. Qed.

Lemma start_agrees (cfg : DBConfig.DBConfig) (junk : nat → Z * Z) (c : C) :
  0 < DBConfig.memtable_N cfg < 2 ^ 32 → (∀ i, junk i = (0, 0)) → sink_ok c →
  0 < cap → DBConfig.lru_cache_size cfg / 5 = cap →
  ∃ s, start cfg junk c = Done s ∧ memtable_N_ (shared s) = DBConfig.memtable_N cfg ∧
       agrees s (replicate (Z.to_nat (DBConfig.memtable_N cfg)) empty_shard) [].
Proof.
  intros HN Hj Hc Hcap Hcold. unfold start, Init.
  assert (E : negb (DBConfig.memtable_N cfg =? 0) = true) by lia.
  rewrite E. cbn [cassert guard_fault mbind outcome_bind]. unfold Run, SetMemTableViewRef, SetCompactorRef, on_all.
  cbn [memtable_N_ taskworkers_]. rewrite (proj2 (Z.ltb_lt 0 _)) by lia.
  rewrite bool_decide_true by (rewrite !length_fmap, length_seq; lia).
  cbn [cassert guard_fault mbind outcome_bind].
  eexists. split; [done|]. split; [done|]. split; cbn [shared taskworkers_ memtable_N_]; try done.
  - split; cbn [memtable_N_ taskworkers_]; [lia|]. unfold zlen. rewrite !length_fmap, length_seq. lia.
  - by rewrite length_replicate, !length_fmap, length_seq.
  - intros i w sh. rewrite !list_lookup_fmap. intros Hi Hsh.
    apply lookup_replicate_1 in Hsh as [-> Hlt].
    rewrite lookup_seq_lt in Hi by done. cbn in Hi. injection Hi as <-.
    unfold new_worker. rewrite Hj. split; [|done|done].
    split; try done; cbn [memtable_ klrucache_ set_running].
    + exact Memtable.repr_init.
    + cbn. f_equal. apply u32_small. lia.
    + apply KLRU.ok_new.
  - intros i sh Hsh. by apply lookup_replicate_1 in Hsh as [-> _].
Qed.

(** *** What clients are told *)

(** Shards that have handled and queued what was dispatched to them, and whose
    answers are accounted for. *)
Record explained (ss : list Shard) (hist ans : list Memtask) : Prop := mkExplained {
  ex_history : ∀ i s, ss !! i = Some s →
    handled s ++ queue s = List.filter (task_for std_hash (zlen ss) i) hist;
  ex_reads : ∀ i s, ss !! i = Some s → reads_ok s;
  ex_from : ∀ g', TGet g' ∈ ans → ∃ i s h1 g h2 r, ss !! i = Some s ∧
    handled s = h1 ++ TGet g :: h2 ∧ g' = answer r g ∧ from (values (get_key g) h1) r;
  ex_all : ∀ i s g, ss !! i = Some s → TGet g ∈ handled s → ∃ r, TGet (answer r g) ∈ ans
}.

Lemma start_explained (n : nat) : explained (replicate n empty_shard) [] [].
Proof.
  split.
  - intros i s Hs. by apply lookup_replicate_1 in Hs as [-> _].
  - intros i s Hs. apply lookup_replicate_1 in Hs as [-> _]. by intros k.
  - intros g' Hg. by apply elem_of_nil in Hg.
  - intros i s g Hs Hg. apply lookup_replicate_1 in Hs as [-> _]. by apply elem_of_nil in Hg.
Qed.

Lemma dispatch_explained (ss : list Shard) (hist ans : list Memtask) (h : Memtask) :
  explained ss hist ans →
  explained (imap (λ i s, if task_for std_hash (zlen ss) i h then enqueue s h else s) ss)
    (hist ++ [h]) ans.
Proof.
  intros [Hh Hr Hf Ha].
  assert (Hs : ∀ i s, imap (λ i s, if task_for std_hash (zlen ss) i h then enqueue s h else s) ss !! i =
      Some s → ∃ s0, ss !! i = Some s0 ∧
        s = if task_for std_hash (zlen ss) i h then enqueue s0 h else s0).
  { intros i s. rewrite list_lookup_imap. intros (s0 & E & ->)%fmap_Some. by exists s0. }
  assert (Hl : ∀ f : nat → Shard → Shard, zlen (imap f ss) = zlen ss)
    by (intros f; unfold zlen; by rewrite length_imap).
  split.
  - intros i s (s0 & E & ->)%Hs. rewrite Hl, List.filter_app, <- (Hh i s0 E). cbn [List.filter].
    destruct (task_for _ _ _ _); [cbn; by rewrite app_assoc|by rewrite app_nil_r].
  - intros i s (s0 & E & ->)%Hs. destruct (task_for _ _ _ _); by apply (Hr i s0).
  - intros g' (i & s & h1 & g & h2 & r & E & Eh & Eg & Hv)%Hf.
    eexists i, _, h1, g, h2, r. split; [by rewrite list_lookup_imap, E|].
    split; [by destruct (task_for _ _ _ _)|done].
  - intros i s g (s0 & E & ->)%Hs Hg. apply (Ha i s0 g E). by destruct (task_for _ _ _ _).
Qed.

Lemma turn_explained (ss : list Shard) (hist ans : list Memtask) (i : nat) (s : Shard) (full : bool) :
  explained ss hist ans → ss !! i = Some s →
  explained (<[i := (spec_turn s full).1]> ss) hist (ans ++ (spec_turn s full).2).
Proof.
  intros [Hh Hr Hf Ha] Hi. destruct (spec_turn_reads s full (Hr i s Hi)) as [Hr' [Hfr Hal]].
  destruct (spec_turn_handled s full) as [Eh Eq].
  set (s' := (spec_turn s full).1) in *. set (out := (spec_turn s full).2) in *.
  assert (Hlt : (i < length ss)%nat) by (by eapply lookup_lt_Some).
  assert (Hl : zlen (<[i := s']> ss) = zlen ss) by (unfold zlen; by rewrite length_insert).
  assert (Hs : ∀ j sj, <[i := s']> ss !! j = Some sj → (j = i ∧ sj = s') ∨ ss !! j = Some sj).
  { intros j sj Hj. destruct (decide (i = j)) as [<-|Hne].
    - rewrite list_lookup_insert_eq in Hj by done. injection Hj as <-. by left.
    - rewrite list_lookup_insert_ne in Hj by done. by right. }
  split.
  - intros j sj [[-> ->]|Hj]%Hs; rewrite Hl; [|by apply Hh].
    by rewrite Eh, Eq, app_nil_r, <- (Hh i s Hi).
  - intros j sj [[-> ->]|Hj]%Hs; [done|by apply (Hr j)].
  - intros g' [Hin|Hin]%elem_of_app.
    + destruct (Hf g' Hin) as (j & sj & h1 & g & h2 & r & E & E1 & E2 & Hv).
      destruct (decide (i = j)) as [<-|Hne].
      * rewrite Hi in E. injection E as <-. exists i, s', h1, g, (h2 ++ queue s), r.
        split; [by rewrite list_lookup_insert_eq|]. by rewrite Eh, E1, <- app_assoc.
      * exists j, sj, h1, g, h2, r. by rewrite list_lookup_insert_ne.
    + destruct (Hfr g' Hin) as (h1 & g & h2 & r & E1 & E2 & Hv).
      exists i, s', (handled s ++ h1), g, h2, r.
      split; [by rewrite list_lookup_insert_eq|]. by rewrite Eh, E1, <- app_assoc.
  - intros j sj g [[-> ->]|Hj]%Hs Hg.
    + rewrite Eh in Hg. apply elem_of_app in Hg as [Hg|Hg].
      * destruct (Ha i s g Hi Hg) as (r & Hin). exists r. apply elem_of_app. by left.
      * destruct (Hal g Hg) as (r & Hin). exists r. apply elem_of_app. by right.
    + destruct (Ha j sj g Hj Hg) as (r & Hin). exists r. apply elem_of_app. by left.
Qed.

Lemma spec_run_explained (ss ss' : list Shard) (acts : list Act) (out : list Memtask) :
  spec_run ss acts ss' out → ∀ hist ans, explained ss hist ans →
  explained ss' (hist ++ dispatched acts) (ans ++ out).
Proof.
  induction 1 as [ss|ss a acts ss1 ss2 hs hs' Hs _ IH]; intros hist ans H.
  { by rewrite !app_nil_r. }
  change (dispatched (a :: acts)) with (dispatched ([a] ++ acts)).
  rewrite dispatched_app, !app_assoc. apply IH. destruct Hs as [h|i s full Hi].
  - rewrite app_nil_r. by apply dispatch_explained.
  - cbn. rewrite app_nil_r. by apply turn_explained.
Qed.

Lemma spec_run_app (a b : list Act) : ∀ (ss ss' : list Shard) (out : list Memtask),
  spec_run ss (a ++ b) ss' out →
  ∃ ss1 o1 o2, spec_run ss a ss1 o1 ∧ spec_run ss1 b ss' o2 ∧ out = o1 ++ o2.
Proof.
  induction a as [|x a IH]; intros ss ss' out H; cbn in H.
  { exists ss, [], out. split; [constructor|done]. }
  inversion H as [|? ? ss1 ss2 hs hs' Hx Hr]; subst.
  destruct (IH ss1 ss' hs' Hr) as (ss2 & o1 & o2 & H1 & H2 & ->).
  exists ss2, (hs ++ o1), o2. split; [by econstructor|]. by rewrite app_assoc.
Qed.

Lemma spec_run_length (ss ss' : list Shard) (acts : list Act) (out : list Memtask) :
  spec_run ss acts ss' out → length ss' = length ss.
Proof.
  induction 1 as [|ss a acts ss1 ss2 hs hs' Hs _ IH]; [done|]. rewrite IH.
  destruct Hs; [by rewrite length_imap|by rewrite length_insert].
Qed.

(** What a shard has queued is handled by the next turn of its worker. *)
Lemma spec_run_handles (ss ss' : list Shard) (acts : list Act) (out : list Memtask) (i : nat)
    (h : Memtask) : spec_run ss acts ss' out → ∀ s, ss !! i = Some s →
  ∃ s', ss' !! i = Some s' ∧ (h ∈ handled s → h ∈ handled s') ∧
    (h ∈ queue s → Turn i ∈ acts → h ∈ handled s').
Proof.
  induction 1 as [ss|ss a acts ss1 ss2 hs hs' Hs _ IH]; intros s Hi.
  { exists s. split; [done|]. split; [done|]. intros _ Ht. by apply elem_of_nil in Ht. }
  assert (H1 : ∃ s1, ss1 !! i = Some s1 ∧ (h ∈ handled s → h ∈ handled s1) ∧
    (h ∈ queue s → (a = Turn i → h ∈ handled s1) ∧ (h ∈ queue s1 ∨ h ∈ handled s1))).
  { destruct Hs as [x|j sj full Hj].
    - eexists. split; [by rewrite list_lookup_imap, Hi|].
      destruct (task_for _ _ _ _); cbn; (split; [done|]); intros Hq; (split; [done|]); left; [|done].
      apply elem_of_app. by left.
    - destruct (decide (j = i)) as [->|Hne].
      + rewrite Hi in Hj. injection Hj as <-. eexists.
        split; [apply list_lookup_insert_eq; by eapply lookup_lt_Some|].
        rewrite (proj1 (spec_turn_handled s full)), !elem_of_app. tauto.
      + exists s. rewrite list_lookup_insert_ne by done. split; [done|]. split; [done|].
        intros Hq. split; [|by left]. by intros [= ->]. }
  destruct H1 as (s1 & E1 & Hd & Hq). destruct (IH s1 E1) as (s2 & E2 & Hd2 & Hq2).
  exists s2. split; [done|]. split; [auto|]. intros Hin Ht. destruct (Hq Hin) as [Hq1 Hq1'].
  apply elem_of_cons in Ht as [<-|Ht]; [by auto|]. destruct Hq1'; auto.
Qed.

(** A key asked for once has one Get. *)
Lemma asked_once (g1 g2 : GetContext) (a2 b1 b2 : list Memtask) : ∀ a1 : list Memtask,
  a1 ++ TGet g1 :: b1 = a2 ++ TGet g2 :: b2 → get_key g1 = get_key g2 →
  NoDup (asked (a2 ++ TGet g2 :: b2)) → a1 = a2 ∧ g1 = g2.
Proof.
  revert b1. induction a2 as [|x a2 IH]; intros b1 a1 E Hk Hnd; destruct a1 as [|y a1];
    cbn [app] in E; injection E as Ex E.
  - by subst.
  - subst. exfalso. change (TGet g2 :: a1 ++ TGet g1 :: b1) with ([TGet g2] ++ a1 ++ TGet g1 :: b1) in Hnd.
    rewrite !asked_app in Hnd. cbn in Hnd. apply NoDup_cons in Hnd as [Hn _]. apply Hn.
    rewrite <- Hk. apply elem_of_app. right. by left.
  - subst. exfalso. change (TGet g1 :: a2 ++ TGet g2 :: b2) with ([TGet g1] ++ a2 ++ TGet g2 :: b2) in Hnd.
    rewrite !asked_app in Hnd. cbn in Hnd. apply NoDup_cons in Hnd as [Hn _]. apply Hn.
    rewrite Hk. apply elem_of_app. right. by left.
  - subst. assert (Hnd' : NoDup (asked (a2 ++ TGet g2 :: b2))).
    { cbn [app] in Hnd.
      match type of Hnd with NoDup (asked (?z :: ?l)) => change (z :: l) with ([z] ++ l) in Hnd end.
      rewrite asked_app in Hnd.
      by apply NoDup_app in Hnd as (_ & _ & ?). }
    by destruct (IH b1 a1 E Hk Hnd') as [-> ->].
Qed.

(** The writes of a key all go to the shard its Gets go to. *)
Lemma values_filter (N : Z) (i : nat) (g : GetContext) (hs : list Memtask) :
  task_for std_hash N i (TGet g) = true →
  values (get_key g) (List.filter (task_for std_hash N i) hs) = values (get_key g) hs.
Proof.
  intros Hi. induction hs as [|h hs IH]; [done|]. cbn [List.filter].
  change (values (get_key g) (h :: hs)) with (values (get_key g) ([h] ++ hs)).
  rewrite values_app, <- IH. destruct (task_for std_hash N i h) eqn:E.
  - by rewrite <- values_app.
  - replace (values (get_key g) [h]) with (@nil bytes); [done|].
    destruct h as [c|?|d|?]; cbn; try done; (case_decide as D; [|done]);
      cbn in E, Hi; rewrite D in E; by rewrite Hi in E.
Qed.

(** What the start of a system and a run of it come to. *)
Lemma start_run (cfg : DBConfig.DBConfig) (junk : nat → Z * Z) (c : C) (acts : list Act) :
  0 < DBConfig.memtable_N cfg < 2 ^ 32 → (∀ i, junk i = (0, 0)) → sink_ok c →
  0 < cap → DBConfig.lru_cache_size cfg / 5 = cap →
  (∀ i, Z.of_nat i < DBConfig.memtable_N cfg → no_views (Z.of_nat i)) →
  Forall (act_ok (DBConfig.memtable_N cfg)) acts → NoDup (asked (dispatched acts)) →
  let ss := replicate (Z.to_nat (DBConfig.memtable_N cfg)) empty_shard in
  ∃ s0 s' ss' ans, start cfg junk c = Done s0 ∧
    memtable_N_ (shared s0) = DBConfig.memtable_N cfg ∧
    run s0 acts = Done (s', ans) ∧ spec_run ss acts ss' ans.
Proof.
  intros HN Hj Hc Hcap Hcold Hviews Hacts Hnd ss.
  destruct (start_agrees cfg junk c) as (s0 & E0 & E1 & Hag); try done.
  destruct (run_sim acts s0 ss [] Hcap) as (s' & ss' & ans & E & S & _); rewrite ?E1; try done.
  - lia.
  - unfold ss. rewrite length_replicate. intros i Hi. apply Hviews. lia.
  - by exists s0, s', ss', ans.
Qed.

(** The sharded memtable refines [N] maps. Start it as the database does,
    with zeroed cache counters, views that hold nothing and a compactor that
    takes tables, and let clients dispatch requests that fit and workers take
    turns in any order, no key being asked for twice. Nothing faults, and the
    contexts that the turns hand back are those of the abstract store: each
    shard a map of the keys that hash to it, in which the first write since its
    table was last handed over wins, a Get answered once from the newest table
    that has the key, and each turn free to hand the table over. *)
Theorem store_refines (cfg : DBConfig.DBConfig) (junk : nat → Z * Z) (c : C) (acts : list Act)
  (HN : 0 < DBConfig.memtable_N cfg < 2 ^ 32) (Hj : ∀ i, junk i = (0, 0)) (Hc : sink_ok c)
  (Hcap : 0 < cap) (Hcold : DBConfig.lru_cache_size cfg / 5 = cap)
  (Hviews : ∀ i, Z.of_nat i < DBConfig.memtable_N cfg → no_views (Z.of_nat i))
  (Hacts : Forall (act_ok (DBConfig.memtable_N cfg)) acts)
  (Hnd : NoDup (asked (dispatched acts))) :
  ∃ s0 s' ss' ans, start cfg junk c = Done s0 ∧ run s0 acts = Done (s', ans) ∧
    spec_run (replicate (Z.to_nat (DBConfig.memtable_N cfg)) empty_shard) acts ss' ans.
Proof.
  destruct (start_run cfg junk c acts) as (s0 & s' & ss' & ans & E0 & _ & E & S); try done.
  by exists s0, s', ss', ans.
Qed.

(** A Get sees the writes made before it. Under the same conditions,
    consider a Get somewhere in the run. If it has been answered, then with
    [kNotFound] when nobody had dispatched a Set or Delete of its key before
    it, and otherwise with [kOk] and the value of one of those writes - the
    value, when there was one - the empty one for a Delete; never a value of
    a later write or of another key; and its callback has been called once. It
    has been answered if its worker has taken a turn since. *)
Theorem gets_see_writes (cfg : DBConfig.DBConfig) (junk : nat → Z * Z) (c : C)
  (pre post : list Act) (g : GetContext)
  (HN : 0 < DBConfig.memtable_N cfg < 2 ^ 32) (Hj : ∀ i, junk i = (0, 0)) (Hc : sink_ok c)
  (Hcap : 0 < cap) (Hcold : DBConfig.lru_cache_size cfg / 5 = cap)
  (Hviews : ∀ i, Z.of_nat i < DBConfig.memtable_N cfg → no_views (Z.of_nat i)) :
  let acts := pre ++ Dispatch (TGet g) :: post in
  Forall (act_ok (DBConfig.memtable_N cfg)) acts → NoDup (asked (dispatched acts)) →
  ∃ s0 s' ans, start cfg junk c = Done s0 ∧ run s0 acts = Done (s', ans) ∧
    (∀ g', TGet g' ∈ ans → get_key g' = get_key g →
       ∃ r, g' = answer r g ∧ from (values (get_key g) (dispatched pre)) r) ∧
    (Turn (route std_hash (shared s0) (get_key g)) ∈ post →
       ∃ g', TGet g' ∈ ans ∧ get_key g' = get_key g).
Proof.
  intros acts Hacts Hnd.
  destruct (start_run cfg junk c acts) as (s0 & s' & ss' & ans & E0 & EN & E & S); try done.
  set (N := DBConfig.memtable_N cfg) in *. set (ss := replicate (Z.to_nat N) empty_shard) in *.
  exists s0, s', ans. split; [done|]. split; [done|].
  assert (Hdisp : dispatched acts = dispatched pre ++ TGet g :: dispatched post)
    by (unfold acts; by rewrite dispatched_app).
  assert (Hkey : ∀ r g0, get_key (answer r g0) = get_key g0)
    by (intros r g0; unfold answer; rewrite (proj1 (proj2 (fire_fields _))); by destruct r).
  pose proof (spec_run_explained ss ss' acts ans S [] [] (start_explained _)) as [Hh _ Hf Hall].
  cbn [app] in Hh, Hf, Hall. split.
  - intros g' Hin Hk. destruct (Hf g' Hin) as (i & s & h1 & g1 & h2 & r & Hi & Eh & -> & Hv).
    rewrite Hkey in Hk. specialize (Hh i s Hi). rewrite Hdisp in Hh, Hnd.
    assert (Ht : task_for std_hash (zlen ss') i (TGet g1) = true).
    { assert (Hm : In (TGet g1) (handled s ++ queue s))
        by (rewrite Eh; apply in_or_app; left; apply in_or_app; right; by left).
      rewrite Hh in Hm. by apply filter_In in Hm as [_ ?]. }
    assert (Ht' : task_for std_hash (zlen ss') i (TGet g) = true) by (cbn in *; by rewrite <- Hk).
    rewrite Eh, List.filter_app in Hh. cbn [List.filter] in Hh. rewrite Ht' in Hh.
    rewrite <- app_assoc in Hh. cbn [app] in Hh.
    destruct (asked_once g1 g _ _ _ _ Hh Hk) as [-> ->].
    { eapply sublist_NoDup; [exact Hnd|].
      pose proof (asked_filter (task_for std_hash (zlen ss') i)
        (dispatched pre ++ TGet g :: dispatched post)) as Hs.
      rewrite List.filter_app in Hs. cbn [List.filter] in Hs. by rewrite Ht' in Hs. }
    exists r. split; [done|]. by rewrite values_filter in Hv.
  - intros Ht.
    replace acts with ((pre ++ [Dispatch (TGet g)]) ++ post) in S by (unfold acts; by rewrite <- app_assoc).
    destruct (spec_run_app _ _ _ _ _ S) as (ss1 & o1 & o2 & S1 & S2 & _).
    pose proof (spec_run_explained ss ss1 _ o1 S1 [] [] (start_explained _)) as [Hh1 _ _ _].
    cbn [app] in Hh1. set (i := route std_hash (shared s0) (get_key g)) in *.
    assert (Hl1 : zlen ss1 = N).
    { unfold zlen. rewrite (spec_run_length _ _ _ _ S1). unfold ss. rewrite length_replicate. lia. }
    assert (Hi : (i < length ss1)%nat).
    { unfold i, route. rewrite EN. unfold zlen in Hl1.
      pose proof (Z.mod_pos_bound (u64 (std_hash (get_key g))) N ltac:(lia)). lia. }
    destruct (lookup_lt_is_Some_2 ss1 i Hi) as [s Hs]. specialize (Hh1 i s Hs).
    assert (Hin : TGet g ∈ handled s ++ queue s).
    { rewrite Hh1, dispatched_app, List.filter_app. apply elem_of_app. right. cbn. rewrite Hl1.
      rewrite bool_decide_true by (unfold i, route; by rewrite EN). by left. }
    destruct (spec_run_handles ss1 ss' post o2 i (TGet g) S2 s Hs) as (s2 & Hs2 & Hd & Hq).
    destruct (Hall i s2 g Hs2) as (r & Hr).
    { apply elem_of_app in Hin as [Hin|Hin]; auto. }
    exists (answer r g). by rewrite Hkey.
Qed.

End Store.

(** ** Witnesses *)
Module Examples.
Definition F : Type := list bytes.
#[export] Instance filter : KeyFilter F := Memtable.SetFilter.exact_filter.
#[export] Instance filter_laws : KeyFilterLaws F := Memtable.SetFilter.exact_laws.
Definition C : Type := list (Memtable.Memtable F).
#[export] Instance sink : ReadOnlySink C F := SharedMemtable.Examples.keep_sink F.
#[export] Instance sink_laws : ReadOnlySinkLaws C F := SharedMemtable.Examples.keep_sink_laws F.
Definition V : Type := MemtableView.MemTableViewManager.
#[export] Instance views : ViewStore V := @manager_store MemtableView.any_filter.
#[export] Instance views_laws : ViewStoreLaws V := @manager_store_laws MemtableView.any_filter.

(** Two shards, tables handed over from 64 bytes on, and cold lists of 100. *)
Definition cfg : DBConfig.DBConfig := DBConfig.mkConfig 0 false [] 2 64 1 500 8 None None.
Definition hash (k : bytes) : Z := zlen k.
Definition ask (k : bytes) : Act := Dispatch (TGet (mkGet k [] kOk true [])).
Definition put (k x : bytes) (n : Z) : Act := Dispatch (TSet (Memtable.ex_set k x n)).
Definition before : list Act :=
  [put (str "k") (str "v") 1; Turn 1; put (str "other") (str "w") 2; put (str "k") (str "z") 3].
Definition after : list Act := [Turn 0; Turn 1; ask (str "other")].
Definition get : GetContext := mkGet (str "k") [] kOk true [].
Definition acts : list Act := before ++ ask (str "k") :: after.

Lemma put_ok (k x : bytes) (n : Z) :
  Memtable.fits (Memtable.ex_set k x n) n → cacheable 100 k x → act_ok 100 2 (put k x n).
Proof. intros H1 H2. split; [by exists n|exact H2]. Qed.

Lemma acts_ok : Forall (act_ok 100 2) acts ∧ NoDup (asked (dispatched acts)).
Proof.
  split; [|by apply (bool_decide_unpack (NoDup _)); vm_compute].
  repeat (apply Forall_cons; split); try apply put_ok; try apply Forall_nil_2; by vm_compute.
Qed.

Lemma empty_views (i : nat) :
  Z.of_nat i < 2 → no_views (MemtableView.Manager_Init 2) (Z.of_nat i).
Proof.
  intros Hi. destruct i as [|[|i]]; [..|lia]; (split; [by exists []|done]).
Qed.
End Examples.
Import Examples.

Lemma store_refines_witness :
  Forall (act_ok 100 2) acts ∧
  ∃ s0 s' ss' ans, start (MemtableView.Manager_Init 2) cfg (λ _, (0, 0)) ([] : C) = Done s0 ∧
    run hash s0 acts = Done (s', ans) ∧ spec_run hash (replicate 2 empty_shard) acts ss' ans.
Proof.
  destruct acts_ok as [H1 H2]. split; [exact H1|].
  exact (store_refines 100 (MemtableView.Manager_Init 2) hash cfg (λ _, (0, 0)) ([] : C) acts
    ltac:(by vm_compute) (λ _, eq_refl) I ltac:(lia) ltac:(by vm_compute) empty_views H1 H2).
Defined.

(** The Get is answered, with one of the two values written to the key. *)
Lemma gets_see_writes_witness :
  ∃ s0 s' ans g', start (MemtableView.Manager_Init 2) cfg (λ _, (0, 0)) ([] : C) = Done s0 ∧
    run hash s0 acts = Done (s', ans) ∧ TGet g' ∈ ans ∧
    ∃ x, x ∈ [str "v"; str "z"] ∧ g' = mkGet (str "k") x kOk true [(kOk, x)].
Proof.
  destruct acts_ok as [H1 H2].
  destruct (gets_see_writes 100 (MemtableView.Manager_Init 2) hash cfg (λ _, (0, 0)) ([] : C)
    before after get ltac:(by vm_compute) (λ _, eq_refl) I ltac:(lia) ltac:(by vm_compute)
    empty_views H1 H2) as (s0 & s' & ans & E0 & E & Hans & Hturn).
  assert (EN : memtable_N_ (shared s0) = 2).
  { by rewrite (start_number _ _ _ _ _ E0). }
  destruct Hturn as (g' & Hin & Hk).
  { unfold route. rewrite EN. right. left. }
  exists s0, s', ans, g'. split; [exact E0|]. split; [exact E|]. split; [exact Hin|].
  destruct (Hans g' Hin Hk) as (r & -> & Hr). destruct r as [x|].
  - exists x. split; [exact Hr|reflexivity].
  - vm_compute in Hr. discriminate Hr.
Defined.

End Store.
