(* ===== verification/Threads.v ===== *)
(** * The store and its threads

    The workers of [src/db/shared_memtable.{hpp,cpp}] as they run: one thread
    each, the machine of [Worker], with the views and the compactor shared
    between them, and clients that put requests into the queues at any time.
    [Store] lets a worker take a whole turn in one step; here every step of
    every thread may be interleaved with every other one. The theorems say that
    the clients cannot tell: what they are told is what a map per shard tells
    them that serves one request at a time. *)
From S2P Require Import Prelude Request Bloom Memtable KLRUCache MemtableView SharedMemtable Worker Store.
Import Status Request SharedMemtable.

Module Threads.

(** ** What clients see *)

(** A request put into queue [i]; a request handed back by worker [i]. *)
Inductive Event : Type :=
  | Called (i : nat) (h : Memtask)
  | Answered (i : nat) (h : Memtask).

Definition calls (i : nat) (es : list Event) : list Memtask :=
  omap (λ e, match e with Called j h => if decide (j = i) then Some h else None | _ => None end) es.

Definition answers (i : nat) (es : list Event) : list Memtask :=
  omap (λ e, match e with Answered j h => if decide (j = i) then Some h else None | _ => None end) es.

Lemma calls_app (i : nat) (a b : list Event) : calls i (a ++ b) = calls i a ++ calls i b.
Proof. apply omap_app. Qed.

Lemma answers_app (i : nat) (a b : list Event) : answers i (a ++ b) = answers i a ++ answers i b.
Proof. apply omap_app. Qed.

(** ** The abstract store, a request at a time *)

(** Handling the request at the front of the queue. *)
Definition serve (s : Store.Shard) : option (Store.Shard * Memtask) :=
  match Store.queue s with
  | [] => None
  | h :: q =>
      Some (Store.spec_task (Store.mkShard (Store.active s) (Store.frozen s) (Store.handled s) q) h)
  end.

(** The histories of a store of [N] shards and where they lead. A shard may
    hand its active table over at any time, which is no event. *)
Inductive abstract (std_hash : bytes → Z) (N : nat) : list Event → list Store.Shard → Prop :=
  | abs_start : abstract std_hash N [] (replicate N Store.empty_shard)
  | abs_call es ss i h s :
      abstract std_hash N es ss → ss !! i = Some s → task_for std_hash (Z.of_nat N) i h = true →
      abstract std_hash N (es ++ [Called i h]) (<[i := Store.enqueue s h]> ss)
  | abs_serve es ss i s s' h' :
      abstract std_hash N es ss → ss !! i = Some s → serve s = Some (s', h') →
      abstract std_hash N (es ++ [Answered i h']) (<[i := s']> ss)
  | abs_freeze es ss i s :
      abstract std_hash N es ss → ss !! i = Some s →
      abstract std_hash N es (<[i := Store.freeze s]> ss).

(** A request and what becomes of it. *)
Definition replies (h h' : Memtask) : Prop := ∃ s, h' = (Store.spec_task s h).2.

(** The Gets handed back are the calls' own, answered from the writes before them. *)
Definition gets_from (i : nat) (es : list Event) : Prop :=
  ∀ pre post g', es = pre ++ Answered i (TGet g') :: post →
  ∃ before g after r, calls i pre = before ++ TGet g :: after ∧ g' = Store.answer r g ∧
    Store.from (Store.values (get_key g) before) r.

(** What a shard has come to by a history. *)
Record told (i : nat) (es : list Event) (s : Store.Shard) : Prop := mkTold {
  td_calls : Store.handled s ++ Store.queue s = calls i es;
  td_replies : Forall2 replies (Store.handled s) (answers i es);
  td_reads : Store.reads_ok s;
  td_gets : gets_from i es
}.

(** Splits of a history that ends with an event. *)
Lemma snoc_split {A} (es pre post : list A) (e x : A) :
  es ++ [e] = pre ++ x :: post →
  (∃ post', es = pre ++ x :: post') ∨ (es = pre ∧ e = x).
Proof.
  intros E. destruct post as [|y post' _] using rev_ind.
  - apply app_inj_tail in E as [-> ->]. by right.
  - left. exists post'. rewrite app_comm_cons, app_assoc in E. by apply app_inj_tail in E as [-> _].
Qed.

Lemma gets_from_snoc (i : nat) (es : list Event) (e : Event) :
  gets_from i es →
  (∀ g', e = Answered i (TGet g') → ∃ before g after r, calls i es = before ++ TGet g :: after ∧
     g' = Store.answer r g ∧ Store.from (Store.values (get_key g) before) r) →
  gets_from i (es ++ [e]).
Proof.
  intros H He pre post g' E. apply snoc_split in E as [[post' E]|[<- ->]]; [by apply (H pre post')|].
  by apply He.
Qed.

(** An event of another shard. *)
Lemma told_other (i j : nat) (es : list Event) (e : Event) (s : Store.Shard) :
  match e with Called k _ | Answered k _ => k end = j → j ≠ i →
  told i es s → told i (es ++ [e]) s.
Proof.
  intros Ej Hj [Hc Hr Ho Hg].
  assert (E1 : calls i [e] = []) by (destruct e; cbn in *; [by rewrite decide_False by congruence|done]).
  assert (E2 : answers i [e] = []) by (destruct e; cbn in *; [done|by rewrite decide_False by congruence]).
  split; rewrite ?calls_app, ?answers_app, ?E1, ?E2, ?app_nil_r; [done|done|done|].
  apply gets_from_snoc; [done|]. intros g' ->. cbn in Ej. congruence.
Qed.

Lemma told_call (i : nat) (es : list Event) (h : Memtask) (s : Store.Shard) :
  told i es s → told i (es ++ [Called i h]) (Store.enqueue s h).
Proof.
  intros [Hc Hr Ho Hg]. split; rewrite ?calls_app, ?answers_app; cbn [Store.handled Store.queue Store.enqueue].
  - cbn. by rewrite decide_True, <- Hc, app_assoc.
  - by rewrite app_nil_r.
  - exact Ho.
  - by apply gets_from_snoc.
Qed.

Lemma told_freeze (i : nat) (es : list Event) (s : Store.Shard) :
  told i es s → told i es (Store.freeze s).
Proof.
  intros [Hc Hr Ho Hg]. split; [done|done| |done]. intros k. rewrite Store.read_freeze. apply Ho.
Qed.

Lemma told_serve (i : nat) (es : list Event) (s s' : Store.Shard) (h' : Memtask) :
  serve s = Some (s', h') → told i es s → told i (es ++ [Answered i h']) s'.
Proof.
  unfold serve. intros Es [Hc Hr Ho Hg]. destruct (Store.queue s) as [|h q] eqn:Eq; [done|].
  set (s1 := Store.mkShard _ _ _ q) in Es. injection Es as Es.
  pose proof (Store.spec_task_handled s1 h) as [Eh Eqq]. rewrite Es in Eh, Eqq. cbn in Eh, Eqq.
  assert (E : h' = (Store.spec_task s1 h).2) by (by rewrite Es).
  split; rewrite ?calls_app, ?answers_app.
  - by rewrite Eh, Eqq, app_nil_r, <- app_assoc, <- Hc.
  - rewrite Eh. cbn. rewrite decide_True by done. apply Forall2_app; [done|].
    constructor; [by exists s1|done].
  - replace s' with (Store.spec_task s1 h).1 by (by rewrite Es). by apply Store.spec_task_reads.
  - apply gets_from_snoc; [done|]. intros g' [= E']. rewrite E in E'.
    destruct h as [c|g|d|sn]; cbn in E'; try discriminate E'. injection E' as <-.
    eexists (Store.handled s), g, q, _. by rewrite <- Hc.
Qed.

Lemma abstract_told (std_hash : bytes → Z) (N : nat) (es : list Event) (ss : list Store.Shard) :
  abstract std_hash N es ss → length ss = N ∧ ∀ i s, ss !! i = Some s → told i es s.
Proof.
  induction 1 as [|es ss i h s _ [Hl IH] Hi Ht|es ss i s s' h' _ [Hl IH] Hi Hs|es ss i s _ [Hl IH] Hi].
  { rewrite length_replicate. split; [done|]. intros i s Hs. apply lookup_replicate_1 in Hs as [-> _].
    split; [done|constructor|by intros k|]. intros pre post g' E. by destruct pre. }
  all: rewrite length_insert; (split; [done|]); intros j sj Hj;
    (destruct (decide (i = j)) as [<-|Hne];
     [rewrite list_lookup_insert_eq in Hj by (by eapply lookup_lt_Some); injection Hj as <-
     |rewrite list_lookup_insert_ne in Hj by done; specialize (IH j sj Hj)]).
  - apply told_call. by apply IH.
  - by apply (told_other j i).
  - apply (told_serve i es s); [done|]. by apply IH.
  - by apply (told_other j i).
  - apply told_freeze. by apply IH.
  - done.
Qed.

Lemma elem_calls (i : nat) (es : list Event) (h : Memtask) : Called i h ∈ es ↔ h ∈ calls i es.
Proof.
  unfold calls. rewrite list_elem_of_omap. split.
  - intros Hin. exists (Called i h). by rewrite decide_True.
  - intros ([j h0|] & Hin & E); [|done]. destruct (decide (j = i)) as [->|]; [|done]. by injection E as <-.
Qed.

Lemma elem_answers (i : nat) (es : list Event) (h : Memtask) : Answered i h ∈ es ↔ h ∈ answers i es.
Proof.
  unfold answers. rewrite list_elem_of_omap. split.
  - intros Hin. exists (Answered i h). by rewrite decide_True.
  - intros ([|j h0] & Hin & E); [done|]. destruct (decide (j = i)) as [->|]; [|done]. by injection E as <-.
Qed.

(** Nothing happens outside the shards. *)
Lemma abstract_index (std_hash : bytes → Z) (N : nat) (es : list Event) (ss : list Store.Shard) :
  abstract std_hash N es ss →
  ∀ i h, Called i h ∈ es ∨ Answered i h ∈ es → (i < N)%nat.
Proof.
  induction 1 as [|es ss i h s Ha IH Hi Ht|es ss i s s' h' Ha IH Hi Hs|es ss i s _ IH Hi]; intros j k Hin.
  { destruct Hin as [Hin|Hin]; by apply elem_of_nil in Hin. }
  1,2: apply lookup_lt_Some in Hi; rewrite (proj1 (abstract_told _ _ _ _ Ha)) in Hi;
    rewrite !elem_of_app, !list_elem_of_singleton in Hin;
    destruct Hin as [[Hin|E]|[Hin|E]]; simplify_eq; eauto.
  by eapply IH.
Qed.

(** A Get that is done with has its answer. *)
Lemma replies_get (hs hs' : list Memtask) (g : GetContext) :
  Forall2 replies hs hs' → TGet g ∈ hs → ∃ r, TGet (Store.answer r g) ∈ hs'.
Proof.
  intros Hr (n & Hn)%list_elem_of_lookup_1.
  destruct (Forall2_lookup_l _ _ _ _ _ Hr Hn) as (h' & Hn' & s & E). cbn in E. subst h'.
  eexists. by eapply list_elem_of_lookup_2.
Qed.

(** Every call is of a request of that shard. *)
Lemma abstract_mine (std_hash : bytes → Z) (N : nat) (es : list Event) (ss : list Store.Shard) :
  abstract std_hash N es ss →
  ∀ i, Forall (λ h, task_for std_hash (Z.of_nat N) i h = true) (calls i es).
Proof.
  induction 1 as [|es ss i h s _ IH Hi Ht|es ss i s s' h' _ IH Hi Hs|es ss i s _ IH Hi]; intros j.
  - constructor.
  - rewrite calls_app. apply Forall_app. split; [apply IH|]. cbn.
    destruct (decide (i = j)) as [<-|]; [by constructor|constructor].
  - rewrite calls_app, app_nil_r. apply IH.
  - apply IH.
Qed.

(** Only one shard is sent writes of a key. *)
Lemma values_mine (std_hash : bytes → Z) (N : nat) (i j : nat) (g : GetContext) (hs : list Memtask) :
  task_for std_hash (Z.of_nat N) i (TGet g) = true → j ≠ i →
  Forall (λ h, task_for std_hash (Z.of_nat N) j h = true) hs → Store.values (get_key g) hs = [].
Proof.
  intros Hg Hj. induction 1 as [|h hs Hh _ IH]; [done|].
  change (h :: hs) with ([h] ++ hs). rewrite Store.values_app, IH, app_nil_r.
  destruct h as [c|?|d|?]; try done;
    [destruct (decide (set_key c = get_key g)) as [E|] eqn:D
    |destruct (decide (del_key d = get_key g)) as [E|] eqn:D];
    cbn in *; rewrite D; try done; rewrite E in Hh; apply bool_decide_eq_true_1 in Hh; apply bool_decide_eq_true_1 in Hg; congruence.
Qed.

(** ** The threads *)
Section Threads.
Context {F C V : Type} {KF : KeyFilter F} {RS : ReadOnlySink C F} {VS : ViewStore V}.
Context (std_hash : bytes → Z).

(** The worker threads, what they share, and what clients have seen so far. A
    thread of [Worker] has the shared objects in its state: it is given them
    for each of its steps. *)
Record Sys : Type := mkSys {
  threads : list (Worker.Sys F C V);
  views : V;
  sink : C;
  history : list Event
}.

Definition load (t : Worker.Sys F C V) (v : V) (c : C) : Worker.Sys F C V :=
  Worker.mkSys (Worker.wk t) v c (Worker.pc t) (Worker.pending t) (Worker.added t)
    (Worker.served t) (Worker.answered t) (Worker.missed t).

(** What a thread does with a label, if it can. *)
Definition act (t : Worker.Sys F C V) (l : Worker.Label) : option (outcome (Worker.Sys F C V)) :=
  match l with
  | Worker.LWorker => Worker.wstep t
  | Worker.LAdd h => Some (Done (Worker.add t h))
  | Worker.LNotify => if decide (0 < Worker.pending t)%nat then Some (Done (Worker.notified t)) else None
  | Worker.LWake =>
      match Worker.pc t with Worker.Asleep => Some (Done (Worker.at_pc t Worker.Awake)) | _ => None end
  | Worker.LFlushed => Some (Done (Worker.flushed t))
  | Worker.LStop => Some (Done (Worker.stop t))
  end.

Lemma act_step (t t' : Worker.Sys F C V) (l : Worker.Label) :
  act t l = Some (Done t') → Worker.step l t t'.
Proof.
  destruct l; cbn [act]; intros H.
  - by constructor.
  - injection H as <-. constructor.
  - destruct (decide _); [|done]. injection H as <-. by constructor.
  - destruct (Worker.pc t) eqn:E; try done. injection H as <-. by constructor.
  - injection H as <-. constructor.
  - injection H as <-. constructor.
Qed.

(** Only the worker's own steps may fault. *)
Lemma act_done (t : Worker.Sys F C V) (l : Worker.Label) (o : outcome (Worker.Sys F C V)) :
  l ≠ Worker.LWorker → act t l = Some o → ∃ t', o = Done t'.
Proof.
  destruct l; cbn [act]; intros Hl E; try done; try (injection E as <-; by eexists).
  - destruct (decide _); [|done]. injection E as <-. by eexists.
  - destruct (Worker.pc t); try done. injection E as <-. by eexists.
Qed.

(** What clients see of a step of thread [i] from [t] to [t']. *)
Definition events (i : nat) (l : Worker.Label) (t t' : Worker.Sys F C V) : list Event :=
  match l with
  | Worker.LAdd h => [Called i h]
  | _ => Answered i <$> drop (length (Worker.answered t)) (Worker.answered t')
  end.

(** Clients put a request into the queue of the worker that its key names, a
    snapshot into every queue, one behind the other. *)
Definition sends (n : nat) (i : nat) (l : Worker.Label) : bool :=
  match l with Worker.LAdd h => task_for std_hash (Z.of_nat n) i h | _ => true end.

(** One step of the system; what is not enabled does not happen. *)
Definition step (s : Sys) (m : nat * Worker.Label) : outcome Sys :=
  let '(i, l) := m in
  match threads s !! i with
  | None => Done s
  | Some t0 =>
      let t := load t0 (views s) (sink s) in
      if sends (length (threads s)) i l then
        match act t l with
        | None => Done s
        | Some o =>
            t' ← o;
            Done (mkSys (<[i := t']> (threads s)) (Worker.vs t') (Worker.cs t')
                    (history s ++ events i l t t'))
        end
      else Done s
  end.

Fixpoint run (s : Sys) (sched : list (nat * Worker.Label)) : outcome Sys :=
  match sched with
  | [] => Done s
  | m :: sched' => s ← step s m; run s sched'
  end.

(** The requests of a schedule that reach queue [i] of [n]. *)
Definition sent (n i : nat) (sched : list (nat * Worker.Label)) : list Memtask :=
  omap (λ m, match m with
             | (j, Worker.LAdd h) =>
                 if decide (j = i) then if task_for std_hash (Z.of_nat n) i h then Some h else None else None
             | _ => None
             end) sched.

Definition requests (sched : list (nat * Worker.Label)) : list Memtask :=
  omap (λ m, match m.2 with Worker.LAdd h => Some h | _ => None end) sched.

(** [DB::NewDBimp]: the threads that [Run] starts. *)
Definition spawn (s : Store.Sys (F := F) (C := C) (V := V)) : Sys :=
  mkSys ((λ w, Worker.start w (Store.views s) (Store.sink s)) <$> taskworkers_ (Store.shared s))
    (Store.views s) (Store.sink s) [].

(** ** The threads do what the abstract store does *)
Section Simulation.
Context {KL : KeyFilterLaws F} {SL : ReadOnlySinkLaws C F} {VL : ViewStoreLaws V}.
Context (cap : Z) (v : V).

(** A thread and its shard: what the turn has left and what is queued for the
    next one is the shard's queue. *)
Record agrees (t : Worker.Sys F C V) (n : Z) (s : Store.Shard) : Prop := mkAgrees {
  ag_holds : Store.holds cap (Worker.wk t) n s;
  ag_queue : Worker.todo (Worker.pc t) ++ bg_handle_vec_ (Worker.wk t) = Store.queue s;
  ag_idle : Worker.idle (Worker.pc t) = true → handle_vec_ (Worker.wk t) = []
}.

(** [holds] does not look at queues, counters of turns or [isRunning_]. *)
Lemma holds_same (w w' : TaskWorker F) (n : Z) (s s' : Store.Shard) :
  Store.holds cap w n s →
  memtable_ w' = memtable_ w → readonly_memtable_vec_ w' = readonly_memtable_vec_ w →
  memview_manager_ w' = memview_manager_ w → compactor_ w' = compactor_ w →
  remove_N_ w' = preRemove_N_ w' → klrucache_ w' = klrucache_ w →
  Store.active s' = Store.active s → Store.frozen s' = Store.frozen s →
  Store.handled s' = Store.handled s → Store.holds cap w' n s'.
Proof.
  intros [H1 H2 H3 H4 H5 H6 H7 H8 H9 H10 H11 H12] E1 E2 E3 E4 E5 E6 A1 A2 A3.
  split; rewrite ?E1, ?E2, ?E3, ?E4, ?E6, ?A1, ?A2, ?A3; done.
Qed.

(** A step of a thread's own: at most a request served or a table handed over. *)
Inductive moved (s : Store.Shard) : Store.Shard → list Memtask → Prop :=
  | moved_not : moved s s []
  | moved_serve s' h' : serve s = Some (s', h') → moved s s' [h']
  | moved_freeze : moved s (Store.freeze s) [].

Lemma check_agrees (t : Worker.Sys F C V) (n : Z) (s : Store.Shard) :
  Worker.pc t = Worker.AtLoop → agrees t n s → agrees (Worker.check t) n s.
Proof.
  intros Ep [H Hq Hi]. rewrite Ep in *. unfold Worker.check.
  destruct (isRunning_ (Worker.wk t)), (bg_handle_vec_ (Worker.wk t)) eqn:Eb;
    split; cbn; rewrite ?Eb; auto; done.
Qed.

Lemma swap_agrees (t : Worker.Sys F C V) (n : Z) (s : Store.Shard) :
  Worker.pc t = Worker.Awake → agrees t n s → agrees (Worker.swap t) n s.
Proof.
  intros Ep [H Hq Hi]. rewrite Ep in *. split; cbn; [|by rewrite (Hi eq_refl), app_nil_r|done].
  eapply holds_same; try done. apply H.
Qed.

Lemma handle_agrees (t : Worker.Sys F C V) (n : Z) (s : Store.Shard) (h : Memtask) (rest : list Memtask) :
  0 < cap → Store.no_views v n → Worker.vs t = v → Worker.pc t = Worker.Handling (h :: rest) →
  agrees t n s → Store.task_ok cap h → NoDup (Store.asked (Store.handled s ++ [h])) →
  ∃ t' s' h', Worker.handle_one t h rest = Done t' ∧ Worker.vs t' = v ∧ Worker.cs t' = Worker.cs t ∧
    Worker.answered t' = Worker.answered t ++ [h'] ∧ serve s = Some (s', h') ∧ agrees t' n s'.
Proof.
  intros Hcap Hv Et Ep [H Hq Hi] Hok Hnd. rewrite Ep in *. cbn [Worker.todo app] in Hq.
  set (s1 := Store.mkShard (Store.active s) (Store.frozen s) (Store.handled s)
               (rest ++ bg_handle_vec_ (Worker.wk t))).
  destruct (Store.task_sim cap v (Worker.wk t) n s1 h) as (w' & E & H' & Q1 & Q2); try done.
  { eapply holds_same; try done. apply H. }
  unfold Worker.handle_one. rewrite Et, E. cbn [mbind outcome_bind].
  eexists _, _, _. split; [done|]. split; [done|]. split; [done|]. split; [done|].
  unfold serve. rewrite <- Hq. fold s1. split; [by rewrite <- surjective_pairing|].
  split; [done| |done]. cbn. rewrite Q2. by rewrite (proj2 (Store.spec_task_handled s1 h)).
Qed.

Lemma log_sizes_agrees (t : Worker.Sys F C V) (n : Z) (s : Store.Shard) :
  Store.no_views v n → Worker.vs t = v → Worker.pc t = Worker.Handling [] → agrees t n s →
  Worker.log_sizes t = Done (Worker.at_pc t Worker.Dropping) ∧ agrees (Worker.at_pc t Worker.Dropping) n s.
Proof.
  intros Hv Et Ep [H Hq Hi]. rewrite Ep in *. split; [|by split].
  unfold Worker.log_sizes. rewrite (Store.holds_number cap _ n s H). cbn [mbind outcome_bind].
  rewrite (Store.h_views _ _ _ _ H). cbn [guard_fault mbind outcome_bind].
  by rewrite Et, (proj2 Hv).
Qed.

Lemma drop_agrees (t : Worker.Sys F C V) (n : Z) (s : Store.Shard) :
  Worker.pc t = Worker.Dropping → agrees t n s →
  Worker.drop_tables t = Done (Worker.at_pc t Worker.Rotating) ∧ agrees (Worker.at_pc t Worker.Rotating) n s.
Proof.
  intros Ep [H Hq Hi]. rewrite Ep in *. split; [|by split].
  unfold Worker.drop_tables. cbv zeta. by rewrite (Store.h_flushed _ _ _ _ H), Z.ltb_irrefl.
Qed.

Lemma drop_note_agrees (t : Worker.Sys F C V) (n : Z) (s : Store.Shard) :
  Worker.pc t = Worker.Dropped → agrees t n s → agrees (Worker.drop_note t) n s.
Proof.
  intros Ep [H Hq Hi]. rewrite Ep in *. split; cbn; [|done|done]. eapply holds_same; done.
Qed.

Lemma end_turn_agrees (t : Worker.Sys F C V) (n : Z) (s : Store.Shard) :
  u32 n = n → sink_ok (Worker.cs t) → Worker.pc t = Worker.Rotating → agrees t n s →
  ∃ t' full, Worker.end_turn t = Done t' ∧ sink_ok (Worker.cs t') ∧ Worker.vs t' = Worker.vs t ∧
    Worker.answered t' = Worker.answered t ∧ agrees t' n (if full : bool then Store.freeze s else s).
Proof.
  intros Hn Hc Ep [H Hq Hi]. rewrite Ep in *. unfold Worker.end_turn. cbv zeta.
  destruct (Store.rotate_sim cap (with_queues (Worker.wk t) [] (bg_handle_vec_ (Worker.wk t))) n s
              (Worker.cs t)) as (w' & c' & full & E & Hc' & H' & Q1 & Q2); try done.
  { eapply holds_same; try done. apply H. }
  rewrite E. cbn [mbind outcome_bind]. eexists _, full. split; [done|]. split; [done|].
  split; [done|]. split; [done|]. split; cbn; [done| |done]. rewrite Q2. cbn. by destruct full.
Qed.

(** What a step of thread [n] comes to, on its shard. *)
Record steps_to (t t' : Worker.Sys F C V) (n : Z) (s : Store.Shard) : Prop := mkStepsTo {
  st_views : Worker.vs t' = v;
  st_sink : sink_ok (Worker.cs t');
  st_moves : ∃ s' out, Worker.answered t' = Worker.answered t ++ out ∧ moved s s' out ∧ agrees t' n s'
}.

Lemma steps_to_same (t t' : Worker.Sys F C V) (n : Z) (s : Store.Shard) :
  Worker.vs t' = v → sink_ok (Worker.cs t') → Worker.answered t' = Worker.answered t →
  agrees t' n s → steps_to t t' n s.
Proof. intros ? ? E ?. split; [done|done|]. exists s, []. rewrite E, app_nil_r. by split_and!; [|constructor|]. Qed.

Lemma wstep_agrees (t : Worker.Sys F C V) (n : Z) (s : Store.Shard) :
  0 < cap → Store.no_views v n → u32 n = n → Worker.vs t = v → sink_ok (Worker.cs t) →
  agrees t n s → Forall (Store.task_ok cap) (Store.queue s) →
  NoDup (Store.asked (Store.handled s ++ Store.queue s)) →
  match Worker.wstep t with
  | None => True
  | Some o => ∃ t', o = Done t' ∧ steps_to t t' n s
  end.
Proof.
  intros Hcap Hv Hn Et Hc Ha Hok Hnd. pose proof Ha as [H Hq Hi]. unfold Worker.wstep.
  destruct (Worker.pc t) as [| | | |[|h rest]| | | |] eqn:Ep; try done.
  - eexists. split; [done|]. apply steps_to_same; [..|by apply check_agrees];
      unfold Worker.check; by destruct (isRunning_ _), (bg_handle_vec_ _).
  - eexists. split; [done|]. by apply steps_to_same.
  - eexists. split; [done|]. by apply steps_to_same; [..|apply swap_agrees].
  - destruct (log_sizes_agrees t n s Hv Et Ep Ha) as [-> Ha'].
    eexists. split; [done|]. by apply steps_to_same.
  - rewrite <- Hq in Hok, Hnd. cbn [Worker.todo app] in Hok, Hnd. apply Forall_cons in Hok as [Hh _].
    replace (Store.handled s ++ h :: rest ++ bg_handle_vec_ (Worker.wk t))
      with ((Store.handled s ++ [h]) ++ rest ++ bg_handle_vec_ (Worker.wk t)) in Hnd
      by (by rewrite <- app_assoc).
    rewrite Store.asked_app in Hnd. apply NoDup_app in Hnd as [Hnd _].
    destruct (handle_agrees t n s h rest) as (t' & s' & h' & -> & Ev & Ec & Ea & Es & Ha'); try done.
    exists t'. split; [done|]. split; [done|by rewrite Ec|]. exists s', [h'].
    by split_and!; [|constructor|].
  - destruct (drop_agrees t n s Ep Ha) as [-> Ha'].
    eexists. split; [done|]. by apply steps_to_same.
  - eexists. split; [done|]. by apply steps_to_same; [..|apply drop_note_agrees].
  - destruct (end_turn_agrees t n s Hn Hc Ep Ha) as (t' & full & -> & Hc' & Ev & Ea & Ha').
    exists t'. split; [done|]. split; [by rewrite Ev|done|]. eexists _, []. rewrite Ea, app_nil_r.
    split; [done|]. split; [|exact Ha']. destruct full; constructor.
Qed.


(** What others do to a thread: a request more, or nothing to its shard. *)
Lemma add_agrees (t : Worker.Sys F C V) (n : Z) (s : Store.Shard) (h : Memtask) :
  agrees t n s → agrees (Worker.add t h) n (Store.enqueue s h).
Proof.
  intros [H Hq Hi]. split; cbn; [|by rewrite <- Hq, app_assoc|done]. eapply holds_same; try done. apply H.
Qed.

Lemma other_agrees (t t' : Worker.Sys F C V) (n : Z) (s : Store.Shard) (l : Worker.Label) :
  match l with Worker.LNotify | Worker.LWake | Worker.LStop => True | _ => False end →
  act t l = Some (Done t') → Worker.vs t = v → sink_ok (Worker.cs t) → agrees t n s →
  steps_to t t' n s.
Proof.
  intros Hl E Et Hc [H Hq Hi]. destruct l; try done; cbn [act] in E.
  - destruct (decide _); [|done]. injection E as <-. apply steps_to_same; try done.
    split; cbn; [done| |]; destruct (Worker.pc t); auto.
  - destruct (Worker.pc t) eqn:Ep; try done. injection E as <-. by apply steps_to_same.
  - injection E as <-. apply steps_to_same; try done. split; cbn; [|done|done].
    eapply holds_same; try done. apply H.
Qed.

(** A step on its own shard, as clients see it. *)
Lemma moved_abstract (N i : nat) (es : list Event) (ss : list Store.Shard) (s s' : Store.Shard)
    (out : list Memtask) :
  abstract std_hash N es ss → ss !! i = Some s → moved s s' out →
  abstract std_hash N (es ++ (Answered i <$> out)) (<[i := s']> ss).
Proof.
  intros Ha Hi [|s1 h' Hs|]; cbn [fmap list_fmap]; rewrite ?app_nil_r.
  - by rewrite list_insert_id.
  - by eapply abs_serve.
  - by apply abs_freeze.
Qed.

(** *** The system *)

Record explains (s : Sys) (ss : list Store.Shard) : Prop := mkExplains {
  ex_views : views s = v;
  ex_sink : sink_ok (sink s);
  ex_abstract : abstract std_hash (length (threads s)) (history s) ss;
  ex_threads : ∀ i t sh, threads s !! i = Some t → ss !! i = Some sh →
    agrees (load t (views s) (sink s)) (Z.of_nat i) sh
}.

Lemma agrees_load (t : Worker.Sys F C V) (v0 : V) (c : C) (n : Z) (s : Store.Shard) :
  agrees t n s → agrees (load t v0 c) n s.
Proof. intros [H Hq Hi]. by split. Qed.

(** One thread moved. *)
Lemma explains_insert (s : Sys) (ss : list Store.Shard) (i : nat) (t' : Worker.Sys F C V)
    (s' : Store.Shard) (es : list Event) :
  explains s ss → (i < length ss)%nat → Worker.vs t' = v → sink_ok (Worker.cs t') →
  agrees t' (Z.of_nat i) s' →
  abstract std_hash (length (threads s)) (history s ++ es) (<[i := s']> ss) →
  explains (mkSys (<[i := t']> (threads s)) (Worker.vs t') (Worker.cs t') (history s ++ es))
    (<[i := s']> ss).
Proof.
  intros [Hv Hc Ha Ht] Hi Ev Ec Hag Habs. split; cbn [threads views sink history]; try done.
  { by rewrite length_insert. }
  intros j tj sj Hj Hsj. destruct (decide (i = j)) as [<-|Hne].
  - rewrite list_lookup_insert_eq in Hsj by done. injection Hsj as <-.
    assert (Hl : (i < length (threads s))%nat)
      by (rewrite <- (length_insert (threads s) i t'); by eapply lookup_lt_Some).
    rewrite list_lookup_insert_eq in Hj by done. injection Hj as <-. by apply agrees_load.
  - rewrite list_lookup_insert_ne in Hj by done. rewrite list_lookup_insert_ne in Hsj by done.
    exact (agrees_load _ _ _ _ _ (Ht j tj sj Hj Hsj)).
Qed.

(** Clients send what fits; nothing has been reported flushed. *)
Definition move_ok (m : nat * Worker.Label) : Prop :=
  match m.2 with
  | Worker.LAdd h => Store.task_ok cap h
  | Worker.LFlushed => False
  | _ => True
  end.

Definition history_ok (n : nat) (es : list Event) (sched : list (nat * Worker.Label)) : Prop :=
  ∀ i, (i < n)%nat → let hs := calls i es ++ sent n i sched in
    Forall (Store.task_ok cap) hs ∧ NoDup (Store.asked hs).

Lemma calls_answered (i j : nat) (hs : list Memtask) : calls i (Answered j <$> hs) = [].
Proof. by induction hs. Qed.

(** The calls that a step makes. *)
Lemma calls_events (i j : nat) (l : Worker.Label) (t t' : Worker.Sys F C V) :
  calls i (events j l t t') =
  match l with Worker.LAdd h => if decide (j = i) then [h] else [] | _ => [] end.
Proof. destruct l; cbn [events]; try apply calls_answered. cbn. by destruct (decide _). Qed.

Lemma sent_one (n i j : nat) (l : Worker.Label) :
  sent n i [(j, l)] =
  match l with
  | Worker.LAdd h => if decide (j = i) then if task_for std_hash (Z.of_nat n) i h then [h] else [] else []
  | _ => []
  end.
Proof. destruct l; try done. cbn. destruct (decide _); [|done]. by destruct (task_for _ _ _ _). Qed.

(** What a step is to come to: it goes through, it is explained, and clients
    see the call that was made. *)
Definition advances (s : Sys) (m : nat * Worker.Label) (o : outcome Sys) : Prop :=
  let N := length (threads s) in
  ∃ s' ss', o = Done s' ∧ explains s' ss' ∧ length (threads s') = N ∧
    ∀ j, (j < N)%nat → calls j (history s') = calls j (history s) ++ sent N j [m].

Definition is_call (l : Worker.Label) : bool :=
  match l with Worker.LAdd _ => true | _ => false end.

Lemma stay_advances (s : Sys) (ss : list Store.Shard) (i : nat) (l : Worker.Label) :
  explains s ss →
  is_call l = false ∨ (length (threads s) ≤ i)%nat ∨ sends (length (threads s)) i l = false →
  advances s (i, l) (Done s).
Proof.
  intros Hex Hn. exists s, ss. split_and!; try done. intros j Hj. rewrite sent_one.
  destruct l; rewrite ?app_nil_r; try done. case_decide as E; [|by rewrite app_nil_r].
  destruct Hn as [Hn|[Hn|Hn]]; [done|lia|]. cbn in Hn. rewrite <- E, Hn. by rewrite app_nil_r.
Qed.

Definition after (s : Sys) (i : nat) (l : Worker.Label) (t t' : Worker.Sys F C V) : Sys :=
  mkSys (<[i := t']> (threads s)) (Worker.vs t') (Worker.cs t') (history s ++ events i l t t').

(** A step of one thread that is no call. *)
Lemma moved_advances (s : Sys) (ss : list Store.Shard) (i : nat) (l : Worker.Label)
    (t0 t' : Worker.Sys F C V) (sh : Store.Shard) :
  is_call l = false → explains s ss → ss !! i = Some sh →
  let t := load t0 (views s) (sink s) in
  steps_to t t' (Z.of_nat i) sh → advances s (i, l) (Done (after s i l t t')).
Proof.
  intros Hl Hex Hi t [Ev Ec (s' & out & Ea & Hm & Hag)].
  assert (Ee : events i l t t' = Answered i <$> out).
  { destruct l; try done; cbn [events]; by rewrite Ea, drop_app_length. }
  eexists _, (<[i := s']> ss). split; [done|]. split; [|split; [apply length_insert|]].
  - apply explains_insert; try done; [by eapply lookup_lt_Some|]. rewrite Ee.
    eapply moved_abstract; [apply Hex|exact Hi|exact Hm].
  - intros j Hj. cbn [after history]. rewrite calls_app, calls_events, sent_one. by destruct l.
Qed.

(** A call. *)
Lemma add_advances (s : Sys) (ss : list Store.Shard) (i : nat) (t : Worker.Sys F C V)
    (h : Memtask) (sh : Store.Shard) :
  explains s ss → ss !! i = Some sh → Worker.vs t = v → sink_ok (Worker.cs t) →
  agrees t (Z.of_nat i) sh → sends (length (threads s)) i (Worker.LAdd h) = true →
  advances s (i, Worker.LAdd h) (Done (after s i (Worker.LAdd h) t (Worker.add t h))).
Proof.
  intros Hex Hi Ev Ec Hag Hs. eexists _, (<[i := Store.enqueue sh h]> ss).
  split; [done|]. split; [|split; [apply length_insert|]].
  - apply explains_insert; try done; [by eapply lookup_lt_Some|by apply add_agrees|].
    apply abs_call; [apply Hex|done|done].
  - intros j Hj. cbn [after history]. rewrite calls_app, calls_events, sent_one. f_equal.
    destruct (decide (i = j)) as [<-|]; [|done]. cbn in Hs. by rewrite Hs.
Qed.

Lemma threads_step_sim (s : Sys) (ss : list Store.Shard) (i : nat) (l : Worker.Label) :
  let N := length (threads s) in
  0 < cap → Z.of_nat N < 2 ^ 32 → (∀ i, (i < N)%nat → Store.no_views v (Z.of_nat i)) →
  explains s ss → move_ok (i, l) → history_ok N (history s) [(i, l)] →
  advances s (i, l) (step s (i, l)).
Proof.
  intros N Hcap HN Hviews Hex Hm Hh. pose proof Hex as [Hv Hc Ha Ht].
  destruct (abstract_told _ _ _ _ Ha) as [Hl Htold].
  cbn [step]. destruct (threads s !! i) as [t0|] eqn:Ei.
  2:{ eapply stay_advances; [done|]. right. left. by apply lookup_ge_None in Ei. }
  assert (Hi : (i < N)%nat) by (by eapply lookup_lt_Some).
  destruct (lookup_lt_is_Some_2 ss i) as [sh Esh]; [by rewrite Hl|].
  pose proof (Ht i t0 sh Ei Esh) as Hag. set (t := load t0 (views s) (sink s)) in *.
  destruct (sends _ i l) eqn:Es; [|eapply stay_advances; eauto].
  assert (Hgo : is_call l = false → match act t l with
      | None => True | Some o => ∃ t', o = Done t' ∧ steps_to t t' (Z.of_nat i) sh end →
    advances s (i, l) match act t l with
      | None => Done s | Some o => t' ← o; Done (after s i l t t') end).
  { intros Hn Hst. destruct (act t l) as [o|]; [|eapply stay_advances; eauto].
    destruct Hst as (t' & -> & Hst). by eapply moved_advances. }
  destruct l as [|h| | | |]; try done;
    try (apply Hgo; [done|]; destruct (act t _) as [o|] eqn:Eo; [|done];
         edestruct act_done as [t' Et]; [|exact Eo|]; [done|]; subst o;
         exists t'; split; [done|]; by eapply other_agrees; [|exact Eo|..]).
  - apply Hgo; [done|]. destruct (Hh i Hi) as [Hok Hnd].
    rewrite sent_one, app_nil_r, <- (td_calls _ _ _ (Htold i sh Esh)) in Hok, Hnd.
    apply Forall_app in Hok as [_ Hok]. apply wstep_agrees; try done; [by apply Hviews|].
    apply u32_small. lia.
  - by eapply add_advances.
Qed.

Lemma sent_cons (n i : nat) (m : nat * Worker.Label) (sched : list (nat * Worker.Label)) :
  sent n i (m :: sched) = sent n i [m] ++ sent n i sched.
Proof. apply (omap_app _ [m]). Qed.

Lemma threads_run_sim (sched : list (nat * Worker.Label)) : ∀ (s : Sys) (ss : list Store.Shard),
  let N := length (threads s) in
  0 < cap → Z.of_nat N < 2 ^ 32 → (∀ i, (i < N)%nat → Store.no_views v (Z.of_nat i)) →
  explains s ss → Forall move_ok sched → history_ok N (history s) sched →
  ∃ s' ss', run s sched = Done s' ∧ explains s' ss' ∧ length (threads s') = N ∧
    ∀ j, (j < N)%nat → calls j (history s') = calls j (history s) ++ sent N j sched.
Proof.
  induction sched as [|[i l] sched IH]; intros s ss N Hcap HN Hviews Hex Hm Hh.
  { exists s, ss. split_and!; try done. intros j _. by rewrite app_nil_r. }
  apply Forall_cons in Hm as [Hm1 Hm].
  destruct (threads_step_sim s ss i l) as (s1 & ss1 & E1 & Hex1 & Hl1 & Hc1); try done.
  { intros j Hj. destruct (Hh j Hj) as [H1 H2]. rewrite sent_cons, app_assoc in H1, H2.
    rewrite Store.asked_app in H2. apply Forall_app in H1 as [? _]. by apply NoDup_app in H2 as [? _]. }
  destruct (IH s1 ss1) as (s2 & ss2 & E2 & Hex2 & Hl2 & Hc2); rewrite ?Hl1; try done.
  { intros j Hj. cbv zeta. rewrite Hc1 by done. fold N. rewrite <- app_assoc, <- sent_cons. by apply Hh. }
  exists s2, ss2. cbn [run]. rewrite E1. cbn [mbind outcome_bind].
  split; [done|]. split; [done|]. split; [by rewrite Hl2|]. intros j Hj.
  rewrite Hc2 by (by rewrite Hl1). rewrite Hc1 by done. rewrite Hl1. fold N.
  by rewrite (sent_cons N j (i, l) sched), app_assoc.
Qed.

(** *** From the start *)

Lemma spawn_explains (s : Store.Sys) (ss : list Store.Shard) :
  Store.agrees cap v std_hash s ss [] →
  ss = replicate (length (taskworkers_ (Store.shared s))) Store.empty_shard →
  explains (spawn s) ss.
Proof.
  intros [Hsh Hv Hc Hl Hw _] ->. split; cbn [spawn views sink threads history]; try done.
  { rewrite length_fmap. constructor. }
  intros i t sh Ht Hs. rewrite list_lookup_fmap in Ht. apply fmap_Some in Ht as (w & Ew & ->).
  destruct (Hw i w sh Ew Hs) as [Hh Hq Hh']. apply agrees_load. split; [|done|done].
  eapply holds_same; try done. apply Hh.
Qed.

Lemma sent_sublist (n i : nat) (sched : list (nat * Worker.Label)) :
  sublist (sent n i sched) (requests sched).
Proof.
  induction sched as [|[j l] sched IH]; [constructor|]. rewrite sent_cons, sent_one.
  destruct l; try exact IH. change (requests ((j, Worker.LAdd h) :: sched)) with (h :: requests sched).
  destruct (decide _); [|by constructor]. destruct (task_for _ _ _ _); [|by constructor].
  by apply sublist_skip.
Qed.

Lemma asked_sublist (a b : list Memtask) : sublist a b → sublist (Store.asked a) (Store.asked b).
Proof.
  induction 1 as [|h a b _ IH|h a b _ IH]; [done| |].
  - change (h :: a) with ([h] ++ a). change (h :: b) with ([h] ++ b). rewrite !Store.asked_app.
    by apply sublist_app.
  - change (h :: b) with ([h] ++ b). rewrite Store.asked_app. by apply sublist_inserts_l.
Qed.

Lemma requests_ok (sched : list (nat * Worker.Label)) :
  Forall move_ok sched → Forall (Store.task_ok cap) (requests sched).
Proof.
  induction 1 as [|[j l] sched Hm _ IH]; [constructor|]. destruct l; try exact IH.
  by constructor.
Qed.

Lemma threads_start_run (cfg : DBConfig.DBConfig) (junk : nat → Z * Z) (c : C)
    (sched : list (nat * Worker.Label)) :
  let N := Z.to_nat (DBConfig.memtable_N cfg) in
  0 < DBConfig.memtable_N cfg < 2 ^ 32 → (∀ i, junk i = (0, 0)) → sink_ok c →
  0 < cap → DBConfig.lru_cache_size cfg / 5 = cap →
  (∀ i, Z.of_nat i < DBConfig.memtable_N cfg → Store.no_views v (Z.of_nat i)) →
  Forall move_ok sched → NoDup (Store.asked (requests sched)) →
  ∃ s0 s ss, Store.start v cfg junk c = Done s0 ∧ run (spawn s0) sched = Done s ∧
    explains s ss ∧ length (threads s) = N ∧
    ∀ i, (i < N)%nat → calls i (history s) = sent N i sched.
Proof.
  intros N HN Hj Hc Hcap Hcold Hviews Hm Hnd.
  destruct (Store.start_agrees cap v std_hash cfg junk c) as (s0 & E0 & EN & Hag); try done.
  assert (Hl : length (threads (spawn s0)) = N).
  { cbn. rewrite length_fmap. pose proof (proj2 (Store.ag_shards _ _ _ _ _ _ Hag)) as E.
    rewrite EN in E. unfold zlen in E. unfold N. lia. }
  destruct (threads_run_sim sched (spawn s0) (replicate N Store.empty_shard)) as (s & ss & E & Hex & Hl' & Hcalls);
    rewrite ?Hl; try done.
  - lia.
  - intros i Hi. apply Hviews. lia.
  - apply spawn_explains; [done|]. f_equal. cbn in Hl. by rewrite length_fmap in Hl.
  - intros i Hi hs. pose proof (sent_sublist N i sched) as Hs. split.
    + eapply sublist_Forall; [exact Hs|]. by apply requests_ok.
    + eapply sublist_NoDup; [exact Hnd|]. by apply asked_sublist.
  - exists s0, s, ss. rewrite Hl in Hl', Hcalls. by split_and!.
Qed.

(** C1: the threads refine the abstract store. Start the database's workers,
    with zeroed cache counters, a cache of some capacity, views that hold
    nothing and a compactor that takes tables and still owns one when the worker
    that handed it over counts its owners, which the real one need not
    ([HandOver]). Let clients put requests into the queues while all the threads
    run - each step of a worker, each notification, spurious wake-up and stop in
    any order - under three conditions: no key is asked for by two Gets
    ([miss_hides_later_Set] shows why); no table is reported flushed; and every
    request fits ([Store.task_ok]), that is, the number of a Set, below 2^63, and
    the size of its value have varints of one length ([Set_then_read] shows
    why), the number of a Delete is below 2^32, keys and values are below 4 GiB
    and small enough for the counters of the cache. Then no thread faults. The calls and answers that clients see, in the
    order they see them, are a history of the abstract store, in which the
    request at the front of a shard's queue is served in one step, and a shard
    may hand its table over at any time; the queue of a shard is what its
    thread has still to do, and its answers are those of the requests it was
    sent, in that order. *)
Theorem threads_refine_store (cfg : DBConfig.DBConfig) (junk : nat → Z * Z) (c : C)
  (sched : list (nat * Worker.Label))
  (HN : 0 < DBConfig.memtable_N cfg < 2 ^ 32) (Hj : ∀ i, junk i = (0, 0)) (Hc : sink_ok c)
  (Hcap : 0 < cap) (Hcold : DBConfig.lru_cache_size cfg / 5 = cap)
  (Hviews : ∀ i, Z.of_nat i < DBConfig.memtable_N cfg → Store.no_views v (Z.of_nat i))
  (Hsched : Forall move_ok sched) (Hnd : NoDup (Store.asked (requests sched))) :
  let N := Z.to_nat (DBConfig.memtable_N cfg) in
  ∃ s0 s ss, Store.start v cfg junk c = Done s0 ∧ run (spawn s0) sched = Done s ∧
    length (threads s) = N ∧ abstract std_hash N (history s) ss ∧
    ∀ i t, threads s !! i = Some t → ∃ sh, ss !! i = Some sh ∧
      Store.queue sh = Worker.todo (Worker.pc t) ++ bg_handle_vec_ (Worker.wk t) ∧
      Store.handled sh ++ Store.queue sh = sent N i sched ∧
      Forall2 replies (Store.handled sh) (answers i (history s)).
Proof.
  intros N. destruct (threads_start_run cfg junk c sched) as (s0 & s & ss & E0 & E & Hex & Hl & Hcalls); try done.
  exists s0, s, ss. split; [done|]. split; [done|]. split; [done|].
  pose proof (ex_abstract _ _ Hex) as Ha. rewrite Hl in Ha. fold N in Ha. split; [done|].
  destruct (abstract_told _ _ _ _ Ha) as [Hls Htold]. intros i t Ht.
  assert (Hi : (i < N)%nat) by (apply lookup_lt_Some in Ht; by rewrite Hl in Ht).
  destruct (lookup_lt_is_Some_2 ss i) as [sh Hsh]; [by rewrite Hls|].
  exists sh. split; [done|]. destruct (Htold i sh Hsh) as [H1 H2 _ _].
  pose proof (ag_queue _ _ _ (ex_threads _ _ Hex i t sh Ht Hsh)) as Hq.
  split; [by rewrite <- Hq|]. split; [|done]. by rewrite H1, Hcalls.
Qed.

(** C2: a Get sees the writes made before it, whatever the threads do under the
    conditions of [threads_refine_store]: zeroed cache counters, views that hold
    nothing, a compactor that still owns each table when its owners are counted,
    no key asked for by two Gets, no table reported flushed, and requests that
    fit. Then no thread faults, and an answer to a Get comes behind its call, was made
    once, and is [kNotFound] when no Set or Delete of its key was put into a
    queue before it, and otherwise [kOk] with the value of one of those; no
    other worker is ever sent a write of that key. And every Get has been
    answered whose worker has nothing queued and nothing left of its turn. *)
Theorem threads_gets_see_writes (cfg : DBConfig.DBConfig) (junk : nat → Z * Z) (c : C)
  (sched : list (nat * Worker.Label))
  (HN : 0 < DBConfig.memtable_N cfg < 2 ^ 32) (Hj : ∀ i, junk i = (0, 0)) (Hc : sink_ok c)
  (Hcap : 0 < cap) (Hcold : DBConfig.lru_cache_size cfg / 5 = cap)
  (Hviews : ∀ i, Z.of_nat i < DBConfig.memtable_N cfg → Store.no_views v (Z.of_nat i))
  (Hsched : Forall move_ok sched) (Hnd : NoDup (Store.asked (requests sched))) :
  ∃ s0 s, Store.start v cfg junk c = Done s0 ∧ run (spawn s0) sched = Done s ∧
    (∀ pre post i g', history s = pre ++ Answered i (TGet g') :: post →
       ∃ before g after r, calls i pre = before ++ TGet g :: after ∧ g' = Store.answer r g ∧
         Store.from (Store.values (get_key g) before) r ∧
         ∀ j, j ≠ i → Store.values (get_key g) (calls j (history s)) = []) ∧
    (∀ i t g, threads s !! i = Some t → Worker.todo (Worker.pc t) = [] →
       bg_handle_vec_ (Worker.wk t) = [] → Called i (TGet g) ∈ history s →
       ∃ r, Answered i (TGet (Store.answer r g)) ∈ history s).
Proof.
  destruct (threads_start_run cfg junk c sched) as (s0 & s & ss & E0 & E & Hex & Hl & _); try done.
  exists s0, s. split; [done|]. split; [done|]. pose proof (ex_abstract _ _ Hex) as Ha.
  destruct (abstract_told _ _ _ _ Ha) as [Hls Htold]. split.
  - intros pre post i g' Eh.
    destruct (lookup_lt_is_Some_2 ss i) as [sh Hsh].
    { rewrite Hls. eapply (abstract_index _ _ _ _ Ha i). right. rewrite Eh. apply elem_of_app. right. by left. }
    destruct (td_gets _ _ _ (Htold i sh Hsh) pre post g' Eh) as (before & g & after & r & Ec & Eg & Hr).
    exists before, g, after, r. split; [done|]. split; [done|]. split; [done|]. intros j Hne.
    eapply values_mine; [|exact Hne|by eapply abstract_mine].
    pose proof (abstract_mine _ _ _ _ Ha i) as Hm. rewrite Forall_forall in Hm. apply Hm.
    rewrite Eh, calls_app, Ec, !elem_of_app. left. right. by left.
  - intros i t g Ht Htodo Hbg Hin.
    destruct (lookup_lt_is_Some_2 ss i) as [sh Hsh]; [rewrite Hls; by eapply lookup_lt_Some|].
    pose proof (ag_queue _ _ _ (ex_threads _ _ Hex i t sh Ht Hsh)) as Hq.
    cbn [load Worker.pc Worker.wk] in Hq. rewrite Htodo, Hbg in Hq.
    destruct (Htold i sh Hsh) as [H1 H2 _ _]. rewrite <- Hq, app_nil_r in H1.
    apply elem_calls in Hin. rewrite <- H1 in Hin.
    destruct (replies_get _ _ g H2 Hin) as [r Hr]. exists r. by apply elem_answers.
Qed.
End Simulation.
End Threads.

(** ** Witnesses *)
Module Examples.
Import Store.Examples.

Definition set (k x : bytes) (n : Z) : Worker.Label := Worker.LAdd (TSet (Memtable.ex_set k x n)).
Definition go (i : nat) : nat * Worker.Label := (i, Worker.LWorker).

(** The second worker is woken by a Set, and sent a Get of the same key, a
    snapshot and another Set while its turn runs; the first one falls asleep,
    is notified and is stopped. *)
Definition sched : list (nat * Worker.Label) :=
  [go 0; (1%nat, set (str "k") (str "v") 1); go 1; go 0; (0%nat, set (str "ab") (str "w") 2); go 1;
   (1%nat, Worker.LAdd (TGet get)); (0%nat, Worker.LNotify); go 1; go 0; go 1;
   (0%nat, Worker.LAdd (TSnapShot (mkSnapCtx (mkSnap 7 []) kOk))); go 1; go 0; go 1; go 0; go 1;
   (1%nat, set (str "k") (str "z") 3); (0%nat, Worker.LStop); go 1; go 1; go 0; go 1].

Lemma set_label_ok (i : nat) (k x : bytes) (n : Z) :
  Memtable.fits (Memtable.ex_set k x n) n → Store.cacheable 100 k x → move_ok 100 (i, set k x n).
Proof. intros H1 H2. split; [by exists n|exact H2]. Qed.

Lemma sched_ok : Forall (move_ok 100) sched ∧ NoDup (Store.asked (requests sched)).
Proof.
  split; [|by apply (bool_decide_unpack (NoDup _)); vm_compute]. unfold sched.
  repeat (apply Forall_cons_2;
    [lazymatch goal with
     | |- move_ok _ (_, set _ _ _) => apply set_label_ok; by vm_compute
     | |- move_ok _ (_, Worker.LAdd (TGet _)) => by vm_compute
     | |- _ => exact I
     end|]).
  constructor.
Qed.
End Examples.
Import Store.Examples Examples.

Lemma threads_refine_store_witness :
  Forall (move_ok 100) sched ∧
  ∃ s0 s ss, Store.start (MemtableView.Manager_Init 2) cfg (λ _, (0, 0)) ([] : C) = Done s0 ∧
    run hash (spawn s0) sched = Done s ∧ abstract hash 2 (history s) ss.
Proof.
  destruct sched_ok as [H1 H2]. split; [exact H1|].
  destruct (threads_refine_store hash 100 (MemtableView.Manager_Init 2) cfg (λ _, (0, 0)) ([] : C) sched
    ltac:(by vm_compute) (λ _, eq_refl) I ltac:(lia) ltac:(by vm_compute) empty_views H1 H2)
    as (s0 & s & ss & E0 & E & _ & Ha & _).
  exists s0, s, ss. split; [exact E0|]. split; [exact E|exact Ha].
Defined.

(** The Get sees the one Set before it. *)
Lemma threads_gets_see_writes_witness :
  ∃ s0 s, Store.start (MemtableView.Manager_Init 2) cfg (λ _, (0, 0)) ([] : C) = Done s0 ∧
    run hash (spawn s0) sched = Done s ∧
    ∃ r, Answered 1 (TGet (Store.answer r get)) ∈ history s ∧ r = Some (str "v").
Proof.
  destruct sched_ok as [H1 H2].
  destruct (threads_gets_see_writes hash 100 (MemtableView.Manager_Init 2) cfg (λ _, (0, 0)) ([] : C) sched
    ltac:(by vm_compute) (λ _, eq_refl) I ltac:(lia) ltac:(by vm_compute) empty_views H1 H2)
    as (s0 & s & E0 & E & Hget & Hall).
  exists s0, s. split; [exact E0|]. split; [exact E|].
  vm_compute in E0. injection E0 as <-. vm_compute in E. injection E as <-.
  destruct (Hall 1%nat _ get eq_refl eq_refl eq_refl) as [r Hr];
    [apply elem_calls; vm_compute; by repeat constructor|].
  exists r. split; [exact Hr|]. apply elem_answers in Hr. vm_compute in Hr.
  repeat (apply elem_of_cons in Hr as [Hr|Hr]; [destruct r; vm_compute in Hr; try done; by injection Hr as ->|]).
  by apply elem_of_nil in Hr.
Defined.

End Threads.
