(* ===== verification/FlushFormat.v ===== *)
(** * The image of a flushed memtable

    The minor compaction of [src/db/compactor.cpp]: the header and the records
    a full memtable is written as, and what the view of the file
    ([MemtableView]) makes of them. Formatting into a vector is appending. *)
From S2P Require Import Prelude Request Crc32 KeyFormat Entry XXHash64 CityHash FarmHash Bloom Memtable MemtableView.
Import Fixed Varint Status Request Entry.

Module FlushFormat.

(** A table whose filter's data can be written out. *)
Abbreviation Table := (Memtable.Memtable Bloom.BloomFilter).

(** ** Minor compaction: the image of a memtable *)

(** The fields of the header, formatted as blanks and then overwritten in
    turn; the count field is given [all_key_size_var_size]. *)
Definition flush_header (version now : Z) (t : Table) : outcome bytes :=
  let bits := Bloom.getFilterData (Memtable.bloomFilter_ t) in
  let seed := Bloom.getFilterSeed (Memtable.bloomFilter_ t) in
  let bits_size := BitSet.data_size bits in
  let cur_level := Memtable.getCompactionN t in
  let all_key_size_var_size := varintLength (zlen (Memtable.memMap_ t)) in
  cur_number ← Memtable.getMemNumber t;
  f_version ← Memtable.fmt32 (varintLength version);
  f_now ← Memtable.fmt64 (varintLength now);
  f_level ← Memtable.fmt32 (varintLength cur_level);
  f_number ← Memtable.fmt32 (varintLength cur_number);
  f_count ← Memtable.fmt32 all_key_size_var_size;
  f_seed ← Memtable.fmt64 (varintLength seed);
  f_bits ← Memtable.fmt32 (varintLength bits_size);
  data ← view (BitSet.data bits) 0 (Z.to_nat bits_size);
  let buf := f_version ++ f_now ++ f_level ++ f_number ++ f_count ++ f_seed ++ f_bits ++ data in
  _ ← cassert (bits_size <? zlen buf);
  '(buf, p) ← encodeVarint32 buf 0 version;
  '(buf, p) ← encodeVarint64 buf p now;
  '(buf, p) ← encodeVarint32 buf p cur_level;
  '(buf, p) ← encodeVarint32 buf p cur_number;
  '(buf, p) ← encodeVarint32 buf p all_key_size_var_size;
  '(buf, p) ← encodeVarint64 buf p seed;
  '(buf, _) ← encodeVarint32 buf p bits_size;
  Done buf.

(** One element of the table behind what is already written. *)
Definition append_record (buf : bytes) (e : bytes) : outcome bytes :=
  s ← formatMemTableToSSTableStr e;
  let k := key_view s in
  let v := value_view s in
  let before := length buf in
  f_key ← Memtable.fmt32 (varintLength (zlen k));
  if isExist s then
    f_val ← Memtable.fmt32 (varintLength (zlen v));
    let buf := buf ++ f_key ++ k ++ f_val ++ v in
    '(buf, p) ← encodeVarint32 buf before (u32 (zlen k));
    '(buf, _) ← encodeVarint32 buf (p + length k) (u32 (zlen v));
    Done buf
  else
    '(buf, _) ← encodeVarint32 (buf ++ f_key ++ k) before (u32 (zlen k));
    Done buf.

Fixpoint append_records (buf : bytes) (es : list bytes) : outcome bytes :=
  match es with
  | [] => Done buf
  | e :: es' => buf ← append_record buf e; append_records buf es'
  end.

Definition flush_image (version now : Z) (t : Table) : outcome bytes :=
  buf ← flush_header version now t;
  append_records buf (Memtable.memMap_ t).

(** *** What the body holds *)

(** A live record. *)
Definition sst_record (k v : bytes) : bytes := keyed k (varint32_bytes (zlen v) ++ v).

(** The elements Set and Delete store, and what is written for them. *)
Definition elem_is (e k v : bytes) : Prop :=
  small k ∧ small v ∧ ∃ n, 0 ≤ n < 2 ^ 63 ∧
    (e = entry k n 1 v ∨ (e = Memtable.tombstone k n ∧ v = [])).

(** The type byte of a tombstone is not 0, and the size behind it is read from
    the terminating NUL. *)
Lemma format_tombstone (k : bytes) (n : Z) :
  small k → 0 ≤ n < 2 ^ 63 →
  formatMemTableToSSTableStr (Memtable.tombstone k n) = Done (mkStyle k [] true).
Proof.
  intros Hk Hn. unfold formatMemTableToSSTableStr, Memtable.tombstone, nonnull.
  destruct (keyed_data k (varint64_bytes n ++ [6]) Hk) as [K1 K2].
  rewrite K1. cbn [mbind outcome_bind of_option]. rewrite K2. cbn [mbind outcome_bind].
  rewrite zlen_to_nat, decide_False by (unfold keyed; rewrite !length_app; simpl; lia).
  set (pre := varint32_bytes (zlen k) ++ k).
  assert (Hm : c_data (keyed k (varint64_bytes n ++ [6])) = pre ++ varint64_bytes n ++ [6; 0])
    by (unfold c_data, keyed, pre; by rewrite <- !app_assoc).
  rewrite Hm, <- length_app. fold pre. rewrite getVarint64_within9 by lia.
  cbn [mbind outcome_bind of_option]. unfold formatDecodeFixed8.
  rewrite (app_assoc pre), <- length_app, rd_app by done. cbn [mbind outcome_bind].
  change [6; 0] with ([6] ++ varint32_bytes 0 ++ []). rewrite (app_assoc _ [6]).
  replace (length (pre ++ varint64_bytes n) + 1)%nat
    with (length ((pre ++ varint64_bytes n) ++ [6])) by (rewrite !length_app; simpl; lia).
  rewrite getVarint32_at; [|lia|rewrite !length_app; simpl; lia].
  cbn [mbind outcome_bind of_option]. unfold view.
  rewrite decide_True by (rewrite !length_app; simpl; lia). done.
Qed.

Lemma append_live (buf k v : bytes) (e : bytes) :
  small k → small v → formatMemTableToSSTableStr e = Done (mkStyle k v true) →
  append_record buf e = Done (buf ++ sst_record k v).
Proof.
  intros Hk Hv He. unfold append_record. rewrite He, bind_Done_l. cbn [key_view value_view isExist].
  destruct (Memtable.varint32_zlen k Hk) as (Uk & Bk & Lk).
  destruct (Memtable.varint32_zlen v Hv) as (Uv & Bv & Lv).
  rewrite !Memtable.fmt32_done, !bind_Done_l, Uk, Uv by lia. cbv zeta.
  rewrite Memtable.encodeVarint32_at by (done || rewrite length_spaces; lia).
  rewrite bind_Done_l. rewrite (app_assoc buf), (app_assoc (buf ++ _)).
  rewrite Memtable.encodeVarint32_at; [|rewrite !length_app; lia|rewrite length_spaces; lia].
  rewrite bind_Done_l. unfold sst_record, keyed. by rewrite <- !app_assoc.
Qed.

Lemma append_elem (buf e k v : bytes) :
  elem_is e k v → append_record buf e = Done (buf ++ sst_record k v).
Proof.
  intros (Hk & Hv & n & Hn & [->|[-> ->]]); apply append_live; try done.
  - by destruct (format_entry k v n 1 Hk Hv Hn) as [-> _].
  - by apply format_tombstone.
Qed.

Definition body (kvs : list (bytes * bytes)) : bytes :=
  concat ((λ kv, sst_record kv.1 kv.2) <$> kvs).

Lemma append_records_body (es : list bytes) (kvs : list (bytes * bytes)) : ∀ buf,
  Forall2 (λ e kv, elem_is e kv.1 kv.2) es kvs →
  append_records buf es = Done (buf ++ body kvs).
Proof.
  intros buf H. revert buf; induction H as [|e [k v] es kvs He _ IH]; intros buf; simpl.
  - by rewrite app_nil_r.
  - rewrite (append_elem _ _ _ _ He), bind_Done_l, IH. unfold body. cbn [fmap list_fmap concat].
    by rewrite app_assoc.
Qed.

(** *** The header *)

(** The fields in their order, the count's field one byte long whatever was
    reserved for it, the rest of the reservation left as blanks before the
    filter's data. *)
Definition header (version now level number count seed : Z) (bits : bytes) : bytes :=
  varint32_bytes version ++ varint64_bytes now ++ varint32_bytes level ++
  varint32_bytes number ++ varint32_bytes (varintLength count) ++ varint64_bytes seed ++
  varint32_bytes (zlen bits) ++ spaces (Z.to_nat (varintLength count) - 1) ++ bits.

(** The blanks of a field as long as the number it takes. *)
Lemma blanks32 (v : Z) :
  0 ≤ v < 2 ^ 32 →
  Memtable.fmt32 (varintLength v) = Done (spaces (length (varint32_bytes v))).
Proof.
  intros Hv. pose proof (varintLength_u32 v Hv). pose proof (varint32_length v Hv) as L.
  rewrite Memtable.fmt32_done by lia. do 2 f_equal. unfold zlen in L. lia.
Qed.

Lemma blanks64 (v : Z) :
  0 ≤ v < 2 ^ 63 →
  Memtable.fmt64 (varintLength v) = Done (spaces (length (varint64_bytes v))).
Proof.
  intros Hv. pose proof (varint64_length v ltac:(lia)) as L. unfold zlen in L.
  pose proof (varint64_nonempty v).
  pose proof (varintLength_bound v 9 ltac:(lia) ltac:(lia)).
  rewrite Memtable.fmt64_done by lia. do 2 f_equal. lia.
Qed.

(** Filling the next field. *)
Lemma fill32 (a b : bytes) (v : Z) (p : nat) :
  p = length a →
  encodeVarint32 (a ++ spaces (length (varint32_bytes v)) ++ b) p v =
  Done ((a ++ varint32_bytes v) ++ b, length (a ++ varint32_bytes v)).
Proof.
  intros ->. rewrite Memtable.encodeVarint32_at by (done || by rewrite length_spaces).
  by rewrite <- app_assoc, <- length_app.
Qed.

Lemma fill64 (a b : bytes) (v : Z) (p : nat) :
  p = length a →
  encodeVarint64 (a ++ spaces (length (varint64_bytes v)) ++ b) p v =
  Done ((a ++ varint64_bytes v) ++ b, length (a ++ varint64_bytes v)).
Proof.
  intros ->. rewrite Memtable.encodeVarint64_at by (done || by rewrite length_spaces).
  by rewrite <- app_assoc, <- length_app.
Qed.

Lemma spaces_rotate (n a b : nat) (l : bytes) :
  (1 ≤ n)%nat →
  spaces n ++ spaces a ++ spaces b ++ l = spaces 1 ++ spaces a ++ spaces b ++ spaces (n - 1) ++ l.
Proof.
  intros Hn. unfold spaces. rewrite !app_assoc, <- !replicate_add. do 2 f_equal. lia.
Qed.

Lemma varint32_one (v : Z) : 0 ≤ v < 128 → length (varint32_bytes v) = 1%nat.
Proof.
  intros Hv. pose proof (varint32_length v ltac:(lia)) as L.
  pose proof (varintLength_bound v 1 ltac:(lia) ltac:(lia)).
  pose proof (varintLength_u32 v ltac:(lia)). unfold zlen in L. lia.
Qed.

(** The ranges of the header's fields. *)
Definition header_fits (version now : Z) (t : Table) (number : Z) : Prop :=
  let bits := Bloom.getFilterData (Memtable.bloomFilter_ t) in
  0 ≤ version < 2 ^ 32 ∧ 0 ≤ now < 2 ^ 63 ∧ 0 ≤ Memtable.getCompactionN t < 2 ^ 32 ∧
  Memtable.getMemNumber t = Done number ∧ 0 ≤ number < 2 ^ 32 ∧
  zlen (Memtable.memMap_ t) < 2 ^ 32 ∧
  0 ≤ Bloom.getFilterSeed (Memtable.bloomFilter_ t) < 2 ^ 63 ∧
  BitSet.data_size bits = zlen (BitSet.data bits) ∧ zlen (BitSet.data bits) < 2 ^ 32.

Lemma flush_header_layout (version now number : Z) (t : Table) :
  header_fits version now t number →
  flush_header version now t =
  Done (header version now (Memtable.getCompactionN t) number (zlen (Memtable.memMap_ t))
          (Bloom.getFilterSeed (Memtable.bloomFilter_ t))
          (BitSet.data (Bloom.getFilterData (Memtable.bloomFilter_ t)))).
Proof.
  intros (Hver & Hnow & Hlev & Hnum & Hn & Hcnt & Hseed & Hsize & Hbits).
  unfold flush_header, header. rewrite Hnum, bind_Done_l, Hsize.
  set (bits := BitSet.data _) in *. set (level := Memtable.getCompactionN t) in *.
  set (seed := Bloom.getFilterSeed _) in *.
  pose proof (zlen_nonneg bits). pose proof (zlen_nonneg (Memtable.memMap_ t)).
  pose proof (varintLength_u32 (zlen (Memtable.memMap_ t)) ltac:(lia)) as Bc.
  set (lc := varintLength (zlen (Memtable.memMap_ t))) in *.
  rewrite (blanks32 version), (blanks64 now), (blanks32 level), (blanks32 number),
    (Memtable.fmt32_done lc), (blanks64 seed), (blanks32 (zlen bits)) by lia.
  rewrite !bind_Done_l, zlen_to_nat. unfold view at 1. rewrite decide_True by (simpl; lia).
  rewrite bind_Done_l, drop_0, (take_ge bits (length bits)) by lia. cbv zeta.
  rewrite (spaces_rotate (Z.to_nat lc)) by lia.
  replace (spaces 1) with (spaces (length (varint32_bytes lc))) by (by rewrite varint32_one by lia).
  match goal with |- context [cassert ?b] => assert (b = true) as -> end.
  { apply Z.ltb_lt. unfold zlen. rewrite !length_app, !length_spaces, (varint32_one lc) by lia.
    lia. }
  cbn [cassert guard_fault]. rewrite bind_Done_l.
  match goal with |- context [encodeVarint32 ?m 0 version] => change m with ([] ++ m) end.
  rewrite fill32, bind_Done_l by done.
  rewrite fill64, bind_Done_l by done. rewrite fill32, bind_Done_l by done.
  rewrite fill32, bind_Done_l by done. rewrite fill32, bind_Done_l by done.
  rewrite fill64, bind_Done_l by done. rewrite fill32, bind_Done_l by done.
  cbn [app]. by rewrite <- !app_assoc.
Qed.

(** *** The body as the view loads it *)

Definition vkey (w : MemtableView.sview) : bytes :=
  match getMemTableViewKeyView (MemtableView.sv_data w) with Done k => k | Fault _ => [] end.

Definition vvalid (w : MemtableView.sview) : Prop :=
  ∃ k rest, MemtableView.sv_data w = keyed k rest ∧ small k.

Lemma view_lt_vkey (a b : MemtableView.sview) :
  vvalid a → vvalid b → MemtableView.view_lt a b = Done (bytes_lt (vkey a) (vkey b)).
Proof.
  intros (k1 & r1 & E1 & H1) (k2 & r2 & E2 & H2). unfold MemtableView.view_lt, vkey.
  by rewrite E1, E2, !getMemTableViewKeyView_keyed, Comparator_keyed.
Qed.

(** A view of the record of [k] and [v]. *)
Definition is_rec (w : MemtableView.sview) (k v : bytes) : Prop :=
  small k ∧ small v ∧ ∃ tl, MemtableView.sv_data w = sst_record k v ++ tl ∧
    MemtableView.sv_size w = length (sst_record k v).

Lemma is_rec_valid (w : MemtableView.sview) (k v : bytes) :
  is_rec w k v → vvalid w ∧ vkey w = k.
Proof.
  intros (Hk & Hv & tl & E & _). unfold sst_record, keyed in E. rewrite <- !app_assoc in E.
  assert (E' : MemtableView.sv_data w = keyed k (varint32_bytes (zlen v) ++ v ++ tl)) by done.
  split; [by eexists _, _|]. unfold vkey. by rewrite E', getMemTableViewKeyView_keyed.
Qed.

Lemma load_record_at (m : bytes) (p : nat) (k v tl : bytes) :
  small k → small v → drop p m = sst_record k v ++ tl →
  MemtableView.load_record m p =
  Done ((p + length (sst_record k v))%nat,
        MemtableView.mkSview (drop p m) (length (sst_record k v))).
Proof.
  intros Hk Hv Hd. pose proof (zlen_nonneg k). pose proof (zlen_nonneg v).
  unfold small in *. pose proof (varint32_size (zlen k)). pose proof (varint32_size (zlen v)).
  assert (Hp : length (take p m) = p).
  { rewrite length_take. apply (f_equal length) in Hd. rewrite length_drop in Hd.
    unfold sst_record, keyed in Hd. rewrite !length_app in Hd.
    pose proof (varint64_nonempty (zlen v)). rewrite <- varint32_loop in * by lia. lia. }
  assert (Hm : m = take p m ++ varint32_bytes (zlen k) ++ k ++ varint32_bytes (zlen v) ++ v ++ tl).
  { rewrite <- (take_drop p m) at 1. rewrite Hd. unfold sst_record, keyed.
    by rewrite <- !app_assoc. }
  set (pre := take p m) in *.
  assert (G1 : getVarint32Ptr m p (p + 5) =
    Done (Some ((p + length (varint32_bytes (zlen k)))%nat, zlen k))).
  { rewrite Hm, <- Hp. apply getVarint32_at; lia. }
  set (q := (p + length (varint32_bytes (zlen k)) + length k)%nat).
  assert (G2 : getVarint32Ptr m q (q + 5) =
    Done (Some ((q + length (varint32_bytes (zlen v)))%nat, zlen v))).
  { rewrite Hm, (app_assoc pre), (app_assoc (pre ++ _)).
    replace q with (length ((pre ++ varint32_bytes (zlen k)) ++ k))
      by (rewrite !length_app; lia).
    apply getVarint32_at; lia. }
  unfold MemtableView.load_record. rewrite G1. cbn [mbind outcome_bind].
  rewrite bool_decide_true by eauto. cbn [cassert guard_fault mbind outcome_bind of_option].
  rewrite zlen_to_nat. fold q. rewrite G2. cbn [mbind outcome_bind]. cbv zeta.
  rewrite zlen_to_nat. unfold MemtableView.sview_at, sst_record, keyed. rewrite !length_app.
  do 2 f_equal; [lia|f_equal; lia].
Qed.

Lemma load_body (kvs : list (bytes * bytes)) : ∀ fuel m p s tl,
  drop p m = body kvs ++ tl → (length kvs ≤ fuel)%nat →
  Forall (λ kv, small kv.1 ∧ small kv.2) kvs → NoDup kvs.*1 →
  OrdSet.ok vvalid vkey s → (∀ kv, kv ∈ kvs → OrdSet.get_by vkey kv.1 s = None) →
  ∃ s', MemtableView.load_loop fuel m p (p + length (body kvs)) s = Done s' ∧
    OrdSet.ok vvalid vkey s' ∧ length s' = (length s + length kvs)%nat ∧
    (∀ k v, (k, v) ∈ kvs → ∃ w, OrdSet.get_by vkey k s' = Some w ∧ is_rec w k v) ∧
    (∀ k, k ∉ kvs.*1 → OrdSet.get_by vkey k s' = OrdSet.get_by vkey k s).
Proof.
  induction kvs as [|[k v] kvs IH]; intros fuel m p s tl Hd Hf Hsm Hnd Hok Hfresh.
  - exists s. simpl. rewrite Nat.add_0_r. split; [|split; [done|split; [simpl; lia|split; [by intros ? ? ?%elem_of_nil|done]]]].
    destruct fuel; simpl; by rewrite decide_False by lia.
  - destruct fuel as [|fuel]; [simpl in Hf; lia|].
    apply Forall_cons in Hsm as [[Hk Hv] Hsm]. apply NoDup_cons in Hnd as [Hnk Hnd].
    cbn [fst snd] in *.
    assert (Hb : body ((k, v) :: kvs) = sst_record k v ++ body kvs) by done.
    rewrite Hb in *. rewrite <- app_assoc in Hd.
    set (w := MemtableView.mkSview (drop p m) (length (sst_record k v))).
    assert (Hw : is_rec w k v) by (split_and!; [done|done|]; eexists; split; [exact Hd|done]).
    destruct (is_rec_valid w k v Hw) as [Hval Hkey].
    assert (Hpos : (0 < length (sst_record k v))%nat).
    { unfold sst_record, keyed. rewrite !length_app. pose proof (varint64_nonempty (zlen v)).
      pose proof (zlen_nonneg v). unfold small in Hv.
      rewrite <- varint32_loop in * by lia. lia. }
    cbn [MemtableView.load_loop]. rewrite length_app, decide_True by lia.
    rewrite (load_record_at m p k v (body kvs ++ tl)) by done. rewrite bind_Done_l. fold w.
    destruct (OrdSet.insert_absent MemtableView.view_lt vvalid vkey view_lt_vkey w s)
      as (s1 & -> & Hok1 & Hp1 & Hg1); [done|done|rewrite Hkey; by apply (Hfresh (k, v)); left|].
    rewrite bind_Done_l.
    destruct (IH fuel m (p + length (sst_record k v))%nat s1 tl) as (s' & E & Hok' & Hl & Hin & Hout).
    + rewrite <- drop_drop, Hd. apply drop_app_length.
    + simpl in Hf. lia.
    + done.
    + done.
    + done.
    + intros [k' v'] Hkv. cbn [fst]. rewrite Hg1, Hkey, decide_False.
      * apply (Hfresh (k', v')). by right.
      * intros ->. apply Hnk. by apply (list_elem_of_fmap_2 fst) in Hkv.
    + exists s'. replace (p + (length (sst_record k v) + length (body kvs)))%nat
        with (p + length (sst_record k v) + length (body kvs))%nat by lia.
      split; [exact E|]. split; [done|]. split; [rewrite Hl, Hp1; simpl; lia|]. split.
      * intros k' v' [[= -> ->]|Hkv]%elem_of_cons; [|by apply Hin].
        exists w. split; [|done]. by rewrite Hout, Hg1, Hkey, decide_True.
      * intros k' Hk'. apply not_elem_of_cons in Hk' as [Hne Hk']. cbn [fst] in Hne.
        rewrite Hout, Hg1, Hkey by done. by rewrite decide_False by (intros ->; done).
Qed.

(** What a Get finds in a view of a record. *)
Lemma read_view_rec (w : MemtableView.sview) (k v : bytes) :
  is_rec w k v → MemtableView.read_view w = Done v.
Proof.
  intros (Hk & Hv & tl & E & _). pose proof (zlen_nonneg k). pose proof (zlen_nonneg v).
  unfold small in *. pose proof (varint32_size (zlen v)).
  assert (E' : MemtableView.sv_data w = keyed k (varint32_bytes (zlen v) ++ v ++ tl)).
  { rewrite E. unfold sst_record, keyed. by rewrite <- !app_assoc. }
  unfold MemtableView.read_view. rewrite E', keyed_varint by done.
  cbn [mbind outcome_bind]. rewrite bool_decide_true by eauto.
  cbn [cassert guard_fault mbind outcome_bind of_option]. rewrite zlen_to_nat. unfold keyed.
  rewrite app_assoc, <- length_app.
  rewrite getVarint32_at by lia. cbn [mbind outcome_bind of_option].
  rewrite (app_assoc (varint32_bytes (zlen k) ++ k)), zlen_to_nat.
  apply view_app; [rewrite !length_app; lia|done].
Qed.

Lemma Get_loaded {KF : KeyFilter Bloom.BloomFilter} (t : MemtableView.MemTable_view)
    (g : GetContext) :
  OrdSet.ok vvalid vkey (MemtableView.memMapView_ t) → small (get_key g) →
  kf_match (MemtableView.bloomFilter_ t) (get_key g) = Done true →
  match OrdSet.get_by vkey (get_key g) (MemtableView.memMapView_ t) with
  | Some w => ∀ v, is_rec w (get_key g) v →
                   MemtableView.Get t g = Done (get_setCode (get_setValue g v) kOk)
  | None => MemtableView.Get t g = Done (get_setCode g kNotFound)
  end.
Proof.
  intros Hok Hk Hm. set (k := get_key g) in *.
  assert (Hf : OrdSet.find MemtableView.view_lt
    (MemtableView.mkSview (c_data (keyed k [])) (length (keyed k [])))
    (MemtableView.memMapView_ t) = Done (OrdSet.get_by vkey k (MemtableView.memMapView_ t))).
  { assert (Hkey : ∀ n, vkey (MemtableView.mkSview (c_data (keyed k [])) n) = k).
    { intros n. unfold vkey. cbn [MemtableView.sv_data].
      by rewrite c_data_keyed, getMemTableViewKeyView_keyed. }
    rewrite (OrdSet.find_ok MemtableView.view_lt vvalid vkey view_lt_vkey), Hkey; [done|done|].
    eexists k, _. split; [apply c_data_keyed|done]. }
  unfold MemtableView.Get. fold k. rewrite Hm, bind_Done_l, Memtable.lookup_entry_small,
    bind_Done_l, Hf, bind_Done_l by done.
  destruct (OrdSet.get_by vkey k _) as [w|] eqn:E; [|done]. intros v Hw.
  rewrite (read_view_rec w k v Hw). rewrite decide_False; [done|].
  destruct Hw as (_ & Hv & tl & _ & ->). unfold sst_record, keyed. rewrite !length_app.
  pose proof (varint64_nonempty (zlen v)). pose proof (zlen_nonneg v). unfold small in Hv.
  rewrite <- varint32_loop in * by lia. simpl. lia.
Qed.

(** C7: what a minor compaction writes. The image of a table whose elements
    are the entries Set and Delete store, within the fields' ranges, is the
    header followed by one record of key and value for each element, in order.
    The header's count is not the number of keys but the number of bytes that
    number would take, and the filter's data starts that many bytes, less one,
    late. Loaded from behind the header, with anything mapped behind it, the
    body yields one view for each record, and a lookup in them answers exactly
    the keys of the table, with [kOk] and the value written — which for a
    deleted key is the empty one: the deletion is lost. *)
Theorem flush_image_loads (version now number : Z) (t : Table) (kvs : list (bytes * bytes))
  (fuel : nat) (slack : bytes)
  (Hfit : header_fits version now t number)
  (Hes : Forall2 (λ e kv, elem_is e kv.1 kv.2) (Memtable.memMap_ t) kvs)
  (Hnd : NoDup kvs.*1) (Hfuel : (length kvs ≤ fuel)%nat) :
  let hdr := header version now (Memtable.getCompactionN t) number (zlen (Memtable.memMap_ t))
               (Bloom.getFilterSeed (Memtable.bloomFilter_ t))
               (BitSet.data (Bloom.getFilterData (Memtable.bloomFilter_ t))) in
  flush_image version now t = Done (hdr ++ body kvs) ∧
  ∃ views, MemtableView.load_loop fuel (hdr ++ body kvs ++ slack) (length hdr)
             (length hdr + length (body kvs)) [] = Done views ∧
    length views = length kvs ∧
    ∀ (KF : KeyFilter Bloom.BloomFilter) (tv : MemtableView.MemTable_view) (g : GetContext),
      MemtableView.memMapView_ tv = views → small (get_key g) →
      kf_match (MemtableView.bloomFilter_ tv) (get_key g) = Done true →
      (∀ v, (get_key g, v) ∈ kvs →
         MemtableView.Get tv g = Done (get_setCode (get_setValue g v) kOk)) ∧
      (get_key g ∉ kvs.*1 → MemtableView.Get tv g = Done (get_setCode g kNotFound)).
Proof.
  intros hdr. split.
  { unfold flush_image. rewrite (flush_header_layout _ _ number) by done.
    rewrite bind_Done_l. by apply append_records_body. }
  assert (Hsm : Forall (λ kv, small kv.1 ∧ small kv.2) kvs).
  { clear -Hes. induction Hes as [|e kv es kvs (Hk & Hv & _)]; by constructor. }
  destruct (load_body kvs fuel (hdr ++ body kvs ++ slack) (length hdr) [] slack)
    as (views & E & Hok & Hl & Hin & Hout); try done.
  - by rewrite drop_app_length.
  - split; constructor.
  - exists views. split; [exact E|]. split; [done|]. intros KF tv g <- Hk Hm.
    pose proof (Get_loaded tv g Hok Hk Hm) as H. split.
    + intros v Hv. destruct (Hin _ _ Hv) as (w & Ew & Hw). rewrite Ew in H. by apply H.
    + intros Hne. rewrite Hout in H by done. done.
Qed.


Module Examples.
Definition table : Table :=
  Memtable.mkMem Bloom.BloomFilter 10 true (Some 0) 0 0
    [entry (str "a") 1 1 (str "x"); Memtable.tombstone (str "b") 2]
    (Bloom.mkBloom 12 (BitSet.mkBits [1; 2] 2)).
Definition kvs : list (bytes * bytes) := [(str "a", str "x"); (str "b", [])].
End Examples.

Lemma flush_image_loads_witness :
  header_fits 1 1000 Examples.table 0 ∧
  Forall2 (λ e kv, elem_is e kv.1 kv.2) (Memtable.memMap_ Examples.table) Examples.kvs ∧
  NoDup Examples.kvs.*1 ∧
  flush_image 1 1000 Examples.table =
    Done (header 1 1000 0 0 2 12 [1; 2] ++ body Examples.kvs).
Proof.
  assert (H1 : header_fits 1 1000 Examples.table 0) by (by vm_compute).
  assert (H2 : Forall2 (λ e kv, elem_is e kv.1 kv.2) (Memtable.memMap_ Examples.table)
                 Examples.kvs).
  { repeat constructor; [exists 1|exists 2]; (split; [lia|]); [by left|by right]. }
  assert (H3 : NoDup Examples.kvs.*1).
  { repeat constructor; [|by intros ?%elem_of_nil]. intros H.
    apply list_elem_of_singleton in H. discriminate H. }
  split; [exact H1|]. split; [exact H2|]. split; [exact H3|].
  exact (proj1 (flush_image_loads 1 1000 0 Examples.table Examples.kvs 2 [] H1 H2 H3
    (le_n 2))).
Defined.

End FlushFormat.
