(* ===== verification/LevelMerge.v ===== *)
(** * Merging two levels

    The level merge of [src/db/compactor.cpp]: the loop over the views of two
    adjacent levels, what it keeps, and the fields written for it. *)
From S2P Require Import Prelude Request Crc32 KeyFormat Entry XXHash64 CityHash FarmHash Bloom Memtable MemtableView FlushFormat.
Import Fixed Varint Status Request Entry.

Import FlushFormat.

Module LevelMerge.

(** ** Merging two levels *)

(** The characters of a view. *)
Definition chars (w : MemtableView.sview) : outcome bytes :=
  view (MemtableView.sv_data w) 0 (MemtableView.sv_size w).

Section Merge.
Context {B : Type} {KF : KeyFilter B}.

(** The loop over the two iterators: the smaller element is written, or the
    upper level's when the keys are equal; the iterator is advanced before the
    filter is given the element it refers to, but for equal keys. *)
Fixpoint merge_loop (first : list MemtableView.sview) : list MemtableView.sview →
    bytes → B → Z → outcome (bytes * B * Z) :=
  fix inner (second : list MemtableView.sview) (out : bytes) (bloom : B) (size : Z) :=
    match first, second with
    | a :: first', b :: second' =>
        first_key_view ← getMemTableViewKeyViewIter (MemtableView.sv_data a);
        second_key_view ← getMemTableViewKeyViewIter (MemtableView.sv_data b);
        if bytes_lt second_key_view first_key_view then
          s ← chars b;
          n ← of_option Dangling (head second');
          key ← chars n;
          bloom ← kf_insert bloom key;
          inner second' (out ++ s) bloom (u32 (size + 1))
        else if bytes_lt first_key_view second_key_view then
          s ← chars a;
          n ← of_option Dangling (head first');
          key ← chars n;
          bloom ← kf_insert bloom key;
          merge_loop first' second (out ++ s) bloom (u32 (size + 1))
        else
          s ← chars a;
          bloom ← kf_insert bloom s;
          merge_loop first' second' (out ++ s) bloom (u32 (size + 1))
    | _, _ => Done (out, bloom, size)
    end.

End Merge.

(** *** What the merge keeps *)

Definition wchars (w : MemtableView.sview) : bytes :=
  take (MemtableView.sv_size w) (MemtableView.sv_data w).

Definition wf_view (w : MemtableView.sview) : Prop :=
  vvalid w ∧ (MemtableView.sv_size w ≤ length (MemtableView.sv_data w))%nat.

Abbreviation keys_of := (fmap (M := list) vkey).

(** The loop on the elements alone: [None] when it reads past the end. *)
Fixpoint pmerge (first : list MemtableView.sview) :
    list MemtableView.sview → option (list MemtableView.sview) :=
  fix inner (second : list MemtableView.sview) :=
    match first, second with
    | a :: first', b :: second' =>
        if bytes_lt (vkey b) (vkey a) then
          match second' with [] => None | _ => cons b <$> inner second' end
        else if bytes_lt (vkey a) (vkey b) then
          match first' with [] => None | _ => cons a <$> pmerge first' second end
        else cons a <$> pmerge first' second'
    | _, _ => Some []
    end.

(** Where the loop can end: a key both levels have that one of them ends with. *)
Definition meets (ka kb : list bytes) (m : bytes) : Prop :=
  m ∈ ka ∧ m ∈ kb ∧ ((∀ k, k ∈ ka → bytes_lt m k = false) ∨ (∀ k, k ∈ kb → bytes_lt m k = false)).

Definition merged (first second l : list MemtableView.sview) (m : bytes) : Prop :=
  OrdSet.sorted vkey l ∧
  (∀ k, k ∈ keys_of l ↔ (k ∈ keys_of first ∨ k ∈ keys_of second) ∧ bytes_lt m k = false) ∧
  (∀ w, w ∈ l → w ∈ first ∨ (w ∈ second ∧ vkey w ∉ keys_of first)).

Lemma sorted_above (a : MemtableView.sview) (l : list MemtableView.sview) :
  OrdSet.sorted vkey (a :: l) →
  OrdSet.sorted vkey l ∧ ∀ k, k ∈ keys_of l → bytes_lt (vkey a) k = true.
Proof.
  intros H. inversion H as [|? ? Hs Hf]; subst. split; [done|].
  intros k (w & -> & Hw)%list_elem_of_fmap. rewrite Forall_forall in Hf.
  apply Is_true_true. by apply Hf.
Qed.

Lemma lt_of_false (a b : bytes) : bytes_lt a b = false → b = a ∨ bytes_lt b a = true.
Proof.
  intros H. destruct (bytes_lt_total a b) as [E|[E|E]]; [by rewrite H in E|by left|right].
  by apply Is_true_true.
Qed.

Lemma lt_trans_true (a b c : bytes) :
  bytes_lt a b = true → bytes_lt b c = true → bytes_lt a c = true.
Proof. intros H1 H2. apply Is_true_true. eapply bytes_lt_trans; by apply Is_true_true. Qed.

Lemma lt_flip (a b : bytes) : bytes_lt a b = true → bytes_lt b a = false.
Proof. intros H. apply bytes_lt_asym. by apply Is_true_true. Qed.

Lemma lt_neq (a b : bytes) : bytes_lt a b = true → a ≠ b.
Proof. intros H ->. by rewrite bytes_lt_irrefl in H. Qed.

(** The second level's next key comes first. *)
Lemma merged_second (a b : MemtableView.sview) (f s : list MemtableView.sview) :
  OrdSet.sorted vkey (a :: f) → OrdSet.sorted vkey (b :: s) →
  bytes_lt (vkey b) (vkey a) = true →
  (∀ m, meets (keys_of (a :: f)) (keys_of (b :: s)) m ↔
        meets (keys_of (a :: f)) (keys_of s) m) ∧
  ∀ l m, meets (keys_of (a :: f)) (keys_of s) m → merged (a :: f) s l m →
         merged (a :: f) (b :: s) (b :: l) m.
Proof.
  intros Ha Hb Hlt. destruct (sorted_above _ _ Ha) as [_ Hf].
  destruct (sorted_above _ _ Hb) as [_ Hs].
  assert (Hba : ∀ k, k ∈ keys_of (a :: f) → bytes_lt (vkey b) k = true).
  { intros k [->|Hk]%elem_of_cons; [done|]. eapply lt_trans_true; [exact Hlt|by apply Hf]. }
  split.
  - intros m. split.
    + intros (Hma & [->|Hmb]%elem_of_cons & Hmax).
      { exfalso. by apply (lt_neq _ _ (Hba _ Hma)). }
      split_and!; [done|done|]. destruct Hmax as [H|H]; [by left|right].
      intros k Hk. apply H. by right.
    + intros (Hma & Hmb & Hmax). split_and!; [done|by right|].
      destruct Hmax as [H|H]; [by left|right].
      intros k [->|Hk]%elem_of_cons; [by apply lt_flip, Hba|by apply H].
  - intros l m (Hma & Hmb & _) (Hl & Hk & Hw). split; [|split].
    + constructor; [done|]. apply Forall_forall. intros w Hin. apply Is_true_true.
      assert (Hin' : vkey w ∈ keys_of l) by by apply list_elem_of_fmap_2.
      apply Hk in Hin' as [[H|H] _]; [by apply Hba|by apply Hs].
    + intros k. rewrite !fmap_cons, !elem_of_cons, Hk, fmap_cons, elem_of_cons.
      pose proof (lt_flip _ _ (Hba m Hma)). split; [|tauto].
      intros [->|?]; [|tauto]. split; [tauto|done].
    + intros w [->|Hin]%elem_of_cons.
      * right. split; [by left|]. intros Hin. by apply (lt_neq _ _ (Hba _ Hin)).
      * destruct (Hw w Hin) as [?|[? ?]]; [by left|right]. split; [by right|done].
Qed.

(** The first level's next key comes first. *)
Lemma merged_first (a b : MemtableView.sview) (f s : list MemtableView.sview) :
  OrdSet.sorted vkey (a :: f) → OrdSet.sorted vkey (b :: s) →
  bytes_lt (vkey a) (vkey b) = true →
  (∀ m, meets (keys_of (a :: f)) (keys_of (b :: s)) m ↔
        meets (keys_of f) (keys_of (b :: s)) m) ∧
  ∀ l m, meets (keys_of f) (keys_of (b :: s)) m → merged f (b :: s) l m →
         merged (a :: f) (b :: s) (a :: l) m.
Proof.
  intros Ha Hb Hlt. destruct (sorted_above _ _ Ha) as [_ Hf].
  destruct (sorted_above _ _ Hb) as [_ Hs].
  assert (Hab : ∀ k, k ∈ keys_of (b :: s) → bytes_lt (vkey a) k = true).
  { intros k [->|Hk]%elem_of_cons; [done|]. eapply lt_trans_true; [exact Hlt|by apply Hs]. }
  split.
  - intros m. split.
    + intros ([->|Hma]%elem_of_cons & Hmb & Hmax).
      { exfalso. by apply (lt_neq _ _ (Hab _ Hmb)). }
      split_and!; [done|done|]. destruct Hmax as [H|H]; [left|by right].
      intros k Hk. apply H. by right.
    + intros (Hma & Hmb & Hmax). split_and!; [by right|done|].
      destruct Hmax as [H|H]; [left|by right].
      intros k [->|Hk]%elem_of_cons; [by apply lt_flip, Hab|by apply H].
  - intros l m (Hma & Hmb & _) (Hl & Hk & Hw). split; [|split].
    + constructor; [done|]. apply Forall_forall. intros w Hin. apply Is_true_true.
      assert (Hin' : vkey w ∈ keys_of l) by by apply list_elem_of_fmap_2.
      apply Hk in Hin' as [[H|H] _]; [by apply Hf|by apply Hab].
    + intros k. rewrite !fmap_cons, !elem_of_cons, Hk, fmap_cons, elem_of_cons.
      pose proof (lt_flip _ _ (Hab m Hmb)). split; [|tauto].
      intros [->|?]; [|tauto]. split; [tauto|done].
    + intros w [->|Hin]%elem_of_cons; [left; by left|].
      destruct (Hw w Hin) as [?|[Hws Hwf]]; [left; by right|right]. split; [done|].
      intros [E|?]%elem_of_cons; [|done].
      apply (lt_neq (vkey a) (vkey w)); [|done]. apply Hab. by apply list_elem_of_fmap_2.
Qed.

(** The next keys are equal. *)
Lemma merged_equal (a b : MemtableView.sview) (f s : list MemtableView.sview) :
  OrdSet.sorted vkey (a :: f) → OrdSet.sorted vkey (b :: s) → vkey a = vkey b →
  (f ≠ [] → s ≠ [] → ∀ m, meets (keys_of (a :: f)) (keys_of (b :: s)) m ↔
                          meets (keys_of f) (keys_of s) m) ∧
  (f = [] ∨ s = [] → meets (keys_of (a :: f)) (keys_of (b :: s)) (vkey a) ∧
                     merged (a :: f) (b :: s) [a] (vkey a)) ∧
  ∀ l m, meets (keys_of f) (keys_of s) m → merged f s l m →
         merged (a :: f) (b :: s) (a :: l) m.
Proof.
  intros Ha Hb Heq. destruct (sorted_above _ _ Ha) as [_ Hf].
  destruct (sorted_above _ _ Hb) as [_ Hs]. rewrite <- Heq in Hs.
  assert (Hbs : ∀ k, k ∈ keys_of (b :: s) ↔ k = vkey a ∨ k ∈ keys_of s)
    by (intros k; by rewrite fmap_cons, elem_of_cons, <- Heq).
  assert (Haf : ∀ k, k ∈ keys_of (a :: f) ↔ k = vkey a ∨ k ∈ keys_of f)
    by (intros k; by rewrite fmap_cons, elem_of_cons).
  split; [|split].
  - intros Hnf Hns m. unfold meets. setoid_rewrite Haf. setoid_rewrite Hbs. split.
    + intros (Hma & Hmb & Hmax).
      assert (Hne : m ≠ vkey a).
      { intros ->. destruct Hmax as [H|H].
        - destruct f as [|x f]; [done|]. specialize (H (vkey x) ltac:(right; by left)).
          rewrite (Hf (vkey x)) in H by by left. done.
        - destruct s as [|x s]; [done|]. specialize (H (vkey x) ltac:(right; by left)).
          rewrite (Hs (vkey x)) in H by by left. done. }
      split_and!; [tauto|tauto|]. destruct Hmax as [H|H]; [left|right]; auto.
    + intros (Hma & Hmb & Hmax). split_and!; [auto|auto|].
      destruct Hmax as [H|H]; [left|right]; intros k [->|Hk]; auto; apply lt_flip; auto.
  - intros Hend. split.
    + split_and!; [by left|apply Hbs; by left|]. destruct Hend as [->| ->]; [left|right];
        intros k Hk.
      * apply list_elem_of_singleton in Hk as ->. apply bytes_lt_irrefl.
      * apply Hbs in Hk as [->|Hk]; [apply bytes_lt_irrefl|by apply elem_of_nil in Hk].
    + split; [repeat constructor|]. split.
      * intros k. rewrite Haf, Hbs. change (keys_of [a]) with [vkey a].
        rewrite list_elem_of_singleton. split.
        -- intros ->. split; [by left; left|apply bytes_lt_irrefl].
        -- intros [[[->|Hk]|[->|Hk]] Hlt]; try done.
           ++ by rewrite (Hf k Hk) in Hlt.
           ++ by rewrite (Hs k Hk) in Hlt.
      * intros w ->%list_elem_of_singleton. left. by left.
  - intros l m (Hma & Hmb & _) (Hl & Hk & Hw). split; [|split].
    + constructor; [done|]. apply Forall_forall. intros w Hin. apply Is_true_true.
      assert (Hin' : vkey w ∈ keys_of l) by by apply list_elem_of_fmap_2.
      apply Hk in Hin' as [[H|H] _]; auto.
    + intros k. rewrite Haf, Hbs, fmap_cons, elem_of_cons, Hk.
      pose proof (lt_flip _ _ (Hf m Hma)). split; [|tauto].
      intros [->|?]; [|tauto]. split; [tauto|done].
    + intros w [->|Hin]%elem_of_cons; [left; by left|].
      destruct (Hw w Hin) as [?|[Hws Hwf]]; [left; by right|right]. split; [by right|].
      intros [E|?]%Haf; [|done].
      apply (lt_neq (vkey a) (vkey w)); [|done]. apply Hs. by apply list_elem_of_fmap_2.
Qed.

Lemma pmerge_cons (a b : MemtableView.sview) (f s : list MemtableView.sview) :
  pmerge (a :: f) (b :: s) =
  if bytes_lt (vkey b) (vkey a) then
    match s with [] => None | _ => cons b <$> pmerge (a :: f) s end
  else if bytes_lt (vkey a) (vkey b) then
    match f with [] => None | _ => cons a <$> pmerge f (b :: s) end
  else cons a <$> pmerge f s.
Proof. reflexivity. Qed.

Lemma pmerge_spec (n : nat) : ∀ first second,
  (length first + length second ≤ n)%nat → first ≠ [] → second ≠ [] →
  OrdSet.sorted vkey first → OrdSet.sorted vkey second →
  match pmerge first second with
  | Some l => ∃ m, meets (keys_of first) (keys_of second) m ∧ merged first second l m
  | None => ∀ m, ¬ meets (keys_of first) (keys_of second) m
  end.
Proof.
  induction n as [|n IH]; intros [|a f] [|b s] Hn Hf0 Hs0 Ha Hb; try done; [simpl in Hn; lia|].
  destruct (sorted_above _ _ Ha) as [Hf _]. destruct (sorted_above _ _ Hb) as [Hs _].
  cbn [length] in Hn. rewrite pmerge_cons.
  destruct (bytes_lt (vkey b) (vkey a)) eqn:E1.
  - destruct (merged_second a b f s Ha Hb E1) as [Hm Hl].
    destruct s as [|b' s]; [intros m (_ & H & _)%Hm; by apply elem_of_nil in H|].
    specialize (IH (a :: f) (b' :: s) ltac:(simpl in *; lia) ltac:(done) ltac:(done) Ha Hs).
    destruct (pmerge (a :: f) (b' :: s)) as [l|]; cbn [fmap option_fmap option_map].
    + destruct IH as (m & Hmm & Hml). exists m. split; [by apply Hm|by apply Hl].
    + intros m. rewrite Hm. apply IH.
  - destruct (bytes_lt (vkey a) (vkey b)) eqn:E2.
    + destruct (merged_first a b f s Ha Hb E2) as [Hm Hl].
      destruct f as [|a' f]; [intros m (H & _)%Hm; by apply elem_of_nil in H|].
      specialize (IH (a' :: f) (b :: s) ltac:(simpl in *; lia) ltac:(done) ltac:(done) Hf Hb).
      destruct (pmerge (a' :: f) (b :: s)) as [l|]; cbn [fmap option_fmap option_map].
      * destruct IH as (m & Hmm & Hml). exists m. split; [by apply Hm|by apply Hl].
      * intros m. rewrite Hm. apply IH.
    + assert (Heq : vkey a = vkey b)
        by (destruct (lt_of_false _ _ E1) as [?|H]; [done|by rewrite H in E2]).
      destruct (merged_equal a b f s Ha Hb Heq) as (Hm & Hend & Hl).
      destruct f as [|a' f]; [|destruct s as [|b' s]].
      * destruct s; cbn; exists (vkey a); apply Hend; by left.
      * cbn. exists (vkey a). apply Hend. by right.
      * specialize (IH (a' :: f) (b' :: s) ltac:(simpl in *; lia) ltac:(done) ltac:(done) Hf Hs).
        destruct (pmerge (a' :: f) (b' :: s)) as [l|]; cbn [fmap option_fmap option_map].
        -- destruct IH as (m & Hmm & Hml). exists m. split; [by apply Hm|by apply Hl].
        -- intros m. rewrite Hm by done. apply IH.
Qed.

Section MergeLoop.
Context {B : Type} {KF : KeyFilter B} {KL : KeyFilterLaws B}.

Lemma view_key (w : MemtableView.sview) :
  vvalid w → getMemTableViewKeyViewIter (MemtableView.sv_data w) = Done (vkey w).
Proof.
  intros (k & rest & E & Hk). unfold vkey. rewrite E.
  change (getMemTableViewKeyViewIter (keyed k rest))
    with (getMemTableViewKeyView (keyed k rest)).
  by rewrite getMemTableViewKeyView_keyed.
Qed.

Lemma chars_done (w : MemtableView.sview) : wf_view w → chars w = Done (wchars w).
Proof. intros [_ H]. unfold chars, view. by rewrite decide_True by lia. Qed.

Lemma u32_succ (x y : Z) : u32 (u32 (x + 1) + y) = u32 (x + (1 + y)).
Proof. unfold u32, wrap. rewrite Z.add_mod_idemp_l by lia. f_equal. lia. Qed.

Lemma merge_loop_cons (a b : MemtableView.sview) (f s : list MemtableView.sview)
    (out : bytes) (bloom : B) (size : Z) :
  merge_loop (a :: f) (b :: s) out bloom size =
  (first_key_view ← getMemTableViewKeyViewIter (MemtableView.sv_data a);
   second_key_view ← getMemTableViewKeyViewIter (MemtableView.sv_data b);
   if bytes_lt second_key_view first_key_view then
     c ← chars b;
     n ← of_option Dangling (head s);
     key ← chars n;
     bloom ← kf_insert bloom key;
     merge_loop (a :: f) s (out ++ c) bloom (u32 (size + 1))
   else if bytes_lt first_key_view second_key_view then
     c ← chars a;
     n ← of_option Dangling (head f);
     key ← chars n;
     bloom ← kf_insert bloom key;
     merge_loop f (b :: s) (out ++ c) bloom (u32 (size + 1))
   else
     c ← chars a;
     bloom ← kf_insert bloom c;
     merge_loop f s (out ++ c) bloom (u32 (size + 1))).
Proof. reflexivity. Qed.

Lemma merge_loop_pmerge (n : nat) : ∀ first second out (bloom : B) size,
  (length first + length second ≤ n)%nat →
  Forall wf_view first → Forall wf_view second → kf_ok bloom → u32 size = size →
  match pmerge first second with
  | Some l => ∃ bloom', merge_loop first second out bloom size =
                Done (out ++ concat (wchars <$> l), bloom', u32 (size + zlen l)) ∧ kf_ok bloom'
  | None => merge_loop first second out bloom size = Fault Dangling
  end.
Proof.
  assert (Hins : ∀ (b : B) k, kf_ok b → ∃ b', kf_insert b k = Done b' ∧ kf_ok b').
  { intros b k Hb. destruct (kf_insert_ok b k Hb) as (b' & E & Hb' & _). by exists b'. }
  assert (Hu : ∀ x, u32 (u32 x) = u32 x)
    by (intros x; unfold u32, wrap; by apply Z.mod_mod).
  assert (Hstep : ∀ (r : option (list MemtableView.sview)) x out size
      (m : outcome (bytes * B * Z)),
    match r with
    | Some l => ∃ b', m = Done ((out ++ wchars x) ++ concat (wchars <$> l), b',
                                u32 (u32 (size + 1) + zlen l)) ∧ kf_ok b'
    | None => m = Fault Dangling
    end →
    match cons x <$> r with
    | Some l => ∃ b', m = Done (out ++ concat (wchars <$> l), b', u32 (size + zlen l)) ∧ kf_ok b'
    | None => m = Fault Dangling
    end).
  { intros [l|] x out size m; [|done]. intros (b' & -> & Hb'). exists b'. split; [|done].
    rewrite u32_succ, <- app_assoc. do 3 f_equal. f_equal. unfold zlen. simpl. lia. }
  induction n as [|n IH]; intros [|a f] [|b s] out bloom size Hn Hf Hs Hok Hsz;
    try (simpl in Hn; lia).
  1-4: exists bloom; split; [|done]; cbn; rewrite app_nil_r, Z.add_0_r; by rewrite Hsz.
  pose proof Hf as [Ha Hf']%Forall_cons. pose proof Hs as [Hb Hs']%Forall_cons.
  cbn [length] in Hn. rewrite pmerge_cons, merge_loop_cons.
  rewrite (view_key a (proj1 Ha)), (view_key b (proj1 Hb)). cbn [mbind outcome_bind].
  destruct (bytes_lt (vkey b) (vkey a)).
  - rewrite (chars_done b Hb). cbn [mbind outcome_bind]. destruct s as [|b' s]; [done|].
    apply Forall_cons in Hs' as [Hb' Hs']. cbn [head of_option mbind outcome_bind].
    rewrite (chars_done b' Hb'). cbn [mbind outcome_bind].
    destruct (Hins bloom (wchars b') Hok) as (bl & -> & Hbl). apply Hstep.
    apply (IH (a :: f) (b' :: s)); [simpl in *; lia|done|by constructor|done|apply Hu].
  - destruct (bytes_lt (vkey a) (vkey b)).
    + rewrite (chars_done a Ha). cbn [mbind outcome_bind]. destruct f as [|a' f]; [done|].
      apply Forall_cons in Hf' as [Ha' Hf']. cbn [head of_option mbind outcome_bind].
      rewrite (chars_done a' Ha'). cbn [mbind outcome_bind].
      destruct (Hins bloom (wchars a') Hok) as (bl & -> & Hbl). apply Hstep.
      apply (IH (a' :: f) (b :: s)); [simpl in *; lia|by constructor|done|done|apply Hu].
    + rewrite (chars_done a Ha). cbn [mbind outcome_bind].
      destruct (Hins bloom (wchars a) Hok) as (bl & -> & Hbl). apply Hstep.
      apply (IH f s); [simpl in *; lia|done|done|done|apply Hu].
Qed.

(** C18: what a merge of two levels keeps. On two non-empty levels in key order
    whose views lie in their mappings, the loop either reads an element past
    the end of a level — whenever neither level's last key occurs in the other,
    so for levels with no key in common — or it ends at a key [m] that both
    levels have and with which one of them ends. Then the records written are
    in key order, one for each key of either level up to [m], the upper level's
    where both have it, and the counter is their number; the keys above [m],
    the rest of the longer level, are lost. *)
Theorem merge_loop_keeps (first second : list MemtableView.sview) (bloom : B)
  (H1 : first ≠ []) (H2 : second ≠ [])
  (Hs1 : OrdSet.sorted vkey first) (Hs2 : OrdSet.sorted vkey second)
  (Hw1 : Forall wf_view first) (Hw2 : Forall wf_view second) (Hb : kf_ok bloom) :
  (∃ m l bloom', meets (keys_of first) (keys_of second) m ∧ merged first second l m ∧
     merge_loop first second [] bloom 0 =
       Done (concat (wchars <$> l), bloom', u32 (zlen l))) ∨
  ((∀ m, ¬ meets (keys_of first) (keys_of second) m) ∧
   merge_loop first second [] bloom 0 = Fault Dangling).
Proof.
  pose proof (pmerge_spec _ first second (Nat.le_refl _) H1 H2 Hs1 Hs2) as Hp.
  pose proof (merge_loop_pmerge _ first second [] bloom 0 (Nat.le_refl _) Hw1 Hw2 Hb eq_refl)
    as Hm.
  destruct (pmerge first second) as [l|].
  - left. destruct Hp as (m & Hmm & Hml). destruct Hm as (b' & E & _).
    exists m, l, b'. by rewrite E.
  - right. by split.
Qed.

End MergeLoop.

(** The fields written behind the merged records, and where: [meta_data_ptr]
    was taken before the blanks were appended to the vector, so it is the
    beginning of the old storage. [grown] says whether the vector reallocated.
    The ninth argument has no placeholder: the filter's data is not written. *)
Definition merge_meta (grown : bool) (buf : bytes) (version now l number count : Z)
    (bits_size seed : Z) : outcome bytes :=
  f_version ← Memtable.fmt32 (varintLength version);
  f_now ← Memtable.fmt64 (varintLength now);
  f_first ← Memtable.fmt32 (varintLength l);
  f_second ← Memtable.fmt32 (varintLength (l + 1));
  f_number ← Memtable.fmt32 (varintLength number);
  f_count ← Memtable.fmt32 (varintLength count);
  f_bits ← Memtable.fmt32 (varintLength bits_size);
  f_seed ← Memtable.fmt64 (varintLength seed);
  let buf := buf ++ f_version ++ f_now ++ f_first ++ f_second ++ f_number ++ f_count ++
             f_bits ++ f_seed in
  _ ← guard_fault (negb grown) Dangling;
  '(buf, p) ← encodeVarint32 buf 0 version;
  '(buf, p) ← encodeVarint64 buf p now;
  '(buf, p) ← encodeVarint32 buf p l;
  '(buf, p) ← encodeVarint32 buf p (l + 1);
  '(buf, p) ← encodeVarint32 buf p number;
  '(buf, _) ← encodeVarint32 buf p count;
  Done buf.

Module Examples.
Definition record (k v : bytes) : MemtableView.sview :=
  MemtableView.mkSview (sst_record k v) (length (sst_record k v)).
End Examples.

Lemma merge_loop_keeps_witness :
  OrdSet.sorted vkey [Examples.record (str "a") (str "x")] ∧
  Forall wf_view [Examples.record (str "a") (str "x")] ∧
  ∃ l b, @merge_loop _ Memtable.SetFilter.exact_filter [Examples.record (str "a") (str "x")]
           [Examples.record (str "a") (str "y")] [] [] 0 =
         Done (concat (wchars <$> l), b, u32 (zlen l)).
Proof.
  assert (Hw : ∀ v, small v → Forall wf_view [Examples.record (str "a") v]).
  { intros v Hv. constructor; [|done]. split; [|cbn [MemtableView.sv_size MemtableView.sv_data Examples.record]; lia].
    eexists (str "a"), _. split; [reflexivity|by vm_compute]. }
  assert (Hs : ∀ v, OrdSet.sorted vkey [Examples.record (str "a") v])
    by (intros v; repeat constructor).
  split; [apply Hs|]. split; [by apply Hw|].
  destruct (@merge_loop_keeps _ Memtable.SetFilter.exact_filter Memtable.SetFilter.exact_laws
    [Examples.record (str "a") (str "x")] [Examples.record (str "a") (str "y")] []
    ltac:(discriminate) ltac:(discriminate) (Hs _) (Hs _) (Hw (str "x") eq_refl)
    (Hw (str "y") eq_refl) I) as [(m & l & b' & _ & _ & E)|[H _]].
  - exists l, b'. exact E.
  - exfalso. apply (H (str "a")). split; [by left|]. split; [by left|].
    left. intros k Hk. apply list_elem_of_singleton in Hk as ->. reflexivity.
Defined.

End LevelMerge.
