(* ===== verification/Compactor.v ===== *)
(** * The compactor

    [src/db/compactor.{hpp,cpp}]: the workers that write full memtables to
    SSTables, publish the views of those the kernel has written, and merge the
    levels of a memtable that has too many; and the compactor that deals tables
    to them. A buffer handed to io_uring is known by its address. The time and
    the system calls are arguments; threads, the waiting and log messages are
    not modelled. *)
From S2P Require Import Prelude Request Crc32 KeyFormat Entry XXHash64 CityHash FarmHash Bloom Memtable KLRUCache SSTable IOUring MemtableView SharedMemtable FlushFormat LevelMerge.
Import Status Request FlushFormat LevelMerge.

Module Compactor.

Definition kDefaultCompactor_N : Z := 2.
Definition kDefaultIOUringSize : Z := 128.

(** ** Workers *)

(** [level_info] and, for a merge, [sstable_ref] are what the code assigned:
    a merge never assigns the table. *)
Record CompData : Type := mkComp {
  sync_data : bytes;
  memtable_n : Z;
  sstable_ref : option nat;
  isMajorCompact : bool;
  level_info : option (nat * nat)
}.

Section Workers.
Context {R : Type} {L : IOUring.Liburing R} {KF : KeyFilter Bloom.BloomFilter}.

(** [sync_data_map_] is keyed by the buffer's address; [next_buf] is the
    address of the next buffer allocated. *)
Record CompWorker : Type := mkWorker {
  isRunning_ : bool;
  iouring_ : IOUring.IOUring R;
  bg_wait_to_sync_sstable_ : list Table;
  wait_to_sync_sstable_ : list Table;
  sync_data_map_ : gmap Z CompData;
  path : bytes;
  next_buf : Z
}.

Definition new_CompWorker (db_path : bytes) : CompWorker :=
  mkWorker false IOUring.new_IOUring [] [] ∅ db_path 1.

Definition with_ring (w : CompWorker) (r : IOUring.IOUring R) (m : gmap Z CompData)
    (next : Z) : CompWorker :=
  mkWorker (isRunning_ w) r (bg_wait_to_sync_sstable_ w) (wait_to_sync_sstable_ w) m
    (path w) next.

Definition AddSStable (w : CompWorker) (t : Table) : CompWorker :=
  mkWorker (isRunning_ w) (iouring_ w) (bg_wait_to_sync_sstable_ w ++ [t])
    (wait_to_sync_sstable_ w) (sync_data_map_ w) (path w) (next_buf w).

(** The static members, and the objects the workers share. *)
Record Env : Type := mkEnv {
  max_level_n_ : Z;
  memtable_N_ : nat;
  cur_version_ : Z;
  manager : SSTableManager.SSTableManager;
  views : MemtableView.MemTableViewManager;
  shared : SharedMemtable.SharedMemtable Bloom.BloomFilter
}.

Definition with_manager (e : Env) (m : SSTableManager.SSTableManager) : Env :=
  mkEnv (max_level_n_ e) (memtable_N_ e) (cur_version_ e) m (views e) (shared e).
Definition with_views (e : Env) (v : MemtableView.MemTableViewManager) : Env :=
  mkEnv (max_level_n_ e) (memtable_N_ e) (cur_version_ e) (manager e) v (shared e).
Definition with_shared (e : Env) (s : SharedMemtable.SharedMemtable Bloom.BloomFilter) : Env :=
  mkEnv (max_level_n_ e) (memtable_N_ e) (cur_version_ e) (manager e) (views e) s.

(** The system calls, the creation time of a flush - any number, since
    [getNowU64] reads it before it is set ([TimeStamp]) -, whether a vector reallocates when it
    grows, and the value of an indeterminate seed. *)
Context (open : bytes → Z) (stat : bytes → option Z) (mmap : Z → Z → option bytes)
  (fstat : Z → option Z) (now : Z) (grows : bytes → bool) (junk_seed : Z)
  (default_bloom : Bloom.BloomFilter).

Definition sstable_name (number level : Z) : bytes :=
  str "memtable_" ++ dec number ++ str "_level_" ++ dec level ++ str ".sst".

(** The body of the loop over [wait_to_sync_sstable_]. *)
Definition flush_one (w : CompWorker) (e : Env) (t : Table) : outcome (CompWorker * Env) :=
  buf ← flush_image (cur_version_ e) now t;
  let level := Memtable.getCompactionN t in
  number ← Memtable.getMemNumber t;
  '(id, mgr) ← SSTableManager.newSSTable (manager e) (Z.to_nat number) (Z.to_nat level);
  tbl ← of_option Dangling (SSTableManager.heap mgr !! id);
  let '(re, tbl) := SSTable.Init open tbl (path w) (sstable_name number level) level number in
  let tbl := SSTable.setLevel (SSTable.setNumber tbl number) level in
  let e := with_manager e (SSTableManager.on_table mgr id (λ _, tbl)) in
  _ ← cassert re;
  fd ← SSTable.getFd tbl;
  let addr := next_buf w in
  let req := IOUring.new_WriteRequest fd addr (u32 (zlen buf)) in
  let m := <[addr := mkComp buf number (Some id) false None]> (sync_data_map_ w) in
  ring ← IOUring.PrepWrite req (iouring_ w);
  '(_, ring) ← IOUring.Submit ring;
  Done (with_ring w ring m (addr + 1), e).

Fixpoint flush_all (w : CompWorker) (e : Env) (ts : list Table) : outcome (CompWorker * Env) :=
  match ts with
  | [] => Done (w, e)
  | t :: ts' => '(w, e) ← flush_one w e t; flush_all w e ts'
  end.

(** Mapping a written table: its number, what it maps and its size. *)
Definition map_table (e : Env) (d : CompData) : outcome (Env * nat * bytes * nat) :=
  id ← of_option NullDeref (sstable_ref d);
  tbl ← of_option Dangling (SSTableManager.heap (manager e) !! id);
  '(ue, tbl) ← SSTable.InitMmap stat mmap tbl;
  let e := with_manager e (SSTableManager.on_table (manager e) id (λ _, tbl)) in
  _ ← cassert ue;
  number ← SSTable.getNumber tbl;
  m ← SSTable.mapped (SSTable.getMmapPtr tbl);
  size ← SSTable.getFileSize fstat tbl;
  Done (e, Z.to_nat number, m, Z.to_nat size).

(** The loop that collects what io_uring has written. A completion whose buffer
    is not in the map is not marked as seen, so it is the next one again; after
    a merge's the erased iterator is used. [fuel] bounds the completions and
    the records of a view. *)
Fixpoint collect (fuel : nat) (w : CompWorker) (e : Env) : outcome (CompWorker * Env) :=
  match fuel with
  | O => Fault NoReturn
  | S fuel' =>
      '(conn, ring) ← IOUring.PeekFinishQueue (iouring_ w);
      if IOUring.isEmpty conn then Done (with_ring w ring (sync_data_map_ w) (next_buf w), e)
      else
        r ← of_option Uninit (IOUring.ring_ ring);
        addr ← IOUring.getData r conn;
        match sync_data_map_ w !! addr with
        | None => collect fuel' (with_ring w ring (sync_data_map_ w) (next_buf w)) e
        | Some d =>
            if isMajorCompact d then
              '(e, number, m, size) ← map_table e d;
              '(first, second) ← of_option Uninit (level_info d);
              v ← MemtableView.PushTableMergeView fuel junk_seed (views e) number m size
                    first second;
              _ ← IOUring.DeleteEvent conn ring;
              Fault Dangling
            else
              '(e, number, m, size) ← map_table e d;
              v ← MemtableView.PushTableView fuel (views e) number m size;
              s ← SharedMemtable.PushRemoveReadonlyMemtableContext (shared e) number;
              ring ← IOUring.DeleteEvent conn ring;
              collect fuel' (with_ring w ring (delete addr (sync_data_map_ w)) (next_buf w))
                (with_shared (with_views e v) s)
        end
  end.

(** One pair of adjacent levels of memtable [j]. *)
Definition merge_pair (w : CompWorker) (e : Env) (j l : nat) : outcome (CompWorker * Env) :=
  vec ← of_option OutOfBounds (MemtableView.mem_all_vec_ (views e) !! j);
  v1 ← of_option OutOfBounds (MemtableView.memtable_vec_ vec !! l);
  v2 ← of_option OutOfBounds (MemtableView.memtable_vec_ vec !! S l);
  '(buf, bloom, count) ←
    merge_loop (MemtableView.memMapView_ v1) (MemtableView.memMapView_ v2) [] default_bloom 0;
  number ← SharedMemtable.getMemTaskWorkerNumber (shared e) j;
  '(id, mgr) ← SSTableManager.newCompactionSSTable (manager e) (Z.to_nat number) l;
  tbl ← of_option Dangling (SSTableManager.heap mgr !! id);
  let name := str "memtable_merge_" ++ dec number ++ str "_merge_" ++ dec (Z.of_nat l) ++
              str "_" ++ dec (Z.of_nat (S l)) ++ str ".sst" in
  let '(ue, tbl) := SSTable.Init open tbl (path w) name (Z.of_nat l) number in
  let e := with_manager e (SSTableManager.on_table mgr id (λ _, tbl)) in
  _ ← cassert ue;
  _ ← cassert (0 <? count);
  buf ← merge_meta (grows buf) buf (cur_version_ e) now (Z.of_nat l) number count
          (Bloom.getBitSetSize bloom) (Bloom.getFilterSeed bloom);
  fd ← SSTable.getFd tbl;
  let addr := next_buf w in
  let d := mkComp buf (MemtableView.getNumber v1) None true (Some (l, S l)) in
  ring ← IOUring.PrepWriteLink (IOUring.new_WriteRequest fd addr (u32 (zlen buf))) (iouring_ w);
  ring ← IOUring.PrepWrite (IOUring.new_WriteRequest fd addr 0) ring;
  '(_, ring) ← IOUring.Submit ring;
  Done (with_ring w ring (<[addr := d]> (sync_data_map_ w)) (addr + 1), e).

Fixpoint merge_pairs (n l : nat) (w : CompWorker) (e : Env) (j : nat)
  : outcome (CompWorker * Env) :=
  match n with
  | O => Done (w, e)
  | S n' => '(w, e) ← merge_pair w e j l; merge_pairs n' (S l) w e j
  end.

(** The loop over the memtables that merges the levels of those with too many;
    the number of pairs is a 32-bit difference. *)
Fixpoint merge_all (n j : nat) (w : CompWorker) (e : Env) : outcome (CompWorker * Env) :=
  match n with
  | O => Done (w, e)
  | S n' =>
      lev ← SharedMemtable.getMemTaskWorkerLevel (shared e) j;
      if max_level_n_ e <? lev then
        vec ← of_option OutOfBounds (MemtableView.mem_all_vec_ (views e) !! j);
        let pairs := Z.to_nat (u32 (zlen (MemtableView.memtable_vec_ vec) - 1)) in
        let '(got, vec) := MemtableView.getCompactLock vec in
        let e := with_views e (MemtableView.with_vec (views e) j vec) in
        if (got : bool) then
          '(w, e) ← merge_pairs pairs 0 w e j;
          vec ← of_option OutOfBounds (MemtableView.mem_all_vec_ (views e) !! j);
          merge_all n' (S j) w
            (with_views e (MemtableView.with_vec (views e) j (MemtableView.finishCompact vec)))
        else merge_all n' (S j) w e
      else merge_all n' (S j) w e
  end.

(** One turn of the worker's loop, once it is awake. *)
Definition turn (fuel : nat) (w : CompWorker) (e : Env) : outcome (CompWorker * Env) :=
  if bool_decide (bg_wait_to_sync_sstable_ w = []) then collect fuel w e
  else
    let w := mkWorker (isRunning_ w) (iouring_ w) (wait_to_sync_sstable_ w)
               (bg_wait_to_sync_sstable_ w) (sync_data_map_ w) (path w) (next_buf w) in
    '(w, e) ← flush_all w e (wait_to_sync_sstable_ w);
    let w := mkWorker (isRunning_ w) (iouring_ w) (bg_wait_to_sync_sstable_ w)
               [] (sync_data_map_ w) (path w) (next_buf w) in
    merge_all (memtable_N_ e) 0 w e.

(** [CompWorker::Run]. *)
Definition Worker_Run (w : CompWorker) : outcome CompWorker :=
  '(_, ring) ← IOUring.Init kDefaultIOUringSize (iouring_ w);
  Done (mkWorker true ring (bg_wait_to_sync_sstable_ w) (wait_to_sync_sstable_ w)
          (sync_data_map_ w) (path w) (next_buf w)).

(** ** The compactor *)

(** [current_comp_index_] is set by [Init]. *)
Record Compactor : Type := mkCompactor {
  memtable_n_ : Z;
  task_workers_n_ : Z;
  max_level : Z;
  bg_comp_workers_ : list CompWorker;
  sstable_manager_ : SSTableManager.SSTableManager;
  current_comp_index_ : Z;
  db_path_ : bytes
}.

Definition Init (cfg : SharedMemtable.DBConfig.DBConfig) : Compactor :=
  let n := SharedMemtable.DBConfig.compactor_thread_size cfg in
  mkCompactor (SharedMemtable.DBConfig.memtable_N cfg) n
    (SharedMemtable.DBConfig.max_level_size cfg)
    (replicate (Z.to_nat n) (new_CompWorker (SharedMemtable.DBConfig.db_path cfg)))
    (SSTableManager.Manager_Init (Z.to_nat (SharedMemtable.DBConfig.memtable_N cfg))
       (SharedMemtable.DBConfig.db_path cfg) SSTableManager.new_SSTableManager)
    0 (SharedMemtable.DBConfig.db_path cfg).

(** [AddReadOnlyTable] hands the table to the current worker; its log message
    asks for the table's number. *)
Definition AddReadOnlyTable (c : Compactor) (t : Table) : outcome Compactor :=
  _ ← cassert (current_comp_index_ c <? zlen (bg_comp_workers_ c));
  let i := Z.to_nat (current_comp_index_ c) in
  w ← of_option OutOfBounds (bg_comp_workers_ c !! i);
  _ ← Memtable.getMemNumber t;
  Done (mkCompactor (memtable_n_ c) (task_workers_n_ c) (max_level c)
          (<[i := AddSStable w t]> (bg_comp_workers_ c)) (sstable_manager_ c)
          (u32 (current_comp_index_ c + 1) mod zlen (bg_comp_workers_ c)) (db_path_ c)).

Fixpoint run_workers (ws : list CompWorker) : outcome (list CompWorker) :=
  match ws with
  | [] => Done []
  | w :: ws' => w ← Worker_Run w; ws'' ← run_workers ws'; Done (w :: ws'')
  end.

Definition Run (c : Compactor) : outcome Compactor :=
  ws ← run_workers (bg_comp_workers_ c);
  Done (mkCompactor (memtable_n_ c) (task_workers_n_ c) (max_level c) ws
          (sstable_manager_ c) (current_comp_index_ c) (db_path_ c)).

(** ** Dealing tables to the workers *)

Fixpoint AddReadOnlyTables (c : Compactor) (ts : list Table) : outcome Compactor :=
  match ts with
  | [] => Done c
  | t :: ts' => c ← AddReadOnlyTable c t; AddReadOnlyTables c ts'
  end.

(** The tables of [ts], numbered from [i], that fall to worker [j] of [N]. *)
Definition dealt (N i : Z) (j : nat) (ts : list Table) : list Table :=
  snd <$> filter (λ p, p.1 mod N = Z.of_nat j) (zip (seqZ i (zlen ts)) ts).

Lemma dealt_cons (N i : Z) (j : nat) (t : Table) (ts : list Table) :
  dealt N i j (t :: ts) =
  (if decide (i mod N = Z.of_nat j) then [t] else []) ++ dealt N (i + 1) j ts.
Proof.
  unfold dealt. rewrite seqZ_cons by (unfold zlen; simpl; lia).
  replace (Z.pred (zlen (t :: ts))) with (zlen ts) by (unfold zlen; simpl; lia).
  replace (Z.succ i) with (i + 1) by lia. simpl. rewrite filter_cons. cbn [fst].
  by case_decide.
Qed.

Lemma AddReadOnlyTables_dealt (ts : list Table) : ∀ (c : Compactor) (i : Z),
  0 < zlen (bg_comp_workers_ c) < 2 ^ 32 →
  current_comp_index_ c = i mod zlen (bg_comp_workers_ c) →
  Forall (λ t, is_Some (Memtable.memtable_number_ t)) ts →
  ∃ c', AddReadOnlyTables c ts = Done c' ∧
    length (bg_comp_workers_ c') = length (bg_comp_workers_ c) ∧
    current_comp_index_ c' = (i + zlen ts) mod zlen (bg_comp_workers_ c) ∧
    ∀ j w, bg_comp_workers_ c !! j = Some w → ∃ w', bg_comp_workers_ c' !! j = Some w' ∧
      bg_wait_to_sync_sstable_ w' =
        bg_wait_to_sync_sstable_ w ++ dealt (zlen (bg_comp_workers_ c)) i j ts.
Proof.
  induction ts as [|t ts IH]; intros c i HN Hi Hts.
  { exists c. split_and!; [done|done|by rewrite Z.add_0_r|].
    intros j w Hw. exists w. split; [done|]. unfold dealt. simpl. by rewrite app_nil_r. }
  apply Forall_cons in Hts as [[num Hnum] Hts].
  set (N := zlen (bg_comp_workers_ c)) in *. pose proof (Z.mod_pos_bound i N ltac:(lia)) as Hb.
  cbn [AddReadOnlyTables]. unfold AddReadOnlyTable, Memtable.getMemNumber. fold N.
  rewrite Hi, (proj2 (Z.ltb_lt _ _)) by lia. cbn [cassert guard_fault mbind outcome_bind].
  destruct (lookup_lt_is_Some_2 (bg_comp_workers_ c) (Z.to_nat (i mod N))) as [w0 Hw0];
    [unfold N, zlen in *; lia|].
  rewrite Hw0, Hnum. cbn [of_option mbind outcome_bind].
  set (c1 := mkCompactor _ _ _ _ _ _ _).
  assert (Hl1 : zlen (bg_comp_workers_ c1) = N)
    by (unfold c1, zlen; cbn; by rewrite length_insert).
  destruct (IH c1 (i + 1)) as (c' & E & Hl & Hix & Hw); [by rewrite Hl1| |done|].
  { rewrite Hl1. cbn [current_comp_index_ c1]. rewrite u32_small by lia.
    by rewrite Z.add_mod_idemp_l by lia. }
  exists c'. split; [exact E|]. rewrite Hl1 in *. split; [|split].
  - rewrite Hl. unfold c1. cbn. apply length_insert.
  - rewrite Hix. f_equal. unfold zlen. simpl. lia.
  - intros j w Hj. rewrite dealt_cons.
    destruct (decide (Z.to_nat (i mod N) = j)) as [Hij|Hij].
    + destruct (Hw j (AddSStable w0 t)) as (w' & Hw' & Hq).
      { unfold c1. cbn [bg_comp_workers_]. subst j. apply list_lookup_insert_eq.
        by eapply lookup_lt_Some. }
      exists w'. split; [done|]. subst j. simplify_eq. rewrite Hq.
      cbn [AddSStable bg_wait_to_sync_sstable_]. rewrite decide_True by lia.
      by rewrite <- !app_assoc.
    + destruct (Hw j w) as (w' & Hw' & Hq).
      { unfold c1. cbn [bg_comp_workers_]. by rewrite list_lookup_insert_ne. }
      exists w'. split; [done|]. rewrite decide_False by lia. exact Hq.
Qed.

(** Full tables are dealt to the workers in turn. From a compactor just
    initialised with at least one worker, any sequence of numbered tables is
    accepted: the [k]-th goes to the queue of worker [k mod N], each queue
    keeps the order they came in, and the index stays below [N]. With no
    worker the first table fails the assertion. *)
Theorem AddReadOnlyTable_round_robin (cfg : SharedMemtable.DBConfig.DBConfig)
  (ts : list Table)
  (HN : 0 ≤ SharedMemtable.DBConfig.compactor_thread_size cfg < 2 ^ 32)
  (Hts : Forall (λ t, is_Some (Memtable.memtable_number_ t)) ts) :
  let N := SharedMemtable.DBConfig.compactor_thread_size cfg in
  (0 < N → ∃ c, AddReadOnlyTables (Init cfg) ts = Done c ∧
     current_comp_index_ c = zlen ts mod N ∧
     ∀ j, (j < Z.to_nat N)%nat → ∃ w, bg_comp_workers_ c !! j = Some w ∧
       bg_wait_to_sync_sstable_ w = dealt N 0 j ts) ∧
  (N = 0 → ∀ t ts', ts = t :: ts' → AddReadOnlyTables (Init cfg) ts = Fault AssertFailed).
Proof.
  intros N. split.
  - intros Hpos.
    assert (Hl : zlen (bg_comp_workers_ (Init cfg)) = N).
    { unfold zlen. cbn. rewrite length_replicate. unfold N in *. lia. }
    destruct (AddReadOnlyTables_dealt ts (Init cfg) 0) as (c & E & _ & Hi & Hw).
    + rewrite Hl. unfold N in *. lia.
    + by rewrite Hl, Z.mod_0_l by lia.
    + done.
    + rewrite Hl in *. exists c. split; [done|]. split; [by rewrite Hi|].
      intros j Hj. apply (Hw j (new_CompWorker (SharedMemtable.DBConfig.db_path cfg))). cbn. apply lookup_replicate_2. exact Hj.
  - intros H0 t ts' ->. cbn [AddReadOnlyTables]. unfold AddReadOnlyTable.
    cbn [bg_comp_workers_ current_comp_index_ Init]. fold N. by rewrite H0.
Qed.

(** ** What happens to a completion *)

(** The queue of the worker that was given the last table still holds it. *)
Definition holds_last (c : Compactor) : nat :=
  let N := zlen (bg_comp_workers_ c) in
  match bg_comp_workers_ c !! Z.to_nat ((current_comp_index_ c - 1) mod N) with
  | Some w => if bool_decide (bg_wait_to_sync_sstable_ w = []) then 0 else 1
  | None => 0
  end%nat.

Lemma PushTableView_faults (v : MemtableView.MemTableViewManager) (n : nat) (m : bytes) :
  ∃ f, f ≠ NoReturn ∧ ∀ fuel size, MemtableView.PushTableView fuel v n m size = Fault f.
Proof.
  destruct (MemtableView.mem_all_vec_ v !! n) as [vec|] eqn:E.
  - destruct (MemtableView.PushTableView_header v n vec m E) as (f & Hf & _ & H). by exists f.
  - exists AssertFailed. split; [done|]. intros fuel size. unfold MemtableView.PushTableView.
    apply lookup_ge_None in E. by rewrite bool_decide_false by lia.
Qed.

Lemma InitMmap_returns (t : SSTable.SSTable) : returns (SSTable.InitMmap stat mmap t).
Proof. unfold SSTable.InitMmap, SSTable.getFd. returns_steps. Qed.

Lemma mapped_returns (p : SSTable.map_ptr) : returns (SSTable.mapped p).
Proof. by destruct p. Qed.

Lemma getFileSize_returns (t : SSTable.SSTable) : returns (SSTable.getFileSize fstat t).
Proof. unfold SSTable.getFileSize, SSTable.getFd. returns_steps. Qed.

#[local] Hint Resolve InitMmap_returns mapped_returns getFileSize_returns : returns.

Lemma map_table_returns (e : Env) (d : CompData) : returns (map_table e d).
Proof. unfold map_table, SSTable.getNumber. returns_steps. Qed.

Lemma bind_faults {A A'} (m : outcome A) (k : A → outcome A') :
  (∀ a, ∃ f, k a = Fault f) → ∃ f, (m ≫= k) = Fault f.
Proof. intros H. destruct m as [a|f]; [apply H|by exists f]. Qed.

(** What [flush_one] has done when it finishes: image, table and descriptor, the
    write it has prepared and submitted, and what it has registered. *)
Lemma flush_one_done (w w' : CompWorker) (e e' : Env) (t : Table) :
  flush_one w e t = Done (w', e') →
  ∃ buf number id tbl fd n ring ring',
    flush_image (cur_version_ e) now t = Done buf ∧ Memtable.getMemNumber t = Done number ∧
    SSTableManager.heap (manager e') !! id = Some tbl ∧ SSTable.getFd tbl = Done fd ∧
    IOUring.PrepWrite (IOUring.new_WriteRequest fd (next_buf w) (u32 (zlen buf)))
      (iouring_ w) = Done ring ∧
    IOUring.Submit ring = Done (n, ring') ∧
    w' = with_ring w ring'
           (<[next_buf w := mkComp buf number (Some id) false None]> (sync_data_map_ w))
           (next_buf w + 1).
Proof.
  intros H. unfold flush_one in H. apply bind_done in H as (buf & Hb & H).
  apply bind_done in H as (number & Hn & H). apply bind_done in H as ([id mgr] & Hi & H).
  apply bind_done in H as (t0 & Ht & H). apply of_option_done in Ht.
  destruct (SSTable.Init _ _ _ _ _ _) as [re tbl]. set (tbl' := SSTable.setLevel _ _) in H.
  apply bind_done in H as (? & _ & H). apply bind_done in H as (fd & Hf & H).
  apply bind_done in H as (ring & Hr & H). apply bind_done in H as ([n ring'] & Hs & H).
  simplify_eq. exists buf, number, id, tbl', fd, n, ring, ring'. split_and!; try done.
  cbn. by rewrite list_lookup_alter_eq, Ht.
Qed.

(** A completion of a registered buffer. *)
Lemma collect_registered (w : CompWorker) (e : Env) (c : Z) (ring : IOUring.IOUring R) (r : R)
    (d : CompData) :
  IOUring.PeekFinishQueue (iouring_ w) = Done (IOUring.mkConsumption (Some c), ring) →
  IOUring.ring_ ring = Some r → sync_data_map_ w !! IOUring.cqe_data r c = Some d →
  (isMajorCompact d = true → sstable_ref d = None) →
  ∃ f, f ≠ NoReturn ∧ ∀ fuel, collect (S fuel) w e = Fault f.
Proof.
  intros Hp Hr Hd Hm.
  assert (E : ∀ fuel, collect (S fuel) w e =
    if isMajorCompact d then Fault NullDeref
    else '(e, number, m, size) ← map_table e d;
         v ← MemtableView.PushTableView (S fuel) (views e) number m size;
         s ← SharedMemtable.PushRemoveReadonlyMemtableContext (shared e) number;
         ring ← IOUring.DeleteEvent (IOUring.mkConsumption (Some c)) ring;
         collect fuel
           (with_ring w ring (delete (IOUring.cqe_data r c) (sync_data_map_ w)) (next_buf w))
           (with_shared (with_views e v) s)).
  { intros fuel. cbn [collect]. rewrite Hp, bind_Done_l. unfold IOUring.isEmpty. cbn.
    rewrite Hr. cbn. rewrite Hd. destruct (isMajorCompact d); [|done].
    unfold map_table. by rewrite (Hm eq_refl). }
  destruct (isMajorCompact d); [exists NullDeref; split; [done|exact E]|].
  pose proof (map_table_returns e d) as Hret.
  destruct (map_table e d) as [[[[e1 n1] m1] s1]|f].
  - destruct (PushTableView_faults (views e1) n1 m1) as (f & Hf & H).
    exists f. split; [exact Hf|]. intros fuel. rewrite E, bind_Done_l. cbv beta iota. by rewrite H.
  - exists f. split; [by intros ->|exact E].
Qed.

(** C39: no flush and no merge is ever completed. A worker that flushes a table
    has one write of the whole image prepared and submitted, from the address
    of the image's buffer to the descriptor of the new table, and has registered
    image, number and table under that address. But a worker that finds a
    completion for a registered buffer never gets past it. For a flush, mapping
    the table fails, or building the view of it fails in its header; the record
    a merge would register has no table to map: with any fuel that lets the loop start, the
    collection ends in one and the same fault, which is not the lack of fuel.
    Nor does a merge get as far as writing: the vector its table would be added
    to is empty. *)
Theorem no_completion (w : CompWorker) (e : Env)
  (Hm : SSTableManager.comp_sstable_vec_ (manager e) = []) :
  (∀ t w' e', flush_one w e t = Done (w', e') →
     ∃ buf number id tbl fd n ring ring',
       flush_image (cur_version_ e) now t = Done buf ∧ Memtable.getMemNumber t = Done number ∧
       SSTableManager.heap (manager e') !! id = Some tbl ∧ SSTable.getFd tbl = Done fd ∧
       IOUring.PrepWrite (IOUring.new_WriteRequest fd (next_buf w) (u32 (zlen buf)))
         (iouring_ w) = Done ring ∧
       IOUring.Submit ring = Done (n, ring') ∧
       w' = with_ring w ring'
              (<[next_buf w := mkComp buf number (Some id) false None]> (sync_data_map_ w))
              (next_buf w + 1)) ∧
  (∀ c ring r d,
     IOUring.PeekFinishQueue (iouring_ w) = Done (IOUring.mkConsumption (Some c), ring) →
     IOUring.ring_ ring = Some r → sync_data_map_ w !! IOUring.cqe_data r c = Some d →
     (isMajorCompact d = true → sstable_ref d = None) →
     ∃ f, f ≠ NoReturn ∧ ∀ fuel, collect (S fuel) w e = Fault f) ∧
  (∀ j l, ∃ f, merge_pair w e j l = Fault f).
Proof.
  split; [|split].
  - intros t w' e'. apply flush_one_done.
  - intros c ring r d. apply collect_registered.
  - intros j l. unfold merge_pair. do 4 (apply bind_faults; intros ?).
    destruct a2 as [[buf bloom] count]. apply bind_faults. intros number.
    unfold SSTableManager.newCompactionSSTable, SSTableManager.push_new. rewrite Hm. by eexists.
Qed.

End Workers.
Arguments CompWorker R : clear implicits.
Arguments Compactor R : clear implicits.

(** A compactor is where the workers of the memtables hand their tables. *)
#[export] Instance compactor_sink (R : Type) :
    SharedMemtable.ReadOnlySink (Compactor R) Bloom.BloomFilter := {|
  SharedMemtable.sink_add := AddReadOnlyTable;
  SharedMemtable.sink_refs := holds_last
|}.

(** With a worker to give it to, a numbered table is taken and its queue holds
    it until the worker's thread has run. *)
#[export] Instance compactor_sink_laws (R : Type) :
    SharedMemtable.ReadOnlySinkLaws (Compactor R) Bloom.BloomFilter.
Proof.
  refine (@SharedMemtable.Build_ReadOnlySinkLaws _ _ (compactor_sink R)
    (λ c, 0 < zlen (bg_comp_workers_ c) < 2 ^ 32 ∧
          0 ≤ current_comp_index_ c < zlen (bg_comp_workers_ c)) _).
  intros c t [HN Hi] [n Hn]. set (N := zlen (bg_comp_workers_ c)) in *.
  cbn [SharedMemtable.sink_add SharedMemtable.sink_refs compactor_sink].
  unfold AddReadOnlyTable, Memtable.getMemNumber. fold N. rewrite (proj2 (Z.ltb_lt _ _)) by lia.
  destruct (lookup_lt_is_Some_2 (bg_comp_workers_ c) (Z.to_nat (current_comp_index_ c))) as [w Hw];
    [unfold N, zlen in *; lia|].
  rewrite Hw, Hn. cbn [cassert guard_fault of_option mbind outcome_bind].
  eexists. split; [reflexivity|].
  assert (Hl : zlen (<[Z.to_nat (current_comp_index_ c) := AddSStable w t]> (bg_comp_workers_ c)) = N)
    by (unfold N, zlen; by rewrite length_insert).
  cbn [bg_comp_workers_ current_comp_index_]. rewrite Hl. split; [|split; [lia|apply Z.mod_pos_bound; lia]].
  unfold holds_last. cbn [bg_comp_workers_ current_comp_index_]. rewrite Hl, u32_small by lia.
  rewrite Zminus_mod_idemp_l, Z.add_simpl_r, Z.mod_small by lia.
  rewrite list_lookup_insert_eq by (by eapply lookup_lt_Some).
  rewrite bool_decide_false; [done|]. cbn. by destruct (bg_wait_to_sync_sstable_ w).
Defined.

(** ** Witnesses *)
Module Examples.
#[local] Existing Instance MemtableView.any_filter.
#[local] Existing Instance IOUring.ListRing.list_ring.
Definition bloom : Bloom.BloomFilter := Bloom.mkBloom 12 (BitSet.mkBits [] 0).
Definition cfg : SharedMemtable.DBConfig.DBConfig :=
  SharedMemtable.DBConfig.mkConfig 0 false [] 1 64 1 500 8 None None.
Definition env : Env :=
  mkEnv 8 1 1 (SSTableManager.Manager_Init 1 (str "db") SSTableManager.new_SSTableManager)
    (MemtableView.Manager_Init 1)
    (match SharedMemtable.Init cfg false (λ _, (0, 0)) with
     | Done t => t
     | Fault _ => SharedMemtable.mkShared 0 0 [] false
     end).

(** A ring whose kernel has written everything it was given. *)
Definition done_ring : IOUring.Liburing IOUring.ListRing.ring := {|
  IOUring.queue_init := IOUring.queue_init;
  IOUring.queue_exit := IOUring.queue_exit;
  IOUring.get_sqe := IOUring.get_sqe;
  IOUring.set_last := IOUring.set_last;
  IOUring.prep_rw := IOUring.prep_rw;
  IOUring.submit := IOUring.submit;
  IOUring.peek_cqe r := (IOUring.sqe_data <$> head (IOUring.ListRing.r_sent r), r);
  IOUring.wait_cqe := IOUring.wait_cqe;
  IOUring.cqe_seen := IOUring.cqe_seen;
  IOUring.cqe_data := IOUring.cqe_data;
  IOUring.pending := IOUring.pending;
  IOUring.sent := IOUring.sent;
  IOUring.depth := IOUring.depth
|}.

(** A worker that is running, and the same after it has flushed one table. *)
Definition worker : CompWorker IOUring.ListRing.ring :=
  match @Worker_Run _ IOUring.ListRing.list_ring (new_CompWorker (str "db")) with
  | Done w => w
  | Fault _ => new_CompWorker (str "db")
  end.
Definition flush_table := @flush_one _ done_ring (λ _, 3) 7.
Definition after_flush : CompWorker IOUring.ListRing.ring * Env :=
  match flush_table worker env FlushFormat.Examples.table with
  | Done we => we
  | Fault _ => (worker, env)
  end.
Definition image : bytes :=
  match flush_image 1 7 FlushFormat.Examples.table with Done buf => buf | Fault _ => [] end.

(** Collecting, when the table can be mapped. *)
Definition collect_table :=
  @collect _ done_ring (λ _, Some (zlen image)) (λ _ _, Some image) (λ _, Some (zlen image)) 0.
End Examples.
Import Examples.

Lemma AddReadOnlyTable_round_robin_witness :
  0 ≤ SharedMemtable.DBConfig.compactor_thread_size SharedMemtable.DBConfig.default_DBConfig
    < 2 ^ 32 ∧
  Forall (λ t, is_Some (Memtable.memtable_number_ t)) [FlushFormat.Examples.table] ∧
  ∃ c : Compactor IOUring.ListRing.ring,
    AddReadOnlyTables (Init SharedMemtable.DBConfig.default_DBConfig) [FlushFormat.Examples.table] = Done c ∧
    current_comp_index_ c = 0.
Proof.
  assert (H1 : 0 ≤ SharedMemtable.DBConfig.compactor_thread_size
    SharedMemtable.DBConfig.default_DBConfig < 2 ^ 32) by (by vm_compute).
  assert (H2 : Forall (λ t, is_Some (Memtable.memtable_number_ t)) [FlushFormat.Examples.table])
    by (constructor; [by eexists|constructor]).
  split; [exact H1|]. split; [exact H2|].
  destruct (proj1 (@AddReadOnlyTable_round_robin IOUring.ListRing.ring
    SharedMemtable.DBConfig.default_DBConfig [FlushFormat.Examples.table] H1 H2) eq_refl)
    as (c & E & Hi & _).
  exists c. split; [exact E|exact Hi].
Defined.

(** The flushed table's image is handed over at address 1; its completion is
    never collected; and there is nothing to merge into. *)
Lemma no_completion_witness :
  flush_table worker env FlushFormat.Examples.table = Done (after_flush.1, after_flush.2) ∧
  (∃ fd ring, @IOUring.PrepWrite _ done_ring
                (IOUring.new_WriteRequest fd 1 (u32 (zlen image))) (iouring_ worker) = Done ring) ∧
  (∃ f, f ≠ NoReturn ∧ ∀ fuel, collect_table (S fuel) after_flush.1 after_flush.2 = Fault f) ∧
  ∃ f, @merge_pair _ done_ring MemtableView.any_filter (λ _, 3) 7 (λ _, false) bloom
         worker env 0 0 = Fault f.
Proof.
  assert (Ef : flush_table worker env FlushFormat.Examples.table =
    Done (after_flush.1, after_flush.2)) by (by vm_compute).
  pose proof (λ w e H, @no_completion _ done_ring MemtableView.any_filter
    (λ _, 3) (λ _, Some (zlen image)) (λ _ _, Some image) (λ _, Some (zlen image)) 7 (λ _, false) 0
    bloom w e H) as H.
  split; [exact Ef|]. split; [|split].
  - destruct (proj1 (H worker env eq_refl) FlushFormat.Examples.table after_flush.1 after_flush.2 Ef)
      as (buf & number & id & tbl & fd & n & ring & ring' & E1 & _ & E2 & E3 & E4 & _ & E5).
    assert (Ei : flush_image (cur_version_ env) 7 FlushFormat.Examples.table = Done image)
      by (by vm_compute).
    rewrite Ei in E1. injection E1 as <-. exists fd, ring.
    exact E4.
  - eapply (proj1 (proj2 (H after_flush.1 after_flush.2 eq_refl)));
      [by vm_compute|by vm_compute|by vm_compute|done].
  - exact (proj2 (proj2 (H worker env eq_refl)) 0%nat 0%nat).
Defined.

End Compactor.
