(* ===== verification/CompThread.v ===== *)
(** * The compactor's threads

    [CompWorker::Run] of [src/db/compactor.cpp] step by step, interleaved with
    the threads that hand tables to the worker. [Compactor.turn] treats a turn
    of the loop as one step; here the loop is a machine with a program counter
    and [AddSStable] acts between any two of its steps. Collecting completions
    and merging levels do not read the queue and are one step each. Nothing in
    the source stops a worker. *)
From stdpp Require Import relations.
From S2P Require Import Prelude Request Crc32 KeyFormat Entry XXHash64 CityHash FarmHash Bloom Memtable KLRUCache SSTable IOUring MemtableView SharedMemtable FlushFormat LevelMerge Compactor.
Import Status Request FlushFormat LevelMerge Compactor.

Module CompThread.

(** Where the thread is. [Decided] is between finding the queue empty and
    waiting, [Awake] before it looks at the queue again. *)
Inductive Pc : Type :=
  | AtLoop
  | Decided
  | Asleep
  | Awake
  | Collecting
  | Swapping
  | Flushing (rest : list Table)
  | Merging
  | Exited.

Inductive Label : Type :=
  | LWorker
  | LAdd (t : Table)
  | LNotify.

Section Loop.
Context {R : Type} {L : IOUring.Liburing R} {KF : KeyFilter Bloom.BloomFilter}.
Context (open : bytes → Z) (stat : bytes → option Z) (mmap : Z → Z → option bytes)
  (fstat : Z → option Z) (now : Z) (grows : bytes → bool) (junk_seed : Z)
  (default_bloom : Bloom.BloomFilter).
(** The completions of one collection. *)
Context (fuel : nat).

#[local] Abbreviation flush_one := (Compactor.flush_one open now).
#[local] Abbreviation flush_all := (Compactor.flush_all open now).
#[local] Abbreviation collect := (Compactor.collect stat mmap fstat junk_seed fuel).
#[local] Abbreviation merge_all := (Compactor.merge_all open now grows default_bloom).
#[local] Abbreviation turn :=
  (Compactor.turn open stat mmap fstat now grows junk_seed default_bloom fuel).

(** [pending] counts the [notify_one] calls that other threads are still to
    make; the rest is history: the tables in the order they were handed over
    and those flushed. *)
Record Sys : Type := mkSys {
  wk : CompWorker R;
  env : Env;
  pc : Pc;
  pending : nat;
  added : list Table;
  flushed : list Table
}.

Definition at_pc (s : Sys) (p : Pc) : Sys :=
  mkSys (wk s) (env s) p (pending s) (added s) (flushed s).
Definition at_wk (s : Sys) (w : CompWorker R) (e : Env) (p : Pc) : Sys :=
  mkSys w e p (pending s) (added s) (flushed s).

(** [CompWorker::Run] with the ring it has. *)
Definition start (w : CompWorker R) (e : Env) : Sys := mkSys w e AtLoop 0 [] [].

Definition with_tables (w : CompWorker R) (bg wait : list Table) : CompWorker R :=
  mkWorker (isRunning_ w) (iouring_ w) bg wait (sync_data_map_ w) (path w) (next_buf w).

(** ** The loop *)

Definition check (s : Sys) : Sys :=
  if isRunning_ (wk s) then
    match bg_wait_to_sync_sstable_ (wk s) with [] => at_pc s Decided | _ => at_pc s Awake end
  else at_pc s Exited.

Definition look_again (s : Sys) : Sys :=
  match bg_wait_to_sync_sstable_ (wk s) with
  | [] => at_pc s Collecting
  | _ => at_pc s Swapping
  end.

Definition swap (s : Sys) : Sys :=
  let w := wk s in
  let w := with_tables w (wait_to_sync_sstable_ w) (bg_wait_to_sync_sstable_ w) in
  at_wk s w (env s) (Flushing (wait_to_sync_sstable_ w)).

Definition flush_next (s : Sys) (t : Table) (rest : list Table) : outcome Sys :=
  '(w, e) ← flush_one (wk s) (env s) t;
  Done (mkSys w e (Flushing rest) (pending s) (added s) (flushed s ++ [t])).

Definition clear (s : Sys) : Sys :=
  at_wk s (with_tables (wk s) (bg_wait_to_sync_sstable_ (wk s)) []) (env s) Merging.

(** One step of the thread. The wait ends by itself after two seconds. *)
Definition wstep (s : Sys) : option (outcome Sys) :=
  match pc s with
  | AtLoop => Some (Done (check s))
  | Decided => Some (Done (at_pc s Asleep))
  | Asleep => Some (Done (at_pc s Awake))
  | Awake => Some (Done (look_again s))
  | Collecting => Some ('(w, e) ← collect (wk s) (env s); Done (at_wk s w e AtLoop))
  | Swapping => Some (Done (swap s))
  | Flushing (t :: rest) => Some (flush_next s t rest)
  | Flushing [] => Some (Done (clear s))
  | Merging => Some ('(w, e) ← merge_all (memtable_N_ (env s)) 0 (wk s) (env s);
                     Done (at_wk s w e AtLoop))
  | Exited => None
  end.

(** ** The other threads *)

Definition add (s : Sys) (t : Table) : Sys :=
  mkSys (AddSStable (wk s) t) (env s) (pc s) (S (pending s)) (added s ++ [t]) (flushed s).

Definition notified (s : Sys) : Sys :=
  mkSys (wk s) (env s) (match pc s with Asleep => Awake | p => p end) (pred (pending s))
    (added s) (flushed s).

Inductive step : Label → Sys → Sys → Prop :=
  | step_worker s s' : wstep s = Some (Done s') → step LWorker s s'
  | step_add s t : step (LAdd t) s (add s t)
  | step_notify s : (0 < pending s)%nat → step LNotify s (notified s).

Definition moves (s s' : Sys) : Prop := ∃ l, step l s s'.
Definition reachable (s0 s : Sys) : Prop := rtc moves s0 s.

(** ** First in, first out *)

Definition todo (p : Pc) : list Table := match p with Flushing rest => rest | _ => [] end.

(** The vector of the turn is empty but from the swap to the merge. *)
Definition idle (p : Pc) : bool := match p with Flushing _ => false | _ => true end.

Record fifo (s : Sys) : Prop := {
  fifo_order : added s = flushed s ++ todo (pc s) ++ bg_wait_to_sync_sstable_ (wk s);
  fifo_idle : idle (pc s) = true → wait_to_sync_sstable_ (wk s) = []
}.

(** What a turn leaves alone. *)
Definition same_tables (w w' : CompWorker R) : Prop :=
  bg_wait_to_sync_sstable_ w' = bg_wait_to_sync_sstable_ w ∧
  wait_to_sync_sstable_ w' = wait_to_sync_sstable_ w.

(** A step that commutes with the adding of tables. *)
Definition commutes (k : CompWorker R → Env → outcome (CompWorker R * Env)) : Prop :=
  ∀ w e t, k (AddSStable w t) e = ('(w, e) ← k w e; Done (AddSStable w t, e)).

Lemma flush_one_add (t : Table) : commutes (λ w e, flush_one w e t).
Proof.
  intros w e u. unfold Compactor.flush_one. cbn [AddSStable iouring_ sync_data_map_ path next_buf].
  cbv zeta. do 3 bind_case. bind_case.
  destruct (SSTable.Init _ _ _ _ _ _) as [re tbl]. do 4 bind_case. done.
Qed.

Lemma flush_all_add (ts : list Table) : commutes (λ w e, flush_all w e ts).
Proof.
  induction ts as [|x ts IH]; intros w e u; cbn [Compactor.flush_all]; [done|].
  pose proof (flush_one_add x w e u) as H. cbn beta in H. rewrite H. bind_case.
  specialize (IH c e0 u). cbn beta in IH. exact IH.
Qed.

Lemma merge_pair_add (j l : nat) :
  commutes (λ w e, Compactor.merge_pair open now grows default_bloom w e j l).
Proof.
  intros w e u. unfold Compactor.merge_pair.
  cbn [AddSStable iouring_ sync_data_map_ path next_buf]. cbv zeta. do 5 bind_case. bind_case. bind_case.
  destruct (SSTable.Init _ _ _ _ _ _) as [re tbl]. do 7 bind_case. done.
Qed.

Lemma merge_pairs_add (n j : nat) : ∀ l,
  commutes (λ w e, Compactor.merge_pairs open now grows default_bloom n l w e j).
Proof.
  induction n as [|n IH]; intros l w e u; cbn [Compactor.merge_pairs]; [done|].
  pose proof (merge_pair_add j l w e u) as H. cbn beta in H. rewrite H. bind_case. apply IH.
Qed.

Lemma merge_all_add (n : nat) : ∀ j, commutes (λ w e, merge_all n j w e).
Proof.
  induction n as [|n IH]; intros j w e u; cbn [Compactor.merge_all]; [done|].
  bind_case. destruct (_ <? _); [|apply IH]. bind_case.
  destruct (MemtableView.getCompactLock _) as [got vec]. cbv zeta. destruct got; [|apply IH].
  pose proof (merge_pairs_add (Z.to_nat (u32 (zlen (MemtableView.memtable_vec_ a0) - 1))) j 0 w
    (with_views e (MemtableView.with_vec (views e) j vec)) u) as H.
  cbn beta in H. rewrite H. bind_case. bind_case. apply IH.
Qed.

(** None of them touches the queue. *)
Lemma flush_one_same (w w' : CompWorker R) (e e' : Env) (t : Table) :
  flush_one w e t = Done (w', e') → same_tables w w'.
Proof.
  unfold Compactor.flush_one. cbv zeta. intros H.
  apply bind_done in H as (buf & _ & H). apply bind_done in H as (n & _ & H).
  apply bind_done in H as ([id mgr] & _ & H). apply bind_done in H as (tbl & _ & H).
  destruct (SSTable.Init _ _ _ _ _ _) as [re tbl'].
  apply bind_done in H as (u & _ & H). apply bind_done in H as (fd & _ & H).
  apply bind_done in H as (r & _ & H). apply bind_done in H as ([k r'] & _ & H).
  by injection H as <- _.
Qed.

Lemma collect_same (n : nat) : ∀ (w w' : CompWorker R) (e e' : Env),
  Compactor.collect stat mmap fstat junk_seed n w e = Done (w', e') → same_tables w w'.
Proof.
  induction n as [|n IH]; intros w w' e e' H; cbn [Compactor.collect] in H; [done|].
  apply bind_done in H as ([conn ring] & _ & H).
  destruct (IOUring.isEmpty conn); [by injection H as <- _|].
  apply bind_done in H as (r & _ & H). apply bind_done in H as (addr & _ & H).
  destruct (sync_data_map_ w !! addr) as [d|]; [|by apply IH in H].
  destruct (isMajorCompact d);
    apply bind_done in H as ([[[e1 number] m] size] & _ & H).
  - apply bind_done in H as ([a b] & _ & H). apply bind_done in H as (v & _ & H).
    by apply bind_done in H as (q & _ & H).
  - apply bind_done in H as (v & _ & H). apply bind_done in H as (sm & _ & H).
    apply bind_done in H as (ring' & _ & H). by apply IH in H.
Qed.

Lemma merge_pair_same (w w' : CompWorker R) (e e' : Env) (j l : nat) :
  Compactor.merge_pair open now grows default_bloom w e j l = Done (w', e') → same_tables w w'.
Proof.
  unfold Compactor.merge_pair. cbv zeta. intros H. do 3 apply bind_done in H as (? & _ & H).
  apply bind_done in H as ([[buf bloom] count] & _ & H). apply bind_done in H as (? & _ & H).
  apply bind_done in H as ([id mgr] & _ & H). apply bind_done in H as (? & _ & H).
  destruct (SSTable.Init _ _ _ _ _ _) as [ue tbl]. do 6 apply bind_done in H as (? & _ & H).
  apply bind_done in H as ([k r'] & _ & H). by injection H as <- _.
Qed.

Lemma merge_pairs_same (n j : nat) : ∀ (l : nat) (w w' : CompWorker R) (e e' : Env),
  Compactor.merge_pairs open now grows default_bloom n l w e j = Done (w', e') → same_tables w w'.
Proof.
  induction n as [|n IH]; intros l w w' e e' H; cbn [Compactor.merge_pairs] in H;
    [by injection H as <- _|].
  apply bind_done in H as ([w1 e1] & H1 & H). apply merge_pair_same in H1 as [E1 E2].
  apply IH in H as [E3 E4]. split; congruence.
Qed.

Lemma merge_all_same (n : nat) : ∀ (j : nat) (w w' : CompWorker R) (e e' : Env),
  merge_all n j w e = Done (w', e') → same_tables w w'.
Proof.
  induction n as [|n IH]; intros j w w' e e' H; cbn [Compactor.merge_all] in H;
    [by injection H as <- _|].
  apply bind_done in H as (lev & _ & H). destruct (_ <? lev); [|by apply IH in H].
  apply bind_done in H as (vec & _ & H).
  destruct (MemtableView.getCompactLock vec) as [got vec']. destruct got; [|by apply IH in H].
  apply bind_done in H as ([w1 e1] & H1 & H). apply merge_pairs_same in H1 as [E1 E2].
  apply bind_done in H as (vec2 & _ & H). apply IH in H as [E3 E4]. split; congruence.
Qed.

Lemma table_wstep_fifo (s s' : Sys) : wstep s = Some (Done s') → fifo s → fifo s'.
Proof.
  intros H [Ho Hi]. unfold wstep in H. destruct (pc s) as [| | | | | |[|t rest]| |] eqn:Ep;
    try discriminate H; injection H as H; subst; cbn [todo app idle] in *.
  - unfold check. destruct (isRunning_ (wk s)), (bg_wait_to_sync_sstable_ (wk s)) eqn:Eb;
      split; cbn; rewrite ?Eb; auto.
  - by split.
  - by split.
  - unfold look_again. destruct (bg_wait_to_sync_sstable_ (wk s)) eqn:Eb;
      split; cbn; rewrite ?Eb; auto.
  - apply bind_done in H as ([w e] & H & E). injection E as <-.
    apply collect_same in H as [E1 E2]. split; cbn; [by rewrite E1|by rewrite E2].
  - unfold swap. split; cbn; [by rewrite Ho, (Hi eq_refl), app_nil_r|done].
  - by split.
  - apply bind_done in H as ([w e] & H & E). injection E as <-.
    apply flush_one_same in H as [E1 E2]. split; cbn; [by rewrite E1, Ho, <- app_assoc|done].
  - apply bind_done in H as ([w e] & H & E). injection E as <-.
    apply merge_all_same in H as [E1 E2]. split; cbn; [by rewrite E1|by rewrite E2].
Qed.

Lemma table_step_fifo (l : Label) (s s' : Sys) : step l s s' → fifo s → fifo s'.
Proof.
  intros H. destruct H as [s s' H|s t|s Hp].
  - by apply table_wstep_fifo.
  - intros [Ho Hi]. split; cbn; [by rewrite Ho, !app_assoc|done].
  - intros [Ho Hi]. split; cbn; destruct (pc s); auto.
Qed.

Lemma table_reachable_fifo (s0 s : Sys) : reachable s0 s → fifo s0 → fifo s.
Proof. induction 1 as [|s0 s1 s2 [l H] _ IH]; [done|]. eauto using table_step_fifo. Qed.

(** ** A turn as one step *)

Definition in_turn (p : Pc) : bool :=
  match p with Flushing _ | Merging => true | _ => false end.

(** The rest of a turn, run without interruption. *)
Definition complete (s : Sys) : outcome (CompWorker R * Env) :=
  match pc s with
  | Flushing rest =>
      '(w, e) ← flush_all (wk s) (env s) rest;
      merge_all (memtable_N_ e) 0 (with_tables w (bg_wait_to_sync_sstable_ w) []) e
  | Merging => merge_all (memtable_N_ (env s)) 0 (wk s) (env s)
  | _ => Done (wk s, env s)
  end.

Lemma table_complete_swap (s : Sys) :
  bg_wait_to_sync_sstable_ (wk s) ≠ [] → complete (swap s) = turn (wk s) (env s).
Proof.
  intros H. unfold complete, Compactor.turn. rewrite bool_decide_false by done.
  cbn [pc swap at_wk wk env with_tables wait_to_sync_sstable_]. done.
Qed.

Lemma table_complete_wstep (s s' : Sys) :
  in_turn (pc s) = true → wstep s = Some (Done s') → complete s' = complete s.
Proof.
  intros Ht H. unfold wstep in H. destruct (pc s) as [| | | | | |[|t rest]| |] eqn:Ep;
    try discriminate Ht; injection H as H; subst; unfold complete at 2; rewrite Ep.
  - done.
  - apply bind_done in H as ([w e] & H & E). injection E as <-. unfold complete.
    cbn [pc wk env Compactor.flush_all]. by rewrite H.
  - apply bind_done in H as ([w e] & H & E). injection E as <-. by rewrite H.
Qed.

Lemma complete_add (s : Sys) (t : Table) :
  complete (add s t) = ('(w, e) ← complete s; Done (AddSStable w t, e)).
Proof.
  unfold complete. cbn [pc add wk env]. destruct (pc s); try done.
  - pose proof (flush_all_add rest (wk s) (env s) t) as H. cbn beta in H. rewrite H.
    destruct (flush_all (wk s) (env s) rest) as [[w e]|f]; [|done]. rewrite !bind_Done_l.
    pose proof (merge_all_add (memtable_N_ e) 0 (with_tables w (bg_wait_to_sync_sstable_ w) []) e t)
      as H'. cbn beta in H'. exact H'.
  - exact (merge_all_add (memtable_N_ (env s)) 0 (wk s) (env s) t).
Qed.

Definition effect (l : Label) (w : CompWorker R) : CompWorker R :=
  match l with LAdd t => AddSStable w t | _ => w end.

Lemma table_complete_step (l : Label) (s s' : Sys) :
  in_turn (pc s) = true → step l s s' →
  complete s' = ('(w, e) ← complete s; Done (effect l w, e)).
Proof.
  intros Ht H. assert (I : complete s = ('(w, e) ← complete s; Done (w, e)))
    by (by destruct (complete s) as [[]|]).
  destruct H as [s s' H|s t|s Hp].
  - rewrite (table_complete_wstep s s') by done. exact I.
  - apply complete_add.
  - transitivity (complete s); [|exact I]. unfold complete. cbn [pc notified wk env].
    by destruct (pc s).
Qed.

(** Steps of all threads from the swap on, until the turn has ended. *)
Inductive during : list Label → Sys → Sys → Prop :=
  | during_nil s : during [] s s
  | during_cons l ls s s1 s2 :
      in_turn (pc s) = true → step l s s1 → during ls s1 s2 → during (l :: ls) s s2.

Lemma during_complete (ls : list Label) (s s' : Sys) :
  during ls s s' →
  complete s' = ('(w, e) ← complete s; Done (foldl (flip effect) w ls, e)).
Proof.
  induction 1 as [s|l ls s s1 s2 Ht H _ IH].
  - by destruct (complete s) as [[]|].
  - rewrite IH, (table_complete_step l s s1) by done. by destruct (complete s) as [[]|].
Qed.

(** Every step of the thread brings the end of the turn nearer. *)
Definition steps_left (p : Pc) : nat :=
  match p with Flushing rest => length rest + 2 | Merging => 1 | _ => 0 end.

Definition is_worker (l : Label) : bool := match l with LWorker => true | _ => false end.

(** What a step of a turn leads to. *)
Lemma step_in_turn (l : Label) (s s' : Sys) :
  in_turn (pc s) = true → step l s s' →
  (in_turn (pc s') = true ∨ pc s' = AtLoop) ∧
  flushed s' ++ todo (pc s') = flushed s ++ todo (pc s) ∧
  (steps_left (pc s') + (if is_worker l then 1 else 0) ≤ steps_left (pc s))%nat.
Proof.
  intros Ht H. destruct H as [s s' H|s t|s Hp].
  - unfold wstep in H. destruct (pc s) as [| | | | | |[|t rest]| |] eqn:Ep;
      try discriminate Ht; injection H as H; subst; cbn [is_worker].
    + cbn. split_and!; [by left|done|lia].
    + apply bind_done in H as ([w e] & H & E). injection E as <-. cbn.
      split_and!; [by left|by rewrite <- app_assoc|lia].
    + apply bind_done in H as ([w e] & H & E). injection E as <-. cbn.
      split_and!; [by right|done|lia].
  - cbn. split_and!; [by left|done|lia].
  - cbn. destruct (pc s); try discriminate Ht; cbn; split_and!; try done; try lia; by left.
Qed.

Lemma during_facts (ls : list Label) (s s' : Sys) :
  during ls s s' → in_turn (pc s) = true →
  (in_turn (pc s') = true ∨ pc s' = AtLoop) ∧
  flushed s' ++ todo (pc s') = flushed s ++ todo (pc s) ∧
  (length (List.filter is_worker ls) + steps_left (pc s') ≤ steps_left (pc s))%nat.
Proof.
  induction 1 as [s|l ls s s1 s2 Ht H Hr IH]; intros Hs; [split_and!; [by left|done|done]|].
  destruct (step_in_turn l s s1 Ht H) as (Hp & Ef & En).
  assert (G : (in_turn (pc s2) = true ∨ pc s2 = AtLoop) ∧
    flushed s2 ++ todo (pc s2) = flushed s1 ++ todo (pc s1) ∧
    (length (List.filter is_worker ls) + steps_left (pc s2) ≤ steps_left (pc s1))%nat).
  { destruct Hp as [Hp|Hp]; [by apply IH|]. destruct Hr as [s1|l' ls' s1 s3 s4 Ht1].
    - split_and!; [by right|done|done].
    - by rewrite Hp in Ht1. }
  destruct G as (G1 & G2 & G3). split_and!; [done|congruence|].
  cbn [List.filter]. destruct (is_worker l); simpl length in *; lia.
Qed.

(** The thread can move as long as the rest of its turn is defined. *)
Lemma table_turn_progress (s : Sys) (r : CompWorker R * Env) :
  in_turn (pc s) = true → complete s = Done r → ∃ s', wstep s = Some (Done s').
Proof.
  intros Ht H. unfold wstep. unfold complete in H.
  destruct (pc s) as [| | | | | |[|t rest]| |] eqn:Ep; try discriminate Ht.
  - by eexists.
  - cbn [Compactor.flush_all] in H. rewrite bind_assoc in H.
    apply bind_done in H as ([w e] & E & _). eexists. unfold flush_next. by rewrite E.
  - rewrite H. destruct r. by eexists.
Qed.

(** C19: a turn of a compactor's thread that finds tables is the single step
    [Compactor.turn]. From the swap of the queues on, other threads may hand
    tables to the worker and notify it between any two steps. If [turn] is
    defined on the state before the swap, the thread is never stuck before the
    end of the turn and takes at most two steps more than there are tables; at
    the end every table that was queued at the swap has been flushed, once and
    in order, and ring, files, views and shards are those that [turn] computes,
    with the tables that have come in the meantime queued behind. *)
Theorem table_turn_is_turn (s s' : Sys) (ls : list Label) (w : CompWorker R) (e : Env)
  (Hq : bg_wait_to_sync_sstable_ (wk s) ≠ [])
  (Hturn : turn (wk s) (env s) = Done (w, e)) (Hd : during ls (swap s) s') :
  (length (List.filter is_worker ls) ≤ length (bg_wait_to_sync_sstable_ (wk s)) + 2)%nat ∧
  (∃ s'', wstep s' = Some (Done s'')) ∧
  (in_turn (pc s') = true ∨
   pc s' = AtLoop ∧ wk s' = foldl (flip effect) w ls ∧ env s' = e ∧
   flushed s' = flushed s ++ bg_wait_to_sync_sstable_ (wk s)).
Proof.
  destruct (during_facts ls _ _ Hd eq_refl) as (Hp & Hf & Hn).
  pose proof (during_complete ls _ _ Hd) as Hc. rewrite (table_complete_swap s Hq), Hturn in Hc.
  rewrite bind_Done_l in Hc. split; [cbn in Hn; lia|]. destruct Hp as [Hp|Hp].
  - split; [by eapply table_turn_progress|by left].
  - split; [unfold wstep; rewrite Hp; by eexists|]. right. split; [done|].
    unfold complete in Hc. rewrite Hp in Hc. injection Hc as Hw He. split; [done|]. split; [done|].
    rewrite Hp in Hf. cbn in Hf. by rewrite app_nil_r in Hf.
Qed.

(** ** Waiting *)

(** The steps that a thread which has tables queued is away from its turn. *)
Definition to_turn (p : Pc) : nat :=
  match p with
  | AtLoop => 3
  | Decided => 4
  | Asleep => 3
  | Awake => 2
  | Swapping => 1
  | _ => 0
  end.

(** Steps of all threads until the turn begins. *)
Inductive before : list Label → Sys → Sys → Prop :=
  | before_nil s : before [] s s
  | before_cons l ls s s1 s2 :
      (0 < to_turn (pc s))%nat → step l s s1 → before ls s1 s2 → before (l :: ls) s s2.

(** Where a running thread with the tables [ts] queued can be. *)
Definition ready (ts : list Table) (s : Sys) : Prop :=
  isRunning_ (wk s) = true ∧
  ((0 < to_turn (pc s))%nat ∧ (∃ more, bg_wait_to_sync_sstable_ (wk s) = ts ++ more) ∨
   ∃ more, pc s = Flushing (ts ++ more)).

Lemma step_ready (l : Label) (ts : list Table) (s s' : Sys) :
  ts ≠ [] → (0 < to_turn (pc s))%nat → ready ts s → step l s s' →
  ready ts s' ∧ (to_turn (pc s') + (if is_worker l then 1 else 0) ≤ to_turn (pc s))%nat.
Proof.
  intros Hts Hp [Hr Hq] H. assert (Hb : ∃ more, bg_wait_to_sync_sstable_ (wk s) = ts ++ more).
  { destruct Hq as [[_ Hb]|[more E]]; [done|]. rewrite E in Hp. cbn in Hp. lia. }
  clear Hq. destruct Hb as [more Hb].
  assert (Hne : ∃ t q, bg_wait_to_sync_sstable_ (wk s) = t :: q).
  { rewrite Hb. destruct ts as [|t ts]; [done|]. by eexists _, _. }
  destruct Hne as (t0 & q & Hne). destruct H as [s s' H|s t|s Hn].
  - unfold wstep in H. destruct (pc s) as [| | | | | |rest| |] eqn:Ep; cbn in Hp; try lia;
      injection H as H; subst; cbn [is_worker].
    + unfold check. rewrite Hr, Hne. cbn. split; [|lia]. split; [done|]. left. split; [cbn; lia|]. by exists more.
    + cbn. split; [|lia]. split; [done|]. left. split; [cbn; lia|]. by exists more.
    + cbn. split; [|lia]. split; [done|]. left. split; [cbn; lia|]. by exists more.
    + unfold look_again. rewrite Hne. cbn. split; [|lia]. split; [done|]. left. split; [cbn; lia|].
      by exists more.
    + cbn. split; [|lia]. split; [done|]. right. exists more. cbn. by rewrite Hb.
  - cbn. split; [|lia]. split; [done|]. left. split; [done|]. exists (more ++ [t]).
    cbn. by rewrite Hb, <- app_assoc.
  - cbn. split; [|destruct (pc s); cbn; lia]. split; [done|]. left.
    split; [cbn; destruct (pc s); cbn in *; lia|]. by exists more.
Qed.

Lemma before_ready (ts : list Table) (ls : list Label) (s s' : Sys) :
  before ls s s' → ts ≠ [] → ready ts s →
  ready ts s' ∧ (length (List.filter is_worker ls) + to_turn (pc s') ≤ to_turn (pc s))%nat.
Proof.
  induction 1 as [s|l ls s s1 s2 Hp H _ IH]; intros Hts Hr; [done|].
  destruct (step_ready l ts s s1 Hts Hp Hr H) as [Hr1 Hn1]. destruct (IH Hts Hr1) as [Hr2 Hn2].
  split; [done|]. cbn [List.filter]. destruct (is_worker l); simpl length in *; lia.
Qed.

(** C20: no table is left behind by a thread that waits. A worker started with
    empty queues flushes the tables it is handed in the order they come: at any
    time they are those flushed, those of the running turn and those queued.
    And while a running thread that is at the top of its loop, about to wait,
    waiting, just awake or about to swap the vectors has tables queued, then
    whatever the other threads do, and whichever notification is lost between
    its finding the queue empty and its waiting, the thread is never stuck and
    begins, after at most four steps of its own, a turn with all those tables:
    its wait ends by itself. Nothing is said of a thread that is collecting,
    flushing or merging: its step may fault ([no_completion]). *)
Theorem no_table_left_behind (w : CompWorker R) (e : Env) (s : Sys)
  (Hw : wait_to_sync_sstable_ w = []) (Hb : bg_wait_to_sync_sstable_ w = [])
  (Hr : reachable (start w e) s) :
  added s = flushed s ++ todo (pc s) ++ bg_wait_to_sync_sstable_ (wk s) ∧
  ∀ ls s', isRunning_ (wk s) = true → (0 < to_turn (pc s))%nat →
    bg_wait_to_sync_sstable_ (wk s) ≠ [] → before ls s s' →
    (length (List.filter is_worker ls) ≤ 4)%nat ∧
    (if decide (to_turn (pc s') = 0)%nat
     then ∃ more, pc s' = Flushing (bg_wait_to_sync_sstable_ (wk s) ++ more)
     else ∃ s'', wstep s' = Some (Done s'')).
Proof.
  split.
  { apply (table_reachable_fifo _ s Hr). by split; cbn; rewrite ?Hb. }
  intros ls s' Hrun Hp Hq Hbe. destruct (before_ready _ ls s s' Hbe Hq) as [Hr' Hn].
  { split; [done|]. left. split; [done|]. exists []. by rewrite app_nil_r. }
  split; [destruct (pc s); cbn in *; lia|]. case_decide as Hz.
  - destruct Hr' as [_ [[H _]|H]]; [lia|done].
  - unfold wstep. destruct (pc s'); cbn in Hz; try lia; by eexists.
Qed.

End Loop.
(** ** Witnesses *)
Module Examples.
Export Compactor.Examples.
#[local] Existing Instance IOUring.ListRing.list_ring.
#[local] Existing Instance MemtableView.any_filter.
Definition table : Table := FlushFormat.Examples.table.
Definition flush_turn (w : CompWorker IOUring.ListRing.ring)
  : outcome (CompWorker IOUring.ListRing.ring * Env) :=
  turn (λ _, 3) (λ _, None) (λ _ _, None) (λ _, None) 7 (λ _, false) 0 bloom 5 w env.
Definition wgo (s : @Sys IOUring.ListRing.ring) : @Sys IOUring.ListRing.ring :=
  match wstep (λ _, 3) (λ _, None) (λ _ _, None) (λ _, None) 7 (λ _, false) 0 bloom 5 s with
  | Some (Done s') => s'
  | _ => s
  end.
(** A table comes while the thread is about to wait. *)
Definition waiting : @Sys IOUring.ListRing.ring := add (wgo (start worker env)) table.
Definition swapping : @Sys IOUring.ListRing.ring := wgo (wgo (wgo waiting)).
End Examples.
Import Examples.

Lemma table_turn_is_turn_witness :
  (∃ w e, flush_turn (wk swapping) = Done (w, e)) ∧
  flushed (wgo (wgo (wgo (wgo swapping)))) = [table].
Proof.
  destruct (flush_turn (wk swapping)) as [[w e]|f] eqn:E; [|vm_compute in E; discriminate E].
  split; [by exists w, e|].
  set (s1 := wgo swapping). set (s2 := wgo s1). set (s3 := wgo s2). set (s4 := wgo s3).
  assert (Hd : @during _ IOUring.ListRing.list_ring MemtableView.any_filter (λ _, 3) (λ _, None)
    (λ _ _, None) (λ _, None) 7 (λ _, false) 0 bloom 5 [LWorker; LWorker; LWorker] (swap swapping) s4).
  { do 3 (eapply during_cons; [by vm_compute|eapply step_worker; by vm_compute|]).
    apply during_nil. }
  destruct (@table_turn_is_turn _ IOUring.ListRing.list_ring MemtableView.any_filter (λ _, 3)
    (λ _, None) (λ _ _, None) (λ _, None) 7 (λ _, false) 0 bloom 5 swapping s4
    [LWorker; LWorker; LWorker] w e ltac:(by vm_compute) E Hd) as (_ & _ & [H|(_ & _ & _ & H)]).
  - vm_compute in H. discriminate H.
  - exact H.
Defined.

(** The notification is lost, and the table flushed all the same. *)
Lemma no_table_left_behind_witness :
  added waiting = [table] ∧ pc (wgo (wgo (wgo (wgo (notified waiting))))) = Flushing [table].
Proof.
  set (s := notified waiting).
  assert (Hr : @reachable _ IOUring.ListRing.list_ring MemtableView.any_filter (λ _, 3) (λ _, None)
    (λ _ _, None) (λ _, None) 7 (λ _, false) 0 bloom 5 (start worker env) s).
  { apply rtc_l with (wgo (start worker env)).
    { exists LWorker. apply step_worker. by vm_compute. }
    apply rtc_l with waiting; [exists (LAdd table); apply step_add|].
    apply rtc_once. exists LNotify. apply step_notify. vm_compute. lia. }
  destruct (@no_table_left_behind _ IOUring.ListRing.list_ring MemtableView.any_filter (λ _, 3)
    (λ _, None) (λ _ _, None) (λ _, None) 7 (λ _, false) 0 bloom 5 worker env s
    ltac:(by vm_compute) ltac:(by vm_compute) Hr) as [H1 H2].
  split; [exact H1|].
  assert (Hb : @before _ IOUring.ListRing.list_ring MemtableView.any_filter (λ _, 3) (λ _, None)
    (λ _ _, None) (λ _, None) 7 (λ _, false) 0 bloom 5 [LWorker; LWorker; LWorker; LWorker] s
    (wgo (wgo (wgo (wgo s))))).
  { do 4 (eapply before_cons; [vm_compute; lia|eapply step_worker; by vm_compute|]).
    apply before_nil. }
  destruct (H2 _ _ ltac:(by vm_compute) ltac:(vm_compute; lia) ltac:(by vm_compute) Hb) as [_ H].
  vm_compute in H. destruct H as [more H]. vm_compute. rewrite H. by destruct more.
Defined.

End CompThread.
