(* ===== verification/HandOver.v ===== *)
(** * Handing a table over

    The end of a turn in [TaskWorker::Run] of [src/db/shared_memtable.cpp], where
    a full table is handed to the compactor, put among the read-only tables and
    then expected to have three owners, while the thread of [CompThread] that
    was given the table runs. [SharedMemtable.rotate] takes the number of the
    compactor's references from its interface; here they are counted: the table
    is a position in the order of tables handed over, and the compactor owns it
    from [AddSStable] until its thread clears the vector of the turn that has
    flushed it. *)
From S2P Require Import Prelude Request Crc32 KeyFormat Entry Bloom Memtable KLRUCache SSTable IOUring MemtableView SharedMemtable FlushFormat LevelMerge Compactor CompThread.
Import FlushFormat Compactor.

Module HandOver.

(** Where the worker is: it has a full table; [AddReadOnlyTable] has returned;
    the table is among the read-only ones; the assertion has passed, or not. *)
Inductive Stage : Type :=
  | Full
  | Handed (k : nat)
  | Pushed (k : nat)
  | Passed
  | Failed.

Inductive Label : Type :=
  | HWorker
  | HComp (l : CompThread.Label).

Section HandOver.
Context {R : Type} {L : IOUring.Liburing R} {KF : KeyFilter Bloom.BloomFilter}.
Context (open : bytes → Z) (stat : bytes → option Z) (mmap : Z → Z → option bytes)
  (fstat : Z → option Z) (now : Z) (grows : bytes → bool) (junk_seed : Z)
  (default_bloom : Bloom.BloomFilter) (fuel : nat).

#[local] Abbreviation cstep :=
  (CompThread.step open stat mmap fstat now grows junk_seed default_bloom fuel).
#[local] Abbreviation creachable :=
  (CompThread.reachable open stat mmap fstat now grows junk_seed default_bloom fuel).

Record Sys : Type := mkSys { comp : @CompThread.Sys R; stage : Stage }.

(** The tables that the vectors of the compactor's worker hold. *)
Definition held (c : @CompThread.Sys R) : nat :=
  (length (wait_to_sync_sstable_ (CompThread.wk c)) +
   length (bg_wait_to_sync_sstable_ (CompThread.wk c)))%nat.

(** The owners of the table handed over as number [k], when the worker has it as
    its table and among the read-only ones. *)
Definition use_count (c : @CompThread.Sys R) (k : nat) : nat :=
  (2 + if decide (length (CompThread.added c) - held c ≤ k)%nat then 1 else 0)%nat.

(** [assert (memtable_.use_count () == 3)]. *)
Definition check (c : @CompThread.Sys R) (k : nat) : Stage :=
  if bool_decide (use_count c k = 3)%nat then Passed else Failed.

Definition hand (s : Sys) (t : Table) : Sys :=
  match stage s with
  | Full => mkSys (CompThread.add (comp s) t) (Handed (length (CompThread.added (comp s))))
  | Handed k => mkSys (comp s) (Pushed k)
  | Pushed k => mkSys (comp s) (check (comp s) k)
  | Passed | Failed => s
  end.

Inductive step (t : Table) : Label → Sys → Sys → Prop :=
  | step_hand s : step t HWorker s (hand s t)
  | step_comp s l c : cstep l (comp s) c → step t (HComp l) s (mkSys c (stage s)).

Inductive steps (t : Table) : list Label → Sys → Sys → Prop :=
  | steps_nil s : steps t [] s s
  | steps_cons l ls s s1 s2 : step t l s s1 → steps t ls s1 s2 → steps t (l :: ls) s s2.

(** The steps of the compactor's thread. *)
Definition own (l : Label) : bool :=
  match l with HComp CompThread.LWorker => true | _ => false end.
Definition thread_steps (ls : list Label) : nat := length (List.filter own ls).

(** ** What the vectors hold *)

(** The thread's vector is empty but during a turn, and then it still has what
    the turn has flushed. *)
Record vectors (c : @CompThread.Sys R) : Prop := mkVectors {
  v_fifo : CompThread.fifo c;
  v_wait : match CompThread.pc c with
           | CompThread.Flushing rest =>
               let n := length (wait_to_sync_sstable_ (CompThread.wk c)) in
               (length rest ≤ n ≤ length (CompThread.flushed c) + length rest)%nat
           | _ => True
           end
}.

Lemma added_length (c : @CompThread.Sys R) :
  CompThread.fifo c →
  length (CompThread.added c) =
    (length (CompThread.flushed c) + length (CompThread.todo (CompThread.pc c)) +
     length (bg_wait_to_sync_sstable_ (CompThread.wk c)))%nat.
Proof. intros [H _]. rewrite H, !length_app. lia. Qed.

Lemma step_vectors (l : CompThread.Label) (c c' : @CompThread.Sys R) :
  cstep l c c' → vectors c → vectors c'.
Proof.
  intros H [Hf Hw]. split; [by eapply CompThread.table_step_fifo|].
  destruct H as [c c' H|c t|c Hp].
  - unfold CompThread.wstep in H.
    destruct (CompThread.pc c) as [| | | | | |[|t rest]| |] eqn:Ep; try discriminate H;
      injection H as H; subst; try done.
    + unfold CompThread.check. by destruct (isRunning_ (CompThread.wk c)), (bg_wait_to_sync_sstable_ (CompThread.wk c)).
    + unfold CompThread.look_again. by destruct (bg_wait_to_sync_sstable_ (CompThread.wk c)).
    + by apply bind_done in H as ([w e] & H & [= <-]).
    + cbn. lia.
    + apply bind_done in H as ([w e] & H & [= <-]). cbn in *. rewrite length_app.
      apply CompThread.flush_one_same in H as [_ ->]. cbn. lia.
    + by apply bind_done in H as ([w e] & H & [= <-]).
  - exact Hw.
  - cbn. by destruct (CompThread.pc c).
Qed.

Lemma reachable_vectors (c c' : @CompThread.Sys R) : creachable c c' → vectors c → vectors c'.
Proof. induction 1 as [|c c1 c2 [l H] _ IH]; [done|]. eauto using step_vectors. Qed.

(** How far a table handed over has come, at most: still queued, still to be
    flushed, still in a vector. *)
Definition not_beyond (j : nat) (c : @CompThread.Sys R) (k : nat) : Prop :=
  match j with
  | O => length (CompThread.added c) - length (bg_wait_to_sync_sstable_ (CompThread.wk c)) ≤ k
  | 1 => length (CompThread.flushed c) ≤ k
  | _ => length (CompThread.added c) - held c ≤ k
  end%nat.

Lemma not_beyond_le (j : nat) (c : @CompThread.Sys R) (k : nat) :
  vectors c → not_beyond j c k → not_beyond (S j) c k.
Proof.
  intros [Hf Hw] H. pose proof (added_length c Hf) as Hl. destruct j as [|[|j]]; cbn in *; [lia| |done].
  unfold held. pose proof (CompThread.fifo_idle c Hf) as Hi.
  destruct (CompThread.pc c); cbn in *; try (rewrite Hi by done; cbn; lia). lia.
Qed.

(** What a step of the thread changes. *)
Inductive counts (c c' : @CompThread.Sys R) : Prop :=
  | counts_same :
      length (CompThread.flushed c') = length (CompThread.flushed c) → held c' = held c → counts c c'
  | counts_flush t rest :
      CompThread.pc c = CompThread.Flushing (t :: rest) →
      length (CompThread.flushed c') = S (length (CompThread.flushed c)) → held c' = held c → counts c c'
  | counts_clear :
      CompThread.pc c = CompThread.Flushing [] →
      length (CompThread.flushed c') = length (CompThread.flushed c) →
      held c' = length (bg_wait_to_sync_sstable_ (CompThread.wk c)) → counts c c'.

Lemma same_held (w w' : CompWorker R) (c c' : @CompThread.Sys R) :
  CompThread.same_tables w w' → w = CompThread.wk c → w' = CompThread.wk c' → held c' = held c.
Proof. intros [E1 E2] -> ->. unfold held. by rewrite E1, E2. Qed.

Lemma wstep_counts (c c' : @CompThread.Sys R) :
  CompThread.wstep open stat mmap fstat now grows junk_seed default_bloom fuel c = Some (Done c') →
  CompThread.added c' = CompThread.added c ∧ counts c c'.
Proof.
  intros H. unfold CompThread.wstep in H.
  destruct (CompThread.pc c) as [| | | | | |[|t rest]| |] eqn:Ep; try discriminate H;
    injection H as H; subst.
  - unfold CompThread.check.
    by destruct (isRunning_ (CompThread.wk c)), (bg_wait_to_sync_sstable_ (CompThread.wk c)); (split; [|apply counts_same]).
  - by split; [|apply counts_same].
  - by split; [|apply counts_same].
  - unfold CompThread.look_again.
    by destruct (bg_wait_to_sync_sstable_ (CompThread.wk c)); (split; [|apply counts_same]).
  - apply bind_done in H as ([w e] & H & [= <-]). apply CompThread.collect_same in H.
    split; [done|]. apply counts_same; [done|]. by eapply same_held.
  - split; [done|]. apply counts_same; [done|]. unfold held. cbn. lia.
  - split; [done|]. apply counts_clear; done.
  - apply bind_done in H as ([w e] & H & [= <-]). apply CompThread.flush_one_same in H.
    split; [done|]. eapply counts_flush; [done| |by eapply same_held]. cbn. rewrite length_app. cbn. lia.
  - apply bind_done in H as ([w e] & H & [= <-]). apply CompThread.merge_all_same in H.
    split; [done|]. apply counts_same; [done|]. by eapply same_held.
Qed.

(** A step of the thread takes it one stage further. *)
Lemma wstep_beyond (j : nat) (c c' : @CompThread.Sys R) (k : nat) :
  vectors c →
  CompThread.wstep open stat mmap fstat now grows junk_seed default_bloom fuel c = Some (Done c') →
  (j ≤ 1)%nat → not_beyond j c k → not_beyond (S j) c' k.
Proof.
  intros Hv H Hj Hb. destruct (wstep_counts c c' H) as [Ea Hc].
  pose proof (added_length c (v_fifo c Hv)) as Hl. destruct j as [|[|j]]; [| |lia].
  - cbn in Hb. destruct Hc as [Ef Eh|t rest Ep Ef Eh|Ep Ef Eh]; cbn; rewrite Ef;
      try rewrite Ep in Hl; cbn in Hl; lia.
  - pose proof (not_beyond_le 1 c k Hv Hb) as Hb'. cbn in Hb, Hb'.
    destruct Hc as [Ef Eh|t rest Ep Ef Eh|Ep Ef Eh]; cbn; rewrite Ea, Eh; [done|done|].
    rewrite Ep in Hl. cbn in Hl. lia.
Qed.

(** The other threads do not move it. *)
Lemma step_beyond (j : nat) (l : CompThread.Label) (c c' : @CompThread.Sys R) (k : nat) :
  vectors c → cstep l c c' → (j + (if own (HComp l) then 1 else 0) ≤ 2)%nat →
  not_beyond j c k → not_beyond (j + if own (HComp l) then 1 else 0) c' k.
Proof.
  intros Hv H Hj Hb. destruct H as [c c' H|c t|c Hp]; cbn [own] in *.
  - rewrite Nat.add_1_r. eapply wstep_beyond; [done|done|lia|done].
  - rewrite Nat.add_0_r. destruct j as [|[|j]]; cbn in *; unfold held in *; cbn; rewrite ?length_app; cbn; lia.
  - rewrite Nat.add_0_r. by destruct j as [|[|j]].
Qed.

(** ** The race *)

(** The table that a stage is about, its number. *)
Definition number (st : Stage) : option nat :=
  match st with Handed k | Pushed k => Some k | _ => None end.

Lemma hand_number (s : Sys) (t : Table) (k : nat) :
  number (stage s) = Some k →
  comp (hand s t) = comp s ∧ (number (stage (hand s t)) = Some k ∨
    stage (hand s t) = Passed ∨ stage (hand s t) = Failed).
Proof.
  unfold hand. destruct (stage s); try done; intros [= ->]; cbn; (split; [done|]); [by left|].
  right. unfold check. destruct (bool_decide _); auto.
Qed.

Lemma steps_over (t : Table) (ls : list Label) (s s' : Sys) :
  steps t ls s s' → stage s = Passed ∨ stage s = Failed → number (stage s') = None.
Proof.
  induction 1 as [s|l ls s s1 s2 Hs _ IH]; intros Hd; [by destruct Hd as [-> | ->]|].
  apply IH. destruct Hs as [s|s l c H]; [|done]. unfold hand. by destruct Hd as [E|E]; rewrite E; auto.
Qed.

Lemma steps_number (t : Table) (ls : list Label) (s s' : Sys) :
  steps t ls s s' → ∀ k k', vectors (comp s) → number (stage s) = Some k →
  number (stage s') = Some k' → k' = k ∧ vectors (comp s').
Proof.
  induction 1 as [s|l ls s s1 s2 Hs Hr IH]; intros k k' Hv Hk Hk'.
  { rewrite Hk in Hk'. by injection Hk' as <-. }
  destruct Hs as [s|s l c H].
  - destruct (hand_number s t k Hk) as [Ec [Hk1|Hd]]; [by apply IH; rewrite ?Ec|].
    by rewrite (steps_over t ls _ _ Hr Hd) in Hk'.
  - apply IH; [by eapply step_vectors|done|done].
Qed.

(** What becomes of a table between its being handed over and the assertion. *)
Lemma steps_beyond (t : Table) (ls : list Label) (s s' : Sys) :
  steps t ls s s' → ∀ j k k', vectors (comp s) → number (stage s) = Some k →
  number (stage s') = Some k' → (j + thread_steps ls ≤ 2)%nat → not_beyond j (comp s) k →
  not_beyond (j + thread_steps ls) (comp s') k.
Proof.
  induction 1 as [s|l ls s s1 s2 Hs Hr IH]; intros j k k' Hv Hk Hk' Hj Hb.
  { by rewrite Nat.add_0_r. }
  destruct Hs as [s|s l c H].
  - destruct (hand_number s t k Hk) as [Ec [Hk1|Hd]]; [by apply (IH j k k'); rewrite ?Ec|].
    by rewrite (steps_over t ls _ _ Hr Hd) in Hk'.
  - assert (Hn : thread_steps (HComp l :: ls) = ((if own (HComp l) then 1 else 0) + thread_steps ls)%nat)
      by (unfold thread_steps; cbn [List.filter]; by destruct (own (HComp l))).
    rewrite Hn, Nat.add_assoc in *.
    apply (IH _ k k'); [by eapply step_vectors|done|done|done|]. eapply step_beyond; try done. lia.
Qed.

(** C23: the assertion on the owners of a table handed over is a race. Take a
    worker of the compactor in any state that its thread reaches, and a table
    handed to it and put among the read-only ones, with any steps of the
    compactor's thread and of others that hand it tables in between. While the
    thread has made at most two steps of its own, the compactor still holds the
    table and the assertion of three owners passes. But when the thread has
    flushed the table and left that turn, the table has two owners and the
    assertion fails. *)
Theorem handover_races (w : CompWorker R) (e : Env) (c : @CompThread.Sys R) (t : Table)
  (ls : list Label) (s : Sys) (k : nat)
  (Hw : wait_to_sync_sstable_ w = []) (Hb : bg_wait_to_sync_sstable_ w = [])
  (Hr : creachable (CompThread.start w e) c)
  (Hs : steps t ls (hand (mkSys c Full) t) s) (Hk : stage s = Pushed k) :
  k = length (CompThread.added c) ∧
  ((thread_steps ls ≤ 2)%nat → stage (hand s t) = Passed) ∧
  ((k < length (CompThread.flushed (comp s)))%nat →
   (∀ rest, CompThread.pc (comp s) ≠ CompThread.Flushing rest) → stage (hand s t) = Failed).
Proof.
  assert (Hv : vectors c).
  { eapply reachable_vectors; [exact Hr|]. split; [by split; cbn; rewrite ?Hb|done]. }
  assert (Hv0 : vectors (comp (hand (mkSys c Full) t))).
  { eapply step_vectors; [|exact Hv]. apply CompThread.step_add. }
  assert (Hn : number (stage s) = Some k) by (by rewrite Hk).
  destruct (steps_number t ls _ s Hs _ k Hv0 eq_refl Hn) as [-> Hvs]. split; [done|].
  set (k := length (CompThread.added c)) in *. unfold hand. rewrite Hk. cbn [stage]. unfold check, use_count.
  split.
  - intros Hle. pose proof (steps_beyond t ls _ s Hs 0 _ _ Hv0 eq_refl Hn Hle) as Hbe.
    rewrite decide_True, bool_decide_true; [done|done|].
    assert (H0 : not_beyond 0 (comp (hand (mkSys c Full) t)) k).
    { cbn. rewrite !length_app. cbn. unfold k. lia. }
    specialize (Hbe H0). cbn [Nat.add] in Hbe.
    destruct (thread_steps ls) as [|[|[|n]]]; [| |exact Hbe|lia].
    + by apply (not_beyond_le 1), (not_beyond_le 0).
    + by apply (not_beyond_le 1).
  - intros Hlt Hp. rewrite decide_False, bool_decide_false; [done|lia|].
    pose proof (added_length (comp s) (v_fifo _ Hvs)) as Hl.
    pose proof (CompThread.fifo_idle _ (v_fifo _ Hvs)) as Hi. unfold held.
    destruct (CompThread.pc (comp s)) eqn:Ep; cbn in *; try (by destruct (Hp rest));
      rewrite Hi by done; cbn; lia.
Qed.
End HandOver.
(** ** Witness *)
Module Examples.
Import CompThread.Examples.
#[local] Existing Instance IOUring.ListRing.list_ring.
#[local] Existing Instance MemtableView.any_filter.
Definition Thread : Type := @CompThread.Sys IOUring.ListRing.ring.

(** The thread takes the table, flushes it and clears its vector before the
    worker goes on. *)
Definition idle : Thread := CompThread.start worker env.
Definition handed : @Sys IOUring.ListRing.ring := hand (mkSys idle Full) table.
Definition done_with : Thread := wgo (wgo (wgo (wgo (wgo (comp handed))))).
Definition pushed : @Sys IOUring.ListRing.ring := hand (mkSys done_with (Handed 0)) table.
Definition labels : list Label := repeat (HComp CompThread.LWorker) 5 ++ [HWorker].
End Examples.
Import Examples.

Lemma handover_races_witness :
  stage pushed = Pushed 0 ∧ stage (hand pushed CompThread.Examples.table) = Failed.
Proof.
  split; [reflexivity|].
  assert (Hs : @steps _ IOUring.ListRing.list_ring MemtableView.any_filter (λ _, 3) (λ _, None)
    (λ _ _, None) (λ _, None) 7 (λ _, false) 0 Compactor.Examples.bloom 5 CompThread.Examples.table
    labels handed pushed).
  { do 5 (eapply steps_cons; [apply step_comp, CompThread.step_worker; by vm_compute|]).
    eapply steps_cons; [apply step_hand|apply steps_nil]. }
  destruct (@handover_races _ IOUring.ListRing.list_ring MemtableView.any_filter (λ _, 3) (λ _, None)
    (λ _ _, None) (λ _, None) 7 (λ _, false) 0 Compactor.Examples.bloom 5
    Compactor.Examples.worker Compactor.Examples.env idle CompThread.Examples.table labels pushed 0
    ltac:(by vm_compute) ltac:(by vm_compute) (rtc_refl _ _) Hs eq_refl) as (_ & _ & H).
  apply H; [by vm_compute; lia|]. intros rest Hp. vm_compute in Hp. discriminate Hp.
Defined.

End HandOver.
