(* ===== verification/ExportDB.v ===== *)
(** * The database

    [src/db/exportdb.{hpp,cpp}]: the facade that owns the write-ahead log, the
    sharded memtable, the compactor and the view manager, and logs every write
    before it is queued. The components are those of [Files], [SharedMemtable],
    [Compactor] and [MemtableView]; the references they hold to each other are
    the state that is passed along. *)
From S2P Require Import Prelude Request Crc32 KeyFormat Entry XXHash64 CityHash FarmHash Bloom Memtable KLRUCache SSTable IOUring Files MemtableView SharedMemtable FlushFormat LevelMerge Compactor.
Import Status Request WalFormat.

Module ExportDB.

(** [std::atomic<uint64_t>], counting up. *)
Definition WALSequenceNumber : Type := Z.
Definition next (n : WALSequenceNumber) : WALSequenceNumber := u64 (n + 1).
Definition getValue (n : WALSequenceNumber) : Z := n.

Section DB.
Context {T R : Type} {FO : FileOps T} {L : IOUring.Liburing R} {KF : KeyFilter Bloom.BloomFilter}.

Abbreviation Shared := (SharedMemtable.SharedMemtable Bloom.BloomFilter).

(** The members [Init] makes, and the global configuration it stores. *)
Record DB : Type := mkDB {
  walLog_ : WalWriter.WalWriter T;
  global_number_ : WALSequenceNumber;
  shared_memtable_ : Shared;
  comp_actor_ : Compactor.Compactor R;
  memviewtable_manager_ : MemtableView.MemTableViewManager;
  g_dbconfig : SharedMemtable.DBConfig.DBConfig
}.

(** [open] is [::open] on the log's path; [junk] are the indeterminate counters
    of the caches. The log's status is only looked at to print an error. *)
Definition NewDBimp (open : bytes → option T) (junk : nat → Z * Z)
    (cfg : SharedMemtable.DBConfig.DBConfig) (number : WALSequenceNumber) : outcome DB :=
  '(_, wal, _) ← WalWriter.Init open WalWriter.init (SharedMemtable.DBConfig.db_path cfg)
                   (str "ShaunDB_WAL.log") Status.init;
  let views := MemtableView.Manager_Init (Z.to_nat (SharedMemtable.DBConfig.memtable_N cfg)) in
  let comp := Compactor.Init cfg in
  shared ← SharedMemtable.SharedMemtable.Init cfg false junk;
  let shared := SharedMemtable.SharedMemtable.SetCompactorRef shared in
  let shared := SharedMemtable.SharedMemtable.SetMemTableViewRef shared in
  shared ← SharedMemtable.SharedMemtable.Run shared;
  comp ← Compactor.Run comp;
  Done (mkDB wal number shared comp views cfg).

(** [access_ok] is whether [::access] finds the directory; both branches on it
    are empty. *)
Definition isEmptyDir (access_ok : bool) : bool := negb access_ok.

Definition Init (open : bytes → option T) (junk : nat → Z * Z) (access_ok : bool)
    (cfg : SharedMemtable.DBConfig.DBConfig) : outcome (bool * DB) :=
  let _ := isEmptyDir access_ok in
  d ← NewDBimp open junk cfg 0;
  Done (true, d).

(** [addr n] is the address of the log string of record [n]. *)
Context (std_hash : bytes → Z) (addr : Z → Z).

Definition Set_ (d : DB) (c : SetContext) : outcome DB :=
  let number := getValue (global_number_ d) in
  simple_log ← SetContextWalLogFormat (addr number) c number;
  '(_, wal) ← WalWriter.AddRecord (walLog_ d) simple_log;
  shared ← SharedMemtable.SharedMemtable.SM_Set std_hash (shared_memtable_ d) c;
  Done (mkDB wal (next (global_number_ d)) shared (comp_actor_ d)
          (memviewtable_manager_ d) (g_dbconfig d)).

Definition Delete (d : DB) (c : DeleteContext) : outcome DB :=
  let number := getValue (global_number_ d) in
  simple_log ← DeleteContextWalLogFormat (addr number) c number;
  '(_, wal) ← WalWriter.AddRecord (walLog_ d) simple_log;
  shared ← SharedMemtable.SharedMemtable.SM_Delete std_hash (shared_memtable_ d) c;
  Done (mkDB wal (next (global_number_ d)) shared (comp_actor_ d)
          (memviewtable_manager_ d) (g_dbconfig d)).

Definition with_shared (d : DB) (s : Shared) : DB :=
  mkDB (walLog_ d) (global_number_ d) s (comp_actor_ d) (memviewtable_manager_ d)
    (g_dbconfig d).

Definition Get (d : DB) (g : GetContext) : outcome DB :=
  shared ← SharedMemtable.SharedMemtable.SM_Get std_hash (shared_memtable_ d) g;
  Done (with_shared d shared).

Definition Snapshot (d : DB) (s : SharedMemtable.SharedMemtable.SnapShotContext)
  : outcome DB :=
  snap ← SnapShot_Init (SharedMemtable.SharedMemtable.snapshot s)
           (getValue (global_number_ d))
           (Z.to_nat (SharedMemtable.DBConfig.memtable_N (g_dbconfig d)));
  shared ← SharedMemtable.SharedMemtable.SM_SnapShot (shared_memtable_ d)
             (SharedMemtable.SharedMemtable.mkSnapCtx snap
                (SharedMemtable.SharedMemtable.snap_code s));
  Done (with_shared d shared).

(** ** Writes are logged before they are queued *)

Fixpoint Sets (d : DB) (cs : list SetContext) : outcome DB :=
  match cs with
  | [] => Done d
  | c :: cs' => d ← Set_ d c; Sets d cs'
  end.

(** The record of one Set and those of a sequence that starts at [n]. *)
Definition record (n : Z) (c : SetContext) : bytes :=
  set_record (Crc32.Value (addr n + 4) (set_covered (set_key c) (set_value c))) n
    (set_key c) (set_value c).

Fixpoint records (n : Z) (cs : list SetContext) : bytes :=
  match cs with
  | [] => []
  | c :: cs' => record n c ++ records (next n) cs'
  end.

Lemma record_length (n : Z) (c : SetContext) :
  zlen (record n c) = 25 + zlen (set_key c) + zlen (set_value c).
Proof. unfold zlen, record, set_record. rewrite !length_app. simpl. lia. Qed.

(** What the records of a sequence take. *)
Definition log_size (cs : list SetContext) : Z :=
  foldr (λ c s, 25 + zlen (set_key c) + zlen (set_value c) + s) 0 cs.

Lemma log_size_nonneg (cs : list SetContext) : 0 ≤ log_size cs.
Proof.
  induction cs as [|c cs IH]; [done|]. cbn [log_size foldr]. fold (log_size cs).
  unfold zlen. lia.
Qed.

(** A context whose number was never assigned cannot be stored. *)
Lemma handle_set_unnumbered (w : SharedMemtable.SharedMemtable.TaskWorker Bloom.BloomFilter)
    (c : SetContext) :
  Entry.small (set_key c) → Entry.small (set_value c) → set_number c = None →
  SharedMemtable.SharedMemtable.handle_set w c = Fault Uninit.
Proof.
  intros Hk Hv Hn. unfold SharedMemtable.SharedMemtable.handle_set, Memtable.Set_,
    Memtable.set_entry. rewrite Hn.
  destruct (Memtable.varint32_zlen _ Hk) as (Uk & Bk & Lk).
  destruct (Memtable.varint32_zlen _ Hv) as (Uv & Bv & Lv).
  rewrite (Memtable.fmt32_done (Varint.varintLength (zlen (set_key c)))),
    (Memtable.fmt32_done (Varint.varintLength (zlen (set_value c)))),
    Memtable.fmt64_done by lia.
  rewrite !bind_Done_l. cbv zeta. rewrite Uk.
  match goal with |- context [Varint.encodeVarint32 ?m 0 _] => change m with ([] ++ m) end.
  rewrite Memtable.encodeVarint32_at by (done || rewrite length_spaces; lia). done.
Qed.

Context {LW : FileLaws T}.

Lemma Set_logged (M : Z) (d : DB) (f : T) (c : SetContext) :
  never_short → WalWriter.ring M f (walLog_ d) →
  WalWriter.wal_log_size_ (walLog_ d) + M ≤ 2 ^ 32 →
  SharedMemtable.SharedMemtable.shards_ok (shared_memtable_ d) →
  log_size [c] ≤ M →
  WalWriter.current_log_size_ (walLog_ d) + log_size [c] < WalWriter.wal_log_size_ (walLog_ d) →
  ∃ d' f', Set_ d c = Done d' ∧ WalWriter.ring M f' (walLog_ d') ∧
    WalWriter.wal_log_size_ (walLog_ d') = WalWriter.wal_log_size_ (walLog_ d) ∧
    WalWriter.current_log_size_ (walLog_ d') =
      WalWriter.current_log_size_ (walLog_ d) + log_size [c] ∧
    content f' = overwrite (content f) (pos f) (record (global_number_ d) c) ∧
    pos f' = (pos f + length (record (global_number_ d) c))%nat ∧
    global_number_ d' = next (global_number_ d) ∧
    SharedMemtable.SharedMemtable.dispatch std_hash (shared_memtable_ d)
      (SharedMemtable.SharedMemtable.TSet c) = Done (shared_memtable_ d') ∧
    SharedMemtable.SharedMemtable.shards_ok (shared_memtable_ d').
Proof.
  intros Hns Hr Hlim Hsh HM Hroom.
  assert (Hl : zlen (record (global_number_ d) c) = log_size [c])
    by (rewrite record_length; cbn; lia).
  destruct (WalWriter.AddRecord_ring M f (walLog_ d) (record (global_number_ d) c))
    as (w' & f' & p & E & Hr' & Hs & Hn & Hp & Hc & Hpos & _); [done|done|lia|done|].
  rewrite (proj2 (Z.leb_gt _ _)) in Hn, Hp by lia. subst p.
  destruct (SharedMemtable.SharedMemtable.dispatch_step std_hash (shared_memtable_ d)
    (SharedMemtable.SharedMemtable.TSet c) Hsh) as (s' & Es & Hs' & _).
  unfold Set_, getValue. rewrite SetContextWalLogFormat_eq, bind_Done_l.
  fold (record (global_number_ d) c). rewrite E. cbn [mbind outcome_bind].
  cbn [SharedMemtable.SharedMemtable.dispatch] in Es. rewrite Es. cbn [mbind outcome_bind].
  eexists _, f'. split; [reflexivity|]. cbn [walLog_ global_number_ shared_memtable_].
  split; [exact Hr'|]. split; [exact Hs|]. split; [by rewrite <- Hl|by split_and!].
Qed.

(** C5: writes are logged in order before they are queued, and then cannot be
    stored. On a database whose log is open and has room, any sequence of Sets
    is accepted; the log file then holds, from the position it had, the Set
    records of the sequence one behind the other with consecutive sequence
    numbers, the counter has advanced by their number, and each worker's queue
    has grown by its own Sets in order. But the sequence number is written to
    the log only: a context as the server makes it has no number of its own, so
    the worker that takes it from its queue reads an indeterminate one. *)
Theorem Sets_logged (cs : list SetContext) (M : Z) (d : DB) (f : T)
  (Hns : never_short) (Hr : WalWriter.ring M f (walLog_ d))
  (Hlim : WalWriter.wal_log_size_ (walLog_ d) + M ≤ 2 ^ 32)
  (Hsh : SharedMemtable.SharedMemtable.shards_ok (shared_memtable_ d))
  (HM : Forall (λ c, log_size [c] ≤ M) cs)
  (Hroom : WalWriter.current_log_size_ (walLog_ d) + log_size cs <
           WalWriter.wal_log_size_ (walLog_ d)) :
  (∃ d' f', Sets d cs = Done d' ∧ WalLog.fd_ (WalWriter.wal_file_ (walLog_ d')) = Some f' ∧
    content f' = overwrite (content f) (pos f) (records (global_number_ d) cs) ∧
    global_number_ d' = Nat.iter (length cs) next (global_number_ d) ∧
    SharedMemtable.SharedMemtable.dispatch_all std_hash (shared_memtable_ d)
      (SharedMemtable.SharedMemtable.TSet <$> cs) = Done (shared_memtable_ d')) ∧
  Forall (λ c, set_number c = None → ∀ w : SharedMemtable.SharedMemtable.TaskWorker _,
            SharedMemtable.SharedMemtable.handle_set w c = Fault Uninit) cs.
Proof.
  split.
  - revert d f Hr Hlim Hsh Hroom; induction cs as [|c cs IH]; intros d f Hr Hlim Hsh Hroom.
    + exists d, f. destruct Hr as (Hf & _ & _ & Hle). split_and!; try done.
      symmetry. by apply overwrite_nil.
    + apply Forall_cons in HM as [Hc HM]. cbn [log_size foldr] in Hroom.
      fold (log_size cs) in Hroom. pose proof (log_size_nonneg cs).
      destruct (Set_logged M d f c) as
        (d1 & f1 & E1 & Hr1 & Hs1 & Hn1 & Hc1 & Hp1 & Hg1 & Hq1 & Hsh1);
        [done|done|done|done|done|cbn; lia|].
      cbn [log_size foldr] in Hn1.
      destruct (IH HM d1 f1 Hr1 ltac:(by rewrite Hs1) Hsh1 ltac:(rewrite Hn1, Hs1; lia))
        as (d' & f' & E' & Hfd & Hc' & Hg' & Hq').
      exists d', f'. cbn [Sets]. rewrite E1, bind_Done_l. split; [exact E'|]. split; [done|].
      cbn [fmap list_fmap SharedMemtable.SharedMemtable.dispatch_all records length].
      rewrite Hq1, bind_Done_l. split; [|split; [|exact Hq']].
      * rewrite Hc', Hc1, Hp1, Hg1. destruct Hr as (_ & _ & _ & Hle).
        by rewrite overwrite_app.
      * rewrite Hg', Hg1, <- Nat.iter_succ_r. done.
  - eapply Forall_impl; [exact HM|]. intros c Hc Hn w.
    destruct Hr as (_ & Hcur & _). cbn in Hc.
    apply handle_set_unnumbered; [| |done]; unfold Entry.small;
      pose proof (Entry.zlen_nonneg (set_key c)); pose proof (Entry.zlen_nonneg (set_value c)); lia.
Qed.

End DB.
Arguments DB T R : clear implicits.

Module Examples.
Definition wal : WalWriter.WalWriter RamFile.file :=
  WalWriter.mkWal 0 1000 (WalLog.mkLog (Some (RamFile.mkFile [] 0)) (str "d/w") (str "w") (str "d")).
Definition cfg : SharedMemtable.DBConfig.DBConfig := SharedMemtable.DBConfig.default_DBConfig.
Definition db : DB RamFile.file IOUring.ListRing.ring :=
  mkDB wal 5
    (SharedMemtable.SharedMemtable.mkShared 0 1
       [@SharedMemtable.SharedMemtable.new_worker _ MemtableView.any_filter cfg true (0, 0) 0] true)
    (Compactor.Init cfg) (MemtableView.Manager_Init 1) cfg.
Definition sets : list SetContext := [new_SetContext (str "k") (str "v")].
End Examples.
Import Examples.

Lemma Sets_logged_witness :
  never_short (T := RamFile.file) ∧
  WalWriter.ring 100 (RamFile.mkFile [] 0) (walLog_ db) ∧
  SharedMemtable.SharedMemtable.shards_ok (shared_memtable_ db) ∧
  Forall (λ c, log_size [c] ≤ 100) sets ∧
  (∃ d' f', Sets (λ _, 0) (λ _, 0) db sets = Done d' ∧
     WalLog.fd_ (WalWriter.wal_file_ (walLog_ d')) = Some f' ∧
     content f' = records (λ _, 0) 5 sets).
Proof.
  assert (H1 : never_short (T := RamFile.file)) by exact RamFile.ram_never_short.
  assert (H2 : WalWriter.ring 100 (RamFile.mkFile [] 0) (walLog_ db))
    by (split_and!; (reflexivity || (simpl; lia))).
  assert (H3 : SharedMemtable.SharedMemtable.shards_ok (shared_memtable_ db))
    by (split; reflexivity).
  assert (H4 : Forall (λ c, log_size [c] ≤ 100) sets) by (constructor; [by vm_compute|constructor]).
  split; [exact H1|]. split; [exact H2|]. split; [exact H3|]. split; [exact H4|].
  destruct (proj1 (Sets_logged (T := RamFile.file) (R := IOUring.ListRing.ring)
    (KF := MemtableView.any_filter) (λ _, 0) (λ _, 0)
    sets 100 db (RamFile.mkFile [] 0) H1 H2 ltac:(by vm_compute) H3 H4 ltac:(by vm_compute)))
    as (d' & f' & E & Hf & Hc & _).
  exists d', f'. split; [exact E|]. split; [exact Hf|]. rewrite Hc.
  change (overwrite [] 0 (records (λ _, 0) 5 sets) = records (λ _, 0) 5 sets).
  rewrite (overwrite_at [] []) by reflexivity. rewrite drop_nil. apply app_nil_r.
Defined.

End ExportDB.
