(* ===== verification/Redis.v ===== *)
(** * The Redis protocol parser

    [src/server/redis_protocol.{hpp,cpp}]: splitting a request into string
    views and checking the result. A view is kept as the code keeps it, as a
    position and a 64-bit length into the caller's buffer, and only read when
    its characters are. The loop of [parseRedisProtocol] runs on fuel; running
    out of it is [NoReturn]. *)
From S2P Require Import Prelude.

Module Redis.

Definition kErrorUnknowCommand : bytes := str "(error) ERR unknow command" ++ [10].
Definition kPingStr : bytes := str "PING".
Definition kPongStr : bytes := str "+PONG".
Definition kOKStr : bytes := str "+OK".
Definition kSetStr : bytes := str "SET".
Definition kGetStr : bytes := str "GET".
Definition kErrorStr : bytes := str "Error".
Definition crlf : bytes := [13; 10].
Definition kCommandDocs : bytes :=
  str "*2" ++ crlf ++ str "$7" ++ crlf ++ str "COMMAND" ++ crlf ++
  str "$4" ++ crlf ++ str "DOCS" ++ crlf.
Definition kCommandDocs_2 : bytes := str "*1" ++ crlf ++ str "$7" ++ crlf ++ str "COMMAND" ++ crlf.
Definition kOKReply : bytes := kOKStr ++ crlf.

(** A std::string_view: of a constant, or of [len] bytes of the request buffer
    from position [off]. *)
Inductive string_view : Type :=
  | Lit (s : bytes)
  | Sl (off len : Z).

#[export] Instance string_view_eq_dec : EqDecision string_view.
Proof. solve_decision. Defined.

(** The characters of a view of [data]. *)
Definition resolve (data : bytes) (v : string_view) : outcome bytes :=
  match v with
  | Lit s => Done s
  | Sl off len =>
      if decide (0 ≤ off ∧ off + len ≤ zlen data)
      then view data (Z.to_nat off) (Z.to_nat len) else Fault OutOfBounds
  end.

(** [int] arithmetic: a result out of range is undefined. *)
Definition int_add (a b : Z) : outcome Z :=
  if decide (- 2 ^ 31 ≤ a + b < 2 ^ 31) then Done (a + b) else Fault Overflow.

(** The first line end of [s], whose first character has index [p]. *)
Fixpoint crlf_from (p : Z) (s : bytes) : option Z :=
  match s with
  | [] => None
  | a :: s' =>
      match s' with
      | b :: _ => if (a =? 13) && (b =? 10) then Some p else crlf_from (p + 1) s'
      | [] => None
      end
  end.

(** [arg_view.find(crlf, i)]. *)
Definition find_crlf (data : bytes) (size i : Z) : option Z :=
  crlf_from i (drop (Z.to_nat i) (take (Z.to_nat size) data)).

(** The digits at the front of [s]. *)
Fixpoint digits (s : bytes) : bytes :=
  match s with
  | d :: s' => if decide (is_digit d) then d :: digits s' else []
  | [] => []
  end.

(** [std::from_chars] into an [int] that holds 0: a minus sign and digits, or
    digits; nothing is stored where there are no digits or the number does not
    fit. *)
Definition from_chars (s : bytes) : Z :=
  let in_int x := if decide (- 2 ^ 31 ≤ x < 2 ^ 31) then x else 0 in
  match s with
  | 45 :: s' => in_int (- num 0 (digits s'))
  | _ => in_int (num 0 (digits s))
  end.

(** One turn of the loop, without its increment: [Go i result] or the early
    return. *)
Inductive turn : Type :=
  | Go (i : Z) (result : list string_view)
  | Return (result : list string_view).

(** The cases of simple strings, errors and integers. *)
Definition line (data : bytes) (size i : Z) (result : list string_view) : outcome turn :=
  match find_crlf data size i with
  | None => Done (Return (result ++ [Lit kErrorStr]))
  | Some index =>
      Done (Go (to_int (index + 1)) (result ++ [Sl (i + 1) (u64 (index - i))]))
  end.

Definition bulk (data : bytes) (size i : Z) (result : list string_view) : outcome turn :=
  match find_crlf data size i with
  | None => Done (Return (result ++ [Lit kErrorStr]))
  | Some index =>
      value ← resolve data (Sl (i + 1) (index - i));
      let number := from_chars value in
      let i := to_int index in
      let result := result ++ [Sl (i + 2) (u64 number)] in
      i ← int_add i number;
      Done (Go i result)
  end.

Definition array (data : bytes) (size i : Z) (result : list string_view) : outcome turn :=
  match find_crlf data size 0 with
  | None => Done (Return (result ++ [Lit kErrorStr]))
  | Some index =>
      Done (Go (to_int (index + 1)) (result ++ [Sl (i + 1) (u64 (index - i - 1))]))
  end.

Definition body (data : bytes) (size i : Z) (result : list string_view) : outcome turn :=
  if decide (i < 0) then Fault OutOfBounds else
  c ← rd data (Z.to_nat i);
  if (c =? 43) || (c =? 45) || (c =? 58) then line data size i result
  else if c =? 36 then bulk data size i result
  else if c =? 42 then array data size i result
  else Done (Go i result).

Fixpoint parse_loop (fuel : nat) (data : bytes) (size i : Z) (result : list string_view)
  : outcome (list string_view) :=
  match fuel with
  | O => Fault NoReturn
  | S fuel' =>
      if u64 i <? size then
        t ← body data size i result;
        match t with
        | Return result => Done result
        | Go i result => i ← int_add i 1; parse_loop fuel' data size i result
        end
      else Done result
  end.

Definition parseRedisProtocol (fuel : nat) (data : bytes) (size : Z)
  : outcome (list string_view) :=
  arg_view ← resolve data (Sl 0 size);
  if decide (arg_view = kPingStr) then Done [Lit kPingStr]
  else parse_loop fuel data size 0 [].

(** [first_view[0]] of an empty view is outside it. *)
Definition check (data : bytes) (vec_view : list string_view)
  : outcome (bool * list string_view) :=
  match vec_view with
  | [] => Done (false, [])
  | first :: rest =>
      first_view ← resolve data first;
      if decide (first_view = kPingStr) then Done (true, vec_view) else
      c ← rd first_view 0;
      if decide (is_digit c) then
        let command_n := from_chars first_view in
        if u64 command_n =? zlen vec_view then Done (true, rest) else Done (false, vec_view)
      else Done (true, vec_view)
  end.

(** ** Requests as clients send them *)

Definition bulk_of (a : bytes) : bytes := 36 :: dec (zlen a) ++ crlf ++ a ++ crlf.
Definition bulks (args : list bytes) : bytes := concat (bulk_of <$> args).
Definition array_of (args : list bytes) : bytes :=
  42 :: dec (zlen args) ++ crlf ++ bulks args.

(** The characters the loop acts on. *)
Definition is_marker (c : Z) : bool := bool_decide (c ∈ [36; 42; 43; 45; 58]).

(** An argument that does not end in one of them. *)
Definition plain (a : bytes) : Prop :=
  match last a with Some c => is_marker c = false | None => True end.

Lemma zlen_cons {A} (a : A) (l : list A) : zlen (a :: l) = 1 + zlen l.
Proof. unfold zlen. simpl length. lia. Qed.
Lemma zlen_app' {A} (l k : list A) : zlen (l ++ k) = zlen l + zlen k.
Proof. unfold zlen. rewrite length_app. lia. Qed.
Lemma zlen_nil {A} : zlen (@nil A) = 0.
Proof. reflexivity. Qed.
Lemma zlen_nonneg' {A} (l : list A) : 0 ≤ zlen l.
Proof. unfold zlen. lia. Qed.

Create Rewrite HintDb zl.
#[local] Hint Rewrite @zlen_nil @zlen_cons @zlen_app' : zl.
Ltac zl := autorewrite with zl in *.

(** ** The scanning helpers *)

Lemma crlf_from_here (p : Z) (ds post : bytes) :
  Forall (λ c, c ≠ 13) ds → crlf_from p (ds ++ 13 :: 10 :: post) = Some (p + zlen ds).
Proof.
  revert p; induction ds as [|d ds IH]; intros p Hd.
  { simpl. f_equal. unfold zlen. simpl. lia. }
  apply Forall_cons in Hd as [Hd Hds]. specialize (IH (p + 1) Hds).
  rewrite zlen_cons. rewrite Z.add_assoc, <- IH. cbn [app crlf_from].
  rewrite (proj2 (Z.eqb_neq d 13)) by done. cbn [andb].
  destruct ds; reflexivity.
Qed.

Lemma find_crlf_at (data pre ds post : bytes) (size i : Z) :
  data = pre ++ ds ++ crlf ++ post → i = zlen pre → Forall (λ c, c ≠ 13) ds →
  i + zlen ds + 2 ≤ size → find_crlf data size i = Some (i + zlen ds).
Proof.
  intros -> -> Hds Hsz. unfold find_crlf. pose proof (zlen_nonneg' ds).
  rewrite take_app_ge by (unfold zlen in *; lia).
  rewrite drop_app_length' by (unfold zlen; lia).
  rewrite take_app_ge by (unfold zlen in *; lia).
  assert (Hn : ∃ n, (Z.to_nat size - length pre - length ds)%nat = S (S n))
    by (exists (Z.to_nat size - length pre - length ds - 2)%nat; unfold zlen in *; lia).
  destruct Hn as [n ->]. cbn [crlf app take]. by apply crlf_from_here.
Qed.

Lemma digits_app (ds t : bytes) :
  Forall is_digit ds → digits t = [] → digits (ds ++ t) = ds.
Proof.
  induction 1 as [|d ds Hd _ IH]; intros Ht; [done|].
  cbn [app digits]. rewrite decide_True by done. by rewrite IH.
Qed.

Lemma from_chars_dec (n : Z) (t : bytes) :
  0 ≤ n < 2 ^ 31 → digits t = [] → from_chars (dec n ++ t) = n.
Proof.
  intros Hn Ht. destruct (dec_spec n ltac:(lia)) as (Hd & Hv & Hne).
  assert (E : from_chars (dec n ++ t) =
    (if decide (- 2 ^ 31 ≤ num 0 (digits (dec n ++ t)) < 2 ^ 31)
     then num 0 (digits (dec n ++ t)) else 0)).
  { destruct (dec n) as [|d ds]; [done|]. apply Forall_cons in Hd as [Hd _].
    unfold is_digit in Hd. cbn [app from_chars].
    destruct (decide (d = 45)) as [->|Hd45]; [lia|].
    destruct d as [|p|]; try reflexivity. do 6 (destruct p; try reflexivity; try done). }
  rewrite E, digits_app, Hv by done. rewrite decide_True; lia.
Qed.

Lemma digits_not_cr (ds : bytes) : Forall is_digit ds → Forall (λ c, c ≠ 13) ds.
Proof. intros H. eapply Forall_impl; [exact H|]. intros c; cbn; unfold is_digit. lia. Qed.

Lemma resolve_at (data pre v post : bytes) (off len : Z) :
  data = pre ++ v ++ post → off = zlen pre → len = zlen v →
  resolve data (Sl off len) = Done v.
Proof.
  intros -> -> ->. unfold resolve. zl. pose proof (zlen_nonneg' pre).
  pose proof (zlen_nonneg' post).
  rewrite decide_True by lia. apply view_app; unfold zlen; lia.
Qed.

Lemma int_add_done (a b : Z) : - 2 ^ 31 ≤ a + b < 2 ^ 31 → int_add a b = Done (a + b).
Proof. intros. unfold int_add. by rewrite decide_True. Qed.

Lemma rd_char (data pre post : bytes) (c i : Z) :
  data = pre ++ c :: post → i = zlen pre → rd data (Z.to_nat i) = Done c.
Proof. intros -> ->. apply rd_app. unfold zlen. lia. Qed.

(** Equations between concatenations. *)
Ltac lists := unfold array_of, bulk_of, crlf;
  repeat (rewrite <- ?app_assoc; cbn [app]); reflexivity.
Ltac by_lists H := rewrite H; lists.

Lemma drop_mid (data pre post : bytes) (c : Z) :
  data = pre ++ c :: post → data = pre ++ c :: drop (S (length pre)) data.
Proof.
  intros ->. rewrite drop_app_ge by lia.
  by replace (S (length pre) - length pre)%nat with 1%nat by lia.
Qed.

(** ** Turns of the loop *)

Section Turns.
Context (data : bytes) (size : Z) (Hdata : zlen data < 2 ^ 31).

Lemma loop_skip_in (f : nat) (pre post : bytes) (c i : Z) (res : list string_view) :
  data = pre ++ c :: post → i = zlen pre → is_marker c = false → i < size →
  parse_loop (S f) data size i res = parse_loop f data size (i + 1) res.
Proof.
  intros Hd Hi Hc Hlt. pose proof (zlen_nonneg' pre).
  assert (Hl : i + 1 < 2 ^ 31) by (rewrite Hd in Hdata; zl; pose proof (zlen_nonneg' post); lia).
  cbn [parse_loop]. rewrite u64_small, (proj2 (Z.ltb_lt _ _)) by lia.
  unfold body. rewrite decide_False by lia. rewrite (rd_char _ _ _ _ _ Hd Hi), bind_Done_l.
  apply bool_decide_eq_false in Hc.
  repeat (rewrite (proj2 (Z.eqb_neq c _)) by (intros ->; apply Hc; set_solver)).
  cbn [orb]. rewrite bind_Done_l. by rewrite int_add_done by lia.
Qed.

Lemma loop_done (f : nat) (i : Z) (res : list string_view) :
  0 ≤ i < 2 ^ 31 → size ≤ i → parse_loop (S f) data size i res = Done res.
Proof. intros. cbn [parse_loop]. by rewrite u64_small, (proj2 (Z.ltb_ge _ _)) by lia. Qed.

Lemma loop_skip (f : nat) (pre post : bytes) (c i : Z) (res : list string_view) :
  data = pre ++ c :: post → i = zlen pre → is_marker c = false →
  parse_loop (S (S f)) data size i res = parse_loop (S f) data size (i + 1) res.
Proof.
  intros Hd Hi Hc. destruct (Z.lt_ge_cases i size); [by eapply loop_skip_in|].
  pose proof (zlen_nonneg' pre).
  assert (Hl : i + 1 < 2 ^ 31) by (rewrite Hd in Hdata; zl; pose proof (zlen_nonneg' post); lia).
  by rewrite !loop_done by lia.
Qed.

(** A bulk string: the position after it is that of its last character. *)
Lemma loop_bulk (f : nat) (pre a post : bytes) (res : list string_view) :
  data = pre ++ bulk_of a ++ post → zlen pre + zlen (bulk_of a) - 1 ≤ size →
  parse_loop (S f) data size (zlen pre) res =
  parse_loop f data size (zlen pre + zlen (bulk_of a) - 3)
    (res ++ [Sl (zlen pre + zlen (bulk_of a) - 2 - zlen a) (zlen a)]).
Proof.
  intros Hd Hsz. pose proof (zlen_nonneg' pre). pose proof (zlen_nonneg' a).
  pose proof (zlen_nonneg' post).
  destruct (dec_spec (zlen a) ltac:(done)) as (Hdg & _ & _).
  pose proof (zlen_nonneg' (dec (zlen a))).
  assert (Hl : zlen pre + zlen (bulk_of a) < 2 ^ 31) by (rewrite Hd in Hdata; zl; lia).
  unfold bulk_of, crlf in *. zl. cbn [parse_loop].
  rewrite u64_small by lia. rewrite (proj2 (Z.ltb_lt _ _)) by (unfold zlen in *; simpl in *; lia).
  unfold body. rewrite decide_False by lia.
  rewrite (rd_char _ pre _ _ _ Hd eq_refl), bind_Done_l. cbn [Z.eqb Pos.eqb orb].
  unfold bulk.
  rewrite (find_crlf_at data pre (36 :: dec (zlen a)) (a ++ crlf ++ post));
    [|by_lists Hd|done
     |by (apply Forall_cons; split; [|apply digits_not_cr])|zl; change (zlen [13; 10]) with 2 in *; lia].
  rewrite (resolve_at data (pre ++ [36]) (dec (zlen a) ++ [13]) (10 :: a ++ crlf ++ post));
    [|by_lists Hd|zl; reflexivity
     |zl; change (zlen [13]) with 1; lia].
  rewrite bind_Done_l. cbv zeta. change (zlen [13; 10]) with 2 in *.
  rewrite from_chars_dec by (done || lia). zl. rewrite to_int_small by lia.
  rewrite int_add_done, !bind_Done_l, int_add_done, bind_Done_l by lia.
  rewrite u64_small by lia. f_equal; [lia|]. f_equal. f_equal. f_equal. lia.
Qed.

(** The header: the position after it is that of the first bulk string. *)
Lemma loop_header (f : nat) (args : list bytes) (post : bytes) (i : Z) (pre : bytes)
    (res : list string_view) :
  data = array_of args ++ post → zlen args < 2 ^ 31 → data = pre ++ 42 :: drop (S (length pre)) data →
  i = zlen pre → i < size → zlen (dec (zlen args)) + 3 ≤ size →
  parse_loop (S f) data size i res =
  parse_loop f data size (zlen (dec (zlen args)) + 3)
    (res ++ [Sl (i + 1) (u64 (zlen (dec (zlen args)) - i))]).
Proof.
  intros Hd Hn Hp Hi Hlt Hsz. pose proof (zlen_nonneg' pre).
  destruct (dec_spec (zlen args) (zlen_nonneg' _)) as (Hdg & _ & _).
  assert (Hl : zlen (dec (zlen args)) + 3 ≤ zlen data).
  { rewrite Hd. unfold array_of, crlf. zl. change (zlen [13; 10]) with 2.
    pose proof (zlen_nonneg' (bulks args)). pose proof (zlen_nonneg' post). lia. }
  assert (zlen pre < zlen data) by (rewrite Hp; zl; pose proof (zlen_nonneg' (drop (S (length pre)) data)); lia).
  pose proof (zlen_nonneg' (dec (zlen args))).
  cbn [parse_loop]. rewrite u64_small, (proj2 (Z.ltb_lt _ _)) by lia.
  unfold body. rewrite decide_False by lia.
  rewrite (rd_char _ _ _ _ _ Hp Hi), bind_Done_l. cbn [Z.eqb Pos.eqb orb]. unfold array.
  rewrite (find_crlf_at data [] (42 :: dec (zlen args)) (bulks args ++ post));
    [|by_lists Hd|done
     |by (apply Forall_cons; split; [|apply digits_not_cr])|zl; lia].
  zl. rewrite bind_Done_l, to_int_small by lia. rewrite int_add_done, bind_Done_l by lia.
  f_equal; [lia|]. do 3 f_equal. f_equal. lia.
Qed.

(** The character the loop lands on after a bulk string: the last of the
    argument, or the end of the length line when the argument is empty. *)
Lemma bulk_of_last (a : bytes) :
  ∃ q, bulk_of a = q ++ default 10 (last a) :: crlf.
Proof.
  unfold bulk_of, crlf. destruct (last a) as [c|] eqn:E; cbn [default from_option].
  - apply last_Some in E as [l ->]. exists (36 :: dec (zlen (l ++ [c])) ++ [13; 10] ++ l).
    cbn [app]. rewrite <- !app_assoc. cbn [app]. by rewrite <- ?app_assoc.
  - apply last_None in E as ->. exists (36 :: dec 0 ++ [13]). reflexivity.
Qed.

Lemma loop_bulk_end (f : nat) (pre a post : bytes) (res : list string_view) :
  data = pre ++ bulk_of a ++ post → zlen pre + zlen (bulk_of a) - 1 ≤ size → plain a →
  parse_loop (4 + S f) data size (zlen pre) res =
  parse_loop (S f) data size (zlen (pre ++ bulk_of a))
    (res ++ [Sl (zlen pre + zlen (bulk_of a) - 2 - zlen a) (zlen a)]).
Proof.
  intros Hd Hsz Hp. cbn [Nat.add]. rewrite (loop_bulk _ _ _ _ _ Hd Hsz).
  destruct (bulk_of_last a) as [q E]. set (c := default 10 (last a)) in *.
  assert (Hc : is_marker c = false) by (unfold plain in Hp; subst c; by destruct (last a)).
  remember (zlen pre + zlen (bulk_of a) - 2 - zlen a) as o. clear Heqo.
  assert (Hq : zlen pre + zlen (bulk_of a) - 3 = zlen (pre ++ q))
    by (rewrite E; unfold crlf; zl; lia).
  rewrite E in Hd. rewrite Hq.
  rewrite (loop_skip _ (pre ++ q) (13 :: 10 :: post) c); [|by_lists Hd|done|done].
  rewrite (loop_skip _ (pre ++ q ++ [c]) (10 :: post) 13); [|by_lists Hd|zl; lia|done].
  rewrite (loop_skip _ (pre ++ q ++ [c; 13]) post 10); [|by_lists Hd|zl; lia|done].
  f_equal. rewrite E. unfold crlf. zl. lia.
Qed.

Lemma resolve_bulk (pre a post : bytes) :
  data = pre ++ bulk_of a ++ post →
  resolve data (Sl (zlen pre + zlen (bulk_of a) - 2 - zlen a) (zlen a)) = Done a.
Proof.
  intros Hd. apply (resolve_at data (pre ++ 36 :: dec (zlen a) ++ crlf) a (crlf ++ post));
    [by_lists Hd|unfold bulk_of, crlf; zl; lia|done].
Qed.

Lemma loop_bulks (args : list bytes) : ∀ (f : nat) (pre post : bytes) (res : list string_view),
  data = pre ++ bulks args ++ post → Forall plain args →
  zlen (pre ++ bulks args) - 1 ≤ size →
  ∃ vs, parse_loop (4 * length args + S f) data size (zlen pre) res =
          parse_loop (S f) data size (zlen (pre ++ bulks args)) (res ++ vs) ∧
        mapM (resolve data) vs = Done args.
Proof.
  induction args as [|a args IH]; intros f pre post res Hd Hp Hsz.
  { exists []. unfold bulks. cbn [fmap list_fmap concat]. by rewrite !app_nil_r. }
  apply Forall_cons in Hp as [Ha Hp].
  assert (Eb : bulks (a :: args) = bulk_of a ++ bulks args) by reflexivity. rewrite Eb in *.
  rewrite <- (app_assoc (bulk_of a)) in Hd.
  destruct (IH f (pre ++ bulk_of a) post
    (res ++ [Sl (zlen pre + zlen (bulk_of a) - 2 - zlen a) (zlen a)])) as (vs & E & Hvs);
    [by_lists Hd|done|by rewrite <- app_assoc|].
  eexists (_ :: vs). split.
  - replace (4 * length (a :: args) + S f)%nat with (4 + S (4 * length args + f))%nat by (simpl; lia).
    erewrite loop_bulk_end; [|exact Hd| |done].
    2: { zl. pose proof (zlen_nonneg' (bulks args)). lia. }
    replace (S (4 * length args + f)) with (4 * length args + S f)%nat by lia.
    rewrite E, <- (app_assoc pre), <- (app_assoc res). reflexivity.
  - cbn [mapM]. rewrite (resolve_bulk _ _ _ Hd), bind_Done_l, Hvs. reflexivity.
Qed.

(** The request proper: its header, then its arguments. *)
Lemma loop_array (args : list bytes) (f : nat) (post : bytes) :
  data = array_of args ++ post → args ≠ [] → Forall plain args → zlen args < 2 ^ 31 →
  zlen (array_of args) - 1 ≤ size ≤ zlen (array_of args) →
  ∃ vs, parse_loop (4 * length args + 2 + f) data size 0 [] = Done vs ∧
        mapM (resolve data) vs = Done (dec (zlen args) :: args).
Proof.
  intros Hd Hne Hp Hn Hsz. set (h := 42 :: dec (zlen args) ++ crlf).
  assert (Eh : array_of args = h ++ bulks args) by (unfold h; lists).
  assert (Hh : zlen (dec (zlen args)) + 3 = zlen h) by (unfold h, crlf; zl; lia).
  assert (Hb : 6 ≤ zlen (bulks args)).
  { destruct args as [|a args]; [done|]. unfold bulks, bulk_of, crlf.
    cbn [fmap list_fmap concat]. zl. destruct (dec_spec (zlen a) (zlen_nonneg' _)) as (_ & _ & Hd1).
    destruct (dec (zlen a)); [done|]. zl.
    repeat match goal with |- context [zlen ?l] => pose proof (zlen_nonneg' l);
      generalize dependent (zlen l); intros end. lia. }
  pose proof (zlen_nonneg' (dec (zlen args))).
  assert (Ea : zlen (array_of args) = zlen h + zlen (bulks args)) by (rewrite Eh; by zl).
  destruct (loop_bulks args f h post [Sl 1 (zlen (dec (zlen args)))]) as (vs & E & Hvs);
    [by rewrite Hd, Eh, <- app_assoc|done|zl; lia|].
  eexists. split.
  - replace (4 * length args + 2 + f)%nat with (S (4 * length args + S f)) by lia.
    erewrite (loop_header _ args post 0 []); [|exact Hd|done|by rewrite Hd|done|lia|lia].
    assert (zlen (dec (zlen args)) < 2 ^ 31) by (rewrite Hd in Hdata; zl; pose proof (zlen_nonneg' post); lia).
    rewrite Z.add_0_l, Z.sub_0_r, u64_small by lia. rewrite Hh. cbn [app].
    rewrite E. cbn [parse_loop].
    assert (Hz : zlen (h ++ bulks args) < 2 ^ 31)
      by (rewrite Hd in Hdata; zl; pose proof (zlen_nonneg' post); lia).
    rewrite u64_small by (pose proof (zlen_nonneg' (h ++ bulks args)); lia).
    rewrite (proj2 (Z.ltb_ge _ _)) by (zl; lia). reflexivity.
  - cbn [app mapM]. rewrite (resolve_at data [42] (dec (zlen args)) (crlf ++ bulks args ++ post));
      [|by_lists Hd|done|done].
    by rewrite bind_Done_l, Hvs.
Qed.

(** ** Requests the loop never leaves *)

Lemma parse_loop_more (f : nat) : ∀ (k : nat) (i : Z) (res : list string_view),
  parse_loop (f + k) data size i res = Fault NoReturn →
  parse_loop f data size i res = Fault NoReturn.
Proof.
  induction f as [|f IH]; intros k i res; [done|]. cbn [Nat.add parse_loop].
  destruct (_ <? _); [|done]. destruct (body data size i res) as [[i' res'|res']|e]; try done.
  rewrite !bind_Done_l. destruct (int_add i' 1) as [i''|e]; [|done]. rewrite !bind_Done_l. apply IH.
Qed.

Lemma parse_loop_cycle (i : Z) (k : nat) :
  (∀ f res, ∃ res', parse_loop (S k + f) data size i res = parse_loop f data size i res') →
  ∀ f res, parse_loop f data size i res = Fault NoReturn.
Proof.
  intros Hc f. induction f as [|f IH]; intros res; [done|].
  apply (parse_loop_more _ k). destruct (Hc f res) as [res' E].
  replace (S f + k)%nat with (S k + f)%nat by lia. rewrite E. apply IH.
Qed.

Lemma loop_array_cycle (before after : list bytes) (a post : bytes) :
  data = array_of (before ++ a :: after) ++ post → Forall plain before → last a = Some 42 →
  zlen (before ++ a :: after) < 2 ^ 31 → zlen (array_of (before ++ a :: after)) - 1 ≤ size →
  ∀ f res, parse_loop f data size (zlen (dec (zlen (before ++ a :: after))) + 3) res = Fault NoReturn.
Proof.
  intros Hd Hp Ha Hn Hsz. set (args := before ++ a :: after) in *.
  set (h := 42 :: dec (zlen args) ++ crlf).
  assert (Hh : zlen (dec (zlen args)) + 3 = zlen h) by (unfold h, crlf; zl; lia).
  assert (Eb : bulks args = bulks before ++ bulk_of a ++ bulks after)
    by (unfold bulks, args; rewrite fmap_app, concat_app; reflexivity).
  assert (Eh : array_of args = h ++ bulks before ++ bulk_of a ++ bulks after)
    by (unfold h, array_of; rewrite Eb; lists).
  assert (Ez : zlen (array_of args) = zlen h + zlen (bulks before) + zlen (bulk_of a) + zlen (bulks after))
    by (rewrite Eh; zl; lia).
  pose proof (zlen_nonneg' (bulks after)). pose proof (zlen_nonneg' (bulks before)).
  destruct (bulk_of_last a) as [q Eq]. pose proof (zlen_nonneg' q). rewrite Ha in Eq. cbn [default from_option] in Eq.
  assert (Hq : zlen (bulk_of a) = zlen q + 3) by (rewrite Eq; unfold crlf; zl; lia).
  apply (parse_loop_cycle _ (4 * length before + 1)). intros f res.
  destruct (loop_bulks before (S f) h (bulk_of a ++ bulks after ++ post) res) as (vs & E & _);
    [rewrite Hd, Eh; lists|done|zl; lia|].
  eexists. replace (S (4 * length before + 1) + f)%nat with (4 * length before + S (S f))%nat by lia.
  rewrite Hh, E.
  rewrite (loop_bulk _ (h ++ bulks before) a (bulks after ++ post));
    [|rewrite Hd, Eh; lists|zl; lia].
  erewrite (loop_header f args post _ (h ++ bulks before ++ q));
    [by rewrite Hh|exact Hd|done| |zl; lia|zl; lia|zl; lia].
  apply (drop_mid _ _ (13 :: 10 :: bulks after ++ post)). rewrite Hd, Eh, Eq. lists.
Qed.

End Turns.

(** The characters of a request, without its last line feed or with it. *)
Definition received (msg : bytes) (size : Z) : Prop := zlen msg - 1 ≤ size ≤ zlen msg.

Lemma parse_start (fuel : nat) (c : Z) (msg post : bytes) (size : Z) :
  c ≠ 80 → 1 ≤ zlen msg → received (c :: msg) size →
  parseRedisProtocol fuel ((c :: msg) ++ post) size =
  parse_loop fuel ((c :: msg) ++ post) size 0 [].
Proof.
  intros Hc H1 [Hlo Hhi]. unfold parseRedisProtocol, resolve. zl.
  pose proof (zlen_nonneg' post). rewrite decide_True by lia. unfold view.
  rewrite decide_True by (rewrite length_app; unfold zlen in *; simpl length; lia).
  rewrite bind_Done_l. rewrite decide_False; [done|].
  destruct (Z.to_nat size) as [|n] eqn:En; [lia|]. cbn [Z.to_nat drop app take].
  intros [= E _]. done.
Qed.

Lemma parse_array_start (fuel : nat) (args : list bytes) (post : bytes) (size : Z) :
  received (array_of args) size →
  parseRedisProtocol fuel (array_of args ++ post) size =
  parse_loop fuel (array_of args ++ post) size 0 [].
Proof.
  intros. apply parse_start; [done| |done]. unfold crlf. zl.
  pose proof (zlen_nonneg' (dec (zlen args))). pose proof (zlen_nonneg' (bulks args)). lia.
Qed.

(** Bulk strings that no header precedes are split as well. *)
Lemma parse_bulks (fuel : nat) (args : list bytes) (post : bytes) (size : Z) :
  args ≠ [] → Forall plain args → zlen (bulks args ++ post) < 2 ^ 31 →
  received (bulks args) size → (4 * length args + 1 ≤ fuel)%nat →
  ∃ vs, parseRedisProtocol fuel (bulks args ++ post) size = Done vs ∧
        mapM (resolve (bulks args ++ post)) vs = Done args.
Proof.
  intros Hne Hp Hlen Hsz Hf.
  destruct (loop_bulks _ size Hlen args (fuel - (4 * length args + 1)) [] post [] eq_refl Hp)
    as (vs & E & Hvs); [destruct Hsz; cbn [app]; lia|].
  exists vs. split; [|done].
  assert (Es : parseRedisProtocol fuel (bulks args ++ post) size =
               parse_loop fuel (bulks args ++ post) size 0 []).
  { destruct args as [|a args]; [done|].
    change (bulks (a :: args)) with (36 :: (dec (zlen a) ++ crlf ++ a ++ crlf) ++ bulks args) in *.
    apply parse_start; [done| |done]. unfold crlf. zl. pose proof (zlen_nonneg' (dec (zlen a))).
    pose proof (zlen_nonneg' a). pose proof (zlen_nonneg' (bulks args)). lia. }
  rewrite Es. replace fuel with (4 * length args + S (fuel - (4 * length args + 1)))%nat at 1 by lia.
  etrans; [exact E|]. cbn [app]. apply loop_done; [|destruct Hsz; lia].
  pose proof (zlen_nonneg' (bulks args)). zl. pose proof (zlen_nonneg' post). lia.
Qed.

Lemma mapM_length {A B} (f : A → outcome B) (l : list A) : ∀ k,
  mapM f l = Done k → length k = length l.
Proof.
  induction l as [|a l IH]; intros k H.
  - by injection H as <-.
  - cbn [mapM] in H. inv_done. cbn [length]. f_equal. by apply IH.
Qed.

Lemma check_array (data : bytes) (vs : list string_view) (args : list bytes) :
  mapM (resolve data) vs = Done (dec (zlen args) :: args) → zlen args < 2 ^ 31 →
  check data vs = Done (false, vs).
Proof.
  intros Hvs Hn. destruct vs as [|v vs]; [done|]. cbn [mapM] in Hvs.
  apply bind_done in Hvs as (first & Hv & Hvs).
  apply bind_done in Hvs as (rest & Hr & [= -> ->]).
  assert (Hl : zlen vs = zlen args) by (unfold zlen; by rewrite (mapM_length _ _ _ Hr)).
  destruct (dec_spec (zlen args) (zlen_nonneg' _)) as (Hd & _ & Hne).
  cbn [check]. rewrite Hv, bind_Done_l. pose proof (zlen_nonneg' args).
  pose proof (from_chars_dec (zlen args) [] ltac:(lia) eq_refl) as Hf. rewrite app_nil_r in Hf.
  destruct (dec (zlen args)) as [|c ds]; [done|]. apply Forall_cons in Hd as [Hd _].
  rewrite decide_False by (intros [= -> _]; unfold is_digit in Hd; lia).
  cbn [rd of_option lookup list_lookup]. rewrite bind_Done_l, decide_True by done.
  rewrite Hf, u64_small, zlen_cons, Hl by lia.
  by rewrite (proj2 (Z.eqb_neq _ _)) by lia.
Qed.

(** The parser splits a request and [check] then refuses it. A request of
    one or more arguments, none ending in a marker character, is split into its
    count and its arguments, whatever follows it in the buffer and whether or
    not its last line feed is counted; [check] compares the count with a number
    of views that includes the count itself, and returns false. *)
Theorem arrays_are_refused (args : list bytes) (post : bytes) (size : Z) (fuel : nat)
  (Hne : args ≠ []) (Hp : Forall plain args)
  (Hlen : zlen (array_of args ++ post) < 2 ^ 31) (Hn : zlen args < 2 ^ 31)
  (Hsz : received (array_of args) size) (Hfuel : (4 * length args + 2 ≤ fuel)%nat) :
  ∃ vs, parseRedisProtocol fuel (array_of args ++ post) size = Done vs ∧
        mapM (resolve (array_of args ++ post)) vs = Done (dec (zlen args) :: args) ∧
        check (array_of args ++ post) vs = Done (false, vs).
Proof.
  rewrite parse_array_start by done.
  destruct (loop_array _ size Hlen args (fuel - (4 * length args + 2)) post eq_refl Hne Hp Hn Hsz)
    as (vs & E & Hvs).
  replace (4 * length args + 2 + (fuel - (4 * length args + 2)))%nat with fuel in E by lia.
  exists vs. split_and!; [exact E|exact Hvs|]. by eapply check_array.
Qed.

(** C32: the parser never returns from a request with an argument that ends in
    an asterisk, when the arguments before it end in no marker character: its
    last character is taken for the header of an array, whose line end is
    looked for from the start of the request, so parsing starts over, with one
    more round of views collected each time. *)
Theorem asterisk_never_returns (before after : list bytes) (a post : bytes) (size : Z)
  (Hp : Forall plain before) (Ha : last a = Some 42)
  (Hlen : zlen (array_of (before ++ a :: after) ++ post) < 2 ^ 31)
  (Hn : zlen (before ++ a :: after) < 2 ^ 31)
  (Hsz : received (array_of (before ++ a :: after)) size) (fuel : nat) :
  parseRedisProtocol fuel (array_of (before ++ a :: after) ++ post) size = Fault NoReturn.
Proof.
  rewrite parse_array_start by done. destruct fuel as [|fuel]; [done|].
  pose proof (loop_array_cycle _ size Hlen before after a post eq_refl Hp Ha Hn (proj1 Hsz) fuel) as H.
  destruct Hsz as [Hlo Hhi].
  assert (6 + zlen (dec (zlen (before ++ a :: after))) ≤ zlen (array_of (before ++ a :: after))).
  { unfold array_of, bulks. rewrite fmap_app, concat_app. cbn [fmap list_fmap concat].
    unfold bulk_of, crlf. zl.
    repeat match goal with |- context [zlen ?l] => pose proof (zlen_nonneg' l);
      generalize dependent (zlen l); intros end. lia. }
  pose proof (zlen_nonneg' (dec (zlen (before ++ a :: after)))).
  rewrite (loop_header _ size Hlen _ (before ++ a :: after) post 0 []);
    [apply H|done|exact Hn|by apply (drop_mid _ [] (drop 1 (array_of (before ++ a :: after) ++ post)))
    |done|lia|lia].
Qed.

Module Examples.
Definition set_request : list bytes := [str "SET"; str "mykey"; str "myvalue"].
End Examples.
Import Examples.

Lemma arrays_are_refused_witness :
  array_of set_request =
    str "*3" ++ crlf ++ str "$3" ++ crlf ++ str "SET" ++ crlf ++ str "$5" ++ crlf ++
    str "mykey" ++ crlf ++ str "$7" ++ crlf ++ str "myvalue" ++ crlf ∧
  Forall plain set_request ∧ received (array_of set_request) 36 ∧
  ∃ vs, parseRedisProtocol 14 (array_of set_request ++ [0]) 36 = Done vs ∧
        mapM (resolve (array_of set_request ++ [0])) vs = Done (str "3" :: set_request) ∧
        check (array_of set_request ++ [0]) vs = Done (false, vs).
Proof.
  assert (Hp : Forall plain set_request) by (repeat constructor).
  assert (Hr : received (array_of set_request) 36) by (split; by vm_compute).
  split; [reflexivity|]. split; [exact Hp|]. split; [exact Hr|].
  exact (arrays_are_refused set_request [0] 36 14 ltac:(discriminate) Hp
           ltac:(by vm_compute) ltac:(by vm_compute) Hr ltac:(vm_compute; lia)).
Defined.

Lemma asterisk_never_returns_witness :
  received (array_of [str "GET"; str "a*"]) 21 ∧
  ∀ fuel, parseRedisProtocol fuel (array_of [str "GET"; str "a*"] ++ []) 21 = Fault NoReturn.
Proof.
  assert (Hr : received (array_of [str "GET"; str "a*"]) 21) by (split; by vm_compute).
  split; [exact Hr|]. intros fuel.
  exact (asterisk_never_returns [str "GET"] [] (str "a*") [] 21 ltac:(repeat constructor) eq_refl
           ltac:(by vm_compute) ltac:(by vm_compute) Hr fuel).
Defined.

(** A negative length does the same: its four characters are skipped back. *)
Example negative_length_loops :
  parse_loop 1 (str "$-4" ++ crlf) 5 0 [] = Fault NoReturn ∧
  body (str "$-4" ++ crlf) 5 0 [] = Done (Go (-1) [Sl 5 (2 ^ 64 - 4)]).
Proof. split; reflexivity. Qed.

End Redis.
