(* ===== verification/Server.v ===== *)
(** * The server

    [src/server/server.{hpp,cpp}] and [src/server/configparse.{hpp,cpp}]: the
    configuration and the handler that turns what a connection sent into a
    database request and a reply. The handler is given what [evbuffer_remove]
    delivered and returns what it hands to [Connection::Send]; [Service] puts it
    behind the network layer. *)
From S2P Require Import Prelude Request Crc32 KeyFormat Entry XXHash64 CityHash FarmHash Bloom Memtable KLRUCache SSTable IOUring Files MemtableView SharedMemtable FlushFormat LevelMerge Compactor ExportDB Redis.
Import Status Request WalFormat Redis.

Module Server.

(** ** Configuration *)

Record ServerConfig : Type := mkConfig {
  logpath : bytes;
  logLev : Z;
  isSync : bool;
  log_name : bytes;
  log_buf_size : Z;
  listen_port : Z
}.

(** [Logger::LogLevel], as the configuration file names it. *)
Definition kInfo : Z := 0.
Definition kTrace : Z := 1.
Definition kDebug : Z := 2.
Definition kError : Z := 3.

Definition log_level (s : bytes) : option Z :=
  if decide (s = str "Info") then Some kInfo
  else if decide (s = str "Trace") then Some kTrace
  else if decide (s = str "Debug") then Some kDebug
  else if decide (s = str "Error") then Some kError
  else if decide (s = str "STD_OUT") then Some (-1) else None.

(** [std::from_chars] into a [uint32_t] that holds [old]. *)
Definition from_chars_u32 (s : bytes) (old : Z) : Z :=
  match digits s with
  | [] => old
  | ds => if decide (num 0 ds < 2 ^ 32) then num 0 ds else old
  end.

Section ConfigParse.
(** [yaml a b] is [yaml_doc[a][b].as<std::string>()] of the loaded document,
    [None] when it throws; the other two are its readings as a boolean and as a
    32-bit number. *)
Context (yaml : bytes → bytes → option bytes) (as_bool : bytes → option bool)
  (as_u32 : bytes → option Z).

(** [None] is an exception that leaves the function. The two characters cut
    off the size are its unit; a shorter text is overrun. *)
Definition ConfigParse (config : ServerConfig) : option (outcome (bool * ServerConfig)) :=
  path ← yaml (str "log_config") (str "log_path");
  lev ← yaml (str "log_config") (str "log_lev");
  match log_level lev with
  | None =>
      Some (Done (false, mkConfig path kInfo (isSync config) (log_name config)
                           (log_buf_size config) (listen_port config)))
  | Some lev =>
      name ← yaml (str "log_config") (str "log_name");
      sync ← yaml (str "log_config") (str "log_issync") ≫= as_bool;
      port ← yaml (str "server_config") (str "listen_port") ≫= as_u32;
      size ← yaml (str "log_config") (str "log_buf_size");
      Some (if decide (length size < 2)%nat then Fault OutOfBounds
            else
              let n := from_chars_u32 (take (length size - 2) size) (log_buf_size config) in
              Done (true, mkConfig path lev sync name (u32 (u32 (n * 1024) * 1024)) port))
  end.
End ConfigParse.

(** ** The read handler *)

(** [fver::base::log::Buffer] of a given length; its memory is its length. *)
Record Buffer : Type := mkBuffer { bufptr_ : bytes; offset_ : Z }.
Definition new_Buffer (len : nat) : Buffer := mkBuffer (replicate len 0) 0.

Section Server.
Context {T R : Type} {FO : FileOps T}.
Context (std_hash : bytes → Z) (addr : Z → Z).

(** The database is [None] as its default constructor leaves it, every pointer
    null. *)
Record Server : Type := mkServer {
  buf_ : Buffer;
  db_ : option (ExportDB.DB T R)
}.

Definition new_Server : Server := mkServer (new_Buffer 1024) None.

(** What is asked of the logger (nothing at level -1), whether the network
    server could be started, and the server. *)
Definition Init (net_init : Z → bool) (conf : ServerConfig) (s : Server)
  : option (bytes * Z * bool * bytes) * bool * Server :=
  (if decide (logLev conf ≠ -1)
   then Some (logpath conf, logLev conf, isSync conf, log_name conf) else None,
   net_init (listen_port conf), s).

(** [db_.Set]: the log record is made before the log is dereferenced. *)
Definition db_Set (s : Server) (c : SetContext) : outcome Server :=
  match db_ s with
  | Some d => d ← ExportDB.Set_ std_hash addr d c; Done (mkServer (buf_ s) (Some d))
  | None => SetContextWalLogFormat (addr 0) c 0 ;; Fault NullDeref
  end.

Definition db_Get (s : Server) (g : GetContext) : outcome Server :=
  match db_ s with
  | Some d => d ← ExportDB.Get std_hash d g; Done (mkServer (buf_ s) (Some d))
  | None => Fault NullDeref
  end.

(** The views of the [i]th element of the result. *)
Definition arg (buf : bytes) (result : list string_view) (i : nat) : outcome bytes :=
  v ← of_option OutOfBounds (result !! i); resolve buf v.

Definition with_buf (s : Server) (b : Buffer) : Server := mkServer b (db_ s).

(** A finished turn: the offset is reset. *)
Definition finish (s : Server) (sent : list bytes) : outcome (Server * list bytes) :=
  Done (with_buf s (mkBuffer (bufptr_ (buf_ s)) 0), sent).

(** A command that passed [check]. [seen] is the code the handler reads from
    the context after queueing it, which a worker may have set by then. *)
Definition dispatch (s : Server) (buf : bytes) (result : list string_view) (seen : StatusCode)
  : outcome (Server * list bytes) :=
  cmd ← arg buf result 0;
  if decide (cmd = kPingStr) then finish s [kPongStr]
  else if decide (cmd = kSetStr) then
    k ← arg buf result 1;
    v ← arg buf result 2;
    s ← db_Set s (new_SetContext k v);
    finish s (if decide (seen = kOk) then [kOKReply] else [])
  else if decide (cmd = kGetStr) then
    k ← arg buf result 1;
    s ← db_Get s (new_GetContext k);
    finish s (if decide (seen = kOk)
              then [36 :: dec (zlen k) ++ crlf ++ k ++ crlf] else [])
  else
    mapM (resolve buf) result ;;
    finish s [].

(** [got] is what [evbuffer_remove] stores and counts, [None] its failure. *)
Definition readHD (fuel : nat) (s : Server) (got : option bytes) (seen : StatusCode)
  : outcome (Server * list bytes) :=
  buf ← match got with
        | Some bs => wr (bufptr_ (buf_ s)) (Z.to_nat (offset_ (buf_ s))) bs
        | None => Done (bufptr_ (buf_ s))
        end;
  let size := match got with Some bs => zlen bs | None => -1 end in
  let offset := u32 (offset_ (buf_ s) + size) in
  let s := with_buf s (mkBuffer buf offset) in
  read_str_view ← resolve buf (Sl 0 offset);
  c ← (if decide (0 ≤ size - 1) then rd buf (Z.to_nat (size - 1)) else Fault OutOfBounds);
  let size := if c =? 10 then size - 1 else size in
  if decide (read_str_view = kCommandDocs ∨ read_str_view = kCommandDocs_2)
  then finish s [kOKStr]
  else
    read_result ← parseRedisProtocol fuel buf size;
    '(ok, read_result) ← check buf read_result;
    if (ok : bool) then dispatch s buf read_result seen
    else if decide (2 ≤ length read_result)%nat then
      name ← arg buf read_result 1;
      finish s [str "(error) ERR unknow command '" ++ name ++ str "'" ++ [10]]
    else finish s [kErrorUnknowCommand].

Definition writeHD : Z := 1.
Definition closeHD : Z := 1.
Definition timeoutHD : Z := 1.

(** ** What a request is answered with *)

(** Between two turns the buffer is whole and its offset is zero. *)
Definition idle (s : Server) : Prop :=
  length (bufptr_ (buf_ s)) = 1024%nat ∧ offset_ (buf_ s) = 0.

Lemma new_Server_idle : idle new_Server.
Proof. split; reflexivity. Qed.

(** The handler behind the read of a message that ends in a line feed. *)
Lemma readHD_line (fuel : nat) (s : Server) (msg : bytes) (seen : StatusCode) :
  idle s → last msg = Some 10 → (length msg ≤ 1024)%nat →
  msg ≠ kCommandDocs → msg ≠ kCommandDocs_2 →
  ∃ post, let data := msg ++ post in
    length data = 1024%nat ∧
    readHD fuel s (Some msg) seen =
      (read_result ← parseRedisProtocol fuel data (zlen msg - 1);
       '(ok, read_result) ← check data read_result;
       let s := with_buf s (mkBuffer data (zlen msg)) in
       if (ok : bool) then dispatch s data read_result seen
       else if decide (2 ≤ length read_result)%nat then
         name ← arg data read_result 1;
         finish s [str "(error) ERR unknow command '" ++ name ++ str "'" ++ [10]]
       else finish s [kErrorUnknowCommand]).
Proof.
  intros [Hb Ho] Hl Hlen Hc1 Hc2. exists (drop (length msg) (bufptr_ (buf_ s))).
  set (post := drop _ _). cbv zeta.
  assert (Hd : length (msg ++ post) = 1024%nat)
    by (subst post; rewrite length_app, length_drop; lia).
  split; [done|]. pose proof (zlen_nonneg' msg).
  assert (Hm : zlen msg ≤ 1024) by (unfold zlen; lia).
  unfold readHD. rewrite Ho. unfold wr. cbn [Z.to_nat Nat.add].
  rewrite decide_True, bind_Done_l by lia. cbn [take app]. fold post. cbv zeta.
  rewrite Z.add_0_l, u32_small by lia.
  rewrite (resolve_at (msg ++ post) [] msg post), bind_Done_l by done.
  apply last_Some in Hl as [q ->].
  assert (Hq : zlen (q ++ [10]) - 1 = zlen q) by (rewrite zlen_app'; change (zlen [10]) with 1; lia).
  rewrite decide_True by (rewrite Hq; apply zlen_nonneg').
  rewrite (rd_char _ q post 10), bind_Done_l; [|by rewrite <- app_assoc|done].
  cbn [Z.eqb Pos.eqb]. rewrite decide_False by (intros [?|?]; congruence). reflexivity.
Qed.

Lemma array_of_last (args : list bytes) : args ≠ [] → last (array_of args) = Some 10.
Proof.
  intros Hne. destruct (exists_last Hne) as (l & a & ->).
  apply last_Some. unfold array_of, bulks. rewrite fmap_app, concat_app.
  exists (42 :: dec (zlen (l ++ [a])) ++ crlf ++ concat (bulk_of <$> l) ++
          36 :: dec (zlen a) ++ crlf ++ a ++ [13]).
  cbn [fmap list_fmap concat]. unfold bulk_of, crlf.
  repeat (rewrite <- ?app_assoc; cbn [app]). reflexivity.
Qed.

Lemma bulks_last (args : list bytes) : args ≠ [] → last (bulks args) = Some 10.
Proof.
  intros Hne. destruct (exists_last Hne) as (l & a & ->).
  apply last_Some. unfold bulks. rewrite fmap_app, concat_app.
  exists (concat (bulk_of <$> l) ++ 36 :: dec (zlen a) ++ crlf ++ a ++ [13]).
  cbn [fmap list_fmap concat]. lists.
Qed.

Lemma zlen_bulks (args : list bytes) : zlen args ≤ zlen (bulks args).
Proof.
  induction args as [|a args IH]; [done|].
  change (bulks (a :: args)) with (bulk_of a ++ bulks args). rewrite zlen_app', zlen_cons.
  unfold bulk_of at 1. rewrite zlen_cons.
  pose proof (zlen_nonneg' (dec (zlen a) ++ crlf ++ a ++ crlf)). lia.
Qed.

Lemma arg_of_mapM (buf : bytes) (vs : list string_view) : ∀ (args : list bytes) (i : nat),
  mapM (resolve buf) vs = Done args → arg buf vs i = of_option OutOfBounds (args !! i).
Proof.
  induction vs as [|v vs IH]; intros args i H.
  - by injection H as <-.
  - cbn [mapM] in H. apply bind_done in H as (b & Hv & H). apply bind_done in H as (bs & Hr & [= <-]).
    destruct i as [|i]; [unfold arg; cbn [lookup list_lookup of_option]; by rewrite bind_Done_l|].
    by apply (IH bs i).
Qed.

Lemma received_line (msg : bytes) : received msg (zlen msg - 1).
Proof. unfold received. lia. Qed.

(** A parsed request that does not start with PING or a number passes. *)
Lemma check_command (data : bytes) (vs : list string_view) (cmd : bytes) (rest : list bytes) :
  mapM (resolve data) vs = Done (cmd :: rest) →
  (∃ c l, cmd = c :: l ∧ ¬ is_digit c) → check data vs = Done (true, vs).
Proof.
  intros Hvs (c & l & -> & Hc). destruct vs as [|v vs]; [done|]. cbn [mapM] in Hvs.
  apply bind_done in Hvs as (first & Hv & Hvs). apply bind_done in Hvs as (? & ? & [= -> ->]).
  cbn [check]. rewrite Hv, bind_Done_l. destruct (decide _); [done|].
  cbn [rd of_option lookup list_lookup]. by rewrite bind_Done_l, decide_False.
Qed.

(** A bare PING is answered. *)
Lemma ping_answered (fuel : nat) (s : Server) (seen : StatusCode) :
  idle s → ∃ s', readHD fuel s (Some (kPingStr ++ [10])) seen = Done (s', [kPongStr]) ∧
                 db_ s' = db_ s ∧ idle s'.
Proof.
  intros Hs. destruct (readHD_line fuel s (kPingStr ++ [10]) seen Hs eq_refl ltac:(simpl; lia)
    ltac:(discriminate) ltac:(discriminate)) as (post & Hd & E).
  assert (Hp : parseRedisProtocol fuel ((kPingStr ++ [10]) ++ post) (zlen (kPingStr ++ [10]) - 1) =
               Done [Lit kPingStr]).
  { unfold parseRedisProtocol, resolve. change (zlen (kPingStr ++ [10]) - 1) with 4.
    rewrite decide_True by (unfold zlen; rewrite Hd; lia). unfold view.
    by rewrite decide_True by (rewrite Hd; simpl; lia). }
  rewrite E, Hp, bind_Done_l. eexists. by split; [|split; [|split]].
Qed.

(** What a COMMAND request of a client is answered with. *)
Lemma docs_answered (fuel : nat) (s : Server) (seen : StatusCode) (msg : bytes) :
  idle s → msg = kCommandDocs ∨ msg = kCommandDocs_2 →
  ∃ s', readHD fuel s (Some msg) seen = Done (s', [kOKStr]) ∧ db_ s' = db_ s ∧ idle s'.
Proof.
  intros [Hb Ho] Hm. assert (Hl : (0 < length msg ≤ 1024)%nat) by (destruct Hm as [-> | ->]; cbn; lia).
  unfold readHD, wr. rewrite Ho. change (Z.to_nat 0) with O. cbn [Nat.add].
  rewrite decide_True, bind_Done_l by lia. rewrite take_0. cbn [app]. cbv zeta.
  rewrite Z.add_0_l, u32_small by (unfold zlen; lia).
  rewrite (resolve_at _ [] msg (drop (length msg) (bufptr_ (buf_ s)))), bind_Done_l by done.
  rewrite decide_True by (unfold zlen; lia).
  destruct (lookup_lt_is_Some_2 (msg ++ drop (length msg) (bufptr_ (buf_ s)))
    (Z.to_nat (zlen msg - 1))) as [c Hc]; [rewrite length_app; unfold zlen; lia|].
  unfold rd. rewrite Hc. cbn [of_option]. rewrite bind_Done_l, decide_True by done. eexists. split; [reflexivity|].
  split; [done|]. split; [|done]. cbn [finish buf_ with_buf bufptr_].
  rewrite length_app, length_drop. lia.
Qed.

(** An array of a command and its arguments, none ending in a marker character,
    is answered with an error that names the command. *)
Lemma array_answered (fuel : nat) (s : Server) (cmd : bytes) (rest : list bytes) (seen : StatusCode) :
  idle s → Forall plain (cmd :: rest) → (length (array_of (cmd :: rest)) ≤ 1024)%nat →
  array_of (cmd :: rest) ≠ kCommandDocs → array_of (cmd :: rest) ≠ kCommandDocs_2 →
  (4 * length (cmd :: rest) + 2 ≤ fuel)%nat →
  ∃ s', readHD fuel s (Some (array_of (cmd :: rest))) seen =
          Done (s', [str "(error) ERR unknow command '" ++ cmd ++ str "'" ++ [10]]) ∧
        db_ s' = db_ s ∧ idle s'.
Proof.
  intros Hs Hp Hlen Hc1 Hc2 Hfuel.
  assert (Hne : cmd :: rest ≠ []) by done. set (args := cmd :: rest) in *.
  assert (Hz : zlen (array_of args) = 3 + zlen (dec (zlen args)) + zlen (bulks args))
    by (unfold array_of, crlf; rewrite zlen_cons, !zlen_app'; change (zlen [13; 10]) with 2; lia).
  pose proof (zlen_bulks args). pose proof (zlen_nonneg' (dec (zlen args))).
  assert (Hn : zlen args < 2 ^ 31) by (unfold zlen in *; lia).
  destruct (readHD_line fuel s (array_of args) seen Hs (array_of_last _ Hne) Hlen Hc1 Hc2)
    as (post & Hd & E).
  destruct (loop_array _ (zlen (array_of args) - 1) ltac:(unfold zlen at 1; rewrite Hd; lia) args
    (fuel - (4 * length args + 2)) post eq_refl Hne Hp Hn ltac:(lia)) as (vs & Ev & Hvs).
  replace (4 * length args + 2 + (fuel - (4 * length args + 2)))%nat with fuel in Ev by lia.
  rewrite E, parse_array_start, Ev, bind_Done_l by apply received_line.
  rewrite (check_array _ _ _ Hvs Hn), bind_Done_l. cbv zeta.
  rewrite decide_True by (rewrite <- (mapM_length _ _ _ Hvs); simpl; lia).
  rewrite (arg_of_mapM _ _ _ 1 Hvs). cbn [lookup list_lookup of_option].
  eexists. split; [reflexivity|]. by split; [|split].
Qed.

(** C16: commands sent as the protocol prescribes never reach the database. An
    array of a command and its arguments, none ending in a marker character (one
    of [$ * + - :]), of at most 1024 bytes and not one of the two COMMAND
    requests, which get another reply, is
    answered with an error that names the command; the database is untouched
    and the server ready for the next read. The same arguments without the
    array header are accepted as a command, and a SET or GET of them, on a
    server whose database nobody has initialised (as [Init] leaves it), goes
    through a null pointer. *)
Theorem commands_never_reach_the_database (fuel : nat) (s : Server) (cmd : bytes)
  (rest : list bytes) (seen : StatusCode) (Hs : idle s) (Hp : Forall plain (cmd :: rest))
  (Hlen : (length (array_of (cmd :: rest)) ≤ 1024)%nat)
  (Hc1 : array_of (cmd :: rest) ≠ kCommandDocs) (Hc2 : array_of (cmd :: rest) ≠ kCommandDocs_2)
  (Hfuel : (4 * length (cmd :: rest) + 2 ≤ fuel)%nat) :
  (∃ s', readHD fuel s (Some (array_of (cmd :: rest))) seen =
           Done (s', [str "(error) ERR unknow command '" ++ cmd ++ str "'" ++ [10]]) ∧
         db_ s' = db_ s ∧ idle s') ∧
  (db_ s = None → (cmd = kSetStr ∧ (2 ≤ length rest)%nat) ∨ (cmd = kGetStr ∧ (1 ≤ length rest)%nat) →
   readHD fuel s (Some (bulks (cmd :: rest))) seen = Fault NullDeref).
Proof.
  assert (Hne : cmd :: rest ≠ []) by done. set (args := cmd :: rest) in *.
  assert (Hz : zlen (array_of args) = 3 + zlen (dec (zlen args)) + zlen (bulks args))
    by (unfold array_of, crlf; rewrite zlen_cons, !zlen_app'; change (zlen [13; 10]) with 2; lia).
  pose proof (zlen_bulks args). pose proof (zlen_nonneg' (dec (zlen args))).
  assert (Hn : zlen args < 2 ^ 31) by (unfold zlen in *; lia).
  split.
  - by apply array_answered.
  - intros Hdb Hcmd.
    destruct (readHD_line fuel s (bulks args) seen Hs (bulks_last _ Hne))
      as (post & Hd & E); [unfold zlen in *; lia|discriminate|discriminate|].
    destruct (parse_bulks fuel args post (zlen (bulks args) - 1)) as (vs & Ev & Hvs);
      [exact Hne|done|unfold zlen; rewrite Hd; lia|apply received_line|lia|].
    rewrite E, Ev, bind_Done_l.
    rewrite (check_command _ _ _ _ Hvs), bind_Done_l
      by (destruct Hcmd as [[-> _]|[-> _]]; eexists _, _; (split; [reflexivity|unfold is_digit; cbn; lia])).
    unfold dispatch. rewrite !(arg_of_mapM _ _ _ _ Hvs). subst args.
    destruct Hcmd as [[-> Hr]|[-> Hr]]; cbn [lookup list_lookup of_option]; rewrite bind_Done_l.
    + rewrite decide_False, decide_True by done.
      destruct rest as [|k [|v rest]]; [simpl in Hr; lia..|].
      cbn [lookup list_lookup of_option]. rewrite !bind_Done_l. unfold db_Set. cbn [db_ with_buf].
      rewrite Hdb, SetContextWalLogFormat_eq. reflexivity.
    + rewrite !decide_False, decide_True by done.
      destruct rest as [|k rest]; [simpl in Hr; lia|].
      cbn [lookup list_lookup of_option]. rewrite !bind_Done_l. unfold db_Get. cbn [db_ with_buf].
      by rewrite Hdb.
Qed.

End Server.
Arguments Server T R : clear implicits.

(** The size of the log buffer is read in megabytes, modulo 2^32 bytes. *)
Lemma ConfigParse_size (yaml : bytes → bytes → option bytes) (as_bool : bytes → option bool)
    (as_u32 : bytes → option Z) (c : ServerConfig) (n : Z) (u v : Z) (lev name port sync : bytes)
    (l p : Z) (b : bool) (path : bytes) :
  0 ≤ n < 2 ^ 32 → ¬ is_digit u →
  yaml (str "log_config") (str "log_path") = Some path →
  yaml (str "log_config") (str "log_lev") = Some lev → log_level lev = Some l →
  yaml (str "log_config") (str "log_name") = Some name →
  yaml (str "log_config") (str "log_issync") = Some sync → as_bool sync = Some b →
  yaml (str "server_config") (str "listen_port") = Some port → as_u32 port = Some p →
  yaml (str "log_config") (str "log_buf_size") = Some (dec n ++ [u; v]) →
  ConfigParse yaml as_bool as_u32 c =
    Some (Done (true, mkConfig path l b name (u32 (n * 1024 * 1024)) p)).
Proof.
  intros Hn Hu E1 E2 E3 E4 E5 E6 E7 E8 E9. unfold ConfigParse.
  rewrite E1, E2. cbn [mbind option_bind]. rewrite E3, E4, E5. cbn [mbind option_bind].
  rewrite E6, E7. cbn [mbind option_bind]. rewrite E8, E9. cbn [mbind option_bind].
  destruct (dec_spec n ltac:(lia)) as (Hd & Hv & Hne).
  rewrite decide_False by (rewrite length_app; simpl; lia).
  rewrite length_app. cbn [length]. replace (length (dec n) + 2 - 2)%nat with (length (dec n)) by lia.
  rewrite take_app_length. unfold from_chars_u32.
  pose proof (digits_app (dec n) [] Hd eq_refl) as Hg. rewrite app_nil_r in Hg. rewrite Hg.
  destruct (dec n) as [|d ds] eqn:En; [done|]. rewrite Hv, decide_True by lia.
  cbv zeta. do 3 f_equal. unfold u32, wrap. f_equal. rewrite Zmult_mod_idemp_l. done.
Qed.

Module Examples.
Definition server : Server RamFile.file IOUring.ListRing.ring := new_Server.
Definition request : list bytes := [str "SET"; str "mykey"; str "myvalue"].
End Examples.
Import Examples.

Lemma commands_never_reach_the_database_witness :
  idle server ∧ Forall plain request ∧
  (∃ s', readHD (λ _, 0) (λ _, 0) 14 server
           (Some (array_of request)) kOk =
           Done (s', [str "(error) ERR unknow command 'SET'" ++ [10]]) ∧ db_ s' = None) ∧
  readHD (λ _, 0) (λ _, 0) 14 server
    (Some (bulks request)) kOk = Fault NullDeref.
Proof.
  assert (H1 : idle server) by (split; reflexivity).
  assert (H2 : Forall plain request) by repeat constructor.
  split; [exact H1|]. split; [exact H2|].
  destruct (commands_never_reach_the_database (T := RamFile.file) (R := IOUring.ListRing.ring)
    (λ _, 0) (λ _, 0) 14 server (str "SET")
    [str "mykey"; str "myvalue"] kOk H1 H2 ltac:(vm_compute; lia) ltac:(discriminate)
    ltac:(discriminate) ltac:(simpl; lia)) as [(s' & E & Hdb & _) Hnull].
  split.
  - exists s'. split; [exact E|exact Hdb].
  - apply Hnull; [reflexivity|]. left. split; [reflexivity|simpl; lia].
Defined.

End Server.
