(* ===== verification/TimeStamp.v ===== *)
(** * Time stamps and the log file

    [src/base/timestamp.{hpp,cpp}] and [src/base/log/logfile.{hpp,cpp}]: the
    time of day and its texts, and the file the log thread writes. What the C
    library does for them is here too: [gmtime_r] as the proleptic Gregorian
    calendar, and streams of <stdio.h> over a file system that maps names to
    contents. The clock and [rand] are arguments. *)
From S2P Require Import Prelude.

Module TimeStamp.
#[local] Open Scope word_scope.

(** ** The calendar *)

(** The fields of [struct tm] that are used. *)
Record tm : Type := mkTm {
  tm_year : Z; tm_mon : Z; tm_mday : Z; tm_hour : Z; tm_min : Z; tm_sec : Z
}.

(** Years start in March and come in eras of 400, which have 146097 days. *)
Definition year_of_era (doe : Z) : Z :=
  (doe - doe / 1460 + doe / 36524 - doe / 146096) / 365.
Definition day_of_year (doe : Z) : Z :=
  let y := year_of_era doe in doe - (365 * y + y / 4 - y / 100).
Definition march_month (doy : Z) : Z := (5 * doy + 2) / 153.
Definition month_day (doy : Z) : Z := doy - (153 * march_month doy + 2) / 5 + 1.

(** Year, month from 1 and day of the month of a day counted from 1970. *)
Definition civil (days : Z) : Z * Z * Z :=
  let z := days + 719468 in
  let doe := z mod 146097 in
  let doy := day_of_year doe in
  let mp := march_month doy in
  let m := if mp <? 10 then mp + 3 else mp - 9 in
  let y := year_of_era doe + z / 146097 * 400 in
  (if m <=? 2 then y + 1 else y, m, month_day doy).

(** The day a date is, counted from 1970. *)
Definition days_of (y m d : Z) : Z :=
  let y := if m <=? 2 then y - 1 else y in
  let yoe := y mod 400 in
  let doy := (153 * (if 2 <? m then m - 3 else m + 9) + 2) / 5 + d - 1 in
  y / 400 * 146097 + (yoe * 365 + yoe / 4 - yoe / 100 + doy) - 719468.

(** [gmtime_r] fails, and leaves the structure unset, when the year does not fit
    an [int]. *)
Definition gmtime_r (seconds : Z) : outcome tm :=
  let '(y, m, d) := civil (seconds / 86400) in
  let rem := seconds mod 86400 in
  if decide (- 2 ^ 31 ≤ y - 1900 < 2 ^ 31)
  then Done (mkTm (y - 1900) (m - 1) d (rem / 3600) (rem / 60 mod 60) (rem mod 60))
  else Fault Uninit.

(** ** The class *)

(** [None] is an indeterminate member; copying one copies that. *)
Record TimeStamp : Type := mkStamp {
  sinceepoch_ : option Z;
  time_sec_ : option Z;
  time_usec_ : option Z
}.

Definition kMicroSecondsPerSecond : Z := 1000 * 1000.
Definition kMillSec : Z := 1000000.

(** The constructors: from seconds and microseconds, from a [time_t], and the
    copy constructor, which copies one member of three. *)
Definition new_TimeStamp (sec usec : Z) : TimeStamp := mkStamp None (Some sec) (Some usec).
Definition of_time_t (newtime : Z) : TimeStamp := mkStamp (Some newtime) None None.
Definition copy_TimeStamp (lef : TimeStamp) : TimeStamp := mkStamp (sinceepoch_ lef) None None.
Definition assign (t stamp : TimeStamp) : TimeStamp :=
  mkStamp (sinceepoch_ stamp) (time_sec_ stamp) (time_usec_ stamp).

(** [gettimeofday] answers [(tv_sec, tv_usec)]. *)
Definition Now (tval : Z * Z) : TimeStamp := new_TimeStamp (u64 tval.1) (u64 tval.2).
Definition GetTimeofDayMs (now : Z * Z) : Z := u64 (now.1 * 1000 + now.2 / 1000).
Definition GetTimeofDayUs (now : Z * Z) : Z := u64 (now.1 * 1000000 + now.2).

Definition getNowU64 (t : TimeStamp) : outcome Z :=
  n ← of_option Uninit (sinceepoch_ t); Done (u64 n).

(** What the four formats start with: the member is recomputed and divided. *)
Definition set_epoch (t : TimeStamp) : outcome (Z * tm * TimeStamp) :=
  sec ← of_option Uninit (time_sec_ t);
  usec ← of_option Uninit (time_usec_ t);
  let n := sec *! kMicroSecondsPerSecond +! usec in
  let seconds := n / kMicroSecondsPerSecond in
  tm_time ← gmtime_r seconds;
  Done (seconds, tm_time, mkStamp (Some n) (time_sec_ t) (time_usec_ t)).

(** [{:0>n}] of a number that is not negative. *)
Definition pad (n : nat) (x : Z) : bytes :=
  replicate (n - length (dec x)) 48 ++ dec x.

Definition ToFormatToday (t : TimeStamp) : outcome (bytes * TimeStamp) :=
  '(_, tm_time, t) ← set_epoch t;
  Done (dec (tm_year tm_time + 1900) ++ str "-" ++ pad 2 (tm_mon tm_time + 1) ++ str "-" ++
        pad 2 (tm_mday tm_time), t).

Definition ToFormatTodayNowMs (t : TimeStamp) : outcome (bytes * TimeStamp) :=
  '(seconds, tm_time, t) ← set_epoch t;
  let microseconds := seconds mod kMicroSecondsPerSecond in
  Done (dec (tm_year tm_time + 1900) ++ pad 2 (tm_mon tm_time + 1) ++
        pad 2 (tm_mday tm_time) ++ str " " ++ dec (tm_hour tm_time + 8) ++ str ":" ++
        pad 2 (tm_min tm_time) ++ str ":" ++ dec (tm_sec tm_time) ++ str "." ++
        dec microseconds, t).

Definition ToFormatTodayNowUs (t : TimeStamp) : outcome (bytes * TimeStamp) :=
  '(seconds, tm_time, t) ← set_epoch t;
  sec ← of_option Uninit (time_sec_ t);
  usec ← of_option Uninit (time_usec_ t);
  let microseconds := seconds mod kMicroSecondsPerSecond in
  Done (dec (tm_year tm_time + 1900) ++ pad 2 (tm_mon tm_time + 1) ++
        pad 2 (tm_mday tm_time) ++ str " " ++ pad 2 (tm_hour tm_time + 8) ++ str ":" ++
        pad 2 (tm_min tm_time) ++ str ":" ++ pad 2 (tm_sec tm_time) ++ str "." ++
        dec microseconds ++ str " " ++
        pad 5 ((sec *! kMillSec +! usec) mod 100000), t).

(** [random] is what [rand ()] answers. *)
Definition ToFormatLogName (t : TimeStamp) (random : Z) : outcome (bytes * TimeStamp) :=
  '(_, tm_time, t) ← set_epoch t;
  Done (dec (tm_year tm_time + 1900) ++ str "-" ++ pad 2 (tm_mon tm_time + 1) ++ str "-" ++
        pad 2 (tm_mday tm_time) ++ str "-" ++ dec (tm_hour tm_time + 8) ++ str ":" ++
        pad 2 (tm_min tm_time) ++ str "-" ++ pad 2 random, t).

(** ** The calendar is right *)

(** Case analysis on the comparisons of the goal. *)
Ltac zcases := repeat match goal with
  | |- context [?a <? ?b] => destruct (Z.ltb_spec a b)
  | |- context [?a <=? ?b] => destruct (Z.leb_spec a b)
  end.
(** Linear arithmetic with division and remainder by constants. *)
Ltac dlia := Z.to_euclidean_division_equations; lia.

Lemma year_of_era_range (doe : Z) : 0 ≤ doe < 146097 → 0 ≤ year_of_era doe < 400.
Proof. intros H. unfold year_of_era. dlia. Qed.

Lemma day_of_year_range (doe : Z) : 0 ≤ doe < 146097 → 0 ≤ day_of_year doe ≤ 365.
Proof.
  intros H. unfold day_of_year, year_of_era. cbv zeta.
  dlia.
Qed.

Lemma month_range (doy : Z) :
  0 ≤ doy ≤ 365 → 0 ≤ march_month doy ≤ 11 ∧ 1 ≤ month_day doy ≤ 31.
Proof.
  intros H. unfold month_day, march_month. dlia.
Qed.

(** A date is in range and is the date of one day only. *)
Lemma civil_days (days y m d : Z) :
  civil days = (y, m, d) → 1 ≤ m ≤ 12 ∧ 1 ≤ d ≤ 31 ∧ days_of y m d = days.
Proof.
  unfold civil. cbv zeta. set (z := days + 719468). set (doe := z mod 146097).
  assert (Hdoe : 0 ≤ doe < 146097) by (apply Z.mod_pos_bound; lia).
  pose proof (year_of_era_range doe Hdoe) as Hy.
  pose proof (month_range _ (day_of_year_range doe Hdoe)) as [Hm Hd].
  set (mp := march_month (day_of_year doe)) in *.
  set (yoe := year_of_era doe) in *.
  assert (Hz : z = z / 146097 * 146097 + doe) by (unfold doe; dlia).
  intros E. injection E as Ey Em Ed.
  assert (Hmod : (yoe + z / 146097 * 400) mod 400 = yoe).
  { rewrite Z.mod_add by lia. by apply Z.mod_small. }
  assert (Hdiv : (yoe + z / 146097 * 400) / 400 = z / 146097).
  { rewrite Z.div_add by lia. rewrite Z.div_small; lia. }
  assert (Hmp : (if 2 <? m then m - 3 else m + 9) = mp).
  { subst m. zcases; lia. }
  assert (Hyy : (if m <=? 2 then y - 1 else y) = yoe + z / 146097 * 400).
  { subst y m. zcases; lia. }
  split; [subst m; zcases; lia|]. split; [lia|].
  unfold days_of. rewrite Hmp, Hyy. cbv zeta. rewrite Hmod, Hdiv, <- Ed.
  unfold month_day. fold mp. unfold day_of_year. fold yoe. cbv zeta. unfold z in *. lia.
Qed.

(** The structure [gmtime_r] fills in: every field in range, and together they
    are the second they came from. *)
Lemma gmtime_fields (seconds : Z) (t : tm) :
  gmtime_r seconds = Done t →
  0 ≤ tm_mon t ≤ 11 ∧ 1 ≤ tm_mday t ≤ 31 ∧ 0 ≤ tm_hour t ≤ 23 ∧ 0 ≤ tm_min t ≤ 59 ∧
  0 ≤ tm_sec t ≤ 59 ∧
  seconds = days_of (tm_year t + 1900) (tm_mon t + 1) (tm_mday t) * 86400 +
            tm_hour t * 3600 + tm_min t * 60 + tm_sec t.
Proof.
  unfold gmtime_r. destruct (civil (seconds / 86400)) as [[y m] d] eqn:E. cbv zeta.
  apply civil_days in E as (Hm & Hd & Hs). case_decide; [|done]. intros [= <-].
  cbn [tm_mon tm_mday tm_hour tm_min tm_sec tm_year].
  replace (y - 1900 + 1900) with y by lia. replace (m - 1 + 1) with m by lia.
  rewrite Hs. split; [lia|]. split; [lia|]. dlia.
Qed.

(** Times of the next five thousand years are converted. *)
Lemma gmtime_done (seconds : Z) : 0 ≤ seconds < 2 ^ 38 → ∃ t, gmtime_r seconds = Done t.
Proof.
  intros H. unfold gmtime_r. destruct (civil (seconds / 86400)) as [[y m] d] eqn:E.
  rewrite decide_True; [by eexists|]. unfold civil in E. cbv zeta in E.
  injection E as Ey _ _.
  pose proof (year_of_era_range ((seconds / 86400 + 719468) mod 146097)
    ltac:(apply Z.mod_pos_bound; lia)).
  assert (0 ≤ (seconds / 86400 + 719468) / 146097 ≤ 2 ^ 22) by dlia.
  subst y. destruct (_ <=? _); lia.
Qed.

(** The recomputed member is the time in microseconds, while that fits. *)
Lemma set_epoch_done (sec usec : Z) :
  0 ≤ sec < 2 ^ 38 → 0 ≤ usec < 1000000 →
  ∃ t, gmtime_r sec = Done t ∧ set_epoch (Now (sec, usec)) =
    Done (sec, t, mkStamp (Some (sec * 1000000 + usec)) (Some sec) (Some usec)).
Proof.
  intros Hs Hu. destruct (gmtime_done sec Hs) as (t & Et). exists t. split; [done|].
  unfold set_epoch, Now, new_TimeStamp, kMicroSecondsPerSecond. cbn [fst snd time_sec_ time_usec_].
  rewrite (u64_small sec), (u64_small usec) by lia. cbn [of_option]. rewrite !bind_Done_l.
  change (1000 * 1000) with 1000000.
  cbv zeta. rewrite (u64_small (sec * 1000000)), u64_small by lia.
  replace ((sec * 1000000 + usec) / 1000000) with sec by dlia. by rewrite Et.
Qed.

(** What the log's time stamps say. For every time of the next millennia,
    [ToFormatToday] is the UTC date of the time it was made from. The formats
    with a time add 8 to the UTC hour and nothing to the date: from 16:00 UTC on
    they show the hours 24 to 31 of the day before; and what stands behind the
    point, where the comment shows microseconds, are the seconds since 1970
    modulo a million. The number [getNowU64] hands out is indeterminate until
    one of the formats has been called, and a copy of a time stamp can no longer
    be formatted. *)
Theorem timestamp_texts (sec usec : Z) (Hs : 0 ≤ sec < 2 ^ 38) (Hu : 0 ≤ usec < 1000000) :
  let t := Now (sec, usec) in
  getNowU64 t = Fault Uninit ∧ ToFormatToday (copy_TimeStamp t) = Fault Uninit ∧
  ∃ y m d h mi s t',
    sec = days_of y m d * 86400 + h * 3600 + mi * 60 + s ∧
    1 ≤ m ≤ 12 ∧ 1 ≤ d ≤ 31 ∧ 0 ≤ h ≤ 23 ∧ 0 ≤ mi ≤ 59 ∧ 0 ≤ s ≤ 59 ∧
    ToFormatToday t = Done (dec y ++ str "-" ++ pad 2 m ++ str "-" ++ pad 2 d, t') ∧
    ToFormatTodayNowMs t =
      Done (dec y ++ pad 2 m ++ pad 2 d ++ str " " ++ dec (h + 8) ++ str ":" ++ pad 2 mi ++
            str ":" ++ dec s ++ str "." ++ dec (sec mod 1000000), t') ∧
    getNowU64 t' = Done (sec * 1000000 + usec).
Proof.
  cbv zeta. split; [done|]. split; [done|].
  destruct (set_epoch_done sec usec Hs Hu) as (t & Et & Es).
  apply gmtime_fields in Et as (Hm & Hd & Hh & Hmi & Hse & E).
  eexists (tm_year t + 1900), (tm_mon t + 1), (tm_mday t), (tm_hour t), (tm_min t), (tm_sec t), _.
  unfold ToFormatToday, ToFormatTodayNowMs. rewrite Es, !bind_Done_l.
  split_and!; try done; try lia. unfold getNowU64. cbn [sinceepoch_ of_option].
  rewrite bind_Done_l, u64_small by lia. done.
Qed.

(** [date -u -d @1661533200] is 26 August 2022, 17:00. *)
Example date_of_2022 :
  ToFormatToday (Now (1661533200, 7)) =
    Done (str "2022-08-26", mkStamp (Some 1661533200000007) (Some 1661533200) (Some 7)) ∧
  ToFormatTodayNowMs (Now (1661533200, 7)) =
    Done (str "20220826 25:00:0.533200",
          mkStamp (Some 1661533200000007) (Some 1661533200) (Some 7)).
Proof. by vm_compute. Qed.

Lemma timestamp_texts_witness :
  0 ≤ 1661533200 < 2 ^ 38 ∧ getNowU64 (Now (1661533200, 7)) = Fault Uninit ∧
  ∃ text t', ToFormatToday (Now (1661533200, 7)) = Done (text, t').
Proof.
  split; [lia|].
  destruct (timestamp_texts 1661533200 7 ltac:(lia) ltac:(lia))
    as (H & _ & y & m & d & h & mi & s & t' & _ & _ & _ & _ & _ & _ & E & _).
  split; [exact H|]. eexists _, t'. exact E.
Defined.

End TimeStamp.

(** ** The log file *)
Module LogFile.
Import TimeStamp.

(** A stream of <stdio.h> in a write mode: the name of its file, its position
    and what it has buffered. The library may write the buffer out at any time;
    it has at the latest when [fflush] or [fclose] returns. *)
Record FILE : Type := mkFILE { f_name : bytes; f_pos : nat; f_buf : bytes }.

(** Names to contents. *)
Abbreviation Fs := (gmap bytes bytes).

Record LogFile : Type := mkLogFile {
  fileptr_ : option FILE;
  curLogPath_ : bytes;
  curLogName_ : bytes;
  nowTime_ : TimeStamp
}.

Section Host.
(** Whether the directory lets a file of the name be created and opened. *)
Context (may_open : bytes → bool).

(** [fopen] with mode [wbx], which only makes new files, and with mode [w+],
    which empties the file. *)
Definition fopen_wbx (fs : Fs) (name : bytes) : option FILE * Fs :=
  if may_open name && bool_decide (fs !! name = None)
  then (Some (mkFILE name 0 []), <[name := []]> fs) else (None, fs).
Definition fopen_wplus (fs : Fs) (name : bytes) : option FILE * Fs :=
  if may_open name then (Some (mkFILE name 0 []), <[name := []]> fs) else (None, fs).

Definition fwrite (f : FILE) (s : bytes) : FILE := mkFILE (f_name f) (f_pos f) (f_buf f ++ s).

(** The buffer goes to the position of the stream; a file shorter than that is
    filled up with zeros. *)
Definition fflush (fs : Fs) (f : FILE) : FILE * Fs :=
  let old := default [] (fs !! f_name f) in
  let old := old ++ replicate (f_pos f - length old) 0 in
  (mkFILE (f_name f) (f_pos f + length (f_buf f)) [],
   <[f_name f := take (f_pos f) old ++ f_buf f ++
                 drop (f_pos f + length (f_buf f)) old]> fs).
Definition fclose (fs : Fs) (f : FILE) : Fs := (fflush fs f).2.

(** ** The class *)

Definition new_LogFile : LogFile := mkLogFile None [] [] (mkStamp None None None).

(** [assert (path.back () != '/')]. *)
Definition check_path (path : bytes) : outcome unit :=
  c ← of_option OutOfBounds (last path); cassert (negb (c =? 47)).

(** Opening the named file: the stream of the first [fopen] is lost. *)
Definition open_log (fs : Fs) (path name : bytes) (t : TimeStamp) : outcome (LogFile * Fs) :=
  let '(_, fs) := fopen_wbx fs name in
  let '(f, fs) := fopen_wplus fs name in
  _ ← cassert (bool_decide (is_Some f));
  Done (mkLogFile f path name t, fs).

(** The constructor of one argument. *)
Definition LogFile_path (fs : Fs) (now : Z * Z) (path : bytes) : outcome (LogFile * Fs) :=
  let t := Now now in
  _ ← check_path path;
  '(day, t) ← ToFormatToday t;
  open_log fs path (path ++ str "/" ++ day ++ str ".log") t.

(** The constructor of two. *)
Definition LogFile_prename (fs : Fs) (now : Z * Z) (random : Z) (path logPrename : bytes)
  : outcome (LogFile * Fs) :=
  let t := Now now in
  _ ← check_path path;
  '(day, t) ← ToFormatToday t;
  open_log fs path
    (path ++ str "/" ++ logPrename ++ str "-" ++ dec random ++ str "-" ++ day ++ str ".log") t.

(** A stream that is open already is forgotten, not closed. *)
Definition SetLogPath (fs : Fs) (now : Z * Z) (path : bytes) : outcome (LogFile * Fs) :=
  let t := Now now in
  _ ← check_path path;
  '(day, t) ← ToFormatToday t;
  open_log fs path (path ++ str "/" ++ day ++ str ".log") t.

Definition SetLogPath_prename (fs : Fs) (now : Z * Z) (random : Z) (path logPrename : bytes)
  : outcome (LogFile * Fs) :=
  let t := Now now in
  '(name, t) ← ToFormatLogName t random;
  open_log fs path (path ++ str "/" ++ logPrename ++ str "-" ++ name ++ str ".log") t.

Definition with_file (l : LogFile) (f : option FILE) : LogFile :=
  mkLogFile f (curLogPath_ l) (curLogName_ l) (nowTime_ l).

(** Writing to a null stream is undefined. *)
Definition Write (l : LogFile) (logment : bytes) : outcome LogFile :=
  f ← of_option NullDeref (fileptr_ l); Done (with_file l (Some (fwrite f logment))).
Definition WriteStr (l : LogFile) (s : bytes) : outcome LogFile :=
  f ← of_option NullDeref (fileptr_ l); Done (with_file l (Some (fwrite f s))).

(** [fflush] of a null pointer flushes the other streams. *)
Definition Sync (l : LogFile) (fs : Fs) : LogFile * Fs :=
  match fileptr_ l with
  | Some f => let '(f, fs) := fflush fs f in (with_file l (Some f), fs)
  | None => (l, fs)
  end.

Definition Change (l : LogFile) (fs : Fs) (now : Z * Z) : outcome (LogFile * Fs) :=
  _ ← cassert (bool_decide (is_Some (fileptr_ l)));
  f ← of_option NullDeref (fileptr_ l);
  SetLogPath (fclose fs f) now (curLogPath_ l).

(** The destructor. *)
Definition destroy (l : LogFile) (fs : Fs) : LogFile * Fs :=
  match fileptr_ l with
  | Some _ =>
      let '(l, fs) := Sync l fs in
      match fileptr_ l with
      | Some f => (with_file l None, fclose fs f)
      | None => (with_file l None, fs)
      end
  | None => (with_file l None, fs)
  end.

(** ** What is in the file *)

Fixpoint writes (l : LogFile) (ss : list bytes) : outcome LogFile :=
  match ss with
  | [] => Done l
  | s :: ss' => l ← WriteStr l s; writes l ss'
  end.

Lemma writes_buf (ss : list bytes) : ∀ (l : LogFile) (f : FILE),
  fileptr_ l = Some f → writes l ss = Done (with_file l (Some (fwrite f (concat ss)))).
Proof.
  induction ss as [|s ss IH]; intros [p a b t] f Hf; simpl in Hf; subst p.
  - simpl. unfold fwrite, with_file. rewrite app_nil_r. by destruct f.
  - cbn [writes]. unfold WriteStr. cbn [fileptr_ of_option]. rewrite !bind_Done_l.
    rewrite (IH _ (fwrite f s)) by done. unfold fwrite, with_file. cbn.
    by rewrite <- app_assoc.
Qed.

(** Flushing a stream that is at the end of its file appends its buffer. *)
Lemma fflush_append (fs : Fs) (f : FILE) (old : bytes) :
  fs !! f_name f = Some old → f_pos f = length old →
  fflush fs f = (mkFILE (f_name f) (length (old ++ f_buf f)) [],
                 <[f_name f := old ++ f_buf f]> fs).
Proof.
  intros Ho Hp. unfold fflush. rewrite Ho, Hp. rewrite Nat.sub_diag. cbn. rewrite (app_nil_r old), firstn_all.
  rewrite (drop_ge old) by (simpl; lia). by rewrite app_nil_r, length_app.
Qed.

(** An opened log file is empty, whatever was there. *)
Lemma open_log_empty (fs : Fs) (path name : bytes) (t : TimeStamp) :
  may_open name = true →
  ∃ fs', open_log fs path name t =
    Done (mkLogFile (Some (mkFILE name 0 [])) path name t, fs') ∧
    fs' !! name = Some [] ∧ ∀ n, n ≠ name → fs' !! n = fs !! n.
Proof.
  intros Hm. unfold open_log, fopen_wbx, fopen_wplus. rewrite Hm. cbn [andb].
  destruct (bool_decide (fs !! name = None)); eexists; (split; [reflexivity|]);
    (split; [by rewrite lookup_insert_eq|]); intros n Hn; by rewrite ?lookup_insert_ne.
Qed.

(** C40: the log file holds what was logged, until it is opened again. Setting
    the log's path on a day empties the file of that day's name and leaves the
    others; then any pieces written and synchronised - or written and closed by
    the destructor - are exactly the contents of the file. But [Change], called
    on the same day, opens the same name again: everything logged is lost. *)
Theorem log_file_contents (fs : Fs) (now later : Z * Z) (path day : bytes) (t t' : TimeStamp)
  (ss : list bytes)
  (Hpath : check_path path = Done tt)
  (Hday : ToFormatToday (Now now) = Done (day, t))
  (Hlater : ToFormatToday (Now later) = Done (day, t'))
  (Hopen : may_open (path ++ str "/" ++ day ++ str ".log") = true) :
  let name := path ++ str "/" ++ day ++ str ".log" in
  ∃ l fs1 l', SetLogPath fs now path = Done (l, fs1) ∧ fs1 !! name = Some [] ∧
    (∀ n, n ≠ name → fs1 !! n = fs !! n) ∧
    writes l ss = Done l' ∧
    (Sync l' fs1).2 !! name = Some (concat ss) ∧
    (destroy l' fs1).2 !! name = Some (concat ss) ∧
    ∃ l2 fs2, Change l' fs1 later = Done (l2, fs2) ∧ fs2 !! name = Some [].
Proof.
  cbv zeta. set (name := path ++ str "/" ++ day ++ str ".log") in *.
  destruct (open_log_empty fs path name t Hopen) as (fs1 & E1 & Hn1 & Ho1).
  set (l := mkLogFile _ _ _ _) in E1.
  exists l, fs1, (with_file l (Some (fwrite (mkFILE name 0 []) (concat ss)))).
  assert (Es : SetLogPath fs now path = Done (l, fs1)).
  { unfold SetLogPath. rewrite Hpath, bind_Done_l, Hday, bind_Done_l. exact E1. }
  assert (Ef : ∀ s, fflush fs1 (mkFILE name 0 s) =
                    (mkFILE name (length s) [], <[name := s]> fs1)).
  { intros s. by rewrite (fflush_append fs1 (mkFILE name 0 s) []). }
  split; [done|]. split; [done|]. split; [done|]. split; [by apply writes_buf|].
  unfold Sync, fwrite. cbn [fileptr_ with_file f_name f_pos f_buf app]. split; [|split].
  - rewrite Ef. apply lookup_insert_eq.
  - unfold destroy, Sync. cbn [fileptr_ with_file]. rewrite Ef. cbn [fileptr_ with_file snd].
    unfold fclose. erewrite fflush_append; [|apply lookup_insert_eq|done].
    cbn [snd f_name f_buf]. rewrite lookup_insert_eq. by rewrite app_nil_r.
  - unfold Change. cbn [fileptr_ with_file curLogPath_].
    rewrite bool_decide_true by done. cbn [cassert guard_fault]. rewrite bind_Done_l.
    cbn [of_option]. rewrite bind_Done_l. change (curLogPath_ l) with path. unfold SetLogPath.
    rewrite Hpath, bind_Done_l, Hlater, bind_Done_l.
    match goal with |- context [open_log ?fs3 _ _ _] =>
      destruct (open_log_empty fs3 path name t' Hopen) as (fs2 & E2 & Hn2 & _) end.
    eexists _, fs2. split; [exact E2|exact Hn2].
Qed.
End Host.

Lemma log_file_contents_witness :
  check_path (str "/tmp") = Done tt ∧
  ∃ l fs1 l', SetLogPath (λ _, true) ∅ (1661533200, 7) (str "/tmp") = Done (l, fs1) ∧
    writes l [str "one"; str "two"] = Done l' ∧
    (Sync l' fs1).2 !! (str "/tmp/2022-08-26.log") = Some (str "onetwo").
Proof.
  split; [reflexivity|].
  destruct (log_file_contents (λ _, true) ∅ (1661533200, 7) (1661533201, 0) (str "/tmp")
    (str "2022-08-26") _ _ [str "one"; str "two"] eq_refl (proj1 date_of_2022)
    ltac:(vm_compute; reflexivity) eq_refl) as (l & fs1 & l' & E & _ & _ & Ew & Es & _).
  exists l, fs1, l'. split; [exact E|]. split; [exact Ew|exact Es].
Defined.

End LogFile.
