(* ===== verification/Backtrace.v ===== *)
(** * Stack traces

    [src/base/backtrace.hpp]: the text that the signal handlers of the logger
    write. The runtime's [backtrace], [backtrace_symbols] and [__cxa_demangle]
    are parameters: the addresses on the stack, a line for each, and the name of
    a mangled symbol when its status is 0. *)
From S2P Require Import Prelude.

Module Backtrace.

(** The last opening parenthesis and the last plus sign of a line. *)
Fixpoint marks (p : nat) (s : bytes) (left_par plus : option nat) : option nat * option nat :=
  match s with
  | [] => (left_par, plus)
  | c :: s' =>
      if c =? 40 then marks (S p) s' (Some p) plus
      else if c =? 43 then marks (S p) s' left_par (Some p)
      else marks (S p) s' left_par plus
  end.

(** A C string: what is before the first NUL. *)
Fixpoint c_string (s : bytes) : bytes :=
  match s with
  | [] => []
  | c :: s' => if c =? 0 then [] else c :: c_string s'
  end.

Definition max_frames : nat := 200.

Section Trace.
Context (backtrace_symbols : list Z → option (list bytes)).
Context (cxa_demangle : bytes → option bytes).

(** The plus sign is a NUL while the name between the marks is read. *)
Definition frame_line (demangle : bool) (s : bytes) : bytes :=
  let mangled := s ++ [10] in
  if demangle then
    match marks 0 s None None with
    | (Some left_par, Some plus) =>
        match cxa_demangle (c_string (drop (S left_par) (<[plus := 0]> s))) with
        | Some name => take (S left_par) s ++ name ++ drop plus s ++ [10]
        | None => mangled
        end
    | _ => mangled
    end
  else mangled.

(** The first frame is the function itself. *)
Definition stackTrace (demangle : bool) (stack : list Z) : bytes :=
  match backtrace_symbols (take max_frames stack) with
  | Some strings => mjoin (frame_line demangle <$> drop 1 strings)
  | None => []
  end.

(** ** What a line becomes *)

Lemma marks_app (a b : bytes) : ∀ p l q,
  marks p (a ++ b) l q =
  (let '(l, q) := marks p a l q in marks (p + length a) b l q).
Proof.
  induction a as [|c a IH]; intros p l q; cbn [app marks length]; [by rewrite Nat.add_0_r|].
  replace (p + S (length a))%nat with (S p + length a)%nat by lia.
  by destruct (c =? 40), (c =? 43).
Qed.

Definition free_of (c : Z) (s : bytes) : Prop := Forall (λ x, x ≠ c) s.

Lemma marks_no_par (s : bytes) : ∀ p l q, free_of 40 s → (marks p s l q).1 = l.
Proof.
  induction s as [|c s IH]; intros p l q H; [done|]. apply Forall_cons in H as [Hc H].
  cbn [marks]. rewrite (proj2 (Z.eqb_neq c 40)) by done. destruct (c =? 43); by apply IH.
Qed.

Lemma marks_plain (s : bytes) : ∀ p l q, free_of 40 s → free_of 43 s → marks p s l q = (l, q).
Proof.
  induction s as [|c s IH]; intros p l q H1 H2; [done|].
  apply Forall_cons in H1 as [Hc H1]. apply Forall_cons in H2 as [Hd H2]. cbn [marks].
  rewrite (proj2 (Z.eqb_neq c 40)), (proj2 (Z.eqb_neq c 43)) by done. by apply IH.
Qed.

Lemma c_string_cut (s rest : bytes) : free_of 0 s → c_string (s ++ 0 :: rest) = s.
Proof.
  induction 1 as [|c s Hc H IH]; [done|]. cbn [app c_string].
  rewrite (proj2 (Z.eqb_neq c 0)) by done. by rewrite IH.
Qed.

(** A line as the runtime writes it, [module(symbol+offset) [address]]: the
    symbol between the last parenthesis and the last plus sign is replaced by
    its name, and the rest of the line kept; a symbol that is not mangled
    leaves the line as it is. *)
Theorem frame_demangled (modul symbol rest : bytes)
  (Hs : free_of 40 symbol) (Hz : free_of 0 symbol) (Hr : free_of 40 rest) (Hp : free_of 43 rest) :
  frame_line true (modul ++ str "(" ++ symbol ++ str "+" ++ rest) =
  modul ++ str "(" ++ default symbol (cxa_demangle symbol) ++ str "+" ++ rest ++ [10].
Proof.
  change (str "(") with [40]. change (str "+") with [43].
  set (pre := modul ++ [40]). set (l := length modul). set (p := (length pre + length symbol)%nat).
  assert (Hpre : length pre = S l) by (unfold pre, l; rewrite length_app; cbn; lia).
  assert (Es : modul ++ [40] ++ symbol ++ [43] ++ rest = pre ++ symbol ++ 43 :: rest)
    by (unfold pre; by rewrite <- !app_assoc).
  assert (E : marks 0 (modul ++ [40] ++ symbol ++ [43] ++ rest) None None = (Some l, Some p)).
  { rewrite marks_app. destruct (marks 0 modul None None) as [a q]. cbn [app marks Z.eqb Pos.eqb].
    rewrite marks_app. fold l. change (0 + l)%nat with l.
    pose proof (marks_no_par symbol (S l) (Some l) q Hs) as H1.
    destruct (marks (S l) symbol (Some l) q) as [b' q']. cbn in H1. rewrite H1.
    cbn [marks Z.eqb Pos.eqb]. rewrite marks_plain by done. do 2 f_equal. unfold p. lia. }
  unfold frame_line. rewrite E, Es, <- Hpre.
  assert (Ei : <[p := 0]> (pre ++ symbol ++ 43 :: rest) = pre ++ symbol ++ 0 :: rest).
  { unfold p. rewrite insert_app_r. f_equal. rewrite <- (Nat.add_0_r (length symbol)). by rewrite insert_app_r. }
  rewrite Ei, drop_app_length, c_string_cut by done.
  destruct (cxa_demangle symbol) as [name|]; cbn [default].
  - rewrite take_app_length. unfold p. rewrite <- drop_drop, !drop_app_length.
    unfold pre. by rewrite <- !app_assoc.
  - unfold pre, id. by rewrite <- !app_assoc.
Qed.

End Trace.

(** One frame with a symbol that is demangled and one with none. *)
Example trace :
  stackTrace (λ _, Some [str "self"; str "bin/t(_ZN3Bar4testEv+0x79) [0x401909]"; str "libc() [0x7]"])
    (λ s, if bool_decide (s = str "_ZN3Bar4testEv") then Some (str "Bar::test()") else None)
    true [1; 2; 3] =
  str "bin/t(Bar::test()+0x79) [0x401909]" ++ [10] ++ str "libc() [0x7]" ++ [10].
Proof. vm_compute. reflexivity. Qed.

End Backtrace.
