(* ===== verification/Log.v ===== *)
(** * The logger

    [src/base/log/{logbuffer,logger,logthread}.{hpp,cpp}]: one logger
    per thread with two buffers, and a thread that is to write them to the log
    file. Loggers are shared pointers: a logger is its position in the list of
    all loggers made. Time stamps and file names of a line are arguments;
    what goes to the console is only evaluated. The handler of signals logs a
    trace of [Backtrace] and ends the process. The log file is the list of bytes
    written to it; [TimeStamp] has its stream and its openings. *)
From S2P Require Import Prelude Backtrace.

Module Log.

(** ** The double buffer *)

(** [cur_head] tells whether [curPtr_] points to [head_]. *)
Record VecLogBuffer : Type := mkVec { cur_head : bool; head_ : bytes; tail_ : bytes }.

Definition new_VecLogBuffer : VecLogBuffer := mkVec true [] [].

Definition buffer (b : VecLogBuffer) (head : bool) : bytes :=
  if head then head_ b else tail_ b.

Definition put (b : VecLogBuffer) (head : bool) (s : bytes) : VecLogBuffer :=
  if head then mkVec (cur_head b) s (tail_ b) else mkVec (cur_head b) (head_ b) s.

(** Makes the other buffer current and answers the one that was. *)
Definition SwapBuffer (b : VecLogBuffer) : bool * VecLogBuffer :=
  (cur_head b, mkVec (negb (cur_head b)) (head_ b) (tail_ b)).

(** ** A logger *)

Definition kLogThreshold : Z := 10486.
Definition kExit : Z := 5.
Definition kLogLevelNums : bytes := str "ITDEWQ".

(** [has_sum] is whether [sumWrites_] points to the thread's counter. *)
Record Logger : Type := mkLogger {
  isSync_ : bool;
  has_sum : bool;
  curLogLevel_ : Z;
  buf_ : VecLogBuffer;
  isHolderByThread_ : bool
}.

(** The level is not initialised by the constructor; it is set when the logger
    is added to the thread. *)
Definition new_Logger (junk : Z) : Logger := mkLogger false false junk new_VecLogBuffer true.

Definition with_buf (l : Logger) (b : VecLogBuffer) : Logger :=
  mkLogger (isSync_ l) (has_sum l) (curLogLevel_ l) b (isHolderByThread_ l).
Definition setLogLev (l : Logger) (lev : Z) : Logger :=
  mkLogger (isSync_ l) (has_sum l) lev (buf_ l) (isHolderByThread_ l).
Definition setLogToFile (l : Logger) : Logger :=
  mkLogger true (has_sum l) (curLogLevel_ l) (buf_ l) (isHolderByThread_ l).
Definition configInit (l : Logger) : Logger :=
  mkLogger (isSync_ l) true (curLogLevel_ l) (buf_ l) (isHolderByThread_ l).
(** Assigning 0 to the shared pointer lets go of the counter. *)
Definition ClearSum (l : Logger) : Logger :=
  mkLogger (isSync_ l) false (curLogLevel_ l) (buf_ l) (isHolderByThread_ l).
(** The destructor of [LogImp]. *)
Definition release (l : Logger) : Logger :=
  mkLogger (isSync_ l) (has_sum l) (curLogLevel_ l) (buf_ l) false.

(** A message and where it comes from. *)
Record Ment : Type := mkMent { filename : bytes; m_line : Z; lev : Z; now : bytes; text : bytes }.

Definition line (m : Ment) : outcome bytes :=
  c ← rd kLogLevelNums (Z.to_nat (lev m));
  Done (c :: now m ++ str " " ++ filename m ++ str ":" ++ dec (m_line m) ++ str "] " ++
        text m ++ [10]).

(** [LogMent], built without DEBUG, given the value of the shared counter. *)
Definition LogMent (l : Logger) (sum : Z) (m : Ment) : outcome Logger :=
  (if isSync_ l then Done tt else line m ;; Done tt) ;;
  if (lev m <? curLogLevel_ l) then Done l
  else if (kExit <? lev m) then Done l
  else
    s ← line m;
    let b := buf_ l in
    let l := with_buf l (put b (cur_head b) (buffer b (cur_head b) ++ s)) in
    guard_fault (has_sum l) NullDeref ;;
    Done (if kLogThreshold <=? sum then ClearSum l else l).

(** ** The thread *)

(** [file_] is what was written to the open log file; [None] has no file. *)
Record LogThread : Type := mkThread {
  loglev_ : Z;
  file_ : option bytes;
  logVectmp_ : list nat;
  logworkers_ : list nat;
  thread_isSync : bool;
  isRunning_ : bool;
  sumWrites_ : Z;
  loggers : list Logger
}.

Definition new_LogThread : LogThread := mkThread 0 None [] [] false false 0 [].

Definition with_loggers (t : LogThread) (ls : list Logger) : LogThread :=
  mkThread (loglev_ t) (file_ t) (logVectmp_ t) (logworkers_ t) (thread_isSync t)
    (isRunning_ t) (sumWrites_ t) ls.
Definition with_file (t : LogThread) (f : option bytes) : LogThread :=
  mkThread (loglev_ t) f (logVectmp_ t) (logworkers_ t) (thread_isSync t)
    (isRunning_ t) (sumWrites_ t) (loggers t).
Definition with_workers (t : LogThread) (tmp workers : list nat) : LogThread :=
  mkThread (loglev_ t) (file_ t) tmp workers (thread_isSync t)
    (isRunning_ t) (sumWrites_ t) (loggers t).

(** [LogFile::SetLogPath]: [opened] is whether [fopen] with mode w+, which
    empties the file, succeeded. *)
Definition SetLogPath (opened : bool) : outcome (option bytes) :=
  cassert opened ;; Done (Some []).

(** [LogFile::WriteStr]. *)
Definition WriteStr (t : LogThread) (s : bytes) : outcome LogThread :=
  f ← of_option NullDeref (file_ t); Done (with_file t (Some (f ++ s))).

Definition Init (t : LogThread) (opened : bool) (level : Z) (isSync : bool) : outcome LogThread :=
  f ← SetLogPath opened;
  Done (mkThread level f (logVectmp_ t) (logworkers_ t) isSync true (sumWrites_ t) (loggers t)).

(** The constructor of [LogImp]: a new logger, added to the thread. *)
Definition AddLogger (t : LogThread) (junk : Z) : LogThread :=
  let log := setLogLev (new_Logger junk) (loglev_ t) in
  let log := if isRunning_ t then setLogToFile log else log in
  let t := with_loggers t (loggers t ++ [configInit log]) in
  with_workers t (logVectmp_ t ++ [(length (loggers t) - 1)%nat]) (logworkers_ t).

Definition on_logger (t : LogThread) (w : nat) (f : Logger → outcome Logger) : outcome LogThread :=
  l ← of_option Dangling (loggers t !! w);
  l ← f l;
  Done (with_loggers t (<[w := l]> (loggers t))).

(** Swaps the buffers of logger [w] and answers which one to write, and it. *)
Definition swap (t : LogThread) (w : nat) : outcome (bool * bytes * LogThread) :=
  l ← of_option Dangling (loggers t !! w);
  let '(b, v) := SwapBuffer (buf_ l) in
  Done (b, buffer v b, with_loggers t (<[w := with_buf l v]> (loggers t))).

Definition clear (t : LogThread) (w : nat) (b : bool) : outcome LogThread :=
  on_logger t w (λ l, Done (with_buf l (put (buf_ l) b []))).

(** [std::swap (v[i], v.back ()); v.pop_back ()]. *)
Definition swap_pop (t : LogThread) (i : nat) : LogThread :=
  match last (logworkers_ t) with
  | Some w => with_workers t (logVectmp_ t) (removelast (<[i := w]> (logworkers_ t)))
  | None => t
  end.

(** The [i]th worker's turn in a round. The synchronous thread writes from the
    buffer it found empty. *)
Definition collect_one (t : LogThread) (i : nat) : outcome LogThread :=
  w ← of_option OutOfBounds (logworkers_ t !! i);
  '(b, s, t) ← swap t w;
  match s with
  | [] =>
      l ← of_option Dangling (loggers t !! w);
      if isHolderByThread_ l then Done t
      else
        '(_, s', t) ← swap t w;
        match s' with
        | [] => Done (swap_pop t i)
        | _ :: _ =>
            if thread_isSync t then Fault OutOfBounds
            else t ← WriteStr t s'; Done (swap_pop t i)
        end
  | _ :: _ => t ← WriteStr t s; clear t w b
  end.

Fixpoint collect_from (t : LogThread) (i n : nat) : outcome LogThread :=
  match n with
  | O => Done t
  | S n' => t ← collect_one t i; collect_from t (S i) n'
  end.

(** One round: new loggers become workers; nothing else while the shared
    counter is zero. The number of workers is read once. *)
Definition round (t : LogThread) : outcome LogThread :=
  let t := with_workers t [] (logworkers_ t ++ logVectmp_ t) in
  if sumWrites_ t =? 0 then Done t
  else collect_from t 0 (length (logworkers_ t)).

(** One of the two passes when the thread ends. *)
Fixpoint flush (t : LogThread) (ws : list nat) : outcome LogThread :=
  match ws with
  | [] => Done t
  | w :: ws' =>
      '(b, s, t) ← swap t w;
      match s with
      | [] => flush t ws'
      | _ :: _ => t ← WriteStr t s; t ← clear t w b; flush t ws'
      end
  end.

(** [Stop] joins the thread, if there is one, which then flushes twice. *)
Definition Stop (t : LogThread) : outcome LogThread :=
  if isRunning_ t then
    t ← flush t (logworkers_ t);
    t ← flush t (logworkers_ t);
    Done (mkThread (loglev_ t) (file_ t) (logVectmp_ t) (logworkers_ t) (thread_isSync t)
            false (sumWrites_ t) (loggers t))
  else Done t.

(** ** Signals *)

(** The signals that the handler knows, and the line it logs from. *)
Definition signal_case (signal : Z) : option (bytes * Z) :=
  if signal =? 2 then Some (str "SIGINT", 25)
  else if signal =? 3 then Some (str "SIGQUIT", 30)
  else if signal =? 7 then Some (str "SIGBUS", 35)
  else if signal =? 11 then Some (str "SIGSEGV", 40)
  else if signal =? 4 then Some (str "SIGILL", 45)
  else if signal =? 6 then Some (str "SIGABRT", 50)
  else None.

(** Those it is registered for. *)
Definition registered (signal : Z) : bool := (signal =? 2) || (signal =? 3).

Definition kError : Z := 3.

Section Signals.
Context (backtrace_symbols : list Z → option (list bytes)) (cxa_demangle : bytes → option bytes).

Definition signal_ment (filename now : bytes) (stack : list Z) (c : bytes * Z) : Ment :=
  mkMent filename c.2 kError now
    (c.1 ++ str ":" ++ [10] ++
     Backtrace.stackTrace backtrace_symbols cxa_demangle true stack).

(** [SignalExecute], interrupting the thread of logger [w]; [held] is whether
    that thread is logging, with the mutex of its buffers. [exit] destroys the
    thread's [LogImp] and then the log thread. The result is whether the process
    has ended. *)
Definition SignalExecute (t : LogThread) (w : nat) (held : bool) (filename now : bytes)
    (stack : list Z) (signal : Z) : outcome (LogThread * bool) :=
  match signal_case signal with
  | None => Done (t, false)
  | Some c =>
      guard_fault (negb held) Deadlock ;;
      t ← on_logger t w (λ l, LogMent l (sumWrites_ t) (signal_ment filename now stack c));
      t ← on_logger t w (λ l, Done (release l));
      t ← Stop t;
      Done (t, true)
  end.
End Signals.

(** ** What is written *)

(** What happens while the thread runs: a thread's logger is made or given up,
    a message is logged, the log thread goes round. *)
Inductive Event : Type :=
  | New (junk : Z)
  | End (w : nat)
  | Say (w : nat) (m : Ment)
  | Round.

Definition step (t : LogThread) (e : Event) : outcome LogThread :=
  match e with
  | New junk => Done (AddLogger t junk)
  | End w => on_logger t w (λ l, Done (release l))
  | Say w m => on_logger t w (λ l, LogMent l (sumWrites_ t) m)
  | Round => round t
  end.

Fixpoint steps (t : LogThread) (es : list Event) : outcome LogThread :=
  match es with
  | [] => Done t
  | e :: es' => t ← step t e; steps t es'
  end.

(** Events name loggers that exist ([n] of them at the start) and messages are
    of the levels of the [LOG_] macros. *)
Fixpoint events_ok (n : nat) (es : list Event) : Prop :=
  match es with
  | [] => True
  | New _ :: es' => events_ok (S n) es'
  | End w :: es' => (w < n)%nat ∧ events_ok n es'
  | Say w m :: es' => ((w < n)%nat ∧ 0 ≤ lev m ≤ kExit) ∧ events_ok n es'
  | Round :: es' => events_ok n es'
  end.

(** What logger [w] admits of the messages it is given. *)
Fixpoint said (w : nat) (level : Z) (es : list Event) : bytes :=
  match es with
  | Say v m :: es' =>
      (if decide (v = w ∧ level ≤ lev m)
       then match line m with Done s => s | Fault _ => [] end else []) ++ said w level es'
  | _ :: es' => said w level es'
  | [] => []
  end.

Definition fresh_logger (l : Logger) : Prop :=
  has_sum l = true ∧ cur_head (buf_ l) = true ∧ tail_ (buf_ l) = [].

(** Nobody ever adds to the counter, so the loggers are never collected. *)
Record quiet (t : LogThread) : Prop := mkQuiet {
  q_sum : sumWrites_ t = 0;
  q_fresh : Forall fresh_logger (loggers t);
  q_tasks : Forall (λ w, (w < length (loggers t))%nat) (logVectmp_ t ++ logworkers_ t);
  q_nodup : NoDup (logVectmp_ t ++ logworkers_ t)
}.

Lemma line_done (m : Ment) : 0 ≤ lev m ≤ kExit → ∃ s, line m = Done s.
Proof.
  intros Hl. unfold line, kExit in *.
  destruct (lookup_lt_is_Some_2 kLogLevelNums (Z.to_nat (lev m))) as [c Hc]; [simpl; lia|].
  unfold rd. rewrite Hc. cbn [of_option]. rewrite bind_Done_l. eauto.
Qed.

(** A message of a public level appends its line if it is admitted. *)
Lemma LogMent_spec (l : Logger) (m : Ment) (w : nat) :
  fresh_logger l → 0 ≤ lev m ≤ kExit →
  ∃ l', LogMent l 0 m = Done l' ∧ fresh_logger l' ∧ curLogLevel_ l' = curLogLevel_ l ∧
    head_ (buf_ l') = head_ (buf_ l) ++ said w (curLogLevel_ l) [Say w m].
Proof.
  intros (Hs & Hc & Ht) Hl. destruct (line_done m Hl) as [s Es]. unfold LogMent, said.
  assert (E : (if isSync_ l then Done tt else line m ;; Done tt) = Done tt)
    by (destruct (isSync_ l); [done|]; by rewrite Es).
  rewrite E, bind_Done_l, Es, app_nil_r.
  destruct (Z.ltb_spec (lev m) (curLogLevel_ l)).
  - rewrite decide_False by lia. exists l. rewrite app_nil_r. done.
  - rewrite decide_True by (split; [done|lia]). rewrite (proj2 (Z.ltb_ge _ _)) by lia.
    rewrite bind_Done_l, Hc. cbn [with_buf has_sum]. rewrite Hs. cbn [guard_fault]. rewrite bind_Done_l.
    change (kLogThreshold <=? 0) with false.
    eexists. split; [reflexivity|]. cbn. by split_and!.
Qed.

Lemma on_logger_at (t : LogThread) (w : nat) (l l' : Logger) (f : Logger → outcome Logger) :
  loggers t !! w = Some l → f l = Done l' →
  on_logger t w f = Done (with_loggers t (<[w := l']> (loggers t))).
Proof. intros E Ef. unfold on_logger. by rewrite E; cbn; rewrite Ef. Qed.

(** Replacing a logger by one that is as fresh keeps the thread quiet. *)
Lemma quiet_update (t : LogThread) (w : nat) (l : Logger) :
  quiet t → fresh_logger l → quiet (with_loggers t (<[w := l]> (loggers t))).
Proof.
  intros [H1 H2 H3 H4] Hl. constructor; cbn; try done.
  - apply Forall_insert; done.
  - by rewrite length_insert.
Qed.

(** What the text of logger [w] gains in a step, from its level. *)
Definition gains (t t' : LogThread) (es : list Event) : Prop :=
  ∀ w l, loggers t !! w = Some l → ∃ l', loggers t' !! w = Some l' ∧
    curLogLevel_ l' = curLogLevel_ l ∧
    head_ (buf_ l') = head_ (buf_ l) ++ said w (curLogLevel_ l) es.

(** The state after a step of a quiet thread. *)
Definition kept (t t' : LogThread) (es : list Event) (n : nat) : Prop :=
  quiet t' ∧ file_ t' = file_ t ∧ isRunning_ t' = isRunning_ t ∧ gains t t' es ∧
  length (loggers t') = n.

Lemma AddLogger_kept (t : LogThread) (junk : Z) :
  quiet t → kept t (AddLogger t junk) [New junk] (S (length (loggers t))).
Proof.
  intros [Hs Hf Ht Hn]. unfold kept, AddLogger. cbn. rewrite length_app. cbn.
  replace (length (loggers t) + 1 - 1)%nat with (length (loggers t)) by lia.
  split_and!; try done; [|intros w l E|lia].
  - constructor; cbn; [done| | |].
    + apply Forall_app. split; [done|]. constructor; [|done]. by destruct (isRunning_ t).
    + rewrite !Forall_app in *. destruct Ht as [H1 H2].
      split_and!; [eapply Forall_impl; [exact H1|]|constructor; [|done]
                  |eapply Forall_impl; [exact H2|]]; cbn; intros; rewrite length_app; cbn; lia.
    + rewrite <- app_assoc. cbn [app]. rewrite <- Permutation_middle. constructor; [|done].
      intros Hin. rewrite Forall_forall in Ht. specialize (Ht _ Hin). cbn in Ht. lia.
  - exists l. rewrite app_nil_r. cbn. by rewrite lookup_app_l by (by eapply lookup_lt_Some).
Qed.

Lemma on_logger_kept (t : LogThread) (w : nat) (l l' : Logger) (f : Logger → outcome Logger)
    (es : list Event) :
  quiet t → loggers t !! w = Some l → f l = Done l' → fresh_logger l' →
  curLogLevel_ l' = curLogLevel_ l →
  head_ (buf_ l') = head_ (buf_ l) ++ said w (curLogLevel_ l) es →
  (∀ v level, v ≠ w → said v level es = []) →
  ∃ t', on_logger t w f = Done t' ∧ kept t t' es (length (loggers t)).
Proof.
  intros Hq El Ef Hfl Hlv Hh Hne. erewrite on_logger_at by done.
  eexists. split; [reflexivity|]. split_and!; try done; [by apply quiet_update| |by apply length_insert].
  intros v k Ek. cbn [loggers with_loggers]. destruct (decide (w = v)) as [<-|Hv].
  - rewrite list_lookup_insert_eq by (by eapply lookup_lt_Some).
    rewrite El in Ek. injection Ek as <-. by exists l'.
  - rewrite list_lookup_insert_ne by done. exists k. by rewrite Hne, app_nil_r.
Qed.

Lemma step_quiet (t : LogThread) (e : Event) :
  quiet t → events_ok (length (loggers t)) [e] →
  ∃ t', step t e = Done t' ∧
    kept t t' [e] (match e with New _ => S (length (loggers t)) | _ => length (loggers t) end).
Proof.
  intros Hq He. pose proof Hq as [Hs Hf Ht Hn].
  destruct e as [junk|w|w m|]; cbn [step events_ok] in *.
  - eexists. split; [reflexivity|]. by apply AddLogger_kept.
  - destruct (lookup_lt_is_Some_2 (loggers t) w (proj1 He)) as [l El].
    pose proof (proj1 (Forall_lookup _ _) Hf _ _ El).
    eapply on_logger_kept; try done. by rewrite app_nil_r.
  - destruct He as [[Hw Hl] _]. destruct (lookup_lt_is_Some_2 (loggers t) w Hw) as [l El].
    pose proof (proj1 (Forall_lookup _ _) Hf _ _ El) as Hfl.
    destruct (LogMent_spec l m w Hfl Hl) as (l' & Em & Hfl' & Hlv & Hh). rewrite Hs.
    eapply on_logger_kept; try done.
    intros v level Hv. cbn [said]. by rewrite decide_False by (intros [? _]; congruence).
  - unfold round. cbn [sumWrites_ with_workers]. rewrite Hs. cbn [Z.eqb].
    eexists. split; [reflexivity|]. split_and!; try done.
    + constructor; cbn; [done|done| |]; by rewrite Permutation_app_comm.
    + intros w l E. exists l. by rewrite app_nil_r.
Qed.

Lemma steps_quiet (es : list Event) : ∀ t, quiet t → events_ok (length (loggers t)) es →
  ∃ t', steps t es = Done t' ∧ quiet t' ∧ file_ t' = file_ t ∧ isRunning_ t' = isRunning_ t ∧
    gains t t' es.
Proof.
  induction es as [|e es IH]; intros t Hq He.
  { exists t. split_and!; try done. intros w l E. exists l. by rewrite app_nil_r. }
  assert (He1 : events_ok (length (loggers t)) [e] ∧
    events_ok (match e with New _ => S (length (loggers t)) | _ => length (loggers t) end) es)
    by (destruct e; cbn in *; tauto).
  destruct (step_quiet t e Hq (proj1 He1)) as (t1 & E1 & Hq1 & Hf1 & Hr1 & Hg1 & Hl1).
  rewrite <- Hl1 in He1.
  destruct (IH t1 Hq1 (proj2 He1)) as (t2 & E2 & Hq2 & Hf2 & Hr2 & Hg2).
  exists t2. cbn [steps]. rewrite E1, bind_Done_l. split_and!; [done|done|congruence|congruence|].
  intros w l E. destruct (Hg1 w l E) as (l1 & El1 & Hlv1 & Hh1).
  destruct (Hg2 w l1 El1) as (l2 & El2 & Hlv2 & Hh2). exists l2. split; [done|].
  split; [congruence|]. rewrite Hh2, Hh1, Hlv1, <- app_assoc. f_equal.
  destruct e; cbn [said app]; rewrite ?app_nil_r; done.
Qed.

(** ** The two passes at the end *)

(** What the current, or the other, buffers of the workers hold. *)
Definition texts (cur : bool) (t : LogThread) (ws : list nat) : bytes :=
  concat ((λ w, match loggers t !! w with
                | Some l => buffer (buf_ l) (if cur then cur_head (buf_ l) else negb (cur_head (buf_ l)))
                | None => []
                end) <$> ws).

Lemma texts_with (cur : bool) (t t' : LogThread) (ws : list nat) :
  (∀ w, w ∈ ws → loggers t' !! w = loggers t !! w) → texts cur t' ws = texts cur t ws.
Proof.
  intros H. unfold texts. f_equal. apply list_fmap_ext. intros i w Hw.
  by rewrite H by (by eapply list_elem_of_lookup_2).
Qed.

(** One worker's turn of a pass: its current buffer is written and emptied and
    the other one made current. *)
Lemma flush_cons (t : LogThread) (w : nat) (ws : list nat) (f : bytes) (l : Logger) :
  file_ t = Some f → loggers t !! w = Some l →
  let b := buf_ l in
  let c := cur_head b in
  flush t (w :: ws) =
  flush (with_file (with_loggers t
           (<[w := with_buf l (put (mkVec (negb c) (head_ b) (tail_ b)) c [])]> (loggers t)))
           (Some (f ++ buffer b c))) ws.
Proof.
  intros Hf El b c. cbn [flush]. unfold swap. rewrite El. cbn [of_option]. rewrite bind_Done_l.
  unfold SwapBuffer. fold b c. rewrite bind_Done_l.
  assert (Eb : buffer (mkVec (negb c) (head_ b) (tail_ b)) c = buffer b c) by (by destruct c). rewrite Eb.
  destruct (buffer b c) as [|x s] eqn:E.
  - f_equal. rewrite app_nil_r, <- Hf. destruct t; unfold with_file, with_loggers; cbn. do 3 f_equal.
    unfold buffer in E. by destruct c; cbn; rewrite E.
  - unfold WriteStr. cbn [file_ with_loggers]. rewrite Hf. cbn [of_option]. rewrite !bind_Done_l.
    unfold clear. erewrite on_logger_at; [|apply list_lookup_insert_eq; by eapply lookup_lt_Some|done].
    rewrite bind_Done_l. f_equal. destruct t; unfold with_file, with_loggers; cbn.
    by rewrite list_insert_insert_eq.
Qed.

Lemma flush_spec (ws : list nat) : ∀ (t : LogThread) (f : bytes),
  file_ t = Some f → NoDup ws → Forall (λ w, (w < length (loggers t))%nat) ws →
  ∃ ls, let t' := with_file (with_loggers t ls) (Some (f ++ texts true t ws)) in
    flush t ws = Done t' ∧ length ls = length (loggers t) ∧
    (∀ w, w ∉ ws → ls !! w = loggers t !! w) ∧ texts true t' ws = texts false t ws.
Proof.
  induction ws as [|w ws IH]; intros t f Hf Hn Hw.
  { exists (loggers t). cbn. rewrite app_nil_r, <- Hf. split_and!; try done. by destruct t. }
  apply NoDup_cons in Hn as [Hnw Hn]. apply Forall_cons in Hw as [Hw Hws].
  destruct (lookup_lt_is_Some_2 (loggers t) w Hw) as [l El].
  rewrite (flush_cons t w ws f l Hf El).
  set (b := buf_ l). set (c := cur_head b).
  set (k := with_buf l (put (mkVec (negb c) (head_ b) (tail_ b)) c [])).
  set (t1 := with_file (with_loggers t (<[w := k]> (loggers t))) (Some (f ++ buffer b c))).
  assert (Hsame : ∀ v, v ∈ ws → loggers t1 !! v = loggers t !! v).
  { intros v Hv. unfold t1. cbn. apply list_lookup_insert_ne. intros ->. done. }
  destruct (IH t1 (f ++ buffer b c) eq_refl Hn) as (ls & E & Hlen & Hout & Htx).
  { unfold t1. cbn. by rewrite length_insert. }
  assert (Hk : ls !! w = Some k).
  { rewrite (Hout w Hnw). unfold t1. cbn. apply list_lookup_insert_eq. by eapply lookup_lt_Some. }
  exists ls. rewrite E. unfold t1 in Hlen. cbn in Hlen. rewrite length_insert in Hlen.
  assert (E1 : texts true t (w :: ws) = buffer b c ++ texts true t1 ws)
    by (rewrite (texts_with true t t1 ws) by done; unfold texts; cbn; by rewrite El).
  rewrite E1. split_and!; [|done| |].
  - by rewrite app_assoc.
  - intros v Hv. apply not_elem_of_cons in Hv as [Hv1 Hv2]. rewrite (Hout v Hv2). unfold t1. cbn.
    by apply list_lookup_insert_ne.
  - rewrite (texts_with false t t1 ws) in Htx by done. unfold texts in *. cbn [fmap list_fmap concat].
    f_equal; [|exact Htx]. cbn. rewrite Hk, El. unfold k, c, b. cbn.
    by destruct (cur_head (buf_ l)).
Qed.

(** Ending the thread writes the current buffers of its workers, in order,
    then their other ones. *)
Lemma Stop_spec (t : LogThread) (f : bytes) :
  isRunning_ t = true → file_ t = Some f → NoDup (logworkers_ t) →
  Forall (λ w, (w < length (loggers t))%nat) (logworkers_ t) →
  ∃ t', Stop t = Done t' ∧
    file_ t' = Some (f ++ texts true t (logworkers_ t) ++ texts false t (logworkers_ t)).
Proof.
  intros Hr Hf Hn Hw. unfold Stop. rewrite Hr.
  destruct (flush_spec _ t f Hf Hn Hw) as (ls & -> & Hlen & _ & Htx). rewrite bind_Done_l.
  set (t1 := with_file _ _) in *.
  destruct (flush_spec (logworkers_ t) t1 _ eq_refl Hn) as (ls' & E & _); [cbn; by rewrite Hlen|].
  change (logworkers_ t1) with (logworkers_ t). rewrite E, bind_Done_l.
  eexists. split; [reflexivity|]. cbn. by rewrite Htx, app_assoc.
Qed.

(** A quiet thread that is stopped writes the first buffers of its workers. *)
Lemma Stop_quiet (t : LogThread) (f : bytes) :
  quiet t → isRunning_ t = true → file_ t = Some f →
  ∃ t', Stop t = Done t' ∧
    file_ t' = Some (f ++ concat ((λ w, from_option (λ l, head_ (buf_ l)) [] (loggers t !! w))
                                    <$> logworkers_ t)).
Proof.
  intros [Hs Hfr Ht Hn] Hr Hf.
  apply Forall_app in Ht as [_ Ht]. apply NoDup_app in Hn as (_ & _ & Hn).
  destruct (Stop_spec t f Hr Hf Hn Ht) as (t' & E & Hf'). exists t'. split; [done|].
  rewrite Hf'. do 2 f_equal.
  assert (Hl : ∀ w l, loggers t !! w = Some l → fresh_logger l)
    by (intros w l El; exact (proj1 (Forall_lookup _ _) Hfr _ _ El)).
  assert (E2 : texts false t (logworkers_ t) = []).
  { unfold texts. clear -Hl. induction (logworkers_ t) as [|w ws IH]; [done|]. cbn.
    destruct (loggers t !! w) as [l|] eqn:El; [|exact IH].
    destruct (Hl w l El) as (_ & -> & H). cbn. by rewrite H. }
  rewrite E2, app_nil_r. unfold texts. f_equal. apply list_fmap_ext. intros i w _. cbn.
  destruct (loggers t !! w) as [l|] eqn:El; [|done].
  by destruct (Hl w l El) as (_ & -> & _).
Qed.

(** A signal that is handled ends the process with the trace behind what the
    interrupted thread has logged, and all workers written - unless that thread
    was logging, when the handler waits for its own thread. *)
Theorem signal_written (symbols : list Z → option (list bytes)) (demangle : bytes → option bytes)
    (t : LogThread) (w : nat) (l : Logger) (f filename now : bytes) (stack : list Z) (signal : Z)
    (c : bytes * Z) :
  quiet t → isRunning_ t = true → file_ t = Some f → loggers t !! w = Some l →
  signal_case signal = Some c →
  let handler held := SignalExecute symbols demangle t w held filename now stack signal in
  handler true = Fault Deadlock ∧
  ∃ t', handler false = Done (t', true) ∧
    file_ t' = Some (f ++ concat ((λ v, from_option (λ k, head_ (buf_ k) ++
                         (if decide (v = w)
                          then said w (curLogLevel_ l) [Say w (signal_ment symbols demangle filename now stack c)]
                          else [])) [] (loggers t !! v)) <$> logworkers_ t)).
Proof.
  intros Hq Hr Hf El Hc handler. unfold handler, SignalExecute. rewrite Hc. split; [done|].
  set (m := signal_ment _ _ _ _ _ _). cbn [negb guard_fault]. rewrite bind_Done_l.
  pose proof (proj1 (Forall_lookup _ _) (q_fresh t Hq) _ _ El) as Hfl.
  destruct (LogMent_spec l m w Hfl) as (l1 & Em & Hfl1 & _ & Hh); [by vm_compute|].
  rewrite (q_sum t Hq), (on_logger_at t w l l1 _ El Em), bind_Done_l.
  set (t1 := with_loggers t _).
  assert (El1 : loggers t1 !! w = Some l1)
    by (unfold t1; cbn; apply list_lookup_insert_eq; by eapply lookup_lt_Some).
  rewrite (on_logger_at t1 w l1 (release l1) _ El1 eq_refl), bind_Done_l.
  set (t2 := with_loggers t1 _).
  assert (Hq2 : quiet t2).
  { unfold t2. apply quiet_update; [|exact Hfl1]. unfold t1. by apply quiet_update. }
  destruct (Stop_quiet t2 f Hq2 Hr Hf) as (t' & E & Hf'). rewrite E, bind_Done_l.
  exists t'. split; [done|]. rewrite Hf'. do 3 f_equal. apply list_fmap_ext. intros i v _.
  unfold t2, t1. cbn [loggers with_loggers]. destruct (decide (v = w)) as [->|Hv].
  - rewrite list_lookup_insert_eq by (rewrite length_insert; by eapply lookup_lt_Some).
    rewrite El. cbn [from_option release buf_]. by rewrite Hh.
  - rewrite !list_lookup_insert_ne by done. by destruct (loggers t !! v); cbn; rewrite ?app_nil_r.
Qed.

(** A log is written when the program ends, and not before. Whatever
    loggers are made, messages logged and rounds made by a running thread whose
    loggers have not been collected yet, the file does not change: nobody
    counts the writes, and every round finds a count of zero. Each message that
    is not below its logger's level is appended to that logger's buffer, and
    [Stop] then writes the buffers of the workers, one behind the other in the
    order they became workers; what a logger wrote that no round has made a
    worker is lost. *)
Theorem log_written_at_stop (t : LogThread) (es : list Event) (f : bytes)
  (Hq : quiet t) (Hr : isRunning_ t = true) (Hf : file_ t = Some f)
  (He : events_ok (length (loggers t)) es) :
  ∃ t', steps t es = Done t' ∧ file_ t' = Some f ∧
    (∀ w l, loggers t !! w = Some l → ∃ l', loggers t' !! w = Some l' ∧
       head_ (buf_ l') = head_ (buf_ l) ++ said w (curLogLevel_ l) es) ∧
    ∃ t'', Stop t' = Done t'' ∧
      file_ t'' = Some (f ++ concat ((λ w, from_option (λ l, head_ (buf_ l)) [] (loggers t' !! w))
                                       <$> logworkers_ t')).
Proof.
  destruct (steps_quiet es t Hq He) as (t' & E & [Hs Hfr Ht Hn] & Ef & Er & Hg).
  exists t'. split; [done|]. split; [congruence|]. split.
  { intros w l El. destruct (Hg w l El) as (l' & ? & _ & ?). eauto. }
  apply Stop_quiet; [by constructor|congruence|congruence].
Qed.

Module Examples.
Definition started : LogThread :=
  match (t ← Init new_LogThread true 0 false; Done (AddLogger t 0)) with
  | Done t => t
  | Fault _ => new_LogThread
  end.
Definition hello : Ment := mkMent (str "a.cpp") 7 0 (str "now") (str "hello").
Definition events : list Event := [Round; Say 0 hello; Round; New 0; Say 1 hello].
End Examples.
Import Examples.

Lemma log_written_at_stop_witness :
  quiet started ∧ isRunning_ started = true ∧ file_ started = Some [] ∧
  ∃ t', steps started events = Done t' ∧ file_ t' = Some [] ∧
    ∃ t'', Stop t' = Done t'' ∧ file_ t'' = Some (str "Inow a.cpp:7] hello" ++ [10]).
Proof.
  assert (H1 : quiet started).
  { constructor; [done|by repeat constructor|by repeat constructor; vm_compute; lia|].
    apply NoDup_singleton. }
  split; [exact H1|]. split; [reflexivity|]. split; [reflexivity|].
  destruct (log_written_at_stop started events [] H1 eq_refl eq_refl) as (t' & E & Hf & _ & t'' & E' & Hf').
  { cbn. unfold kExit. split_and!; lia. }
  exists t'. split; [exact E|]. split; [exact Hf|]. exists t''. split; [exact E'|].
  rewrite Hf'. vm_compute in E. injection E as <-. reflexivity.
Defined.

(** A debug message printed before the file is set up is past the table of
    level letters. *)
Example debug_level_overruns :
  LogMent (configInit (setLogLev (new_Logger 0) 0)) 0 (mkMent [] 1 6 [] []) = Fault OutOfBounds.
Proof. reflexivity. Qed.

End Log.
