(* ===== verification/LogRun.v ===== *)
(** * The log thread, step by step

    [LogThread::Init] of [src/base/log/logthread.cpp]: the thread that collects
    what the loggers of [Log] have buffered, as a machine whose steps are
    interleaved with the threads that make loggers, give them up, log through
    them and stop it. A logger's mutex makes the swap of its buffers, or the
    appending of a message, one step; while it runs, the thread writes and clears
    the buffer it has swapped out without the mutex, in the step of the swap: no
    other thread has that buffer. *)
From S2P Require Import Prelude Backtrace Log.
Import Log.

Module LogRun.

(** Where the thread is: before the test of [isRunning_], before and behind the
    taking over of new loggers, behind the wait, at a worker of a round with
    how many are left, behind the loop, at the workers of the two last passes. *)
Inductive Pc : Type :=
  | AtLoop
  | Entered
  | Waiting
  | Awake
  | Collecting (i n : nat)
  | Ended
  | Flushing1 (ws : list nat)
  | Flushing2 (ws : list nat)
  | Exited.

Inductive Label : Type :=
  | LThread
  | LNew (junk : Z)
  | LEnd (w : nat)
  | LSay (w : nat) (m : Ment)
  | LStop.

Record Sys : Type := mkSys { log : LogThread; pc : Pc }.

Definition at_pc (s : Sys) (p : Pc) : outcome Sys := Done (mkSys (log s) p).

Definition set_running (t : LogThread) (b : bool) : LogThread :=
  mkThread (loglev_ t) (file_ t) (logVectmp_ t) (logworkers_ t) (thread_isSync t) b
    (sumWrites_ t) (loggers t).

(** One step of the thread. The wait ends by itself after a second, or three
    quarters of one. *)
Definition tstep (s : Sys) : outcome Sys :=
  let t := log s in
  match pc s with
  | AtLoop => at_pc s (if isRunning_ t then Entered else Ended)
  | Entered => Done (mkSys (with_workers t [] (logworkers_ t ++ logVectmp_ t)) Waiting)
  | Waiting => at_pc s Awake
  | Awake =>
      at_pc s (if sumWrites_ t =? 0 then AtLoop else Collecting 0 (length (logworkers_ t)))
  | Collecting i (S n) => t ← collect_one t i; Done (mkSys t (Collecting (S i) n))
  | Collecting _ O => at_pc s AtLoop
  | Ended => at_pc s (if isRunning_ t then Exited else Flushing1 (logworkers_ t))
  | Flushing1 (w :: ws) => t ← flush t [w]; Done (mkSys t (Flushing1 ws))
  | Flushing1 [] => at_pc s (Flushing2 (logworkers_ t))
  | Flushing2 (w :: ws) => t ← flush t [w]; Done (mkSys t (Flushing2 ws))
  | Flushing2 [] => at_pc s Exited
  | Exited => Done s
  end.

(** A step of the system. [Stop] clears the flag and then joins the thread. *)
Definition step (s : Sys) (l : Label) : outcome Sys :=
  match l with
  | LThread => tstep s
  | LNew junk => Done (mkSys (AddLogger (log s) junk) (pc s))
  | LEnd w => t ← on_logger (log s) w (λ l, Done (release l)); Done (mkSys t (pc s))
  | LSay w m => t ← on_logger (log s) w (λ l, LogMent l (sumWrites_ (log s)) m); Done (mkSys t (pc s))
  | LStop => Done (mkSys (set_running (log s) false) (pc s))
  end.

Fixpoint run (s : Sys) (ls : list Label) : outcome Sys :=
  match ls with
  | [] => Done s
  | l :: ls' => s ← step s l; run s ls'
  end.

(** The same as events of [Log]. *)
Definition event (l : Label) : Event :=
  match l with
  | LNew junk => New junk
  | LEnd w => End w
  | LSay w m => Say w m
  | LThread | LStop => Round
  end.

Lemma run_app (a b : list Label) : ∀ s, run s (a ++ b) = (s ← run s a; run s b).
Proof. induction a as [|l a IH]; intros s; cbn [run app]; [done|]. rewrite bind_assoc. by destruct (step s l); cbn; rewrite ?IH. Qed.

(** ** What the buffers hold *)

(** The buffer that is not current has been written and cleared. *)
Definition tidy (l : Logger) : Prop :=
  has_sum l = true ∧ buffer (buf_ l) (negb (cur_head (buf_ l))) = [].

Definition pending (l : Logger) : bytes := buffer (buf_ l) (cur_head (buf_ l)).

(** A message of a public level appends its line if it is admitted. *)
Lemma LogMent_tidy (l : Logger) (m : Ment) (w : nat) :
  tidy l → 0 ≤ lev m ≤ kExit →
  ∃ l', LogMent l 0 m = Done l' ∧ tidy l' ∧ curLogLevel_ l' = curLogLevel_ l ∧
    pending l' = pending l ++ said w (curLogLevel_ l) [Say w m].
Proof.
  intros (Hs & Ht) Hl. destruct (line_done m Hl) as [s Es]. unfold LogMent, said.
  assert (E : (if isSync_ l then Done tt else line m ;; Done tt) = Done tt)
    by (destruct (isSync_ l); [done|]; by rewrite Es).
  rewrite E, bind_Done_l, Es, app_nil_r.
  destruct (Z.ltb_spec (lev m) (curLogLevel_ l)).
  - rewrite decide_False by lia. exists l. by rewrite app_nil_r.
  - rewrite decide_True by (split; [done|lia]). rewrite (proj2 (Z.ltb_ge _ _)) by lia.
    rewrite bind_Done_l. cbn [with_buf has_sum]. rewrite Hs. cbn [guard_fault]. rewrite bind_Done_l.
    change (kLogThreshold <=? 0) with false. eexists. split; [reflexivity|].
    unfold tidy, pending in *. destruct (buf_ l) as [[] h t]; cbn in *; by split_and!.
Qed.

(** What is written when a worker is visited at the end, and what is left. *)
Lemma flush_visit (t : LogThread) (w : nat) (f : bytes) (l : Logger) :
  file_ t = Some f → loggers t !! w = Some l → tidy l →
  ∃ l', flush t [w] = Done (with_file (with_loggers t (<[w := l']> (loggers t))) (Some (f ++ pending l))) ∧
    tidy l' ∧ pending l' = [] ∧ curLogLevel_ l' = curLogLevel_ l.
Proof.
  intros Hf El [Hs Ht]. rewrite (flush_cons t w [] f l Hf El). cbn [flush].
  eexists. split; [reflexivity|]. unfold tidy, pending in *.
  destruct (buf_ l) as [[] h tl] eqn:E; cbn in *; by split_and!.
Qed.

(** ** What is kept *)

Lemma said_app (w : nat) (level : Z) (a b : list Event) :
  said w level (a ++ b) = said w level a ++ said w level b.
Proof. induction a as [|e a IH]; [done|]. destruct e; cbn [app said]; rewrite ?IH, ?app_assoc; done. Qed.

(** Of the pieces written to the file, those of logger [w]. *)
Definition written (w : nat) (out : list (nat * bytes)) : bytes :=
  concat ((λ p, if decide (p.1 = w) then p.2 else []) <$> out).

Lemma written_app (w : nat) (a b : list (nat * bytes)) :
  written w (a ++ b) = written w a ++ written w b.
Proof. unfold written. by rewrite fmap_app, concat_app. Qed.

Lemma written_one (w v : nat) (s : bytes) :
  written w [(v, s)] = if decide (v = w) then s else [].
Proof. unfold written. cbn. by rewrite app_nil_r. Qed.

(** Before the passes at the end. *)
Definition before (p : Pc) : bool :=
  match p with Flushing1 _ | Flushing2 _ | Exited => false | _ => true end.

(** The workers that a pass has still to visit. *)
Definition left_of (p : Pc) : list nat :=
  match p with Flushing1 ws | Flushing2 ws => ws | _ => [] end.

(** The first pass is through with the worker. *)
Definition visited (p : Pc) (w : nat) : Prop :=
  match p with Flushing1 ws => w ∉ ws | Flushing2 _ | Exited => True | _ => False end.

Section Kept.
(** The thread at the start, what its file held, and the events of the first
    part of the run. *)
Context (t0 : LogThread) (f : bytes) (past : list Event).

Definition text (w : nat) (level : Z) (es : list Event) : bytes :=
  from_option pending [] (loggers t0 !! w) ++ said w level es.

(** After events [es], with the pieces [out] written. *)
Record kept (es : list Event) (out : list (nat * bytes)) (s : Sys) : Prop := mkKept {
  k_sum : sumWrites_ (log s) = 0;
  k_file : file_ (log s) = Some (f ++ concat out.*2);
  k_tasks : Forall (λ w, (w < length (loggers (log s)))%nat)
              (logVectmp_ (log s) ++ logworkers_ (log s) ++ left_of (pc s));
  k_text : ∀ w l, loggers (log s) !! w = Some l →
    tidy l ∧ written w out ++ pending l = text w (curLogLevel_ l) es;
  k_fresh : ∀ w level, (length (loggers (log s)) ≤ w)%nat →
    written w out = [] ∧ text w level es = [];
  k_before : before (pc s) = true → out = [];
  k_round : match pc s with Collecting _ _ => False | Ended => isRunning_ (log s) = false | _ => True end;
  k_past : past `prefix_of` es;
  k_seen : ∀ w l, w ∈ logworkers_ (log s) → loggers (log s) !! w = Some l → visited (pc s) w →
    text w (curLogLevel_ l) past `prefix_of` written w out;
  k_left : (length (left_of (pc s)) ≤ length (logworkers_ (log s)))%nat
}.

Lemma text_app (w : nat) (level : Z) (a b : list Event) :
  text w level (a ++ b) = text w level a ++ said w level b.
Proof. unfold text. by rewrite said_app, app_assoc. Qed.

Lemma text_past (w : nat) (level : Z) (es : list Event) :
  past `prefix_of` es → text w level past `prefix_of` text w level es.
Proof. intros [b ->]. rewrite text_app. by eexists. Qed.

(** An event that nobody's text grows by. *)
Definition mute (e : Event) : Prop := ∀ w level, said w level [e] = [].

Lemma text_mute (w : nat) (level : Z) (es : list Event) (e : Event) :
  mute e → text w level (es ++ [e]) = text w level es.
Proof. intros H. by rewrite text_app, H, app_nil_r. Qed.

(** A step that moves the thread only. *)
Lemma kept_pc (es : list Event) (out : list (nat * bytes)) (s : Sys) (p : Pc) (e : Event) :
  kept es out s → mute e →
  Forall (λ w, (w < length (loggers (log s)))%nat) (left_of p) →
  (length (left_of p) ≤ length (logworkers_ (log s)))%nat →
  (before p = true → before (pc s) = true) →
  match p with Collecting _ _ => False | Ended => isRunning_ (log s) = false | _ => True end →
  (∀ w, w ∈ logworkers_ (log s) → visited p w → visited (pc s) w) →
  kept (es ++ [e]) out (mkSys (log s) p).
Proof.
  intros [H1 H2 H3 H4 H5 H6 H7 H8 H9 H10] He Hp Hlp Hb Hc Hv. split; cbn [log pc]; auto.
  - rewrite !Forall_app in H3 |- *. tauto.
  - intros w l Hl. destruct (H4 w l Hl) as [? Ht]. by rewrite text_mute.
  - intros w level Hw. destruct (H5 w level Hw) as [? Ht]. by rewrite text_mute.
  - by apply prefix_app_r.
Qed.

(** A logger changes: what it holds grows by what it is told. *)
Lemma kept_logger (es : list Event) (out : list (nat * bytes)) (s : Sys) (w : nat) (l l' : Logger)
    (e : Event) :
  kept es out s → loggers (log s) !! w = Some l → tidy l' → curLogLevel_ l' = curLogLevel_ l →
  pending l' = pending l ++ said w (curLogLevel_ l) [e] →
  (∀ v level, v ≠ w → said v level [e] = []) →
  kept (es ++ [e]) out (mkSys (with_loggers (log s) (<[w := l']> (loggers (log s)))) (pc s)).
Proof.
  intros [H1 H2 H3 H4 H5 H6 H7 H8 H9 H10] El Ht Elv Ep Hne.
  assert (Hw : (w < length (loggers (log s)))%nat) by (by eapply lookup_lt_Some).
  split; cbn [log pc with_loggers loggers sumWrites_ file_ logVectmp_ logworkers_]; auto;
    rewrite ?length_insert; auto.
  - intros v k Hk. destruct (decide (w = v)) as [<-|Hv].
    + rewrite list_lookup_insert_eq in Hk by done. injection Hk as <-.
      destruct (H4 w l El) as [_ Htx]. by rewrite Elv, text_app, Ep, app_assoc, Htx.
    + rewrite list_lookup_insert_ne in Hk by done. destruct (H4 v k Hk) as [? Htx].
      by rewrite text_app, Hne, app_nil_r.
  - intros v level Hv. rewrite text_app, Hne, app_nil_r by lia. by apply H5.
  - by apply prefix_app_r.
  - intros v k Hin Hk Hvis. destruct (decide (w = v)) as [<-|Hv].
    + rewrite list_lookup_insert_eq in Hk by done. injection Hk as <-. rewrite Elv. by apply H9.
    + rewrite list_lookup_insert_ne in Hk by done. by apply H9.
Qed.

(** A worker is visited by one of the last passes. *)
Lemma kept_visit (es : list Event) (out : list (nat * bytes)) (s : Sys) (w : nat) (ws : list nat)
    (p : Pc) (e : Event) :
  kept es out s → mute e → left_of (pc s) = w :: ws → left_of p = ws → before p = false →
  (∀ v, visited p v → visited (pc s) v ∨ v = w) →
  ∃ l', flush (log s) [w] = Done l' ∧ kept (es ++ [e]) (out ++ [(w, from_option pending [] (loggers (log s) !! w))])
    (mkSys l' p) ∧ length (loggers l') = length (loggers (log s)) ∧
    logworkers_ l' = logworkers_ (log s) ∧ isRunning_ l' = isRunning_ (log s) ∧
    logVectmp_ l' = logVectmp_ (log s).
Proof.
  intros [H1 H2 H3 H4 H5 H6 H7 H8 H9 H10] He Hleft Hp Hb Hv. rewrite !Forall_app, Hleft in H3.
  destruct H3 as (Ht & Hws & [Hw Hl]%Forall_cons).
  destruct (lookup_lt_is_Some_2 _ _ Hw) as [l El]. rewrite El. cbn [from_option].
  destruct (H4 w l El) as [Hty Htx].
  destruct (flush_visit (log s) w _ l H2 El Hty) as (l' & E & Hty' & Hp' & Hlv).
  eexists. split; [exact E|]. split; [|cbn; by rewrite length_insert].
  split; cbn [log pc with_file with_loggers loggers sumWrites_ file_ logVectmp_ logworkers_];
    rewrite ?length_insert; auto.
  - by rewrite fmap_app, concat_app, app_assoc; cbn; rewrite app_nil_r.
  - rewrite !Forall_app, Hp. auto.
  - intros v k Hk. rewrite written_app, written_one, text_mute by done.
    destruct (decide (w = v)) as [<-|Hne].
    + rewrite list_lookup_insert_eq in Hk by done. injection Hk as <-.
      by rewrite Hp', app_nil_r, Hlv, Htx.
    + rewrite list_lookup_insert_ne in Hk by done. rewrite app_nil_r. by apply H4.
  - intros v level Hge. rewrite written_app, written_one, decide_False, app_nil_r, text_mute by (done || lia).
    by apply H5.
  - congruence.
  - by destruct p.
  - by apply prefix_app_r.
  - intros v k Hin Hk Hvis. rewrite written_app, written_one. destruct (decide (w = v)) as [<-|Hne].
    + rewrite list_lookup_insert_eq in Hk by done. injection Hk as <-. rewrite Hlv, Htx. by apply text_past.
    + rewrite list_lookup_insert_ne in Hk by done. rewrite app_nil_r.
      destruct (Hv v Hvis) as [Hvis'|]; [by apply H9|done].
  - rewrite Hp. rewrite Hleft in H10. cbn in H10. lia.
Qed.

(** New loggers become workers. *)
Lemma kept_entered (es : list Event) (out : list (nat * bytes)) (s : Sys) (e : Event) :
  kept es out s → mute e → pc s = Entered →
  kept (es ++ [e]) out
    (mkSys (with_workers (log s) [] (logworkers_ (log s) ++ logVectmp_ (log s))) Waiting).
Proof.
  intros [H1 H2 H3 H4 H5 H6 H7 H8 H9 H10] He Ep. rewrite Ep in *.
  split; cbn [log pc with_workers loggers sumWrites_ file_ logVectmp_ logworkers_]; auto.
  - rewrite !Forall_app in *. cbn in *. tauto.
  - intros w l Hl. rewrite text_mute by done. by apply H4.
  - intros w level Hw. rewrite text_mute by done. by apply H5.
  - by apply prefix_app_r.
  - by intros w l _ _ [].
  - cbn. lia.
Qed.

(** A logger is made. *)
Lemma kept_new (es : list Event) (out : list (nat * bytes)) (s : Sys) (junk : Z) :
  kept es out s →
  kept (es ++ [New junk]) out (mkSys (AddLogger (log s) junk) (pc s)).
Proof.
  intros [H1 H2 H3 H4 H5 H6 H7 H8 H9 H10]. unfold AddLogger.
  set (l := configInit _). set (n := length (loggers (log s))) in *.
  assert (Hty : tidy l ∧ pending l = []) by (unfold l; by destruct (isRunning_ (log s))).
  assert (Hm : mute (New junk)) by done.
  assert (Hlk : ∀ w k, (loggers (log s) ++ [l]) !! w = Some k →
    loggers (log s) !! w = Some k ∨ (w = n ∧ k = l)).
  { intros w k [Hk|[Hge Hk]]%lookup_app_Some; [by left|]. right.
    apply list_lookup_singleton_Some in Hk as [Hk ->]. split; [unfold n; lia|done]. }
  split; cbn [log pc with_loggers with_workers loggers sumWrites_ file_ logVectmp_ logworkers_]; auto;
    rewrite ?length_app; cbn [length].
  - replace (n + 1 - 1)%nat with n by lia. fold n.
    apply (Forall_impl _ (λ w, (w < n + 1)%nat)) in H3; [|intros; lia].
    rewrite !Forall_app in *. split_and!; try tauto. constructor; [lia|done].
  - intros w k [Hk|[-> ->]]%Hlk; rewrite text_mute by done; [by apply H4|].
    split; [apply Hty|]. destruct (H5 n (curLogLevel_ l)) as [-> ->]; [done|]. by rewrite (proj2 Hty).
  - intros w level Hw. rewrite text_mute by done. apply H5. fold n in Hw. lia.
  - by apply prefix_app_r.
  - intros w k Hin [Hk|[-> ->]]%Hlk Hvis; [by apply H9|]. rewrite !Forall_app in H3.
    destruct H3 as (_ & H3 & _). rewrite Forall_forall in H3. specialize (H3 _ Hin). unfold n in H3. lia.
Qed.

(** ** The end *)

(** How many steps of its own a stopped thread has left, at most. *)
Definition rank (s : Sys) : nat :=
  let w := length (logworkers_ (log s)) in
  match pc s with
  | Exited | Collecting _ _ => 0
  | Flushing2 ws => 1 + length ws
  | Flushing1 ws => 2 + length ws + w
  | Ended => 3 + 2 * w
  | AtLoop => 4 + 2 * w
  | Awake => 5 + 2 * w
  | Waiting => 6 + 2 * w
  | Entered => 7 + 2 * (w + length (logVectmp_ (log s)))
  end.

(** Its own steps, and the loggers made in the meantime. *)
Definition ticks (ls : list Label) : nat :=
  length (List.filter (λ l, match l with LThread => true | _ => false end) ls).
Definition news (ls : list Label) : nat :=
  length (List.filter (λ l, match l with LNew _ => true | _ => false end) ls).

(** A step of a stopped thread brings it nearer its end. *)
Definition nearer (s s' : Sys) (ls : list Label) : Prop :=
  (pc s = Exited → pc s' = Exited) ∧
  (isRunning_ (log s) = false → isRunning_ (log s') = false ∧
   (pc s' = Exited ∨ rank s' + ticks ls ≤ rank s + 2 * news ls)%nat).

#[local] Ltac near_rank :=
  unfold rank, ticks, news; cbn in *;
  repeat match goal with H : logworkers_ _ = _ |- _ => rewrite H end;
  rewrite ?length_app; try match goal with |- context [match pc ?s with _ => _ end] => destruct (pc s) end;
  cbn; rewrite ?length_app; cbn; lia.
#[local] Ltac near :=
  split; [try done|]; let H := fresh in intros H; cbn in H;
  first [congruence|split; [try done; cbn in *; congruence|]; first [by left|right; near_rank]].

(** What a step is to come to. *)
Definition steps_well (es : list Event) (s : Sys) (l : Label) : Prop :=
  ∃ s' out', step s l = Done s' ∧ kept (es ++ [event l]) out' s' ∧
    length (loggers (log s')) =
      match l with LNew _ => S (length (loggers (log s))) | _ => length (loggers (log s)) end ∧
    nearer s s' [l].

(** A step of the thread that only moves it. *)
Lemma moved_well (es : list Event) (out : list (nat * bytes)) (s : Sys) (p : Pc) :
  kept es out s → step s LThread = Done (mkSys (log s) p) →
  left_of p = [] ∨ left_of p = logworkers_ (log s) →
  (before p = true → before (pc s) = true) →
  match p with Collecting _ _ => False | Ended => isRunning_ (log s) = false | _ => True end →
  (∀ w, w ∈ logworkers_ (log s) → visited p w → visited (pc s) w) →
  nearer s (mkSys (log s) p) [LThread] →
  steps_well es s LThread.
Proof.
  intros H E Hl Hb Hc Hv Hn. eexists _, out. split; [exact E|]. split; [|by split].
  apply kept_pc; try done; destruct Hl as [-> | ->]; try done; [|cbn; lia].
  pose proof (k_tasks _ _ _ H) as Ht. rewrite !Forall_app in Ht. tauto.
Qed.

Lemma tstep_kept (es : list Event) (out : list (nat * bytes)) (s : Sys) :
  kept es out s → steps_well es s LThread.
Proof.
  intros H. pose proof H as [H1 H2 H3 H4 H5 H6 H7 H8 H9 H10].
  destruct s as [t p]. cbn [log pc] in *.
  destruct p as [| | | |i n| |[|w ws]|[|w ws]|]; try done.
  - eapply moved_well; [done|reflexivity|..]; cbn; destruct (isRunning_ t) eqn:Er; auto; try done; near.
  - eexists _, out. split; [done|]. split; [by apply (kept_entered es out (mkSys t Entered))|split; [done|]].
    near.
  - eapply moved_well; [done|reflexivity|..]; auto; try done.
    near.
  - eapply moved_well; [done|cbn; rewrite H1; reflexivity|..]; auto; try done.
    near.
  - eapply moved_well; [done|cbn; rewrite H7; reflexivity|..]; auto; try done.
    near.
  - eapply moved_well; [done|reflexivity|..]; auto; try done; cbn.
    + intros w _ _. apply not_elem_of_nil.
    + near.
  - destruct (kept_visit es out (mkSys t (Flushing1 (w :: ws))) w ws (Flushing1 ws) Round)
      as (t' & E & Hk & Hl & Hw & Hr & _); try done.
    + intros v Hv. cbn in *. destruct (decide (v = w)) as [->|Hne]; [by right|left].
      by apply not_elem_of_cons.
    + cbn [log] in *. eexists _, _. cbn [step tstep log pc]. rewrite E. split; [reflexivity|]. split; [exact Hk|].
      split; [done|]. near.
  - eapply moved_well; [done|reflexivity|..]; auto; try done.
    near.
  - destruct (kept_visit es out (mkSys t (Flushing2 (w :: ws))) w ws (Flushing2 ws) Round)
      as (t' & E & Hk & Hl & Hw & Hr & _); try done.
    + intros v Hv. by left.
    + cbn [log] in *. eexists _, _. cbn [step tstep log pc]. rewrite E. split; [reflexivity|]. split; [exact Hk|].
      split; [done|]. near.
  - eapply moved_well; [done|reflexivity|..]; auto; try done.
    near.
Qed.

Lemma step_kept (es : list Event) (out : list (nat * bytes)) (s : Sys) (l : Label) :
  kept es out s → events_ok (length (loggers (log s))) [event l] → steps_well es s l.
Proof.
  intros H Hl. destruct l as [|junk|w|w m|]; cbn [event events_ok] in Hl.
  - by eapply tstep_kept.
  - eexists _, out. split; [done|]. split; [by apply kept_new|]. split; [cbn; rewrite length_app; cbn; lia|].
    near.
  - destruct (lookup_lt_is_Some_2 (loggers (log s)) w (proj1 Hl)) as [k Ek]. unfold steps_well.
    cbn [step]. rewrite (on_logger_at (log s) w k (release k) _ Ek eq_refl), bind_Done_l.
    eexists _, out. split; [done|]. destruct (k_text _ _ _ H w k Ek) as [[Hs Ht] _].
    split; [|split; [apply length_insert|near]].
    eapply (kept_logger es out s w k); try done. by rewrite app_nil_r.
  - destruct (lookup_lt_is_Some_2 (loggers (log s)) w (proj1 (proj1 Hl))) as [k Ek]. unfold steps_well.
    destruct (k_text _ _ _ H w k Ek) as [Hty _].
    destruct (LogMent_tidy k m w Hty (proj2 (proj1 Hl))) as (k' & Em & Hty' & Hlv & Hp).
    cbn [step]. rewrite (k_sum _ _ _ H), (on_logger_at (log s) w k k' _ Ek Em), bind_Done_l.
    eexists _, out. split; [done|].
    split; [|split; [apply length_insert|near]].
    eapply (kept_logger es out s w k); try done.
    intros v level Hv. cbn [event said]. by rewrite decide_False by (intros [? _]; congruence).
  - eexists _, out. split; [done|]. split; [|split; [done|]].
    + destruct H as [H1 H2 H3 H4 H5 H6 H7 H8 H9 H10]. assert (Hm : mute Round) by done.
      split; cbn [event log pc set_running loggers sumWrites_ file_ logVectmp_ logworkers_]; auto.
      * intros w k Hk. rewrite text_mute by done. by apply H4.
      * intros w level Hw. rewrite text_mute by done. by apply H5.
      * by destruct (pc s).
      * by apply prefix_app_r.
    + near.
Qed.

Definition events (ls : list Label) : list Event := event <$> ls.

Lemma ticks_cons (l : Label) (ls : list Label) : ticks (l :: ls) = (ticks [l] + ticks ls)%nat.
Proof. by destruct l. Qed.
Lemma news_cons (l : Label) (ls : list Label) : news (l :: ls) = (news [l] + news ls)%nat.
Proof. by destruct l. Qed.

Lemma run_kept (ls : list Label) : ∀ (es : list Event) (out : list (nat * bytes)) (s : Sys),
  kept es out s → events_ok (length (loggers (log s))) (events ls) →
  ∃ s' out', run s ls = Done s' ∧ kept (es ++ events ls) out' s' ∧ nearer s s' ls ∧
    (∀ ls', events_ok (length (loggers (log s))) (events (ls ++ ls')) →
            events_ok (length (loggers (log s'))) (events ls')).
Proof.
  induction ls as [|l ls IH]; intros es out s H Hok.
  { exists s, out. cbn. rewrite app_nil_r. split_and!; try done. near. }
  assert (Hsplit : ∀ r, events_ok (length (loggers (log s))) (events (l :: r)) →
    events_ok (length (loggers (log s))) [event l] ∧
    events_ok (match l with LNew _ => S (length (loggers (log s))) | _ => length (loggers (log s)) end) (events r))
    by (intros r Hr; destruct l; cbn in *; tauto).
  destruct (step_kept es out s l H (proj1 (Hsplit ls Hok))) as (s1 & out1 & E1 & H1 & Hl1 & Hn1).
  destruct (IH _ out1 s1 H1) as (s2 & out2 & E2 & H2 & Hn2 & Hok2).
  { rewrite Hl1. by apply Hsplit. }
  exists s2, out2. cbn [run]. rewrite E1, bind_Done_l. split; [done|].
  split; [by rewrite <- app_assoc in H2|]. split.
  - destruct Hn1 as [Hx1 Hn1], Hn2 as [Hx2 Hn2]. split; [auto|]. intros Hr.
    destruct (Hn1 Hr) as [Hr1 Hk1]. destruct (Hn2 Hr1) as [Hr2 Hk2]. split; [done|].
    rewrite ticks_cons, news_cons. destruct Hk1 as [Hk1|Hk1]; [by left; auto|].
    destruct Hk2 as [Hk2|Hk2]; [by left|right; lia].
  - intros ls' Hls. apply Hok2. rewrite Hl1. by apply (Hsplit (ls ++ ls')).
Qed.
End Kept.

(** ** Theorems *)

(** A log thread that has been started, with loggers whose spare buffers are
    empty. *)
Record started (t : LogThread) (f : bytes) : Prop := mkStarted {
  st_sum : sumWrites_ t = 0;
  st_file : file_ t = Some f;
  st_tasks : Forall (λ w, (w < length (loggers t))%nat) (logVectmp_ t ++ logworkers_ t);
  st_tidy : Forall tidy (loggers t)
}.

Lemma started_kept (t : LogThread) (f : bytes) : started t f → kept t f [] [] [] (mkSys t AtLoop).
Proof.
  intros [H1 H2 H3 H4]. split; cbn [log pc left_of]; try done.
  - by rewrite app_nil_r.
  - by rewrite app_assoc, app_nil_r.
  - intros w l Hl. split; [by apply (proj1 (Forall_lookup _ _) H4 w)|].
    unfold text. by rewrite Hl, app_nil_r.
  - intros w level Hw. unfold text. by rewrite lookup_ge_None_2.
  - cbn. lia.
Qed.

(** The first part of a run becomes its past. *)
Lemma kept_now (t0 : LogThread) (f : bytes) (es : list Event) (out : list (nat * bytes)) (s : Sys) :
  before (pc s) = true → kept t0 f [] es out s → kept t0 f es es out s.
Proof.
  intros Hb [H1 H2 H3 H4 H5 H6 H7 H8 H9 H10]. split; auto. intros w l _ _ Hv. by destruct (pc s).
Qed.

Lemma events_app (a b : list Label) : events (a ++ b) = events a ++ events b.
Proof. apply fmap_app. Qed.

(** The run up to some point, from the start. *)
Lemma run_prefix (t : LogThread) (f : bytes) (a b : list Label) :
  started t f → events_ok (length (loggers t)) (events (a ++ b)) →
  ∃ s out, run (mkSys t AtLoop) a = Done s ∧ kept t f [] (events a) out s ∧
    nearer (mkSys t AtLoop) s a ∧ events_ok (length (loggers (log s))) (events b).
Proof.
  intros Ht Hok. assert (Ha : ∀ n, events_ok n (events (a ++ b)) → events_ok n (events a)).
  { clear. induction a as [|l a IH]; intros n; [done|]. cbn [app events fmap list_fmap].
    destruct l; cbn [event events_ok]; intros H; first [split; [apply H|]; exact (IH _ (proj2 H))|exact (IH _ H)]. }
  destruct (run_kept t f [] a [] [] (mkSys t AtLoop)) as (s & out & E & H & Hn & Hok'); [by apply started_kept|by apply Ha|].
  exists s, out. split_and!; try done. by apply Hok'.
Qed.

(** C35: nothing that is logged before the log thread is stopped is lost or
    written twice, but for loggers that no round has made workers. Let the
    thread run, interleaved step by step with others that make loggers, give
    them up, log through them and stop it. Nothing faults. The file grows by
    pieces, none before the two last passes; for each logger, the pieces that
    are its own, in their order, and its current buffer are together the lines
    of the messages it has admitted, in the order they were logged. And when the
    thread has ended, the pieces of each of its workers contain all that the
    worker had admitted when the thread had not yet begun its last passes. *)
Theorem log_lines_kept (t : LogThread) (f : bytes) (a b : list Label)
  (Ht : started t f) (Hok : events_ok (length (loggers t)) (events (a ++ b))) :
  ∃ s1 s2 out, run (mkSys t AtLoop) a = Done s1 ∧ run s1 b = Done s2 ∧
    file_ (log s2) = Some (f ++ concat out.*2) ∧ (before (pc s2) = true → out = []) ∧
    (∀ w l, loggers (log s2) !! w = Some l →
       written w out ++ pending l = text t w (curLogLevel_ l) (events (a ++ b))) ∧
    (before (pc s1) = true → pc s2 = Exited →
     ∀ w l, w ∈ logworkers_ (log s2) → loggers (log s2) !! w = Some l →
       text t w (curLogLevel_ l) (events a) `prefix_of` written w out).
Proof.
  destruct (run_prefix t f a b Ht Hok) as (s1 & out1 & E1 & H1 & _ & Hok2).
  destruct (before (pc s1)) eqn:Hb.
  - destruct (run_kept t f (events a) b (events a) out1 s1) as (s2 & out2 & E2 & H2 & _); [by apply kept_now|done|].
    rewrite <- events_app in H2. destruct H2 as [_ Hf _ Hx _ Hq _ _ Hs _].
    exists s1, s2, out2. split_and!; try done; [intros w l Hl; by apply Hx|].
    intros _ Hp w l Hin Hl. apply (Hs w l Hin Hl). by rewrite Hp.
  - destruct (run_kept t f [] b (events a) out1 s1) as (s2 & out2 & E2 & H2 & _); [done|done|].
    rewrite <- events_app in H2. destruct H2 as [_ Hf _ Hx _ Hq _ _ _ _].
    exists s1, s2, out2. split_and!; try done; [intros w l Hl; by apply Hx|congruence].
Qed.

(** C36: a stopped log thread ends, and joining it returns. Whatever the others
    do, once [isRunning_] is false the thread ends within eight steps of its own
    and two for each of its workers, for each logger waiting to become one and
    for each made in the meantime. *)
Theorem log_thread_ends (t : LogThread) (f : bytes) (a b : list Label)
  (Ht : started t f) (Hok : events_ok (length (loggers t)) (events (a ++ LStop :: b))) :
  ∃ s1 s2, run (mkSys t AtLoop) a = Done s1 ∧ run s1 (LStop :: b) = Done s2 ∧
    ((8 + 2 * (length (logworkers_ (log s1)) + length (logVectmp_ (log s1)) + news b) ≤ ticks b)%nat →
     pc s2 = Exited).
Proof.
  destruct (run_prefix t f a (LStop :: b) Ht Hok) as (s1 & out1 & E1 & H1 & _ & Hok2).
  destruct (run_kept t f [] [LStop] (events a) out1 s1 H1) as (s1' & out1' & Es & Hs & _); [done|].
  cbn in Es. injection Es as <-.
  destruct (run_kept t f [] b _ out1' _ Hs) as (s2 & out2 & E2 & H2 & [_ Hn] & _); [done|].
  exists s1, s2. split; [done|]. split; [done|]. intros Hk.
  destruct (Hn eq_refl) as [_ [He|Hle]]; [done|].
  assert (Hr : (rank (mkSys (set_running (log s1) false) (pc s1)) ≤
    7 + 2 * (length (logworkers_ (log s1)) + length (logVectmp_ (log s1))))%nat).
  { pose proof (k_left _ _ _ _ _ _ H1). unfold rank. cbn. destruct (pc s1); cbn in *; lia. }
  lia.
Qed.
Module Examples.
Import Log.Examples.

(** The first logger becomes a worker and logs; a second one is made, becomes a
    worker in the next round and logs; the thread is stopped. *)
Definition first : list Label :=
  [LThread; LThread; LSay 0 hello; LNew 0; LThread; LThread; LSay 1 hello; LThread; LThread; LThread].

(** The first logger logs once more while the passes go on. *)
Definition rest : list Label :=
  repeat LThread 5 ++ [LSay 0 hello] ++ repeat LThread 10.

Definition hello_line : bytes := str "Inow a.cpp:7] hello" ++ [10].

Lemma start_ok : LogRun.started Log.Examples.started [].
Proof. split; [done|done|repeat constructor|by repeat constructor]. Qed.
End Examples.
Import Examples.

(** All three lines are in the file. *)
Lemma log_lines_kept_witness :
  ∃ s1 s2, run (mkSys Log.Examples.started AtLoop) first = Done s1 ∧ run s1 (LStop :: rest) = Done s2 ∧
    before (pc s1) = true ∧ pc s2 = Exited ∧
    file_ (log s2) = Some (hello_line ++ hello_line ++ hello_line).
Proof.
  destruct (log_lines_kept Log.Examples.started [] first (LStop :: rest) start_ok)
    as (s1 & s2 & out & E1 & E2 & _); [cbn; unfold kExit; split_and!; lia|].
  exists s1, s2. split; [exact E1|]. split; [exact E2|].
  vm_compute in E1. injection E1 as <-. vm_compute in E2. injection E2 as <-.
  by vm_compute.
Defined.

Lemma log_thread_ends_witness :
  ∃ s1 s2, run (mkSys Log.Examples.started AtLoop) first = Done s1 ∧ run s1 (LStop :: rest) = Done s2 ∧
    pc s2 = Exited.
Proof.
  destruct (log_thread_ends Log.Examples.started [] first rest start_ok)
    as (s1 & s2 & E1 & E2 & H); [cbn; unfold kExit; split_and!; lia|].
  exists s1, s2. split; [exact E1|]. split; [exact E2|]. apply H.
  vm_compute in E1. injection E1 as <-. by vm_compute; lia.
Defined.
End LogRun.
