(* ===== verification/Net.v ===== *)
(** * The network layer

    [src/net/{net_server,connection,conn_callback,active_conn,repeated_timer,
    single_timer}.{hpp,cpp}]: the map of connections, the callbacks libevent
    makes on it, the buffers of a connection, outgoing connections, and timers.
    libevent, the sockets and the handlers of the application are outside: a
    callback of libevent is an event, a call of a handler is recorded, the
    results of system calls are arguments, and the buffers of libevent are the
    interface [Evbuffer] with its laws. [Service] runs the server's handlers. *)
From S2P Require Import Prelude.

Module Net.

(** ** Connections *)

(** The handlers a connection has been given, as far as they are set. *)
Record ConnHandlers : Type := mkConnHandlers {
  readHandle_ : bool; writeHandle_ : bool; closeHandle_ : bool; timeoutHandle_ : bool
}.

(** [buf_] is whether the bufferevent was made; [peer] the address, if
    [getpeername] and [inet_ntop] gave it. *)
Record Connection : Type := mkConn {
  conn_handlers : ConnHandlers;
  socketFd_ : Z;
  buf_ : bool;
  peer : option (bytes * Z)
}.

(** [Connection::Init]: the bufferevent may fail to be made. *)
Definition Connection_Init (c : Connection) (made : bool) (p : option (bytes * Z))
  : bool * Connection :=
  if made then (true, mkConn (conn_handlers c) (socketFd_ c) true p)
  else (false, mkConn (conn_handlers c) (socketFd_ c) false (peer c)).

(** The destructor frees the bufferevent, which has to be one. *)
Definition destroy (c : Connection) : outcome unit := guard_fault (buf_ c) NullDeref.

(** [Connection::Send]: what is handed to [bufferevent_write]. *)
Definition Send (c : Connection) (msg : bytes) : outcome bytes := cassert (buf_ c) ;; Done msg.

(** ** The server *)

(** The handlers that are set. *)
Record Handlers : Type := mkHandlers {
  on_read : bool; on_write : bool; on_close : bool; on_timeout : bool; on_init : bool
}.

(** A map entry may hold a null pointer; [port_] and [maxConnCount_] have no
    value before [Init]. *)
Record NetServer : Type := mkNet {
  handlers : Handlers;
  ConnectionMap_ : gmap Z (option Connection);
  port_ : option Z;
  maxConnCount_ : option Z
}.

Definition kMaxConnectionN : Z := 10000.

Definition new_NetServer : NetServer := mkNet (mkHandlers false false false false false) ∅ None None.

Definition with_map (s : NetServer) (m : gmap Z (option Connection)) : NetServer :=
  mkNet (handlers s) m (port_ s) (maxConnCount_ s).

(** [NetServer::Init]: the event base and the listener may fail to be made. The
    handler of new connections is set elsewhere, and stays. *)
Definition NetServer_Init (base listener : bool) (port maxCount : Z) (wh ch th rh : bool)
    (s : NetServer) : bool * NetServer :=
  if base then
    let h := mkHandlers rh wh ch th (on_init (handlers s)) in
    if listener then (true, mkNet h (ConnectionMap_ s) (Some port) (Some maxCount))
    else (false, mkNet h (ConnectionMap_ s) (port_ s) (maxConnCount_ s))
  else (false, s).

Definition SetConnInitCallback (set : bool) (s : NetServer) : NetServer :=
  let h := handlers s in
  mkNet (mkHandlers (on_read h) (on_write h) (on_close h) (on_timeout h) set)
        (ConnectionMap_ s) (port_ s) (maxConnCount_ s).
Definition SetConnReadCallback (set : bool) (s : NetServer) : NetServer :=
  let h := handlers s in
  mkNet (mkHandlers set (on_write h) (on_close h) (on_timeout h) (on_init h))
        (ConnectionMap_ s) (port_ s) (maxConnCount_ s).

(** [ConnectionMap_[fd]]: makes an entry where there is none. *)
Definition getConn (s : NetServer) (fd : Z) : option Connection * NetServer :=
  match ConnectionMap_ s !! fd with
  | Some c => (c, s)
  | None => (None, with_map s (<[fd := None]> (ConnectionMap_ s)))
  end.

Definition getConnCount (s : NetServer) : Z := Z.of_nat (size (ConnectionMap_ s)).

Definition removeConn (s : NetServer) (fd : Z) : outcome (bool * NetServer) :=
  match ConnectionMap_ s !! fd with
  | None => Done (false, s)
  | Some c =>
      _ ← of_option NullDeref c;
      Done (true, with_map s (delete fd (ConnectionMap_ s)))
  end.

(** [std::map::insert]: an entry that is there stays. *)
Definition map_insert (m : gmap Z (option Connection)) (fd : Z) (c : Connection)
  : gmap Z (option Connection) :=
  match m !! fd with Some _ => m | None => <[fd := Some c]> m end.

(** A handler call, with the descriptor of the connection it is given. *)
Inductive Call : Type :=
  | Read (fd : Z) | Write (fd : Z) | Close (fd : Z) | Timeout (fd : Z) | NewConn (fd : Z).

Definition call (set : bool) (c : Call) : list Call := if set then [c] else [].

(** What a new connection is given: copies of the handlers the server has then. *)
Definition copied (h : Handlers) : ConnHandlers :=
  mkConnHandlers (on_read h) (on_write h) (on_close h) (on_timeout h).

(** The connection is initialised behind the pointer the map holds. A
    connection the map did not take is destroyed when the callback returns. *)
Definition ListenerCallback (s : NetServer) (fd : Z) (made : bool) (p : option (bytes * Z))
  : outcome (NetServer * list Call) :=
  let conn := mkConn (copied (handlers s)) fd false None in
  let calls := call (on_init (handlers s)) (NewConn fd) in
  let '(_, conn') := Connection_Init conn made p in
  match ConnectionMap_ s !! fd with
  | Some _ => destroy conn' ;; Done (s, calls)
  | None => Done (with_map s (<[fd := Some conn']> (map_insert (ConnectionMap_ s) fd conn)), calls)
  end.

Definition ConnectionReadCallback (s : NetServer) (fd : Z) : outcome (NetServer * list Call) :=
  let '(c, s) := getConn s fd in
  conn ← of_option NullDeref c;
  Done (s, call (readHandle_ (conn_handlers conn)) (Read (socketFd_ conn))).

Definition ConnectionWriteCallback (s : NetServer) (fd : Z) : outcome (NetServer * list Call) :=
  let '(c, s) := getConn s fd in
  conn ← of_option NullDeref c;
  Done (s, call (writeHandle_ (conn_handlers conn)) (Write (socketFd_ conn))).

(** [ended] is whether the flags have EOF or ERROR, [timeout] TIMEOUT. The
    connection leaves the map after its handler has run, and is destroyed with
    the callback's own pointer. *)
Definition ConnectionEventCallback (s : NetServer) (fd : Z) (ended timeout : bool)
  : outcome (NetServer * list Call) :=
  let '(c, s) := getConn s fd in
  conn ← of_option NullDeref c;
  if ended then
    let calls := call (closeHandle_ (conn_handlers conn)) (Close (socketFd_ conn)) in
    '(_, s) ← removeConn s (socketFd_ conn);
    destroy conn ;;
    Done (s, calls)
  else if timeout then
    let calls := call (timeoutHandle_ (conn_handlers conn)) (Timeout (socketFd_ conn)) in
    '(_, s) ← removeConn s (socketFd_ conn);
    destroy conn ;;
    Done (s, calls)
  else Done (s, []).

(** ** The buffers of a connection

    An evbuffer of libevent: what it holds, the data libevent reads into it from
    the socket, and the functions the accessors of a connection pass on to. A
    failure is [None] or [false]. *)
Class Evbuffer (B : Type) : Type := {
  evbuffer_new : B;
  evbuffer_fill : B → bytes → B;
  evbuffer_get_length : B → Z;
  evbuffer_remove : B → Z → option bytes * B;
  evbuffer_copyout : B → Z → option bytes;
  evbuffer_add : B → bytes → bool * B;
  evbuffer_add_buffer : B → B → bool * (B * B)
}.

(** What the documentation of libevent says of calls that succeed, and that
    removing from the input of a bufferevent does. *)
Class EvbufferLaws (B : Type) {EB : Evbuffer B} : Type := {
  contents : B → bytes;
  new_law : contents evbuffer_new = [];
  fill_law : ∀ b bs, contents (evbuffer_fill b bs) = contents b ++ bs;
  length_law : ∀ b, evbuffer_get_length b = zlen (contents b);
  remove_law : ∀ b n, 0 ≤ n →
    (evbuffer_remove b n).1 = Some (take (Z.to_nat n) (contents b)) ∧
    contents (evbuffer_remove b n).2 = drop (Z.to_nat n) (contents b);
  copyout_law : ∀ b n bs, 0 ≤ n → evbuffer_copyout b n = Some bs →
    bs = take (Z.to_nat n) (contents b);
  add_law : ∀ b bs b', evbuffer_add b bs = (true, b') → contents b' = contents b ++ bs;
  add_buffer_law : ∀ out b out' b', evbuffer_add_buffer out b = (true, (out', b')) →
    contents out' = contents out ++ contents b ∧ contents b' = []
}.

Section Buffers.
Context {B : Type} {EB : Evbuffer B}.

(** The bufferevent's two buffers. [attached]: a callback has pointed
    [ev_read_buf_] and [ev_write_buf_] at them; before, the pointers have no
    value. *)
Record ConnBufs : Type := mkBufs { input : B; output : B; attached : bool }.

Definition new_ConnBufs : ConnBufs := mkBufs evbuffer_new evbuffer_new false.

(** What every callback does first. *)
Definition attach (c : ConnBufs) : ConnBufs := mkBufs (input c) (output c) true.

Definition ev_read_buf (c : ConnBufs) : outcome B := guard_fault (attached c) Uninit ;; Done (input c).
Definition ev_write_buf (c : ConnBufs) : outcome B := guard_fault (attached c) Uninit ;; Done (output c).

(** A [size_t] as the [int] the accessor returns. *)
Definition getEvReadBufferLen (c : ConnBufs) : outcome Z :=
  b ← ev_read_buf c; Done (to_int (evbuffer_get_length b)).
Definition getEvWriteBufferSize (c : ConnBufs) : outcome Z :=
  b ← ev_write_buf c; Done (u32 (evbuffer_get_length b)).

Definition moveEvReadBuffer (c : ConnBufs) (data_len : Z) : outcome (option bytes * ConnBufs) :=
  b ← ev_read_buf c;
  let '(r, b) := evbuffer_remove b data_len in Done (r, mkBufs b (output c) (attached c)).
Definition moveEvWriteBuffer (c : ConnBufs) (data_len : Z) : outcome (option bytes * ConnBufs) :=
  b ← ev_write_buf c;
  let '(r, b) := evbuffer_remove b data_len in Done (r, mkBufs (input c) b (attached c)).
Definition copyEvReadBuffer (c : ConnBufs) (data_len : Z) : outcome (option bytes) :=
  b ← ev_read_buf c; Done (evbuffer_copyout b data_len).
Definition addToWriteBuffer (c : ConnBufs) (data : bytes) : outcome (bool * ConnBufs) :=
  b ← ev_write_buf c;
  let '(r, b) := evbuffer_add b data in Done (r, mkBufs (input c) b (attached c)).

(** [addbufToWriteBuffer]: the buffer given is emptied. *)
Definition addbufToWriteBuffer (c : ConnBufs) (buf : B) : outcome (bool * (ConnBufs * B)) :=
  b ← ev_write_buf c;
  let '(r, (b, buf)) := evbuffer_add_buffer b buf in
  Done (r, (mkBufs (input c) b (attached c), buf)).

Definition move_buf_read_to_write (c : ConnBufs) : outcome ConnBufs :=
  w ← ev_write_buf c;
  r ← ev_read_buf c;
  let '(_, (w, r)) := evbuffer_add_buffer w r in Done (mkBufs r w (attached c)).

(** A read handler that takes up to [n] bytes gets the oldest ones, and what is
    behind them stays for the next call. *)
Lemma moveEvReadBuffer_law `{!EvbufferLaws B} (c : ConnBufs) (n : Z) :
  0 ≤ n →
  ∃ c', moveEvReadBuffer (attach c) n = Done (Some (take (Z.to_nat n) (contents (input c))), c') ∧
        contents (input c') = drop (Z.to_nat n) (contents (input c)).
Proof.
  intros Hn. destruct (remove_law (input c) n Hn) as [H1 H2].
  unfold moveEvReadBuffer, ev_read_buf, guard_fault. cbn [attached attach input output].
  rewrite !bind_Done_l. destruct (evbuffer_remove (input c) n) as [r b]. cbn in H1, H2. subst r.
  eexists. split; [reflexivity|done].
Qed.

(** Echoing: what was received is moved behind what is still to be sent. *)
Lemma move_buf_read_to_write_law `{!EvbufferLaws B} (c : ConnBufs) (w r : B) :
  evbuffer_add_buffer (output c) (input c) = (true, (w, r)) →
  ∃ c', move_buf_read_to_write (attach c) = Done c' ∧ contents (input c') = [] ∧
        contents (output c') = contents (output c) ++ contents (input c).
Proof.
  intros E. destruct (add_buffer_law _ _ _ _ E) as [H1 H2].
  unfold move_buf_read_to_write, ev_write_buf, ev_read_buf, guard_fault. cbn [attached attach input output].
  rewrite !bind_Done_l, E. eexists. by split.
Qed.

End Buffers.
Arguments ConnBufs B : clear implicits.

(** Buffers as lists of bytes. *)
Module ListBuffer.
#[export] Instance list_evbuffer : Evbuffer bytes := {
  evbuffer_new := [];
  evbuffer_fill b bs := b ++ bs;
  evbuffer_get_length b := zlen b;
  evbuffer_remove b n := (Some (take (Z.to_nat n) b), drop (Z.to_nat n) b);
  evbuffer_copyout b n := Some (take (Z.to_nat n) b);
  evbuffer_add b bs := (true, b ++ bs);
  evbuffer_add_buffer out b := (true, (out ++ b, []))
}.

#[export] Instance list_evbuffer_laws : EvbufferLaws bytes.
Proof.
  refine {| contents b := b |}; try done; cbn.
  - by intros b n bs _ [= <-].
  - by intros b bs b' [= <-].
  - by intros out b out' b' [= <- <-].
Defined.
End ListBuffer.

(** ** Outgoing connections *)

Record Connectioner : Type := mkConner { conn_ : Connection; isRunning_ : bool }.

Definition Connectioner_Init (h : ConnHandlers) (junk : Z) : Connectioner :=
  mkConner (mkConn h junk false None) false.

(** What [connect] came to: the codes that are taken for a connection, those
    that are taken for a failure, any other. *)
Inductive Connect : Type := Connected | Refused | Other.

Definition Connectioner_Run (s : NetServer) (k : Connectioner) (fd : Z) (r : Connect)
    (made : bool) (p : option (bytes * Z)) : bool * NetServer * Connectioner :=
  let conn := mkConn (conn_handlers (conn_ k)) fd (buf_ (conn_ k)) (peer (conn_ k)) in
  match r with
  | Connected =>
      let '(_, conn') := Connection_Init conn made p in
      let m := match ConnectionMap_ s !! fd with
               | Some _ => ConnectionMap_ s
               | None => <[fd := Some conn']> (map_insert (ConnectionMap_ s) fd conn)
               end in
      (true, with_map s m, mkConner conn' true)
  | Refused => (false, s, mkConner conn (isRunning_ k))
  | Other => (true, s, mkConner conn (isRunning_ k))
  end.

(** The descriptor that is closed, if any. *)
Definition CloseConn (k : Connectioner) : option Z :=
  if isRunning_ k then Some (socketFd_ (conn_ k)) else None.

(** ** Timers

    [pending]: the event is added to the event loop. It is not persistent, so
    it is removed before its callback runs. A callback may call the methods of
    its timer. *)

Record Timer : Type := mkTimer { running_ : bool; pending : bool }.

Definition Timer_Init (t : Timer) : Timer := mkTimer false (pending t).
Definition Run (t : Timer) : Timer := mkTimer true true.
Definition Reset (t : Timer) : Timer := Run (mkTimer (running_ t) false).

Definition Repeated_Stop (t : Timer) : Timer := mkTimer false false.
Definition RepeatedTimerCall (callback : option (Timer → Timer)) (t : Timer) : Timer :=
  let t := mkTimer (running_ t) false in
  let t := match callback with Some f => f t | None => t end in
  mkTimer (running_ t) true.
Definition Repeated_destroy (t : Timer) : Timer := if running_ t then Repeated_Stop t else t.

Definition Single_Stop (t : Timer) : Timer :=
  mkTimer false (if running_ t then false else pending t).
Definition SingleTimerCall (callback : option (Timer → Timer)) (t : Timer) : Timer :=
  let t := mkTimer (running_ t) false in
  let t := match callback with Some f => f t | None => t end in
  let t := Single_Stop t in
  mkTimer false (pending t).
Definition Single_destroy (t : Timer) : Timer := Single_Stop t.

(** ** Every connection is served and forgotten *)

Inductive Event : Type :=
  | Accept (fd : Z) (p : option (bytes * Z))
  | Readable (fd : Z)
  | Writable (fd : Z)
  | Happened (fd : Z) (ended timeout : bool).

Definition step (s : NetServer) (e : Event) : outcome (NetServer * list Call) :=
  match e with
  | Accept fd p => ListenerCallback s fd true p
  | Readable fd => ConnectionReadCallback s fd
  | Writable fd => ConnectionWriteCallback s fd
  | Happened fd ended timeout => ConnectionEventCallback s fd ended timeout
  end.

Fixpoint steps (s : NetServer) (es : list Event) : outcome (NetServer * list Call) :=
  match es with
  | [] => Done (s, [])
  | e :: es' => '(s, c) ← step s e; '(s, c') ← steps s es'; Done (s, c ++ c')
  end.

(** What libevent knows: a descriptor is accepted when it is not open, has
    events while it is, and is not open after its end. *)
Fixpoint consistent (live : gset Z) (es : list Event) : Prop :=
  match es with
  | [] => True
  | Accept fd _ :: es' => (fd ∉ live) ∧ consistent ({[ fd ]} ∪ live) es'
  | Readable fd :: es' => fd ∈ live ∧ consistent live es'
  | Writable fd :: es' => fd ∈ live ∧ consistent live es'
  | Happened fd e t :: es' => fd ∈ live ∧ consistent (if e || t then live ∖ {[ fd ]} else live) es'
  end.

Fixpoint still_live (live : gset Z) (es : list Event) : gset Z :=
  match es with
  | [] => live
  | Accept fd _ :: es' => still_live ({[ fd ]} ∪ live) es'
  | Happened fd e t :: es' => still_live (if e || t then live ∖ {[ fd ]} else live) es'
  | _ :: es' => still_live live es'
  end.

(** The handler an event is for. *)
Definition due (h : Handlers) (e : Event) : list Call :=
  match e with
  | Accept fd _ => call (on_init h) (NewConn fd)
  | Readable fd => call (on_read h) (Read fd)
  | Writable fd => call (on_write h) (Write fd)
  | Happened fd ended timeout =>
      if ended then call (on_close h) (Close fd)
      else if timeout then call (on_timeout h) (Timeout fd) else []
  end.

(** The map holds the open connections, each under its descriptor and with the
    handlers the server has. *)
Definition serves (s : NetServer) (live : gset Z) : Prop :=
  dom (ConnectionMap_ s) = live ∧
  map_Forall (λ fd c, ∃ p, c = Some (mkConn (copied (handlers s)) fd true p)) (ConnectionMap_ s).

Lemma serves_at (s : NetServer) (live : gset Z) (fd : Z) :
  serves s live → fd ∈ live → ∃ p, ConnectionMap_ s !! fd = Some (Some (mkConn (copied (handlers s)) fd true p)).
Proof.
  intros [Hd Hm] Hfd. rewrite <- Hd in Hfd. apply elem_of_dom in Hfd as [c Hc].
  destruct (Hm fd c Hc) as [p ->]. eauto.
Qed.

Lemma serves_delete (s : NetServer) (live : gset Z) (fd : Z) :
  serves s live → serves (with_map s (delete fd (ConnectionMap_ s))) (live ∖ {[ fd ]}).
Proof.
  intros [Hd Hm]. split; cbn; [by rewrite dom_delete_L, Hd|]. by apply map_Forall_delete.
Qed.

Lemma serves_insert (s : NetServer) (live : gset Z) (fd : Z) (p : option (bytes * Z))
    (m : gmap Z (option Connection)) :
  serves s live → m = <[fd := Some (mkConn (copied (handlers s)) fd true p)]> (ConnectionMap_ s) →
  serves (with_map s m) ({[ fd ]} ∪ live).
Proof.
  intros [Hd Hm] ->. split; cbn; [by rewrite dom_insert_L, Hd|].
  apply map_Forall_insert_2; eauto.
Qed.

Lemma step_serves (s : NetServer) (live : gset Z) (e : Event) :
  serves s live → consistent live [e] →
  ∃ s', step s e = Done (s', due (handlers s) e) ∧ handlers s' = handlers s ∧
        serves s' (still_live live [e]).
Proof.
  intros Hs He. destruct e as [fd p|fd|fd|fd ended timeout]; cbn [consistent step still_live] in *;
    destruct He as [Hfd _].
  - assert (Hn : ConnectionMap_ s !! fd = None)
      by (apply not_elem_of_dom; by rewrite (proj1 Hs)).
    unfold ListenerCallback, map_insert. cbn [Connection_Init]. rewrite Hn.
    eexists. split; [reflexivity|]. split; [done|]. eapply serves_insert; [done|].
    by rewrite insert_insert_eq.
  - destruct (serves_at s live fd Hs Hfd) as [p Hp]. unfold ConnectionReadCallback, getConn.
    rewrite Hp. by exists s.
  - destruct (serves_at s live fd Hs Hfd) as [p Hp]. unfold ConnectionWriteCallback, getConn.
    rewrite Hp. by exists s.
  - destruct (serves_at s live fd Hs Hfd) as [p Hp]. unfold ConnectionEventCallback, getConn, removeConn.
    rewrite Hp. cbn [of_option socketFd_]. rewrite bind_Done_l.
    destruct ended, timeout; cbn; rewrite ?Hp; cbn; eexists; (split; [reflexivity|]); (split; [done|]);
      done || by apply serves_delete.
Qed.


(** A read handler set later is for the connections accepted after it: one that
    is open keeps the handler it was accepted with. *)
Lemma open_connection_keeps_its_handler (s : NetServer) (fd : Z) (c : Connection) (set : bool) :
  ConnectionMap_ s !! fd = Some (Some c) →
  let s' := SetConnReadCallback set s in
  step s' (Readable fd) = Done (s', call (readHandle_ (conn_handlers c)) (Read (socketFd_ c))).
Proof. intros E. cbn [step]. unfold ConnectionReadCallback, getConn. cbn. by rewrite E. Qed.

(** Closing an outgoing connection leaves it in the map: the next connection
    accepted with the same descriptor is not entered and is destroyed. *)
Lemma closed_connection_blocks_its_descriptor (s : NetServer) (k : Connectioner) (fd : Z)
    (p q : option (bytes * Z)) :
  ConnectionMap_ s !! fd = None →
  let '(_, s', k') := Connectioner_Run s k fd Connected true p in
  CloseConn k' = Some fd ∧
  ListenerCallback s' fd true q = Done (s', call (on_init (handlers s)) (NewConn fd)).
Proof.
  intros Hn. unfold Connectioner_Run, ListenerCallback, map_insert. cbn. rewrite Hn.
  cbn. rewrite insert_insert_eq, lookup_insert_eq. done.
Qed.

(** A repeated timer cannot be stopped by its own callback, and a single
    timer cannot be set again by its own. After its callback a repeated timer
    is pending whatever the callback did, and one that the callback stopped is
    still pending after its destructor; a single timer is idle after its
    callback if the callback left it running or not pending, even when it reset
    the timer. *)
Theorem timers_ignore_their_callbacks (f : Timer → Timer) (t : Timer) :
  pending (RepeatedTimerCall (Some f) t) = true ∧
  (running_ (f (mkTimer (running_ t) false)) = false →
   pending (Repeated_destroy (RepeatedTimerCall (Some f) t)) = true) ∧
  running_ (SingleTimerCall (Some f) t) = false ∧
  pending (SingleTimerCall (Some Reset) t) = false ∧
  (running_ (f (mkTimer (running_ t) false)) = true →
   pending (SingleTimerCall (Some f) t) = false).
Proof.
  unfold RepeatedTimerCall, SingleTimerCall, Repeated_destroy, Single_Stop, Reset. cbn.
  split_and!; try done; by intros ->.
Qed.

Module Examples.
Definition net : NetServer :=
  (NetServer_Init true true 9090 kMaxConnectionN true true true true new_NetServer).2.
Definition events : list Event :=
  [Accept 7 None; Readable 7; Accept 8 None; Writable 7; Happened 7 true false; Accept 7 None;
   Happened 8 false true].
End Examples.
Import Examples.


Lemma timers_ignore_their_callbacks_witness :
  pending (Repeated_destroy (RepeatedTimerCall (Some Repeated_Stop) (Run (mkTimer false false)))) = true.
Proof.
  exact (proj1 (proj2 (timers_ignore_their_callbacks Repeated_Stop (Run (mkTimer false false)))) eq_refl).
Defined.

End Net.
