(* ===== verification/Service.v ===== *)
(** * The server behind its connections

    [src/server/server.cpp] on [src/net/{net_server,conn_callback,connection}]:
    the network layer of [Net] calls the handlers of [Server], which read the
    buffers of the connection they are called for and send replies to it. One
    buffer of the server serves all connections, so what a connection sees
    could depend on the others: it does not. *)
From S2P Require Import Prelude Request Crc32 KeyFormat Entry XXHash64 CityHash FarmHash Bloom Memtable KLRUCache SSTable IOUring Files MemtableView SharedMemtable FlushFormat LevelMerge Compactor ExportDB Redis Server Net.
Import Status Request Redis Server.

Module Service.
Import Net.

Section Service.
Context {B T R : Type} {EB : Evbuffer B} {FO : FileOps T}.
Context (std_hash : bytes → Z) (addr : Z → Z) (fuel : nat).

(** [bufs]: the buffers of each connection that has a bufferevent. [sent]: what
    was handed to [bufferevent_write], each with the connection's descriptor. *)
Record Service : Type := mkService {
  net : NetServer;
  server : Server T R;
  bufs : gmap Z (ConnBufs B);
  sent : list (Z * bytes)
}.

(** The constructor and [Server::Init]: whether the server has started. *)
Definition start (base listener : bool) (conf : ServerConfig) : bool * Service :=
  let '(ok, n) := NetServer_Init base listener (listen_port conf) kMaxConnectionN
                    true true true true new_NetServer in
  let '(_, ok, srv) := Init (λ _, ok) conf new_Server in
  (ok, mkService n srv ∅ []).

(** The handlers the server has given to the network layer. [seen] is the code
    that [readHD] reads from a context it has queued. *)
Definition handle (seen : StatusCode) (s : Service) (c : Call) : outcome Service :=
  match c with
  | Read fd =>
      b ← of_option Dangling (bufs s !! fd);
      '(got, b) ← moveEvReadBuffer b (zlen (bufptr_ (Server.buf_ (server s))));
      '(srv, msgs) ← readHD std_hash addr fuel (server s) got seen;
      conn ← of_option NullDeref (getConn (net s) fd).1;
      mapM (Send conn) msgs ;;
      Done (mkService (net s) srv (<[fd := b]> (bufs s)) (sent s ++ ((λ m, (fd, m)) <$> msgs)))
  | Write _ | Close _ | Timeout _ | NewConn _ => Done s
  end.

Fixpoint handle_all (seen : StatusCode) (s : Service) (cs : list Call) : outcome Service :=
  match cs with
  | [] => Done s
  | c :: cs' => s ← handle seen s c; handle_all seen s cs'
  end.

(** What libevent reports. [Arrive]: it has read [bs] from the socket. *)
Inductive Event : Type :=
  | Accept (fd : Z) (made : bool) (p : option (bytes * Z))
  | Arrive (fd : Z) (bs : bytes) (seen : StatusCode)
  | Writable (fd : Z)
  | Happened (fd : Z) (ended timeout : bool).

Definition with_bufs (s : Service) (n : NetServer) (b : gmap Z (ConnBufs B)) : Service :=
  mkService n (server s) b (sent s).

Definition fill (bs : bytes) (c : ConnBufs B) : ConnBufs B :=
  mkBufs (evbuffer_fill (input c) bs) (output c) (attached c).

Definition step (s : Service) (e : Event) : outcome Service :=
  match e with
  | Accept fd made p =>
      '(n, calls) ← ListenerCallback (net s) fd made p;
      let b := match ConnectionMap_ (net s) !! fd with
               | None => if made then <[fd := new_ConnBufs]> (bufs s) else bufs s
               | Some _ => bufs s
               end in
      handle_all kOk (with_bufs s n b) calls
  | Arrive fd bs seen =>
      '(n, calls) ← ConnectionReadCallback (net s) fd;
      handle_all seen (with_bufs s n (alter (λ c, attach (fill bs c)) fd (bufs s))) calls
  | Writable fd =>
      '(n, calls) ← ConnectionWriteCallback (net s) fd;
      handle_all kOk (with_bufs s n (alter attach fd (bufs s))) calls
  | Happened fd ended timeout =>
      '(n, calls) ← ConnectionEventCallback (net s) fd ended timeout;
      s ← handle_all kOk s calls;
      Done (with_bufs s n (if ended || timeout then delete fd (bufs s) else bufs s))
  end.

Fixpoint run (s : Service) (es : list Event) : outcome Service :=
  match es with
  | [] => Done s
  | e :: es' => s ← step s e; run s es'
  end.

(** ** What clients ask and are answered *)

Inductive Request : Type :=
  | Ping
  | Docs (full : bool)
  | Command (cmd : bytes) (args : list bytes).

Definition wire (r : Request) : bytes :=
  match r with
  | Ping => kPingStr ++ [10]
  | Docs full => if full then kCommandDocs else kCommandDocs_2
  | Command cmd args => array_of (cmd :: args)
  end.

Definition reply (r : Request) : bytes :=
  match r with
  | Ping => kPongStr
  | Docs _ => kOKStr
  | Command cmd _ => str "(error) ERR unknow command '" ++ cmd ++ str "'" ++ [10]
  end.

(** A command that fits the buffer, has no argument that ends in a marker
    character, and is not one of the two answered before parsing. *)
Definition fits (r : Request) : Prop :=
  match r with
  | Command cmd args =>
      Forall plain (cmd :: args) ∧ (length (array_of (cmd :: args)) ≤ 1024)%nat ∧
      array_of (cmd :: args) ≠ kCommandDocs ∧ array_of (cmd :: args) ≠ kCommandDocs_2 ∧
      (4 * length (cmd :: args) + 2 ≤ fuel)%nat
  | _ => True
  end.

Lemma request_answered (s : Server T R) (r : Request) (seen : StatusCode) :
  idle s → fits r →
  ∃ s', readHD std_hash addr fuel s (Some (wire r)) seen = Done (s', [reply r]) ∧
        db_ s' = db_ s ∧ idle s'.
Proof.
  intros Hs Hr. destruct r as [|full|cmd args]; cbn [wire reply].
  - by apply ping_answered.
  - apply docs_answered; [done|]. destruct full; [by left|by right].
  - destruct Hr as (H1 & H2 & H3 & H4 & H5). by apply array_answered.
Qed.

Lemma wire_fits (r : Request) : fits r → (length (wire r) ≤ 1024)%nat.
Proof.
  destruct r as [|[]|cmd args]; cbn [wire fits]; [cbn; lia..|]. by intros (_ & H & _).
Qed.

(** What a client does: open and close a connection, and ask. *)
Inductive ClientEvent : Type :=
  | Connects (fd : Z) (p : option (bytes * Z))
  | Asks (fd : Z) (r : Request) (seen : StatusCode)
  | Drains (fd : Z)
  | Ends (fd : Z) (ended timeout : bool).

Definition event_of (e : ClientEvent) : Event :=
  match e with
  | Connects fd p => Accept fd true p
  | Asks fd r seen => Arrive fd (wire r) seen
  | Drains fd => Writable fd
  | Ends fd ended timeout => Happened fd ended timeout
  end.

(** The same event as the connection map sees it. *)
Definition net_event (e : ClientEvent) : Net.Event :=
  match e with
  | Connects fd p => Net.Accept fd p
  | Asks fd _ _ => Net.Readable fd
  | Drains fd => Net.Writable fd
  | Ends fd ended timeout => Net.Happened fd ended timeout
  end.

Definition answer (e : ClientEvent) : option (Z * bytes) :=
  match e with Asks fd r _ => Some (fd, reply r) | _ => None end.

Definition asks_fit (e : ClientEvent) : Prop :=
  match e with Asks _ r _ => fits r | _ => True end.

(** ** The connections do not disturb each other *)

Context {EBL : EvbufferLaws B}.

Definition server_handlers : Handlers := mkHandlers true true true true false.

(** The open connections are those in the map; each has its buffers, whose
    input has been read; the server's buffer is at its start. *)
Record ready (s : Service) (live : gset Z) : Prop := mkReady {
  r_net : serves (net s) live;
  r_handlers : handlers (net s) = server_handlers;
  r_idle : idle (server s);
  r_bufs : ∀ fd, fd ∈ live → ∃ c, bufs s !! fd = Some c ∧ contents (input c) = []
}.

Lemma start_ready (conf : ServerConfig) :
  (start true true conf).1 = true ∧ ready (start true true conf).2 ∅ ∧
  db_ (server (start true true conf).2) = None.
Proof.
  split; [done|]. split; [|done]. split; [split; [apply dom_empty_L|apply map_Forall_empty]|done| |].
  - split; reflexivity.
  - set_solver.
Qed.

Lemma Send_all (c : Connection) (msgs : list bytes) : buf_ c = true → mapM (Send c) msgs = Done msgs.
Proof.
  intros Hc. induction msgs as [|m msgs IH]; [done|]. cbn [mapM]. rewrite IH.
  unfold Send, cassert. by rewrite Hc.
Qed.

(** An arrival is read up to the length of the buffer, behind what earlier
    arrivals have left; the rest stays with its connection for the next one,
    and the other connections keep their data. *)
Lemma arrive_law (s : Service) (live : gset Z) (fd : Z) (bs : bytes) (seen : StatusCode)
    (c : ConnBufs B) (srv : Server T R) (msgs : list bytes) :
  serves (net s) live → handlers (net s) = server_handlers → idle (server s) → fd ∈ live →
  bufs s !! fd = Some c →
  let data := contents (input c) ++ bs in
  readHD std_hash addr fuel (server s) (Some (take 1024 data)) seen = Done (srv, msgs) →
  ∃ s', step s (Arrive fd bs seen) = Done s' ∧ net s' = net s ∧ server s' = srv ∧
        sent s' = sent s ++ ((λ m, (fd, m)) <$> msgs) ∧
        (∃ c', bufs s' !! fd = Some c' ∧ contents (input c') = drop 1024 data) ∧
        ∀ fd', fd' ≠ fd → bufs s' !! fd' = bufs s !! fd'.
Proof.
  intros Hnet Hh [Hb Ho] Hfd Hc data Hrd. destruct (serves_at _ _ _ Hnet Hfd) as [p Hp]. rewrite Hh in Hp.
  destruct (moveEvReadBuffer_law (fill bs c) 1024 ltac:(lia)) as (c' & Hm & Hc').
  cbn [fill input] in Hm, Hc'. rewrite fill_law in Hm, Hc'.
  change (Z.to_nat 1024) with 1024%nat in Hm, Hc'. fold data in Hm, Hc'.
  unfold step, ConnectionReadCallback, getConn. rewrite Hp. cbn [of_option]. rewrite bind_Done_l.
  rewrite bind_Done_l. cbn [copied on_read conn_handlers readHandle_ server_handlers call handle_all handle bufs with_bufs socketFd_].
  rewrite lookup_alter_eq, Hc. cbn [fmap option_fmap option_map of_option]. rewrite bind_Done_l.
  cbn [server net with_bufs].
  replace (zlen (bufptr_ (Server.buf_ (server s)))) with 1024 by (unfold zlen; by rewrite Hb).
  rewrite Hm, bind_Done_l, Hrd, bind_Done_l. unfold getConn. cbn [net]. rewrite Hp.
  cbn [fst of_option]. rewrite bind_Done_l.
  rewrite (Send_all (mkConn _ fd true p) msgs eq_refl), bind_Done_l. eexists. split; [reflexivity|].
  repeat split; try done.
  - exists c'. cbn [bufs]. by rewrite lookup_insert_eq.
  - intros fd' Hne. cbn [bufs]. by rewrite lookup_insert_ne, lookup_alter_ne.
Qed.

Lemma ready_bufs (s : Service) (live : gset Z) (n : NetServer) (b : gmap Z (ConnBufs B)) :
  ready s live → serves n live → handlers n = handlers (net s) →
  (∀ fd, fd ∈ live → ∃ c, b !! fd = Some c ∧ contents (input c) = []) →
  ready (with_bufs s n b) live.
Proof. intros [_ Hh Hi _] Hn E Hb. split; [done|by rewrite <- Hh|done|done]. Qed.

Lemma connects_ready (s : Service) (live : gset Z) (fd : Z) (p : option (bytes * Z)) :
  ready s live → fd ∉ live →
  ∃ n b, step s (Accept fd true p) = Done (with_bufs s n b) ∧
         ready (with_bufs s n b) ({[ fd ]} ∪ live).
Proof.
  intros [Hn Hh Hi Hb] Hfd.
  destruct (step_serves (net s) live (Net.Accept fd p) Hn (conj Hfd I)) as (n & E & Eh & Hn').
  cbn [Net.step due] in E. unfold step. rewrite E, bind_Done_l, Hh. cbn [on_init server_handlers call handle_all].
  rewrite (proj1 (not_elem_of_dom (ConnectionMap_ (net s)) fd)) by (by rewrite (proj1 Hn)).
  eexists _, _. split; [reflexivity|]. split; [done|by rewrite <- Hh|done|].
  intros fd' Hfd'. cbn [bufs with_bufs]. destruct (decide (fd' = fd)) as [->|Hne].
  - rewrite lookup_insert_eq. eexists. split; [done|]. apply new_law.
  - rewrite lookup_insert_ne by done. apply Hb.
    by apply elem_of_union in Hfd' as [?%elem_of_singleton|?].
Qed.

Lemma drains_ready (s : Service) (live : gset Z) (fd : Z) :
  ready s live → fd ∈ live →
  ∃ n b, step s (Writable fd) = Done (with_bufs s n b) ∧ ready (with_bufs s n b) live.
Proof.
  intros Hs Hfd. pose proof Hs as [Hn Hh Hi Hb].
  destruct (step_serves (net s) live (Net.Writable fd) Hn (conj Hfd I)) as (n & E & Eh & Hn').
  cbn [Net.step due] in E. unfold step. rewrite E, bind_Done_l, Hh.
  cbn [on_write server_handlers call handle_all handle]. rewrite bind_Done_l.
  eexists _, _. split; [reflexivity|]. apply ready_bufs; try done.
  intros fd' Hfd'. destruct (Hb fd' Hfd') as (c & Hc & Hin). destruct (decide (fd' = fd)) as [->|Hne].
  - rewrite lookup_alter_eq, Hc. by exists (attach c).
  - rewrite lookup_alter_ne, Hc by done. by exists c.
Qed.

Lemma ends_ready (s : Service) (live : gset Z) (fd : Z) (ended timeout : bool) :
  ready s live → fd ∈ live →
  let live' := if ended || timeout then live ∖ {[ fd ]} else live in
  ∃ n b, step s (Happened fd ended timeout) = Done (with_bufs s n b) ∧
         ready (with_bufs s n b) live'.
Proof.
  intros [Hn Hh Hi Hb] Hfd live'.
  destruct (step_serves (net s) live (Net.Happened fd ended timeout) Hn (conj Hfd I)) as (n & E & Eh & Hn').
  cbn [Net.step due] in E. unfold step. rewrite E, bind_Done_l, Hh.
  cbn [on_close on_timeout server_handlers call].
  assert (Hc : ∀ cs : list Call, cs = [Close fd] ∨ cs = [Timeout fd] ∨ cs = [] →
    handle_all kOk s cs = Done s) by (intros cs [-> | [-> | ->]]; done).
  rewrite Hc by (destruct ended, timeout; auto). rewrite bind_Done_l.
  eexists _, _. split; [reflexivity|]. split; [done|by rewrite <- Hh|done|].
  intros fd' Hfd'. cbn [bufs with_bufs]. subst live'. destruct (ended || timeout); [|by apply Hb].
  apply elem_of_difference in Hfd' as [Hl Hne]. rewrite not_elem_of_singleton in Hne.
  rewrite lookup_delete_ne by done. by apply Hb.
Qed.

Lemma asks_ready (s : Service) (live : gset Z) (fd : Z) (r : Request) (seen : StatusCode) :
  ready s live → fd ∈ live → fits r →
  ∃ s', step s (Arrive fd (wire r) seen) = Done s' ∧ ready s' live ∧
        sent s' = sent s ++ [(fd, reply r)] ∧ db_ (server s') = db_ (server s).
Proof.
  intros [Hn Hh Hi Hb] Hfd Hr. destruct (Hb fd Hfd) as (c & Hc & Hin).
  destruct (request_answered (server s) r seen Hi Hr) as (srv & E & Hdb & Hi').
  pose proof (wire_fits r Hr) as Hl.
  destruct (arrive_law s live fd (wire r) seen c srv [reply r] Hn Hh Hi Hfd Hc) as (s' & Es & En & Er & Ek & Hc' & Ho);
    [by rewrite Hin, take_ge|].
  exists s'. rewrite Hin in Hc'. cbn [app] in Hc'. rewrite drop_ge in Hc' by done.
  split; [done|]. split; [|by rewrite Ek, Er, Hdb].
  split; [by rewrite En|by rewrite En|by rewrite Er|].
  intros fd' Hfd'. destruct (decide (fd' = fd)) as [->|Hne]; [done|]. rewrite Ho by done. by apply Hb.
Qed.

Lemma client_step (s : Service) (live : gset Z) (e : ClientEvent) :
  ready s live → consistent live [net_event e] → asks_fit e →
  ∃ s', step s (event_of e) = Done s' ∧ ready s' (still_live live [net_event e]) ∧
        sent s' = sent s ++ omap answer [e] ∧ db_ (server s') = db_ (server s).
Proof.
  intros Hs He Hf. destruct e as [fd p|fd r seen|fd|fd ended timeout];
    cbn [net_event consistent still_live event_of] in *; destruct He as [Hfd _].
  - destruct (connects_ready s live fd p Hs Hfd) as (n & b & E & Hr).
    eexists. split; [exact E|]. split; [done|]. cbn. by rewrite app_nil_r.
  - by apply asks_ready.
  - destruct (drains_ready s live fd Hs Hfd) as (n & b & E & Hr).
    eexists. split; [exact E|]. split; [done|]. cbn. by rewrite app_nil_r.
  - destruct (ends_ready s live fd ended timeout Hs Hfd) as (n & b & E & Hr).
    eexists. split; [exact E|]. split; [done|]. cbn. by rewrite app_nil_r.
Qed.

(** C17: every connection is answered as if it were alone. From a server that has
    started, or any state between two events, let any number of clients connect,
    send requests, each in one piece, and disconnect, in any order. A request is
    PING, COMMAND or an array of at most 1024 bytes none of whose arguments ends
    in a marker character, one of [$ * + - :] - with an asterisk there the server
    would never return ([asterisk_never_returns]). Then no event faults; each request is
    answered once, on its own connection, in the order of arrival, with a reply
    that depends on the request alone; the database is never reached; and the
    map holds exactly the connections still open. *)
Theorem each_connection_is_answered (s : Service) (live : gset Z) (es : list ClientEvent)
  (Hs : ready s live) (He : consistent live (net_event <$> es)) (Hf : Forall asks_fit es) :
  ∃ s', run s (event_of <$> es) = Done s' ∧ sent s' = sent s ++ omap answer es ∧
        db_ (server s') = db_ (server s) ∧ ready s' (still_live live (net_event <$> es)).
Proof.
  revert s live Hs He. induction Hf as [|e es Hfe _ IH]; intros s live Hs He.
  { exists s. by rewrite app_nil_r. }
  assert (He2 : consistent live [net_event e] ∧
                consistent (still_live live [net_event e]) (net_event <$> es))
    by (destruct e; cbn in *; tauto).
  destruct (client_step s live e Hs (proj1 He2) Hfe) as (s1 & E1 & Hs1 & K1 & D1).
  destruct (IH s1 _ Hs1 (proj2 He2)) as (s2 & E2 & K2 & D2 & Hs2).
  exists s2. cbn [fmap list_fmap run]. rewrite E1, bind_Done_l.
  split; [done|]. split; [|split; [by rewrite D2|destruct e; exact Hs2]].
  rewrite K2, K1, <- app_assoc. f_equal. by destruct e.
Qed.

End Service.
Arguments Service B T R : clear implicits.
Arguments ClientEvent : clear implicits.

Module Examples.
Import ListBuffer.
Definition conf : ServerConfig := mkConfig (str "/log") kInfo false (str "shaun") 1048576 9090.
Definition started : Service bytes RamFile.file IOUring.ListRing.ring :=
  (start true true conf).2.
Definition clients : list ClientEvent :=
  [Connects 7 None; Asks 7 Ping kOk; Connects 8 None; Asks 8 (Command (str "SET") [str "k"; str "v"]) kOk;
   Asks 7 (Docs true) kOk; Drains 8; Ends 7 true false; Connects 7 None; Asks 7 Ping kOk].
End Examples.
Import ListBuffer Examples.

Lemma each_connection_is_answered_witness :
  ∃ s', run (λ _, 0) (λ _, 0) 14 started (event_of <$> clients) = Done s' ∧
    sent s' = [(7, str "+PONG"); (8, str "(error) ERR unknow command 'SET'" ++ [10]);
               (7, str "+OK"); (7, str "+PONG")] ∧
    db_ (server s') = None.
Proof.
  destruct (start_ready (B := bytes) (T := RamFile.file) (R := IOUring.ListRing.ring) conf) as (_ & H & D).
  destruct (each_connection_is_answered (λ _, 0) (λ _, 0) 14 started ∅ clients H)
    as (s' & E & K & D' & _).
  - cbn. split_and!; try done; set_solver.
  - repeat constructor; cbn; try lia; discriminate.
  - exists s'. split; [exact E|]. split; [rewrite K; reflexivity|]. rewrite D'. exact D.
Defined.

End Service.
