(* ===== verification/Raft.v ===== *)
(** * The raft layer

    [src/raft/{raft_node,raft_server,raft_service,raft_peer,raft_log,raftconf}]:
    the state of a node, the service that answers requests for votes, the local
    ends of its peers, the election timer and the tally of replies. gRPC and the
    fibers are outside: the stub of a peer is a function from the arguments of a
    call to its reply, if the call succeeds, and a detached fiber is a call made
    after the function that started it has returned. What the source declares
    and never defines is a parameter: [getLastLogIndex] and [getLastLogTerm];
    [RaftNode::Init], [AppendEntries] and [InstallSnapshot] of a peer are not
    called. The storage ([storage.cpp]) has empty bodies whose signatures differ
    from their declarations. *)
From S2P Require Import Prelude Net.

Module Raft.

Definition max_election_interval_ms : Z := 1000 * 1000.
Definition node_counts : Z := 3.

Inductive RaftRoles : Type := kLeader | kFollower | kCandidates | kLearner.

#[export] Instance RaftRoles_eq_dec : EqDecision RaftRoles.
Proof. solve_decision. Defined.

Definition kRaftRolesStr (r : RaftRoles) : bytes :=
  match r with
  | kLeader => str "Leader"
  | kFollower => str "Follower"
  | kCandidates => str "Candidates"
  | kLearner => str "Learner"
  end.

Record LogEntry : Type := mkEntry { command : bytes; term : Z; index : Z }.

(** Its numbers have no initialiser. *)
Record RaftLog : Type := mkLog {
  LeaderCommitIndex_ : option Z;
  log_NextIndex_ : option Z;
  log_MatchIndex_ : option Z;
  LastAppliedIndex_ : option Z;
  logEntry_ : list LogEntry
}.

Definition new_RaftLog : RaftLog := mkLog None None None None [].

(** The default constructor initialises no number and no role. [node_time_]
    stays at zero. *)
Record RaftNode : Type := mkNode {
  node_time_ : Z;
  node_id_ : option Z;
  raft_role_ : option RaftRoles;
  node_ip_ : bytes;
  node_port_ : option Z;
  node_term_ : option Z;
  node_logvec_ : RaftLog;
  vote_for_id_ : bytes
}.

Definition new_RaftNode : RaftNode := mkNode 0 None None [] None None new_RaftLog [].

Definition be (n : RaftNode) (r : RaftRoles) : RaftNode :=
  mkNode (node_time_ n) (node_id_ n) (Some r) (node_ip_ n) (node_port_ n) (node_term_ n)
    (node_logvec_ n) (vote_for_id_ n).

Definition with_term (n : RaftNode) (t : Z) : RaftNode :=
  mkNode (node_time_ n) (node_id_ n) (raft_role_ n) (node_ip_ n) (node_port_ n) (Some t)
    (node_logvec_ n) (vote_for_id_ n).

Definition setID (n : RaftNode) (id : Z) : RaftNode :=
  mkNode (node_time_ n) (Some id) (raft_role_ n) (node_ip_ n) (node_port_ n) (node_term_ n)
    (node_logvec_ n) (vote_for_id_ n).

Definition getRoles (n : RaftNode) : outcome RaftRoles := of_option Uninit (raft_role_ n).
Definition get_NodeIp (n : RaftNode) : bytes := node_ip_ n.
Definition get_NodePort (n : RaftNode) : outcome Z := of_option Uninit (node_port_ n).
Definition getLog (n : RaftNode) : RaftLog := node_logvec_ n.
Definition getID (n : RaftNode) : outcome Z := of_option Uninit (node_id_ n).
Definition getVoteID (n : RaftNode) : bytes := vote_for_id_ n.

Definition get_RolesStr (n : RaftNode) : outcome bytes :=
  r ← of_option Uninit (raft_role_ n); Done (kRaftRolesStr r).

Definition getTerm (n : RaftNode) : outcome Z := of_option Uninit (node_term_ n).

Definition addTerm (n : RaftNode) : outcome RaftNode :=
  t ← getTerm n; Done (with_term n (u64 (t + 1))).

Definition setTerm (n : RaftNode) (term : Z) : outcome RaftNode :=
  t ← getTerm n;
  cassert (t <? term) ;;
  Done (with_term n term).

(** [RaftTime::getNow] at a time of day: a product of signed 64-bit numbers. *)
Definition getNow (sec usec : Z) : outcome Z :=
  let x := sec * 1000000 in
  let y := x * usec in
  if decide (x < 2 ^ 63 ∧ y < 2 ^ 63) then Done (u64 y) else Fault Overflow.

Definition is_timeout (n : RaftNode) (sec usec : Z) : outcome bool :=
  now_time ← getNow sec usec;
  cassert (node_time_ n <? now_time) ;;
  Done (max_election_interval_ms <? u64 (now_time - node_time_ n)).

(** ** Requests for votes *)

(** The messages of [raft.proto]; a reply starts empty. *)
Record Args : Type := mkArgs {
  args_term : Z; candidateid : Z; lastlogindex : Z; lastlogterm : Z
}.
Record Reply : Type := mkReply { reply_term : Z; votegranted : bool }.
Definition empty_reply : Reply := mkReply 0 false.

(** The service, once it has its node: a request of the node's own term falls
    off the end of the function. *)
Definition RequestVote (n : RaftNode) (arg : Args) : outcome (RaftNode * Reply) :=
  t ← getTerm n;
  if args_term arg <? t then Done (n, mkReply t false)
  else if t <? args_term arg then
    n ← setTerm (be n kFollower) (args_term arg);
    Done (n, empty_reply)
  else Fault NoReturn.

(** [RaftServiceImpl]: a pointer to the node, null until [Init]. *)
Record RaftServiceImpl : Type := mkService { node_ : option RaftNode }.
Definition new_RaftServiceImpl : RaftServiceImpl := mkService None.

Definition Service_Init (s : RaftServiceImpl) (node : option RaftNode) : outcome RaftServiceImpl :=
  cassert (bool_decide (is_Some node)) ;; Done (mkService node).

Definition Service_RequestVote (s : RaftServiceImpl) (arg : Args)
  : outcome (RaftServiceImpl * Reply) :=
  n ← of_option NullDeref (node_ s);
  '(n, r) ← RequestVote n arg;
  Done (mkService (Some n), r).

(** *** The peers *)

(** The local end of a call: the reply, if the status of the call is ok. *)
Definition Stub : Type := Args → option Reply.

Record RaftPeerNode : Type := mkPeer { server_info_ : bytes; peer_stub_ : option Stub }.

Section Peer.
(** A stub on a channel to an address; the accessors of the log. *)
Context (CreateChannel : bytes → option Stub).
Context (getLastLogIndex getLastLogTerm : RaftLog → Z).

Definition Peer_Init (p : RaftPeerNode) (peer_ip : bytes) (peer_port : Z)
  : outcome (RaftPeerNode * bool) :=
  let info := peer_ip ++ str ":" ++ dec peer_port in
  let stub := CreateChannel info in
  cassert (bool_decide (is_Some stub)) ;;
  Done (mkPeer info stub, true).

(** The promise of a reply is set when the call succeeds; nothing sets it
    otherwise. *)
Definition Peer_RequestVote (p : RaftPeerNode) (n : RaftNode) (promise : option Reply)
  : outcome (option Reply) :=
  t ← getTerm n;
  id ← getID n;
  let arg := mkArgs t id (getLastLogIndex (getLog n)) (getLastLogTerm (getLog n)) in
  stub ← of_option NullDeref (peer_stub_ p);
  match stub arg with
  | Some r => guard_fault (bool_decide (promise = None)) AssertFailed ;; Done (Some r)
  | None => Done promise
  end.

(** The fibers that call the peers, in the order of their promises, which are
    locals of the fiber that started them; [alive] is whether that one has not
    returned. *)
Fixpoint send_votes (alive : bool) (n : RaftNode) (peers : list RaftPeerNode) (i : nat)
    (promises : list (option Reply)) : outcome (list (option Reply)) :=
  match peers with
  | [] => Done promises
  | p :: peers' =>
      guard_fault alive Dangling ;;
      promise ← of_option OutOfBounds (promises !! i);
      promise ← Peer_RequestVote p n promise;
      send_votes alive n peers' (S i) (<[i := promise]> promises)
  end.
End Peer.

(** The locals of an election. *)
Record Election : Type := mkElection { vote_counts : Z; is_leader : bool }.
Definition new_Election : Election := mkElection 1 false.

(** The fiber that handles a reply refers to those locals too. *)
Definition handle_reply (alive : bool) (n : RaftNode) (e : Election) (r : Reply)
  : outcome (RaftNode * Election) :=
  guard_fault alive Dangling ;;
  t ← getTerm n;
  n ← (if t <? reply_term r then setTerm (be n kFollower) (reply_term r) else Done n);
  let votes := if votegranted r then u32 (vote_counts e + 1) else vote_counts e in
  if (node_counts / 2 <? votes) && negb (is_leader e)
  then Done (be n kLeader, mkElection votes true)
  else Done (n, mkElection votes (is_leader e)).

Fixpoint handle_replies (alive : bool) (n : RaftNode) (e : Election) (rs : list Reply)
  : outcome (RaftNode * Election) :=
  match rs with
  | [] => Done (n, e)
  | r :: rs' => '(n, e) ← handle_reply alive n e r; handle_replies alive n e rs'
  end.

(** [_RequestVoteOnTimed]: the node after the timer, and whether it has started
    the fiber of an election. *)
Definition RequestVoteOnTimed (n : RaftNode) (sec usec : Z) : outcome (RaftNode * bool) :=
  timeout ← is_timeout n sec usec;
  if negb timeout then Done (n, false)
  else n ← addTerm (be n kCandidates); Done (n, true).

(** ** The server *)

Record RaftServer : Type := mkServer {
  RequestVoteTimer_ : Net.Timer;
  AppendEntriesTimer_ : Net.Timer;
  peerNodeVec_ : list RaftPeerNode;
  raft_service_impl_ : RaftServiceImpl;
  raft_node_ : RaftNode
}.

(** [RaftServer::Init] initialises the timers, with intervals that are not
    initialised, and falls off its end: the server it leaves, and its result. *)
Definition Server_Init (s : RaftServer) : RaftServer * outcome bool :=
  (mkServer (Net.Timer_Init (RequestVoteTimer_ s)) (Net.Timer_Init (AppendEntriesTimer_ s))
     (peerNodeVec_ s) (raft_service_impl_ s) (raft_node_ s), Fault NoReturn).

(** Bodies that are empty. *)
Definition AppendEntriesOnTimed (s : RaftServer) : outcome Z := Fault NoReturn.
Definition AppendEntries (s : RaftServiceImpl) : outcome RaftServiceImpl := Fault NoReturn.
Definition InstallSnapshot (s : RaftServiceImpl) : outcome RaftServiceImpl := Fault NoReturn.

(** ** No election succeeds *)

(** The stub of a peer whose service is [s]: a call that does not return has no
    reply. *)
Definition serves (s : RaftServiceImpl) : Stub := λ arg,
  match Service_RequestVote s arg with Done (_, r) => Some r | Fault _ => None end.

(** A request for a vote raises the term of the node to that of the request
    and never grants the vote. *)
Lemma RequestVote_spec (n : RaftNode) (t : Z) (arg : Args) :
  node_term_ n = Some t →
  RequestVote n arg =
    if decide (args_term arg = t) then Fault NoReturn
    else if args_term arg <? t then Done (n, mkReply t false)
    else Done (with_term (be n kFollower) (args_term arg), empty_reply).
Proof.
  intros Ht. unfold RequestVote, setTerm, getTerm. cbn [node_term_ be]. rewrite Ht. cbn [of_option].
  rewrite !bind_Done_l. case_decide as E.
  - subst. by rewrite Z.ltb_irrefl.
  - destruct (Z.ltb_spec (args_term arg) t); [done|].
    by rewrite (proj2 (Z.ltb_lt t (args_term arg))) by lia.
Qed.

Lemma serves_ungranted (s : RaftServiceImpl) (arg : Args) (r : Reply) :
  serves s arg = Some r → votegranted r = false.
Proof.
  unfold serves, Service_RequestVote. destruct (node_ s) as [n|]; [|done]. cbn [of_option].
  rewrite bind_Done_l. destruct (node_term_ n) as [t|] eqn:Et.
  - rewrite (RequestVote_spec n t arg Et). case_decide; [done|].
    destruct (_ <? _); cbn; by intros [= <-].
  - unfold RequestVote, getTerm. by rewrite Et.
Qed.

Definition refused (promise : option Reply) : Prop :=
  match promise with Some r => votegranted r = false | None => True end.

Lemma Peer_RequestVote_refused (index term : RaftLog → Z) (n : RaftNode) (t id : Z)
    (p : RaftPeerNode) (s : RaftServiceImpl) :
  node_term_ n = Some t → node_id_ n = Some id → peer_stub_ p = Some (serves s) →
  ∃ pr, Peer_RequestVote index term p n None = Done pr ∧ refused pr.
Proof.
  intros Ht Hid Hs. unfold Peer_RequestVote, getTerm, getID. rewrite Ht, Hid, Hs.
  cbn [of_option]. rewrite !bind_Done_l. destruct (serves s _) as [r|] eqn:Er.
  - exists (Some r). split; [done|]. by apply serves_ungranted in Er.
  - by exists None.
Qed.

(** Every peer is asked, each with its own promise. *)
Lemma send_votes_refused (index term : RaftLog → Z) (n : RaftNode) (t id : Z) :
  node_term_ n = Some t → node_id_ n = Some id →
  ∀ (peers : list RaftPeerNode) (nodes : list RaftServiceImpl) (done : list (option Reply)) (k : nat),
  Forall2 (λ p s, peer_stub_ p = Some (serves s)) peers nodes →
  Forall refused done → (length peers ≤ k)%nat →
  ∃ promises, send_votes index term true n peers (length done) (done ++ replicate k None) = Done promises ∧
    Forall refused promises.
Proof.
  intros Ht Hid peers. induction peers as [|p peers IH]; intros nodes dn k HF Hd Hk.
  { eexists. split; [done|]. apply Forall_app. split; [done|]. by apply Forall_replicate. }
  inversion HF as [|? s ? nodes' Hs HF']; subst. destruct k as [|k]; cbn [length] in Hk; [lia|].
  cbn [send_votes replicate guard_fault]. rewrite bind_Done_l, list_lookup_middle by done. cbn [of_option].
  rewrite bind_Done_l.
  destruct (Peer_RequestVote_refused index term n t id p s Ht Hid Hs) as (pr & -> & Hpr).
  rewrite bind_Done_l.
  destruct (IH nodes' (dn ++ [pr]) k HF') as (ps & E & Hps); [apply Forall_app; by repeat split; auto|lia|].
  exists ps. split; [|done]. rewrite <- E, length_app, Nat.add_1_r, <- app_assoc. f_equal.
  rewrite insert_app_r_alt by lia. by rewrite Nat.sub_diag.
Qed.

Lemma handle_reply_ungranted (n : RaftNode) (t : Z) (r : Reply) :
  node_term_ n = Some t → votegranted r = false →
  ∃ n', handle_reply true n new_Election r = Done (n', new_Election) ∧
    node_term_ n' = Some (Z.max t (reply_term r)) ∧
    raft_role_ n' = if t <? reply_term r then Some kFollower else raft_role_ n.
Proof.
  intros Ht Hr. unfold handle_reply, setTerm, getTerm. cbn [node_term_ be guard_fault].
  rewrite Ht, Hr. cbn [of_option]. rewrite !bind_Done_l.
  destruct (Z.ltb_spec t (reply_term r)); cbn; eexists; (split; [reflexivity|]); cbn.
  - by rewrite Z.max_r by lia.
  - by rewrite Ht, Z.max_l by lia.
Qed.

(** Replies without a vote leave a candidate in the highest term seen. *)
Lemma handle_refusals (rs : list Reply) : ∀ (n : RaftNode) (t : Z),
  Forall (λ r, votegranted r = false) rs → node_term_ n = Some t → raft_role_ n ≠ Some kLeader →
  ∃ n', handle_replies true n new_Election rs = Done (n', new_Election) ∧
    raft_role_ n' ≠ Some kLeader ∧
    node_term_ n' = Some (foldr (λ r, Z.max (reply_term r)) t rs).
Proof.
  induction rs as [|r rs IH]; intros n t Hg Ht Hl; [by exists n|].
  apply Forall_cons in Hg as [Hr Hg].
  destruct (handle_reply_ungranted n t r Ht Hr) as (n1 & E & Ht1 & Hr1).
  destruct (IH n1 _ Hg Ht1) as (n2 & E2 & Hl2 & Ht2); [rewrite Hr1; by destruct (_ <? _)|].
  exists n2. cbn [handle_replies]. rewrite E, bind_Done_l, E2. split_and!; [done|done|].
  rewrite Ht2. f_equal. clear. cbn. induction rs as [|r' rs IH]; cbn; [lia|]. rewrite IH. lia.
Qed.

(** C38: no election succeeds. A request for a vote is refused by a node of a
    higher term, makes a node of a lower one a follower of the new term with an
    empty reply, and does not return from a node of the same term. So when a
    candidate asks up to three peers, whose stubs reach the services of any
    nodes, each call is made with the candidate's term and its own promise, and
    the replies that come, handled in any order, leave the candidate without a
    vote, in the highest term it has seen, and not leader. Run as they are, after
    the election's fiber has returned, the calls and the handling of replies
    reach for its locals. *)
Theorem no_election_succeeds (index term : RaftLog → Z) (n : RaftNode) (t id : Z)
  (peers : list RaftPeerNode) (nodes : list RaftServiceImpl)
  (Ht : node_term_ n = Some t) (Hid : node_id_ n = Some id)
  (Hc : raft_role_ n = Some kCandidates)
  (Hpeers : Forall2 (λ p s, peer_stub_ p = Some (serves s)) peers nodes)
  (Hlen : Z.of_nat (length peers) ≤ node_counts) :
  (∀ s p u arg, s ∈ nodes → node_ s = Some p → node_term_ p = Some u →
     Service_RequestVote s arg =
       if decide (args_term arg = u) then Fault NoReturn
       else if args_term arg <? u then Done (s, mkReply u false)
       else Done (mkService (Some (with_term (be p kFollower) (args_term arg))), empty_reply)) ∧
  (∀ promises, peers ≠ [] →
     send_votes index term false n peers 0 promises = Fault Dangling) ∧
  ∃ promises,
    send_votes index term true n peers 0 (replicate (Z.to_nat node_counts) None) = Done promises ∧
    ∀ rs, rs ≡ₚ omap (λ p, p) promises →
      (∃ n', handle_replies true n new_Election rs = Done (n', new_Election) ∧
         raft_role_ n' ≠ Some kLeader ∧
         node_term_ n' = Some (foldr (λ r, Z.max (reply_term r)) t rs)) ∧
      (rs ≠ [] → handle_replies false n new_Election rs = Fault Dangling).
Proof.
  split.
  { intros [o] p u arg _ Hp Hu. cbn in Hp. subst o. unfold Service_RequestVote. cbn.
    rewrite (RequestVote_spec p u arg Hu). case_decide; [done|]. by destruct (_ <? _). }
  split; [by destruct peers|].
  destruct (send_votes_refused index term n t id Ht Hid peers nodes [] 3 Hpeers)
    as (promises & E & Hr); [constructor|unfold node_counts in Hlen; lia|].
  exists promises. split; [exact E|]. intros rs Hrs. split; [|by destruct rs].
  apply handle_refusals; [|done|by rewrite Hc]. rewrite Hrs. clear - Hr.
  induction Hr as [|[r|] ps Hp _ IH]; [constructor|by constructor|exact IH].
Qed.

(** The election timer never finds that there is time left: at any time of day
    the product of seconds and microseconds overflows, is zero, which fails the
    assertion, or is far beyond the interval. *)
Theorem election_timer (n : RaftNode) (sec usec : Z) :
  node_time_ n = 0 → 2 ≤ sec → 0 ≤ usec →
  is_timeout n sec usec =
    if decide (2 ^ 63 ≤ sec * 1000000 ∨ 2 ^ 63 ≤ sec * 1000000 * usec) then Fault Overflow
    else if decide (usec = 0) then Fault AssertFailed else Done true.
Proof.
  intros Hn Hs Hu. unfold is_timeout, getNow. rewrite Hn. case_decide as H1; case_decide as H2; try lia; [|done].
  rewrite bind_Done_l. assert (0 ≤ sec * 1000000 * usec) by nia.
  rewrite Z.sub_0_r, !u64_small by (rewrite ?u64_small; lia).
  case_decide as H3; [subst; by rewrite Z.mul_0_r|].
  rewrite (proj2 (Z.ltb_lt 0 _)) by nia. cbn [cassert guard_fault]. rewrite bind_Done_l.
  f_equal. apply Z.ltb_lt. unfold max_election_interval_ms. nia.
Qed.

(** A vote that comes after a reply of a higher term makes the node leader of
    that term, which it never stood for. *)
Example late_vote_makes_a_leader :
  handle_replies true (with_term (be new_RaftNode kCandidates) 3) new_Election
    [mkReply 9 false; mkReply 0 true] =
  Done (with_term (be new_RaftNode kLeader) 9, mkElection 2 true).
Proof. reflexivity. Qed.

(** The server is left with its timers stopped, so no election is started, and
    its service without a node. *)
Lemma Server_Init_starts_nothing (s : RaftServer) (arg : Args) :
  raft_service_impl_ s = new_RaftServiceImpl →
  let s' := (Server_Init s).1 in
  Net.running_ (RequestVoteTimer_ s') = false ∧
  Net.pending (RequestVoteTimer_ s') = Net.pending (RequestVoteTimer_ s) ∧
  Service_RequestVote (raft_service_impl_ s') arg = Fault NullDeref.
Proof. intros H. cbn. by rewrite H. Qed.

Module Examples.
Definition node (r : RaftRoles) (t : Z) : RaftNode := setID (with_term (be new_RaftNode r) t) 1.
Definition candidate : RaftNode := node kCandidates 3.
Definition nodes : list RaftServiceImpl :=
  mkService <$> [Some (node kFollower 2); Some (node kFollower 5); Some (node kCandidates 3)].
Definition peers : list RaftPeerNode := (λ s, mkPeer [] (Some (serves s))) <$> nodes.
Definition promises : list (option Reply) :=
  [Some (mkReply 0 false); Some (mkReply 5 false); None].
End Examples.
Import Examples.

Lemma no_election_succeeds_witness :
  send_votes (λ _, 0) (λ _, 0) true candidate peers 0 [None; None; None] = Done promises ∧
  (∃ n', handle_replies true candidate new_Election [mkReply 5 false; mkReply 0 false]
           = Done (n', new_Election) ∧
     raft_role_ n' ≠ Some kLeader ∧ node_term_ n' = Some 5).
Proof.
  assert (H : Forall2 (λ p s, peer_stub_ p = Some (serves s)) peers nodes) by repeat constructor.
  destruct (no_election_succeeds (λ _, 0) (λ _, 0) candidate 3 1 peers nodes eq_refl eq_refl eq_refl H
    ltac:(by vm_compute)) as (_ & _ & ps & E & Hrs).
  assert (Ep : ps = promises) by (vm_compute in E; by injection E as <-). subst ps.
  split; [reflexivity|]. apply (Hrs [mkReply 5 false; mkReply 0 false]). apply Permutation_swap.
Defined.

End Raft.
